(* ===== verification/_CoqProject ===== *)
-Q . S2P
Prelude.v
GoLib.v
Heap.v
NutanixTypes.v
ApiTypes.v
DeepCopy.v
Tabwriter.v
HttpTypes.v
HttpServer.v
JsonText.v
Codec.v
NutanixCodec.v
Env.v
Client.v
ClientOps.v
ClientProperties.v
ClientTheorems.v
MockServer.v
MockClient.v
Sanitize.v
Disks.v
Builder.v
Transfer.v
Validation.v
Pipeline.v
Samples.v
Hooks.v
ColdPhases.v
WarmPhases.v
Resources.v
PhaseProperties.v
Migration.v
Lifecycle.v
Footprint.v
Reconciler.v
Observability.v
WarmProperties.v
Termination.v
PlanController.v
ProviderController.v
Permissions.v
Composition.v
Operator.v
MockComposition.v
Plugin.v
