(* ===== verification/Prelude.v ===== *)
(** * Verification of nutanix-vma

    nutanix-vma is a Kubernetes operator, written in Go, that migrates virtual machines from
    Nutanix AHV (reached through Prism Central) to KubeVirt. This library models its logic
    and proves what makes it correct.

    ** The program and this library

    Three reconcilers under src/internal/controller drive everything; they call the packages
    builder, transfer and validation, the Nutanix client (src/internal/nutanix) and the
    Kubernetes API server.

    - NutanixProvider: connection and inventory (provider_controller.go) - ProviderController.v.
    - MigrationPlan: validation of the VMs of a plan (plan_controller.go) - PlanController.v -
      with the rules of internal/validation/validator.go - Validation.v.
    - Migration: the phase pipeline (migration_controller.go, hook_runner.go). The phase orders,
      the data handlers exchange and the table of successors that the life cycle promises are in Pipeline.v; the hook jobs in
      Hooks.v; the handlers of cold and warm phases in ColdPhases.v and WarmPhases.v; the loop
      that advances one VM, the scheduler, cancellation, the overall status and Reconcile in
      Migration.v. Disk helpers of the same Go file are in Disks.v.
    - internal/builder: names (sanitize.go) - Sanitize.v; the KubeVirt VM (vm.go) - Builder.v.
    - internal/transfer: DataVolumes, credentials, the delta pod and the shell script it runs
      (datavolume.go, manager.go, delta.go) - Transfer.v.
    - api/v1alpha1 and internal/nutanix/types.go: the records of ApiTypes.v and NutanixTypes.v,
      with the source's fields; objects of other APIs have the fields the source uses.
    - internal/nutanix, the HTTP client behind NutanixClient: configuration, requests with
      retries and the decoding of responses (client.go, auth.go) - Client.v; the operations,
      with paging, task polling and the token cache (vm.go, image.go, snapshot.go, tasks.go,
      cbt.go, network.go, storage.go, cluster.go) - ClientOps.v. HttpTypes.v has what it uses of
      net/http; JsonText.v the JSON grammar as encoding/json reads and writes it; Codec.v how
      that fills and prints structs by their tags; NutanixCodec.v the codec of each type.
    - cmd/kubectl-vma, the kubectl plugin: the commands inventory, plan, migrate, status and
      cancel with the text they print - Plugin.v, over text/tabwriter and RFC 3339 times in
      Tabwriter.v.
    - Composition.v: the environment of the controllers in which the calls of NutanixClient are
      served by the client of ClientOps.v over HTTP.
    - pkg/mock and cmd/mock-nutanix, the mock Prism server: its store, routes, handlers, tasks and
      fixtures - MockServer.v (Module Mock), over the server side of net/http in HttpServer.v.
      MockClient.v runs each operation of the client against it; MockComposition.v runs the
      migration over both.
    - api/v1alpha1/zz_generated.deepcopy.go: every deep copy - DeepCopy.v, over the heap of
      pointers, slices and maps of Heap.v.
    - internal/observability/metrics.go: the collectors and what the updates of the controllers add
      up to - Observability.v.
    - config/rbac/role.yaml and the kubebuilder markers of the three controllers - Permissions.v.
    - cmd/main.go: flags, server options, the registration of the controllers and the steps of
      main - Operator.v.

    This file holds notations, tactics, Go's errors and general lemmas; GoLib.v what the source
    uses of the language and its standard library: 64-bit integers with wrap-around, slices with
    panics, strings, strconv and fmt conversions, time.ParseDuration with the float64 arithmetic
    of Duration.Seconds, Duration.String, UTF-8, JSON string encoding. Samples.v has concrete data
    for runs.

    ** Effects

    Env.v models the outside as a signature of calls (Prism, the API server, the clock, events
    and metrics, and below Prism's interface the HTTP round trips, pauses and timers) and an
    environment that may answer anything and change in any way at each call; a Go function is a
    program in the monad M, which gives the trace of its calls with their answers, the new world,
    and a result, a panic or exhausted fuel. A theorem over every Env
    holds whatever Prism, the API server and other actors do. [spec], [total] and [partial]
    are its program logic. The status a handler mutates through a pointer is passed and
    returned. Library functions of the API machinery (SetStatusCondition, the finalizer
    helpers) and the iteration order of Go maps are class parameters with their documented
    laws. The client's [Platform] class has what it only passes on: whether a PEM text parses,
    the texts of decoding errors, and an out-of-range float conversion. A request body is a
    reader shared by all attempts, so a reply says how much of it was read. The token cache of
    a client is passed and returned.

    ** What the theorems show

    - Resources.v: the interface [PhaseHandler] of a phase handler to the loop that runs it, and
      that every handler implements it; exact behaviour of the loops over disks.
    - PhaseProperties.v: exporting resumes where it stopped; importing completes only when every
      DataVolume it recorded succeeded, each made for its image; the cleanup after a failure asks
      for what is recorded, no more, no less, and for no secret.
    - Lifecycle.v: [advanceSingleVM] refines the life cycle, in which a phase is left only when its
      handler reported completion; it terminates for cold plans, and over a VM's whole history,
      of reconciles whose status was stored or not, requests the deletion of every image and
      recovery point it created and recorded, and of no other. What a reconcile created whose status
      could not be stored is never deleted; and advancing spins when the plan's type is changed
      under it. The history keeps one plan type.
    - Footprint.v, Reconciler.v: what advancing may write; MaxInFlight; exact cancellation and
      overall status; what one reconcile does to the Migration it read: the status it sends, whether
      that is stored, and the requeue; the states it cannot leave.
    - WarmProperties.v: Precopy ends at the cutover; the changed-region query is complete; a round
      in progress at the cutover is reused; an added disk panics.
    - Termination.v: when every VM is in a phase of the plan's order, a reconcile of a cold plan
      returns, one of a warm plan ends when Prism's paging moves forward, and the statuses sent
      keep the VMs in the order.
    - JsonText.v, Codec.v, NutanixCodec.v: parsing inverts printing and has fuel enough; whatever is
      parsed is well formed; the class [CodecLaw] of a codec, proved for every type: decoding
      inverts encoding, and what is decoded is of its Go type.
    - ClientProperties.v, ClientTheorems.v: what a request may send, how often, and what it
      returns; listings are complete and end when the server honours paging, and never end when
      it sends short pages; task polling ends and is sound; a created identifier comes from the
      task of the very request, whose body holds the arguments; which token a query sends, and that
      a refreshed token serves one page only.
    - MockServer.v: on which requests the mock panics, and on no others. MockClient.v,
      MockComposition.v: requests keep the store well formed; the client over the mock
      refines an abstract inventory, all nineteen methods, errors included; so a migration run over
      HTTP, with other actors in between, leaves no image or recovery point behind but those of
      reconciles whose status was not stored; and the changed regions of a disk arrive whole.
    - DeepCopy.v: a deep copy stands for the same value and shares no memory with the original,
      by the class [Copies] that each copy function of Heap.v and DeepCopy.v satisfies.
    - Permissions.v: the role is what the markers say, and which calls of the reconcilers, as the
      manager's cached client sends them, it does not allow: the reads of eight kinds; a plan with a
      Multus network never validates. Observability.v: the gauge of active migrations follows the
      phases sent, with two exceptions. Operator.v: the manager is started
      only when all controllers are registered.
    - Composition.v: a provider's stored VM count is the number of VMs that Prism serves over
      HTTP. Plugin.v: what the commands write and print; the inventory table is aligned
      (Tabwriter.v) and counts the disks that the controller would migrate.
    - Hooks.v: when a hook phase completes, and how often a hook runs.
    - Validation.v, PlanController.v, ProviderController.v, Sanitize.v, Disks.v,
      Builder.v, Transfer.v: their own properties, each stated at its end.

    ** Bounds

    Four loops of the source have no bound of their own. Advancing one VM takes fuel: 14 units
    suffice for the phases of either order (Lifecycle.cold_advance_terminates,
    Termination.reconcile_never_spins), and no amount does for a phase outside the plan's order
    (Lifecycle.plan_type_change_diverges). A changed-region query takes
    fuel: one unit per byte and one more suffice when the server's pages move forward
    (WarmProperties.cbt_query_complete). A listing takes fuel: one unit per 500 entities and one
    more suffice when the server honours paging (ClientTheorems.list_vms_complete), and no amount
    does when it sends short pages (ClientTheorems.short_pages_spin). Polling a task takes fuel:
    902 units suffice for its 30 minutes when timers do not fire early
    (ClientTheorems.poll_task_correct); against the mock, whose tasks are done at the second look,
    2 units do, listings need fewer than 500 entities per unit, and a changed-region query one unit
    per page of 3 regions (MockComposition.sound, MockComposition.disk_regions_arrive). Name collisions are resolved within one try per existing
    name and one more (Sanitize.sanitize_correct). The JSON parser's fuel, twice the length of its
    input and one, is enough for every input (JsonText.parse_fuel). All other loops recurse on
    their list.

    ** Not modelled

    Log output and the phase durations that are only logged. The libraries behind the program: the
    controller-runtime manager with its queues and caches, cobra, the loading of a kubeconfig,
    Prometheus' exposition, TLS and the listening on ports. Concurrency: the locks of the client's
    token cache and of the mock's store are taken as held for each operation, and the reconciles of
    one controller run one after the other. DeepCopyInto of the metadata types of the API machinery
    is a class parameter (DeepCopy.MetaCopies), since it is not part of this repository; a
    metav1.Time is opaque there. The delta pod's shell script is a text; how its loop reads the regions
    is translated by hand (Transfer.scriptReads). The files
    under config/ other than the role, and the test code. *)

From Stdlib Require Export ZArith Lia Ascii.
From stdpp Require Export base list strings gmap.

#[global] Set Default Goal Selector "!".
#[global] Open Scope Z_scope.

(** ** Notations *)

Declare Scope go_scope.
Delimit Scope go_scope with go.

(** Go's [==] on strings, as a boolean test. *)
Notation "a =s b" := (String.eqb a b) (at level 70, no associativity) : go_scope.
(** Go's [!=] on strings. *)
Notation "a <>s b" := (negb (String.eqb a b)) (at level 70, no associativity) : go_scope.
(** Go's [+] on strings. *)
Notation "a +s+ b" := (String.append a b) (at level 60, right associativity) : go_scope.

#[global] Open Scope go_scope.

(** ** Go errors

    An [error] value carries what the sources ask of it: the class that
    [apierrors.IsNotFound] and [apierrors.IsAlreadyExists] test, which survives
    wrapping with [%w], and its text. *)

Inductive errClass :=
| ClassNotFound
| ClassAlreadyExists
| ClassOther.

Record error := mkError { errClassOf : errClass; errText : string }.

#[global] Instance errClass_eq_dec : EqDecision errClass.
Proof. solve_decision. Defined.
#[global] Instance error_eq_dec : EqDecision error.
Proof. solve_decision. Defined.

(** [fmt.Errorf("p: %w", err)]: the text is prefixed, the class is kept. *)
Definition wrapErr (p : string) (e : error) : error :=
  mkError (errClassOf e) (p +s+ ": " +s+ errText e).

(** [fmt.Errorf("text")] with no wrapped error. *)
Definition newErr (s : string) : error := mkError ClassOther s.

Definition IsNotFound (e : error) : bool :=
  match errClassOf e with ClassNotFound => true | _ => false end.

Definition IsAlreadyExists (e : error) : bool :=
  match errClassOf e with ClassAlreadyExists => true | _ => false end.

(** A Go [(T, error)] return: a value or an error. *)
Inductive result (A : Type) :=
| Ok (a : A)
| Err (e : error).
Arguments Ok {A} a.
Arguments Err {A} e.

Definition is_ok {A} (r : result A) : bool :=
  match r with Ok _ => true | Err _ => false end.

(** ** Tactics *)

Create HintDb vma.

(** Turn boolean tests of the code into propositions. *)
Ltac breflect :=
  repeat match goal with
  | H : String.eqb _ _ = true |- _ => apply String.eqb_eq in H
  | H : String.eqb _ _ = false |- _ => apply String.eqb_neq in H
  | H : negb _ = true |- _ => apply negb_true_iff in H
  | H : negb _ = false |- _ => apply negb_false_iff in H
  | H : (_ && _)%bool = true |- _ => apply andb_true_iff in H; destruct H
  | H : (_ || _)%bool = false |- _ => apply orb_false_iff in H; destruct H
  | H : Z.leb _ _ = true |- _ => apply Z.leb_le in H
  | H : Z.leb _ _ = false |- _ => apply Z.leb_gt in H
  | H : Z.ltb _ _ = true |- _ => apply Z.ltb_lt in H
  | H : Z.ltb _ _ = false |- _ => apply Z.ltb_ge in H
  | H : Z.eqb _ _ = true |- _ => apply Z.eqb_eq in H
  | H : Z.eqb _ _ = false |- _ => apply Z.eqb_neq in H
  | H : Nat.leb _ _ = true |- _ => apply Nat.leb_le in H
  | H : Nat.leb _ _ = false |- _ => apply Nat.leb_gt in H
  | H : Nat.ltb _ _ = true |- _ => apply Nat.ltb_lt in H
  | H : Nat.ltb _ _ = false |- _ => apply Nat.ltb_ge in H
  end.

(** ** Strings *)

Lemma eqb_refl_string (s : string) : (s =s s) = true.
Proof. apply String.eqb_refl. Qed.

Lemma append_assoc (a b c : string) : (a +s+ b) +s+ c = a +s+ (b +s+ c).
Proof. induction a as [|x a IH]; [done | exact (f_equal (String x) IH)]. Qed.

Lemma append_inj_l (a b c : string) : a +s+ b = a +s+ c → b = c.
Proof. induction a as [|x a IH]; [done | intros H; injection H; auto]. Qed.

Lemma chars_append (a b : string) :
  String.list_ascii_of_string (a +s+ b) =
  String.list_ascii_of_string a ++ String.list_ascii_of_string b.
Proof. induction a as [|x a IH]; [done | exact (f_equal (cons x) IH)]. Qed.

Lemma chars_inj (a b : string) :
  String.list_ascii_of_string a = String.list_ascii_of_string b → a = b.
Proof.
  intros H. rewrite <- (String.string_of_list_ascii_of_string a), H.
  apply String.string_of_list_ascii_of_string.
Qed.

(** ** Lists *)

(** Membership in the image of a partial projection. *)
Lemma elem_of_omap_app {A B} (f : A → option B) (l k : list A) :
  omap f (l ++ k) = omap f l ++ omap f k.
Proof. induction l as [|x l IH]; csimpl; [done | destruct (f x); simpl; by rewrite IH]. Qed.

(** Number of elements satisfying a boolean test. *)
Definition countb {A} (p : A → bool) (l : list A) : nat :=
  length (List.filter p l).

Lemma countb_cons {A} (p : A → bool) x l :
  countb p (x :: l) = ((if p x then 1 else 0) + countb p l)%nat.
Proof. unfold countb; simpl. by destruct (p x). Qed.

Lemma countb_app {A} (p : A → bool) l k :
  countb p (l ++ k) = (countb p l + countb p k)%nat.
Proof. unfold countb. by rewrite List.filter_app, length_app. Qed.

Lemma countb_le {A} (p : A → bool) l : (countb p l ≤ length l)%nat.
Proof. unfold countb. induction l as [|x l IH]; simpl; [lia | destruct (p x); simpl; lia]. Qed.

Lemma countb_full {A} (p : A → bool) l :
  countb p l = length l ↔ Forall (λ x, p x = true) l.
Proof.
  induction l as [|x l IH]; [by split|].
  rewrite countb_cons, Forall_cons, <- IH. pose proof (countb_le p l).
  destruct (p x); simpl; intuition (lia || congruence).
Qed.

(** Splitting at a separator the left parts do not contain. *)
Lemma app_sep_inj {A} (c : A) (l l' k k' : list A) :
  c ∉ l → c ∉ l' → l ++ c :: k = l' ++ c :: k' → l = l' ∧ k = k'.
Proof.
  revert l'. induction l as [|x l IH]; intros [|y l'] Hl Hl' H; simpl in *; simplify_eq; try set_solver.
  destruct (IH l') as [-> ->]; set_solver.
Qed.

(** A property of every element of a non-empty list. *)
Lemma elem_of_cons_forall {A} (P : A → Prop) x l : (∀ y, y ∈ x :: l → P y) ↔ P x ∧ ∀ y, y ∈ l → P y.
Proof. set_solver. Qed.
