(* ===== verification/GoLib.v ===== *)
(** * The parts of Go's language and standard library the sources use

    Machine integers at their width, [fmt]'s decimal verbs, the [strings]
    functions, slice indexing, [time.ParseDuration], [Duration.Seconds],
    UTF-8, [encoding/json]'s string encoding and [fmt.Sscanf] with the %d verb. Strings
    are byte strings; where Go works on runes (case mapping) the bytes of the
    non-ASCII runes that map to ASCII are treated explicitly. *)

From S2P Require Import Prelude.
From Stdlib Require Import DecimalString DecimalFacts DecimalZ DecimalPos.
From Stdlib Require Import SpecFloat.
Import ListNotations.

(** ** Machine integers *)

Module Int.

(** Conversion to a signed 64-bit integer: Go's [int64] (and [int]) arithmetic
    wraps around in two's complement. *)
Definition int64 (x : Z) : Z := (x + 2 ^ 63) mod 2 ^ 64 - 2 ^ 63.

(** Conversion to [uint32]. *)
Definition uint32 (x : Z) : Z := x mod 2 ^ 32.

Definition in_int64 (x : Z) : Prop := - 2 ^ 63 ≤ x < 2 ^ 63.

Lemma int64_id x : in_int64 x → int64 x = x.
Proof. unfold in_int64, int64. intros H. rewrite Z.mod_small; lia. Qed.

Lemma int64_wraps x : 2 ^ 63 ≤ x < 2 ^ 64 → int64 x = x - 2 ^ 64.
Proof. unfold int64. intros H. rewrite <- (Z.mod_unique (x + 2 ^ 63) (2 ^ 64) 1 (x - 2 ^ 63)); lia. Qed.

Lemma int64_range x : in_int64 (int64 x).
Proof.
  unfold in_int64, int64.
  pose proof (Z.mod_pos_bound (x + 2 ^ 63) (2 ^ 64) ltac:(lia)). lia.
Qed.

Lemma int64_add_l x y : int64 (int64 x + y) = int64 (x + y).
Proof.
  unfold int64. f_equal.
  replace ((x + 2 ^ 63) mod 2 ^ 64 - 2 ^ 63 + y + 2 ^ 63)
    with ((x + 2 ^ 63) mod 2 ^ 64 + y) by lia.
  rewrite Zplus_mod_idemp_l. f_equal. lia.
Qed.

End Int.
Export Int.

(** ** Slices *)

(** [l[i]]: [None] is the run-time panic for an index out of range. *)
Definition index {A} (l : list A) (i : Z) : option A :=
  if i <? 0 then None else l !! Z.to_nat i.

(** [len(l)] *)
Definition len {A} (l : list A) : Z := Z.of_nat (length l).

(** ** Bytes and strings *)

Definition chars : string → list ascii := String.list_ascii_of_string.
Definition text : list ascii → string := String.string_of_list_ascii.

Lemma chars_text l : chars (text l) = l.
Proof. apply String.list_ascii_of_string_of_list_ascii. Qed.
Lemma text_chars s : text (chars s) = s.
Proof. apply String.string_of_list_ascii_of_string. Qed.
Lemma text_app l k : text (l ++ k) = text l +s+ text k.
Proof. apply chars_inj. rewrite chars_append. unfold text. by rewrite !String.list_ascii_of_string_of_list_ascii. Qed.
Lemma chars_app (a b : string) : chars (a +s+ b) = chars a ++ chars b.
Proof. apply chars_append. Qed.
#[export] Hint Rewrite chars_text text_chars chars_app : vma.

Definition code (c : ascii) : Z := Z.of_N (N_of_ascii c).

Definition is_digit (c : ascii) : bool := (48 <=? code c) && (code c <=? 57).
Definition is_lower (c : ascii) : bool := (97 <=? code c) && (code c <=? 122).
Definition is_upper (c : ascii) : bool := (65 <=? code c) && (code c <=? 90).

Definition lower_byte (c : ascii) : ascii :=
  if is_upper c then ascii_of_N (Z.to_N (code c + 32)) else c.
Definition upper_byte (c : ascii) : ascii :=
  if is_lower c then ascii_of_N (Z.to_N (code c - 32)) else c.

(** [strings.ToLower]. Two non-ASCII runes map to ASCII letters: U+0130 to [i]
    and U+212A to [k]. Every other non-ASCII rune stays non-ASCII, and the model
    keeps its bytes. *)
Fixpoint toLowerL (l : list ascii) : list ascii :=
  match l with
  | "196"%char :: (("176"%char :: r)) => "i"%char :: toLowerL r
  | "226"%char :: (("132"%char :: (("170"%char :: r)))) => "k"%char :: toLowerL r
  | c :: r => lower_byte c :: toLowerL r
  | [] => []
  end.

(** [strings.ToUpper]. U+0131 maps to [I] and U+017F to [S]. *)
Fixpoint toUpperL (l : list ascii) : list ascii :=
  match l with
  | "196"%char :: (("177"%char :: r)) => "I"%char :: toUpperL r
  | "197"%char :: (("191"%char :: r)) => "S"%char :: toUpperL r
  | c :: r => upper_byte c :: toUpperL r
  | [] => []
  end.

Definition ToLower (s : string) : string := text (toLowerL (chars s)).
Definition ToUpper (s : string) : string := text (toUpperL (chars s)).

(** [strings.TrimLeft], [TrimRight] and [Trim] with a one-character cutset. *)
Fixpoint trimLeftL (c : ascii) (l : list ascii) : list ascii :=
  match l with
  | x :: r => if Ascii.eqb x c then trimLeftL c r else l
  | [] => []
  end.
Definition trimRightL (c : ascii) (l : list ascii) : list ascii :=
  reverse (trimLeftL c (reverse l)).
Definition trimL (c : ascii) (l : list ascii) : list ascii :=
  trimRightL c (trimLeftL c l).

Definition TrimRight (s : string) (c : ascii) : string := text (trimRightL c (chars s)).

(** [s[:n]] for [n] at most the length. *)
Definition prefixS (n : nat) (s : string) : string := text (take n (chars s)).

(** [strings.Join] *)
Fixpoint Join (l : list string) (sep : string) : string :=
  match l with
  | [] => ""
  | [s] => s
  | s :: r => s +s+ sep +s+ Join r sep
  end.

(** ** Decimal numbers *)

(** [fmt.Sprintf("%d", z)] *)
Definition itoa (z : Z) : string := NilZero.string_of_int (Z.to_int z).

(** The integer a decimal string with an optional sign denotes. *)
Definition atoi (s : string) : option Z := option_map Z.of_int (NilZero.int_of_string s).

Lemma norm_to_int z : Z.to_int z ≠ Decimal.Pos Decimal.Nil ∧ Z.to_int z ≠ Decimal.Neg Decimal.Nil.
Proof.
  destruct z as [|p|p]; simpl; split; try done;
    intros [= H]; exact (DecimalPos.Unsigned.to_uint_nonnil p H).
Qed.

Lemma atoi_itoa z : atoi (itoa z) = Some z.
Proof.
  destruct (norm_to_int z) as [H1 H2]. unfold atoi, itoa.
  rewrite NilZero.isi by done. simpl. by rewrite DecimalZ.of_to.
Qed.

Lemma itoa_inj a b : itoa a = itoa b → a = b.
Proof. intros H. apply (f_equal atoi) in H. rewrite !atoi_itoa in H. congruence. Qed.

(** The digits of an unsigned decimal are digit characters. *)
Lemma digits_of_uint d : Forall (λ c, is_digit c = true) (chars (NilEmpty.string_of_uint d)).
Proof. induction d; simpl; constructor; done. Qed.

Lemma uint_digits d : Forall (λ c, is_digit c = true) (chars (NilZero.string_of_uint d)).
Proof. destruct d; try apply digits_of_uint. repeat constructor. Qed.

Lemma itoa_digits z : 0 ≤ z → Forall (λ c, is_digit c = true) (chars (itoa z)).
Proof. intros H. unfold itoa. destruct z as [|p|p]; [repeat constructor|apply uint_digits|lia]. Qed.

Lemma itoa_nonempty z : chars (itoa z) ≠ [].
Proof.
  unfold itoa. destruct z as [|p|p]; try done. simpl.
  pose proof (DecimalPos.Unsigned.to_uint_nonnil p). by destruct (Pos.to_uint p).
Qed.

(** ** Binary64 arithmetic, as far as [time] needs it *)

Module Float.

Definition prec := 53.
Definition emax := 1024.

(** [float64(n)] for an integer, rounded to nearest even. *)
Definition of_Z (n : Z) : spec_float := binary_normalize prec emax n 0 false.
Definition mul := SFmul prec emax.
Definition div := SFdiv prec emax.
Definition add := SFadd prec emax.

(** Conversion of a finite value to an integer, rounding toward zero. *)
Definition trunc (f : spec_float) : Z :=
  match f with
  | S754_finite s m e =>
      let a := if 0 <=? e then Z.pos m * 2 ^ e else Z.pos m / 2 ^ (- e) in
      if s then - a else a
  | _ => 0
  end.

End Float.

(** ** [time.Duration] *)

Module Duration.

Definition Nanosecond := 1.
Definition Microsecond := 1000.
Definition Millisecond := 1000000.
Definition Second := 1000000000.
Definition Minute := 60 * Second.
Definition Hour := 60 * Minute.

Definition unitMap (u : string) : option Z :=
  if u =s "ns" then Some Nanosecond
  else if u =s "us" then Some Microsecond
  else if u =s text ["194"%char; "181"%char; "s"%char] then Some Microsecond
  else if u =s text ["206"%char; "188"%char; "s"%char] then Some Microsecond
  else if u =s "ms" then Some Millisecond
  else if u =s "s" then Some Second
  else if u =s "m" then Some Minute
  else if u =s "h" then Some Hour
  else None.

Definition digit (c : ascii) : Z := code c - 48.

(** The leading decimal digits; [None] on overflow of 2^63. *)
Fixpoint leadingInt (x : Z) (l : list ascii) : option (Z * list ascii) :=
  match l with
  | c :: r =>
      if is_digit c then
        if 2 ^ 63 / 10 <? x then None
        else let x' := x * 10 + digit c in
             if 2 ^ 63 <? x' then None else leadingInt x' r
      else Some (x, l)
  | [] => Some (x, l)
  end.

(** The leading digits of a fraction and their power of ten; digits that do not
    fit are dropped. *)
Fixpoint leadingFraction (x : Z) (scale : spec_float) (overflow : bool) (l : list ascii)
  : Z * spec_float * list ascii :=
  match l with
  | c :: r =>
      if is_digit c then
        if overflow then leadingFraction x scale true r
        else if (2 ^ 63 - 1) / 10 <? x then leadingFraction x scale true r
        else let y := x * 10 + digit c in
             if 2 ^ 63 <? y then leadingFraction x scale true r
             else leadingFraction y (Float.mul scale (Float.of_Z 10)) false r
      else (x, scale, l)
  | [] => (x, scale, l)
  end.

(** The unit: everything up to the next digit or period. *)
Fixpoint takeUnit (l : list ascii) : list ascii * list ascii :=
  match l with
  | c :: r =>
      if Ascii.eqb c "." || is_digit c then ([], l)
      else let '(u, rest) := takeUnit r in (c :: u, rest)
  | [] => ([], [])
  end.

(** One [number unit] item of a duration: its nanoseconds and the rest. *)
Definition parseItem (l : list ascii) : option (Z * list ascii) :=
  match l with
  | [] => None
  | c :: _ =>
      if negb (Ascii.eqb c "." || is_digit c) then None
      else match leadingInt 0 l with
      | None => None
      | Some (v, l1) =>
          let pre := negb (Nat.eqb (length l1) (length l)) in
          let '(f, scale, l2, post) :=
            match l1 with
            | "."%char :: r =>
                let '(f, scale, r') := leadingFraction 0 (Float.of_Z 1) false r in
                (f, scale, r', negb (Nat.eqb (length r') (length r)))
            | _ => (0, Float.of_Z 1, l1, false)
            end in
          if negb pre && negb post then None
          else let '(u, rest) := takeUnit l2 in
          match u with
          | [] => None
          | _ =>
            match unitMap (text u) with
            | None => None
            | Some unit =>
                if 2 ^ 63 / unit <? v then None
                else
                  let v1 := v * unit in
                  if 0 <? f then
                    let v2 := v1 + Float.trunc (Float.mul (Float.of_Z f) (Float.div (Float.of_Z unit) scale)) in
                    if 2 ^ 63 <? v2 then None else Some (v2, rest)
                  else Some (v1, rest)
            end
          end
      end
  end.

(** The item loop; [fuel] at least the length suffices, every item being nonempty. *)
Fixpoint parseItems (fuel : nat) (d : Z) (l : list ascii) : option Z :=
  match l, fuel with
  | [], _ => Some d
  | _, O => None
  | _, S fuel =>
      match parseItem l with
      | None => None
      | Some (v, rest) => if 2 ^ 63 <? d + v then None else parseItems fuel (d + v) rest
      end
  end.

(** [time.ParseDuration]: nanoseconds, [None] for an error. *)
Definition ParseDuration (s : string) : option Z :=
  let l := chars s in
  let '(neg, l) :=
    match l with
    | "-"%char :: r => (true, r)
    | "+"%char :: r => (false, r)
    | _ => (false, l)
    end in
  match l with
  | [] => None
  | ["0"%char] => Some 0
  | _ =>
      match parseItems (length l) 0 l with
      | None => None
      | Some d => if neg then Some (int64 (- d)) else if 2 ^ 63 - 1 <? d then None else Some d
      end
  end.

(** [int64(d.Seconds())]: the seconds of a duration go through [float64]. *)
Definition secondsInt64 (d : Z) : Z :=
  let sec := Z.quot d Second in
  let nsec := Z.rem d Second in
  Float.trunc (Float.add (Float.of_Z sec) (Float.div (Float.of_Z nsec) (Float.of_Z Second))).

(** [fmtFrac]: the fraction [v / 10^prec], without trailing zeros. *)
Fixpoint fracDigits (prec : nat) (v : Z) (acc : list ascii) (print : bool) : list ascii * Z :=
  match prec with
  | O => ((if print then "."%char :: acc else acc), v)
  | S prec =>
      let d := v mod 10 in
      let print := print || negb (d =? 0) in
      fracDigits prec (v / 10) (if print then ascii_of_N (Z.to_N (48 + d)) :: acc else acc) print
  end.

(** A number with a fraction of [prec] digits, and its unit. *)
Definition withUnit (u : Z) (prec : nat) (unit : string) : string :=
  let '(frac, v) := fracDigits prec u [] false in itoa v +s+ text frac +s+ unit.

(** [Duration.String] *)
Definition String (d : Z) : string :=
  let u := Z.abs d in
  let body :=
    if u =? 0 then "0s"
    else if u <? Microsecond then withUnit u 0 "ns"
    else if u <? Millisecond then withUnit u 3 (text ["194"%char; "181"%char; "s"%char])
    else if u <? Second then withUnit u 6 "ms"
    else
      let secs := u / Second in
      let s := withUnit (u - 60 * Second * (secs / 60)) 9 "s" in
      let mins := secs / 60 in
      if mins =? 0 then s
      else if mins / 60 =? 0 then itoa mins +s+ "m" +s+ s
      else itoa (mins / 60) +s+ "h" +s+ itoa (mins mod 60) +s+ "m" +s+ s in
  if d <? 0 then "-" +s+ body else body.

Example string_30m : String (30 * Minute) = "30m0s".
Proof. vm_compute. reflexivity. Qed.
Example string_mixed : String (- (Hour + 90 * Second + 50 * Millisecond)) = "-1h1m30.05s" ∧ String (1500 * Microsecond) = "1.5ms".
Proof. vm_compute. split; reflexivity. Qed.

Example parse_30m : ParseDuration "30m" = Some (30 * Minute).
Proof. vm_compute. reflexivity. Qed.
Example parse_mixed : ParseDuration "-1h1.5m" = Some (- (Hour + 90 * Second)).
Proof. vm_compute. reflexivity. Qed.
Example parse_no_unit : ParseDuration "10" = None.
Proof. vm_compute. reflexivity. Qed.
Example seconds_trunc : secondsInt64 (5 * Minute + 999 * Millisecond) = 300.
Proof. vm_compute. reflexivity. Qed.

End Duration.

(** ** [fmt.Sscanf(s, "%d", &n)] *)

Module Scan.

Fixpoint skipBlanks (l : list ascii) : list ascii :=
  match l with
  | c :: r => if Ascii.eqb c " " || Ascii.eqb c "009" then skipBlanks r else l
  | [] => []
  end.

Fixpoint takeDigits (l : list ascii) : list ascii :=
  match l with
  | c :: r => if is_digit c then c :: takeDigits r else []
  | [] => []
  end.

(** The decimal integer at the start of the text, after blanks and a sign;
    [None] when there is no digit or the value does not fit 64 bits. *)
Definition Sscanf_d (s : string) : option Z :=
  let l := skipBlanks (chars s) in
  let '(sign, l) :=
    match l with
    | "-"%char :: r => (-1, r)
    | "+"%char :: r => (1, r)
    | _ => (1, l)
    end in
  match takeDigits l with
  | [] => None
  | ds =>
      match atoi (text ds) with
      | Some n => if bool_decide (int64 (sign * n) = sign * n) then Some (sign * n) else None
      | None => None
      end
  end.

Lemma takeDigits_all l : Forall (λ c, is_digit c = true) l → takeDigits l = l.
Proof. induction 1 as [|c l Hc _ IH]; simpl; [done|]. by rewrite Hc, IH. Qed.

Lemma digit_not_special c : is_digit c = true → c ≠ " "%char ∧ c ≠ "009"%char ∧ c ≠ "-"%char ∧ c ≠ "+"%char.
Proof. intros H. repeat split; intros ->; discriminate. Qed.

(** What [%d] printed, [%d] scans back. *)
Lemma Sscanf_itoa z : 0 ≤ z < 2 ^ 63 → Sscanf_d (itoa z) = Some z.
Proof.
  intros Hz. pose proof (itoa_digits z ltac:(lia)) as Hd. pose proof (itoa_nonempty z) as Hne.
  unfold Sscanf_d. destruct (chars (itoa z)) as [|c r] eqn:E; [done|].
  apply Forall_cons in Hd as Hc. destruct Hc as [Hc _].
  assert (skipBlanks (c :: r) = c :: r) as ->.
  { destruct (digit_not_special c Hc) as (H1 & H2 & _). simpl.
    apply Ascii.eqb_neq in H1, H2. by rewrite H1, H2. }
  replace (match c :: r with "-"%char :: r => (-1, r) | "+"%char :: r => (1, r) | _ => (1, c :: r) end)
    with (1, c :: r).
  2:{ destruct (digit_not_special c Hc) as (_ & _ & H3 & H4).
      destruct c as [[] [] [] [] [] [] [] []]; try reflexivity; done. }
  rewrite takeDigits_all by done. rewrite <- E, text_chars, atoi_itoa.
  rewrite Z.mul_1_l, bool_decide_eq_true_2; [done|]. apply int64_id. unfold in_int64. lia.
Qed.

Lemma Sscanf_range s n : Sscanf_d s = Some n → in_int64 n.
Proof.
  unfold Sscanf_d. destruct (match skipBlanks (chars s) with "-"%char :: _ => _ | _ => _ end) as [sign l].
  destruct (takeDigits l) as [|c ds]; [done|]. destruct (atoi _) as [k|]; [|done].
  case_bool_decide as H; [|done]. intros [= <-]. rewrite <- H. apply int64_range.
Qed.

End Scan.

(** ** UTF-8

    [unicode/utf8]: a text is cut into well-formed encodings of a rune and single bytes that
    are not part of one. *)

Module Utf8.

Definition between (lo hi : Z) (c : ascii) : bool := (lo <=? code c) && (code c <=? hi).
Definition cont (c : ascii) : bool := between 128 191 c.

Definition valid1 (a : ascii) : bool := code a <? 128.
Definition valid2 (a b : ascii) : bool := between 194 223 a && cont b.
Definition valid3 (a b c : ascii) : bool :=
  between 224 239 a &&
  between (if code a =? 224 then 160 else 128) (if code a =? 237 then 159 else 191) b && cont c.
Definition valid4 (a b c d : ascii) : bool :=
  between 240 244 a &&
  between (if code a =? 240 then 144 else 128) (if code a =? 244 then 143 else 191) b && cont c && cont d.

Inductive rune :=
| Good (bs : list ascii)
| Bad (b : ascii).

Fixpoint runes (l : list ascii) : list rune :=
  match l with
  | [] => []
  | a :: r =>
      if valid1 a then Good [a] :: runes r
      else match r with
      | [] => [Bad a]
      | b :: r2 =>
          if valid2 a b then Good [a; b] :: runes r2
          else match r2 with
          | [] => Bad a :: runes r
          | c :: r3 =>
              if valid3 a b c then Good [a; b; c] :: runes r3
              else match r3 with
              | [] => Bad a :: runes r
              | d :: r4 => if valid4 a b c d then Good [a; b; c; d] :: runes r4 else Bad a :: runes r
              end
          end
      end
  end.

(** The encoding of one rune. *)
Definition isRune (bs : list ascii) : bool :=
  match bs with
  | [a] => valid1 a
  | [a; b] => valid2 a b
  | [a; b; c] => valid3 a b c
  | [a; b; c; d] => valid4 a b c d
  | _ => false
  end.

Definition isGood (r : rune) : bool := match r with Good _ => true | Bad _ => false end.

(** [utf8.ValidString] *)
Definition valid (l : list ascii) : bool := forallb isGood (runes l).

(** [utf8.RuneError], U+FFFD *)
Definition runeError : list ascii := ["239"; "191"; "189"]%char.

(** [utf8.AppendRune] *)
Definition encode (n : Z) : list ascii :=
  let b k := ascii_of_N (Z.to_N k) in
  if n <? 128 then [b n]
  else if n <? 2048 then [b (192 + n / 64); b (128 + n mod 64)]
  else if (55296 <=? n) && (n <=? 57343) || (1114111 <? n) then runeError
  else if n <? 65536 then [b (224 + n / 4096); b (128 + n / 64 mod 64); b (128 + n mod 64)]
  else [b (240 + n / 262144); b (128 + n / 4096 mod 64); b (128 + n / 64 mod 64); b (128 + n mod 64)].

Lemma high_not_low a b c d :
  valid1 a = true → valid2 a b = false ∧ valid3 a b c = false ∧ valid4 a b c d = false.
Proof.
  unfold valid1, valid2, valid3, valid4, between. intros H%Z.ltb_lt.
  destruct (Z.leb_spec 194 (code a)), (Z.leb_spec 224 (code a)), (Z.leb_spec 240 (code a)); try lia; done.
Qed.

Lemma valid2_only a b c d :
  valid2 a b = true → valid1 a = false ∧ valid3 a b c = false ∧ valid4 a b c d = false.
Proof.
  unfold valid1, valid2, valid3, valid4, between. intros H. apply andb_true_iff in H as [H _].
  apply andb_true_iff in H as [H1 H2]. apply Z.leb_le in H1, H2.
  destruct (Z.ltb_spec (code a) 128), (Z.leb_spec 224 (code a)), (Z.leb_spec 240 (code a)); try lia; done.
Qed.

Lemma valid3_only a b c d :
  valid3 a b c = true → valid1 a = false ∧ valid2 a b = false ∧ valid4 a b c d = false.
Proof.
  unfold valid1, valid2, valid3, valid4, between. intros H. do 2 apply andb_true_iff in H as [H _].
  apply andb_true_iff in H as [H1 H2]. apply Z.leb_le in H1, H2.
  destruct (Z.ltb_spec (code a) 128), (Z.leb_spec (code a) 223), (Z.leb_spec 240 (code a)); try lia;
  by rewrite ?andb_false_r.
Qed.

Lemma valid4_only a b c d :
  valid4 a b c d = true → valid1 a = false ∧ valid2 a b = false ∧ valid3 a b c = false.
Proof.
  unfold valid1, valid2, valid3, valid4, between. intros H. do 3 apply andb_true_iff in H as [H _].
  apply andb_true_iff in H as [H1 H2]. apply Z.leb_le in H1, H2.
  destruct (Z.ltb_spec (code a) 128), (Z.leb_spec (code a) 223), (Z.leb_spec (code a) 239); try lia;
  by rewrite ?andb_false_r.
Qed.

(** A well-formed encoding at the front is one rune. *)
Lemma runes_good bs l : isRune bs = true → runes (bs ++ l) = Good bs :: runes l.
Proof.
  destruct bs as [|a [|b [|c [|d [|]]]]]; simpl; intros H; try discriminate.
  - by rewrite H.
  - destruct (valid2_only a b a a H) as (-> & _ & _). by rewrite H.
  - destruct (valid3_only a b c a H) as (-> & -> & _). by rewrite H.
  - destruct (valid4_only a b c d H) as (-> & -> & ->). by rewrite H.
Qed.

Lemma runes_ascii a l : valid1 a = true → runes (a :: l) = Good [a] :: runes l.
Proof. intros H. by apply (runes_good [a]). Qed.

(** Induction over the runes of a text. *)
Lemma runes_ind (P : list ascii → Prop) :
  P [] →
  (∀ bs l, isRune bs = true → P l → P (bs ++ l)) →
  (∀ b l, runes (b :: l) = Bad b :: runes l → P l → P (b :: l)) →
  ∀ l, P l.
Proof.
  intros Hnil Hgood Hbad l. remember (length l) as n eqn:Hn. assert (length l ≤ n)%nat as Hle by lia. clear Hn.
  revert l Hle. induction n as [|n IH]; intros [|a r] Hle; simpl in Hle; try done; [lia|].
  destruct (valid1 a) eqn:H1; [apply (Hgood [a]); [done|]; apply IH; lia|].
  destruct r as [|b r2]; [apply Hbad; [simpl; by rewrite H1|done]|]. simpl in Hle.
  destruct (valid2 a b) eqn:H2; [apply (Hgood [a; b]); [done|]; apply IH; lia|].
  destruct r2 as [|c r3]; [apply Hbad; [cbn [runes]; by rewrite H1, H2|apply IH; simpl; lia]|]. simpl in Hle.
  destruct (valid3 a b c) eqn:H3; [apply (Hgood [a; b; c]); [done|]; apply IH; lia|].
  destruct r3 as [|d r4]; [apply Hbad; [cbn [runes]; by rewrite H1, H2, H3|apply IH; simpl; lia]|]. simpl in Hle.
  destruct (valid4 a b c d) eqn:H4; [apply (Hgood [a; b; c; d]); [done|]; apply IH; lia|].
  apply Hbad; [|apply IH; simpl; lia]. remember (b :: c :: d :: r4) as r eqn:Hr. cbn [runes]. rewrite H1, Hr, H2, H3, H4. done.
Qed.

End Utf8.

(** ** [encoding/json] string encoding *)

Module Json.

Definition hex (n : Z) : ascii :=
  if n <? 10 then ascii_of_N (Z.to_N (48 + n)) else ascii_of_N (Z.to_N (87 + n)).

Definition quoteChar : ascii := ascii_of_N 34.
Definition backslash : ascii := ascii_of_N 92.

(** The escape of one byte: quote, backslash, control and HTML characters. *)
Definition escByte (c : ascii) : list ascii :=
  let n := code c in
  if (n =? 34) || (n =? 92) then [backslash; c]
  else if n =? 8 then [backslash; "b"%char]
  else if n =? 12 then [backslash; "f"%char]
  else if n =? 10 then [backslash; "n"%char]
  else if n =? 13 then [backslash; "r"%char]
  else if n =? 9 then [backslash; "t"%char]
  else if (n <? 32) || (n =? 60) || (n =? 62) || (n =? 38) then
    [backslash; "u"%char; "0"%char; "0"%char; hex (n / 16); hex (n mod 16)]
  else [c].

(** The encoding of one rune: U+2028 and U+2029 are escaped, every other multi-byte rune is
    copied, and a byte that is not part of a rune becomes U+FFFD. *)
Definition escRune (r : Utf8.rune) : list ascii :=
  match r with
  | Utf8.Good [c] => escByte c
  | Utf8.Good bs =>
      if bool_decide (bs = ["226"; "128"; "168"]%char) then [backslash; "u"; "2"; "0"; "2"; "8"]%char
      else if bool_decide (bs = ["226"; "128"; "169"]%char) then [backslash; "u"; "2"; "0"; "2"; "9"]%char
      else bs
  | Utf8.Bad _ => [backslash; "u"; "f"; "f"; "f"; "d"]%char
  end.

Definition escape (l : list ascii) : list ascii := concat (escRune <$> Utf8.runes l).

Definition quote (s : string) : string := text ([quoteChar] ++ escape (chars s) ++ [quoteChar]).

(** An object with string members, in the order of the struct's fields. *)
Definition object (members : list (string * string)) : string :=
  "{" +s+ Join ((λ kv, quote kv.1 +s+ ":" +s+ quote kv.2) <$> members) "," +s+ "}".

End Json.

(** ** [strconv.Quote], the %q verb, on ASCII text

    Bytes of multi-byte runes are copied, as for printable runes. *)

Module Quote.

Definition escByte (c : ascii) : list ascii :=
  let n := code c in
  if (n =? 34) || (n =? 92) then [Json.backslash; c]
  else if n =? 7 then [Json.backslash; "a"%char]
  else if n =? 8 then [Json.backslash; "b"%char]
  else if n =? 12 then [Json.backslash; "f"%char]
  else if n =? 10 then [Json.backslash; "n"%char]
  else if n =? 13 then [Json.backslash; "r"%char]
  else if n =? 9 then [Json.backslash; "t"%char]
  else if n =? 11 then [Json.backslash; "v"%char]
  else if (n <? 32) || (n =? 127) then [Json.backslash; "x"%char; Json.hex (n / 16); Json.hex (n mod 16)]
  else [c].

Definition quote (s : string) : string :=
  text ([Json.quoteChar] ++ concat (escByte <$> chars s) ++ [Json.quoteChar]).

End Quote.
Definition quoted := Quote.quote.
