(* ===== verification/Heap.v ===== *)
(** * Memory: pointers, slices and maps

    A model of Go's memory for code whose point is what it shares: the deep copies of the custom
    resources (DeepCopy.v). A value holds references; a heap maps locations to arrays and maps.
    [denote] reads a value of a type through the heap, as a tree and the set of locations the
    tree rests on. *)

From S2P Require Import Prelude GoLib.

Notation loc := positive.

(** ** Types and values *)

Inductive ty :=
| TStr | TInt | TBool
| TPtr (t : ty)
| TSlice (t : ty)
| TMap (t : ty)
| TStruct (fs : list (string * ty)).

(** [VPtr l i] points to the [i]-th element of the array at [l]; [VSlice l off n] is the slice
    of [n] elements from [off] on. A nil pointer, slice or map is [VNil]. *)
Inductive val :=
| VStr (s : string) | VInt (z : Z) | VBool (b : bool)
| VNil
| VPtr (l : loc) (i : nat)
| VSlice (l : loc) (off n : nat)
| VMap (l : loc)
| VStruct (fs : list (string * val)).

(** A map is the list of its entries. *)
Inductive cell := CArray (vs : list val) | CMap (entries : list (string * val)).

Notation heap := (gmap loc cell).

Section TyInd.
Context (P : ty → Prop).
Context (Hstr : P TStr) (Hint : P TInt) (Hbool : P TBool).
Context (Hptr : ∀ t, P t → P (TPtr t)) (Hslice : ∀ t, P t → P (TSlice t)) (Hmap : ∀ t, P t → P (TMap t)).
Context (Hstruct : ∀ fs, Forall (λ f, P f.2) fs → P (TStruct fs)).

Fixpoint ty_nested_ind (t : ty) : P t :=
  match t with
  | TStr => Hstr | TInt => Hint | TBool => Hbool
  | TPtr t => Hptr t (ty_nested_ind t)
  | TSlice t => Hslice t (ty_nested_ind t)
  | TMap t => Hmap t (ty_nested_ind t)
  | TStruct fs => Hstruct fs ((fix go fs : Forall (λ f, P f.2) fs :=
      match fs with [] => Forall_nil_2 _ | f :: fs => Forall_cons_2 _ _ _ (ty_nested_ind f.2) (go fs) end) fs)
  end.

End TyInd.

(** The zero value of a type. *)
Fixpoint zero (t : ty) : val :=
  match t with
  | TStr => VStr "" | TInt => VInt 0 | TBool => VBool false
  | TPtr _ | TSlice _ | TMap _ => VNil
  | TStruct fs => VStruct ((λ f, (f.1, zero f.2)) <$> fs)
  end.

(** ** What a value stands for *)

Inductive tree :=
| DStr (s : string) | DInt (z : Z) | DBool (b : bool)
| DNil
| DPtr (d : tree)
| DSlice (ds : list tree)
| DMap (ds : list (string * tree))
| DStruct (ds : list (string * tree)).

Definition meaning : Type := tree * gset loc.

Fixpoint denote (t : ty) (h : heap) (v : val) {struct t} : option meaning :=
  match t, v with
  | TStr, VStr s => Some (DStr s, ∅)
  | TInt, VInt z => Some (DInt z, ∅)
  | TBool, VBool b => Some (DBool b, ∅)
  | TPtr _, VNil | TSlice _, VNil | TMap _, VNil => Some (DNil, ∅)
  | TPtr t, VPtr l i =>
      match h !! l with
      | Some (CArray vs) => v ← vs !! i; r ← denote t h v; Some (DPtr r.1, {[l]} ∪ r.2)
      | _ => None
      end
  | TSlice t, VSlice l off n =>
      match h !! l with
      | Some (CArray vs) =>
          if (off + n <=? length vs)%nat then
            r ← mapM (denote t h) (take n (drop off vs)); Some (DSlice r.*1, {[l]} ∪ ⋃ r.*2)
          else None
      | _ => None
      end
  | TMap t, VMap l =>
      match h !! l with
      | Some (CMap es) => r ← mapM (denote t h) es.*2; Some (DMap (zip es.*1 r.*1), {[l]} ∪ ⋃ r.*2)
      | _ => None
      end
  | TStruct fs, VStruct vs =>
      r ← (fix go fs vs : option (list (string * meaning)) :=
        match fs, vs with
        | [], [] => Some []
        | f :: fs, v :: vs =>
            if f.1 =s v.1 then m ← denote f.2 h v.2; r ← go fs vs; Some ((f.1, m) :: r) else None
        | _, _ => None
        end) fs vs;
      Some (DStruct (prod_map id fst <$> r), ⋃ (snd <$> r.*2))
  | _, _ => None
  end.

(** ** Programs

    A program passes the heap on; [None] is a panic. *)

Definition H (A : Type) : Type := heap → option (heap * A).

#[global] Instance H_ret : MRet H := λ A a h, Some (h, a).
#[global] Instance H_bind : MBind H := λ A B k m h, '(h, a) ← m h; k a h.

Definition crash {A} : H A := λ _, None.

(** [new] and [make]: an array that no location refers to yet. *)
Definition allocate (c : cell) : H loc := λ h, let l := fresh (dom h) in Some (<[l := c]> h, l).

Definition array (l : loc) : H (list val) := λ h, match h !! l with Some (CArray vs) => Some (h, vs) | _ => None end.

(** Element [i] of the array at [l]. *)
Definition load (l : loc) (i : nat) : H val := vs ← array l; match vs !! i with Some v => mret v | None => crash end.
Definition store (l : loc) (i : nat) (v : val) : H unit := λ h,
  match h !! l with
  | Some (CArray vs) => if (i <? length vs)%nat then Some (<[l := CArray (<[i := v]> vs)]> h, tt) else None
  | _ => None
  end.

(** Fields of a struct value. *)
Fixpoint lookupField (f : string) (fs : list (string * val)) : option val :=
  match fs with [] => None | (n, v) :: fs => if n =s f then Some v else lookupField f fs end.
Fixpoint updateField (f : string) (x : val) (fs : list (string * val)) : list (string * val) :=
  match fs with [] => [] | (n, v) :: fs => if n =s f then (n, x) :: fs else (n, v) :: updateField f x fs end.

Definition field (f : string) (v : val) : H val :=
  match v with VStruct fs => match lookupField f fs with Some x => mret x | None => crash end | _ => crash end.
Definition setField (f : string) (x : val) (v : val) : H val :=
  match v with VStruct fs => mret (VStruct (updateField f x fs)) | _ => crash end.

(** ** Reading *)

Fixpoint denoteFields (h : heap) (fs : list (string * ty)) (vs : list (string * val)) : option (list (string * meaning)) :=
  match fs, vs with
  | [], [] => Some []
  | f :: fs, v :: vs =>
      if f.1 =s v.1 then m ← denote f.2 h v.2; r ← denoteFields h fs vs; Some ((f.1, m) :: r) else None
  | _, _ => None
  end.

Lemma denote_struct fs h vs :
  denote (TStruct fs) h (VStruct vs) =
    r ← denoteFields h fs vs; Some (DStruct (prod_map id fst <$> r), ⋃ (snd <$> r.*2)).
Proof.
  cbn [denote]. match goal with |- (?a ≫= _) = _ => assert (a = denoteFields h fs vs) as ->; [|done] end.
  revert vs. induction fs as [|f fs IH]; intros [|v vs]; try done. simpl. by rewrite IH.
Qed.

Lemma mapM_frame {A B} (f g : A → option B) l r :
  mapM f l = Some r → (∀ x y, f x = Some y → y ∈ r → g x = Some y) → mapM g l = Some r.
Proof.
  rewrite !mapM_Some. induction 1 as [|x y l r Hxy _ IH]; intros Hg; constructor.
  - apply Hg; [done|left].
  - apply IH. intros a b Hab Hb. apply Hg; [done|by right].
Qed.

Definition agree (X : gset loc) (h h' : heap) : Prop := ∀ l, l ∈ X → h' !! l = h !! l.

(** What a value stands for depends on its own locations only. *)
Lemma denote_frame t : ∀ h h' v d X, denote t h v = Some (d, X) → agree X h h' → denote t h' v = Some (d, X).
Proof.
  assert (∀ (r : list meaning) x, x ∈ r → x.2 ⊆ ⋃ r.*2) as Hsub.
  { intros r x Hx. apply elem_of_subseteq. intros l Hl. apply elem_of_union_list. exists x.2. split; [|done]. by apply list_elem_of_fmap_2. }
  induction t as [| | |t IH|t IH|t IH|fs IH] using ty_nested_ind; intros h h' v d X Hd Ha;
    destruct v as [s|z|b| |l i|l off n|l|vs]; try done; simpl in Hd |- *.
  - destruct (h !! l) as [[vs|]|] eqn:El; try done. destruct (vs !! i) as [v|] eqn:Ev; [|done]. simpl in Hd.
    destruct (denote t h v) as [[d' Y]|] eqn:Et; [|done]. simplify_eq/=.
    rewrite Ha, El by set_solver. rewrite Ev. simpl. rewrite (IH h h' v d' Y Et); [done|]. intros l' Hl'. apply Ha. set_solver.
  - destruct (h !! l) as [[vs|]|] eqn:El; try done. destruct (_ <=? _)%nat eqn:En; [|done].
    apply bind_Some in Hd as (r & Em & Hd). simplify_eq/=. rewrite Ha, El, En by set_solver.
    apply bind_Some. exists r. split; [|done]. eapply mapM_frame; [exact Em|]. intros x [d' Y] Hx Hr. apply (IH h); [done|].
    intros l' Hl'. apply Ha. specialize (Hsub r _ Hr). set_solver.
  - destruct (h !! l) as [[|es]|] eqn:El; try done.
    apply bind_Some in Hd as (r & Em & Hd). simplify_eq/=. rewrite Ha, El by set_solver.
    apply bind_Some. exists r. split; [|done]. eapply mapM_frame; [exact Em|]. intros x [d' Y] Hx Hr. apply (IH h); [done|].
    intros l' Hl'. apply Ha. specialize (Hsub r _ Hr). set_solver.
  - change (denote (TStruct fs) h (VStruct vs) = Some (d, X)) in Hd. change (denote (TStruct fs) h' (VStruct vs) = Some (d, X)).
    rewrite denote_struct in *. destruct (denoteFields h fs vs) as [r|] eqn:Er; [|done]. simpl in Hd. injection Hd as Hd HX.
    assert (denoteFields h' fs vs = Some r) as ->; [|by simpl; rewrite Hd, HX].
    assert (∀ x, x ∈ r.*2 → x.2 ⊆ X) as Hr by (intros x Hx; rewrite <- HX; by apply Hsub). clear Hd HX d. revert vs r Er Hr.
    induction IH as [|f fs Hf _ IHfs]; intros [|v vs] r Er Hr; try done. simpl in *. destruct (f.1 =s v.1); [|done].
    destruct (denote f.2 h v.2) as [[d Y]|] eqn:Ed; [|done]. simpl in Er. destruct (denoteFields h fs vs) as [r'|] eqn:Er'; [|done].
    injection Er as <-. rewrite (Hf h h' v.2 d Y Ed).
    + simpl. rewrite (IHfs vs r' Er'); [done|]. intros x Hx. apply Hr. by right.
    + intros l Hl. apply Ha. refine (Hr (d, Y) _ l Hl). left.
Qed.

Lemma agree_subseteq (h h' : heap) X : h ⊆ h' → X ⊆ dom h → agree X h h'.
Proof.
  intros Hh HX l Hl. assert (is_Some (h !! l)) as [c Hc] by (apply elem_of_dom; set_solver). rewrite Hc. by eapply lookup_weaken.
Qed.

Lemma mapM_dom {A} (f : A → option meaning) (Y : gset loc) l r :
  (∀ x d X, f x = Some (d, X) → X ⊆ Y) → mapM f l = Some r → ⋃ r.*2 ⊆ Y.
Proof.
  rewrite mapM_Some. intros Hf. induction 1 as [|x [d X] l r Hx _ IH]; simpl; [set_solver|]. apply Hf in Hx. set_solver.
Qed.

(** They are all there. *)
Lemma denote_dom t : ∀ h v d X, denote t h v = Some (d, X) → X ⊆ dom h.
Proof.
  induction t as [| | |t IH|t IH|t IH|fs IH] using ty_nested_ind; intros h v d X Hd;
    destruct v as [s|z|b| |l i|l off n|l|vs]; try done; simpl in Hd; try (injection Hd as _ <-; set_solver).
  - destruct (h !! l) as [[vs|]|] eqn:El; try done. apply (elem_of_dom_2 h) in El. destruct (vs !! i) as [v|]; [|done]. simpl in Hd.
    destruct (denote t h v) as [[d' Y]|] eqn:Et; [|done]. simplify_eq/=. apply IH in Et. set_solver.
  - destruct (h !! l) as [[vs|]|] eqn:El; try done. apply (elem_of_dom_2 h) in El. destruct (_ <=? _)%nat; [|done].
    apply bind_Some in Hd as (r & Em & Hd). simplify_eq/=. apply (mapM_dom _ _ _ _ (IH h)) in Em. set_solver.
  - destruct (h !! l) as [[|es]|] eqn:El; try done. apply (elem_of_dom_2 h) in El.
    apply bind_Some in Hd as (r & Em & Hd). simplify_eq/=. apply (mapM_dom _ _ _ _ (IH h)) in Em. set_solver.
  - change (denote (TStruct fs) h (VStruct vs) = Some (d, X)) in Hd. rewrite denote_struct in Hd.
    destruct (denoteFields h fs vs) as [r|] eqn:Er; [|done]. simpl in Hd. injection Hd as _ <-. revert vs r Er.
    induction IH as [|f fs Hf _ IHfs]; intros [|v vs] r Er; try done; simpl in *; [injection Er as <-; simpl; set_solver|].
    destruct (f.1 =s v.1); [|done]. destruct (denote f.2 h v.2) as [[d' Y]|] eqn:Ed; [|done]. simpl in Er.
    destruct (denoteFields h fs vs) as [r'|] eqn:Er'; [|done]. injection Er as <-. apply Hf in Ed. specialize (IHfs vs r' Er').
    simpl in *. set_solver.
Qed.

Lemma denote_mono t h h' v d X : denote t h v = Some (d, X) → h ⊆ h' → denote t h' v = Some (d, X).
Proof. intros Hd Hh. eapply denote_frame; [done|]. by eapply agree_subseteq, denote_dom. Qed.

(** Types without references: a plain assignment copies them. *)
Fixpoint flat (t : ty) : bool :=
  match t with
  | TStr | TInt | TBool => true
  | TPtr _ | TSlice _ | TMap _ => false
  | TStruct fs => forallb (λ f, flat f.2) fs
  end.

Lemma denote_flat t : ∀ h v d X, flat t = true → denote t h v = Some (d, X) → X = ∅.
Proof.
  induction t as [| | |t _|t _|t _|fs IH] using ty_nested_ind; intros h v d X Hf Hd; try done;
    destruct v as [s|z|b| |l i|l off n|l|vs]; try done; try (simpl in Hd; by simplify_eq).
  rewrite denote_struct in Hd. apply bind_Some in Hd as (r & Er & Hd). injection Hd as _ <-. simpl in Hf. revert vs r Er Hf.
  induction IH as [|f fs Hf _ IHfs]; intros [|v vs] r Er Hfl; try done; simpl in *; [by injection Er as <-|].
  apply andb_true_iff in Hfl as [Hf1 Hfl]. destruct (f.1 =s v.1); [|done]. apply bind_Some in Er as ([d' Y] & Ed & Er).
  apply bind_Some in Er as (r' & Er' & Er). injection Er as <-. apply (Hf _ _ _ _ Hf1) in Ed as ->.
  specialize (IHfs vs r' Er' Hfl). csimpl. set_solver.
Qed.

(** ** Deep copies *)

(** [in[i].DeepCopyInto(&out[j])]: what [into] makes of one element, in another. *)
Definition elementInto (into : val → H val) (l : loc) (i : nat) (out : loc) (j : nat) : H unit :=
  v ← load l i; x ← into v; store out j x.

Fixpoint elementsInto (into : val → H val) (l : loc) (i : nat) (out : loc) (j n : nat) : H unit :=
  match n with
  | O => mret tt
  | S n => _ ← elementInto into l i out j; elementsInto into l (S i) out (S j) n
  end.

(** [out = make([]T, len(in))], then each element. *)
Definition makeEach (t : ty) (into : val → H val) (s : val) : H val :=
  match s with
  | VSlice l off n =>
      out ← allocate (CArray (replicate n (zero t)));
      _ ← elementsInto into l off out 0 n;
      mret (VSlice out 0 n)
  | _ => crash
  end.

(** [out = new(T)], then [in.DeepCopyInto(out)]. *)
Definition newInto (t : ty) (into : val → H val) (p : val) : H val :=
  match p with
  | VPtr l i =>
      out ← allocate (CArray [zero t]);
      _ ← elementInto into l i out 0;
      mret (VPtr out 0)
  | _ => crash
  end.

(** [copy(out, in)] on slices, and the assignment through two pointers. *)
Definition makeCopy (t : ty) : val → H val := makeEach t mret.
Definition newCopy (t : ty) : val → H val := newInto t mret.

(** The promise of a copy: it stands for the same, shares nothing with what was there before,
    and changes nothing of it. *)
Class Copies (t : ty) (copy : val → H val) : Prop :=
  copies h v d X : denote t h v = Some (d, X) →
    ∃ h' v' X', copy v h = Some (h', v') ∧ h ⊆ h' ∧ denote t h' v' = Some (d, X') ∧ X' ## dom h.

Lemma copies_flat t : flat t = true → Copies t mret.
Proof.
  intros Hf h v d X Hd. exists h, v, X. split; [done|]. split; [done|]. split; [done|].
  rewrite (denote_flat _ _ _ _ _ Hf Hd). set_solver.
Qed.

Lemma fresh_none (h : heap) : h !! fresh (dom h) = None.
Proof. apply not_elem_of_dom. apply is_fresh. Qed.

Lemma bind_runs {A B} (m : H A) (k : A → H B) h h' a : m h = Some (h', a) → (m ≫= k) h = k a h'.
Proof. intros Hm. unfold mbind, H_bind. by rewrite Hm. Qed.

Lemma load_runs l i h vs v : h !! l = Some (CArray vs) → vs !! i = Some v → load l i h = Some (h, v).
Proof.
  intros Hl Hv. unfold load. rewrite (bind_runs _ _ h h vs); [by rewrite Hv|]. unfold array. by rewrite Hl.
Qed.

Lemma store_runs l h xs y ys x : h !! l = Some (CArray (xs ++ y :: ys)) →
  store l (length xs) x h = Some (<[l := CArray (xs ++ x :: ys)]> h, tt).
Proof.
  intros Hl. unfold store. rewrite Hl, length_app. simpl.
  assert ((length xs <? length xs + S (length ys))%nat = true) as -> by (apply Nat.ltb_lt; lia).
  by rewrite insert_app_r_alt, Nat.sub_diag.
Qed.

(** One element, into an array that was made for the copy. *)
Lemma elementInto_copies t into (h0 h : heap) l i out xs y ys vs v d X :
  Copies t into → h0 ⊆ h → h0 !! out = None → h0 !! l = Some (CArray vs) → vs !! i = Some v →
  denote t h0 v = Some (d, X) → h !! out = Some (CArray (xs ++ y :: ys)) →
  ∃ h' x Y, elementInto into l i out (length xs) h = Some (h', tt) ∧ h0 ⊆ h' ∧
    h' !! out = Some (CArray (xs ++ x :: ys)) ∧ denote t h' x = Some (d, Y) ∧ Y ## dom h ∧ agree (dom h ∖ {[out]}) h h'.
Proof.
  intros Hc Hh Hout Hl Hv Hd Ho. unfold elementInto.
  rewrite (bind_runs _ _ _ _ _ (load_runs l i h vs v (lookup_weaken _ _ _ _ Hl Hh) Hv)).
  destruct (Hc h v d X) as (h1 & x & Y & Hrun & H1 & Hx & HY); [by eapply denote_mono|].
  rewrite (bind_runs _ _ _ _ _ Hrun), (store_runs _ _ _ _ _ _ (lookup_weaken _ _ _ _ Ho H1)).
  assert (out ∈ dom h) as Hdom by by apply elem_of_dom_2 in Ho.
  exists (<[out := CArray (xs ++ x :: ys)]> h1), x, Y. split; [done|]. split; [|split; [|split; [|split]]].
  - apply insert_subseteq_r; [done|]. by etrans.
  - apply lookup_insert_eq.
  - eapply denote_frame; [done|]. intros l' Hl'. apply lookup_insert_ne. set_solver.
  - done.
  - intros l' Hl'. rewrite lookup_insert_ne by set_solver. assert (is_Some (h !! l')) as [c Hcl] by (apply elem_of_dom; set_solver).
    rewrite Hcl. by eapply lookup_weaken.
Qed.

Lemma elementsInto_copies t into (h0 : heap) l out vs : Copies t into → h0 !! out = None → h0 !! l = Some (CArray vs) →
  ∀ n i h xs ys r rs, h0 ⊆ h → h !! out = Some (CArray (xs ++ ys)) → length ys = n → (i + n ≤ length vs)%nat →
  mapM (denote t h) xs = Some r → ⋃ r.*2 ## dom h0 ∪ {[out]} →
  mapM (denote t h0) (take n (drop i vs)) = Some rs →
  ∃ h' zs r', elementsInto into l i out (length xs) n h = Some (h', tt) ∧ h0 ⊆ h' ∧
    h' !! out = Some (CArray zs) ∧ length zs = (length xs + n)%nat ∧
    mapM (denote t h') zs = Some r' ∧ r'.*1 = r.*1 ++ rs.*1 ∧ ⋃ r'.*2 ## dom h0 ∪ {[out]}.
Proof.
  intros Hc Hout Hl. induction n as [|n IH]; intros i h xs ys r rs Hh Ho Hn Hi Hr Hfp Hrs.
  - apply nil_length_inv in Hn as ->. rewrite app_nil_r in Ho. injection Hrs as <-. exists h, xs, r.
    split; [done|]. split; [done|]. split; [done|]. split; [lia|]. split; [done|]. simpl. by rewrite app_nil_r.
  - destruct ys as [|y ys]; [done|]. injection Hn as Hn. destruct (lookup_lt_is_Some_2 vs i) as [v Hv]; [lia|].
    rewrite (drop_S _ _ _ Hv) in Hrs. simpl in Hrs. apply bind_Some in Hrs as ([d X] & Hd & Hrs). apply bind_Some in Hrs as (rs' & Hrs & [= <-]).
    destruct (elementInto_copies t into h0 h l i out xs y ys vs v d X) as (h1 & x & Y & Hrun & H1 & Ho1 & Hx & HY & Ha); try done.
    cbn [elementsInto]. rewrite (bind_runs _ _ _ _ _ Hrun).
    assert (out ∈ dom h) as Hdom by by apply elem_of_dom_2 in Ho. assert (dom h0 ⊆ dom h) as Hsub by by apply subseteq_dom.
    destruct (IH (S i) h1 (xs ++ [x]) ys (r ++ [(d, Y)]) rs') as (h' & zs & r' & Hrun' & H' & Hz & Hlen & Hr' & Hds & Hfp'); try done; [| lia | | |].
    + by rewrite <- app_assoc.
    + apply mapM_Some, Forall2_app; [|by repeat constructor]. apply mapM_Some.
      eapply mapM_frame; [exact Hr|]. intros a [da Xa] Hda Hin. eapply denote_frame; [done|]. intros l' Hl'. apply Ha.
      assert (Xa ⊆ ⋃ r.*2) by (intros z Hz; apply elem_of_union_list; exists Xa; split; [|done]; apply (list_elem_of_fmap_2 snd _ (da, Xa)); done).
      apply denote_dom in Hda. set_solver.
    + rewrite fmap_app, union_list_app. simpl. set_solver.
    + rewrite length_app in Hrun', Hlen. simpl in Hrun', Hlen. replace (length xs + 1)%nat with (S (length xs)) in Hrun' by lia.
      exists h', zs, r'. split; [done|]. split; [done|]. split; [done|]. split; [lia|]. split; [done|]. split; [|done].
      rewrite Hds, fmap_app, <- app_assoc. done.
Qed.

Lemma allocate_runs c h : allocate c h = Some (<[fresh (dom h) := c]> h, fresh (dom h)).
Proof. done. Qed.

Lemma allocated_subseteq (h : heap) c : h ⊆ <[fresh (dom h) := c]> h.
Proof. apply insert_subseteq, fresh_none. Qed.

Lemma makeEach_copies t into h l off n d X :
  Copies t into → denote (TSlice t) h (VSlice l off n) = Some (d, X) →
  ∃ h' v' X', makeEach t into (VSlice l off n) h = Some (h', v') ∧ h ⊆ h' ∧
    denote (TSlice t) h' v' = Some (d, X') ∧ X' ## dom h.
Proof.
  intros Hc Hd. simpl in Hd. destruct (h !! l) as [[vs|]|] eqn:El; try done.
  destruct (Nat.leb_spec (off + n) (length vs)); [|done]. apply bind_Some in Hd as (r & Hr & [= <- <-]). unfold makeEach.
  rewrite (bind_runs _ _ _ _ _ (allocate_runs (CArray (replicate n (zero t))) h)). set (out := fresh (dom h)).
  destruct (elementsInto_copies t into h l out vs Hc (fresh_none h) El n off
    (<[out := CArray (replicate n (zero t))]> h) [] (replicate n (zero t)) [] r)
    as (h' & zs & r' & Hrun & Hh & Hz & Hlen & Hr' & Hds & Hfp); try done.
  - apply allocated_subseteq.
  - apply lookup_insert_eq.
  - apply length_replicate.
  - simpl in Hrun. rewrite (bind_runs _ _ _ _ _ Hrun). simpl in Hlen, Hds. exists h', (VSlice out 0 n), ({[out]} ∪ ⋃ r'.*2).
    split; [done|]. split; [done|]. split.
    + simpl. rewrite Hz, Hlen, Nat.leb_refl, drop_0, take_ge by lia. apply bind_Some. exists r'. by rewrite Hds.
    + pose proof (fresh_none h) as Hn. apply not_elem_of_dom in Hn. fold out in Hn. set_solver.
Qed.

Lemma newInto_copies t into h l i d X :
  Copies t into → denote (TPtr t) h (VPtr l i) = Some (d, X) →
  ∃ h' v' X', newInto t into (VPtr l i) h = Some (h', v') ∧ h ⊆ h' ∧ denote (TPtr t) h' v' = Some (d, X') ∧ X' ## dom h.
Proof.
  intros Hc Hd. simpl in Hd. destruct (h !! l) as [[vs|]|] eqn:El; try done.
  apply bind_Some in Hd as (v & Hv & Hd). apply bind_Some in Hd as ([d' Y] & Ht & [= <- <-]). unfold newInto.
  rewrite (bind_runs _ _ _ _ _ (allocate_runs (CArray [zero t]) h)). set (out := fresh (dom h)).
  destruct (elementInto_copies t into h (<[out := CArray [zero t]]> h) l i out [] (zero t) [] vs v d' Y)
    as (h' & x & Z & Hrun & Hh & Hx & Hdx & HZ & _); try done.
  - apply allocated_subseteq.
  - apply fresh_none.
  - apply lookup_insert_eq.
  - simpl in Hrun. rewrite (bind_runs _ _ _ _ _ Hrun). exists h', (VPtr out 0), ({[out]} ∪ Z). split; [done|]. split; [done|]. split.
    + simpl. rewrite Hx. simpl. by rewrite Hdx.
    + pose proof (fresh_none h) as Hn. apply not_elem_of_dom in Hn. fold out in Hn. rewrite dom_insert in HZ. set_solver.
Qed.

(** ** Copying a struct field by field *)

(** [out.f = in.f] *)
Definition assign (f : string) (in_ out : val) : H val := x ← field f in_; setField f x out.

(** [in.f.DeepCopyInto(&out.f)] *)
Definition intoField (f : string) (into : val → H val) (in_ out : val) : H val :=
  x ← field f in_; x ← into x; setField f x out.

Definition isNil (v : val) : bool := match v with VNil => true | _ => false end.

(** [if in.f != nil { in, out := &in.f, &out.f; ... }] *)
Definition ifNotNil (f : string) (copy : val → H val) (in_ out : val) : H val :=
  x ← field f in_; if isNil x then mret out else intoField f copy in_ out.

(** [DeepCopy]: a new object, or nil for nil. *)
Definition deepCopy (t : ty) (into : val → H val) (in_ : val) : H val :=
  if isNil in_ then mret VNil else newInto t into in_.

(** [DeepCopyObject]: the nil interface for a nil pointer. *)
Definition deepCopyObject (copy : val → H val) (in_ : val) : H (option val) :=
  c ← copy in_; if isNil c then mret None else mret (Some c).

#[global] Instance deepCopy_copies t into : Copies t into → Copies (TPtr t) (deepCopy t into).
Proof.
  intros Hc h v d X Hd. destruct v; try done; [|by eapply newInto_copies].
  exists h, VNil, X. split; [done|]. split; [done|]. split; [done|]. simpl in Hd. injection Hd as _ <-. set_solver.
Qed.

(** The part of a struct copy that is left once a field that may be nil was dealt with. *)
Definition orNil (copy : val → H val) (x : val) : H val := if isNil x then mret x else copy x.

Lemma orNil_slice t into : Copies t into → Copies (TSlice t) (orNil (makeEach t into)).
Proof.
  intros Hc h v d X Hd. destruct v; try done; [|by eapply makeEach_copies].
  exists h, VNil, X. split; [done|]. split; [done|]. split; [done|]. simpl in Hd. injection Hd as _ <-. set_solver.
Qed.

Lemma orNil_ptr t into : Copies t into → Copies (TPtr t) (orNil (newInto t into)).
Proof.
  intros Hc h v d X Hd. destruct v; try done; [|by eapply newInto_copies].
  exists h, VNil, X. split; [done|]. split; [done|]. split; [done|]. simpl in Hd. injection Hd as _ <-. set_solver.
Qed.

(** [in.DeepCopy()] of a pointer, under the nil check, which is then redundant. *)
Lemma orNil_copies t copy : (∀ h, copy VNil h = Some (h, VNil)) → Copies t copy → Copies t (orNil copy).
Proof.
  intros Hn Hc h v d X Hd. unfold orNil. destruct (isNil v) eqn:Hv; [|by eapply Hc]. destruct v; try done.
  destruct (Hc h VNil d X Hd) as (h' & v' & X' & Hr & Hrest). rewrite Hn in Hr. injection Hr as <- <-. by exists h, VNil, X'.
Qed.

(** The rest of a copy yields what [d] stands for, apart from [h0]. *)
Definition yieldsCopy (h0 : heap) (t : ty) (d : tree) (r : option (heap * val)) : Prop :=
  ∃ h' v' X', r = Some (h', v') ∧ h0 ⊆ h' ∧ denote t h' v' = Some (d, X') ∧ X' ## dom h0.

Lemma updateField_same f x fs : lookupField f fs = Some x → updateField f x fs = fs.
Proof.
  induction fs as [|[n v] fs IH]; [done|]. simpl. destruct (n =s f); [by intros [= ->]|]. intros Hx. by rewrite IH.
Qed.

Section Steps.
Context (h0 h : heap) (T : ty) (D : tree) (fs out : list (string * val)) (f : string) (x : val) (k : val → H val).
Context (Hin : lookupField f fs = Some x) (Hout : lookupField f out = Some x) (Hh : h0 ⊆ h).

Lemma assign_step : yieldsCopy h0 T D (k (VStruct out) h) → yieldsCopy h0 T D ((assign f (VStruct fs) (VStruct out) ≫= k) h).
Proof.
  intros Hk. rewrite (bind_runs _ _ _ h (VStruct out)); [done|]. unfold assign. rewrite (bind_runs _ _ _ h x); simpl; [|by rewrite Hin].
  by rewrite updateField_same.
Qed.

Lemma into_step copy t d X : Copies t copy → denote t h x = Some (d, X) →
  (∀ h' x' X', h ⊆ h' → h0 ⊆ h' → denote t h' x' = Some (d, X') → X' ## dom h0 →
    yieldsCopy h0 T D (k (VStruct (updateField f x' out)) h')) →
  yieldsCopy h0 T D ((intoField f copy (VStruct fs) (VStruct out) ≫= k) h).
Proof using Hin Hh.
  intros Hc Hd Hk. destruct (Hc h x d X Hd) as (h' & x' & X' & Hrun & Hsub & Hd' & HX).
  rewrite (bind_runs _ _ _ h' (VStruct (updateField f x' out))).
  - eapply Hk; [done|by etrans|done|]. pose proof (subseteq_dom _ _ Hh) as Hdom. clear -HX Hdom. set_solver.
  - unfold intoField. rewrite (bind_runs _ _ _ h x); [|by simpl; rewrite Hin]. by rewrite (bind_runs _ _ _ _ _ Hrun).
Qed.

Lemma ifNotNil_step copy t d X : Copies t (orNil copy) → denote t h x = Some (d, X) →
  (∀ h' x' X', h ⊆ h' → h0 ⊆ h' → denote t h' x' = Some (d, X') → X' ## dom h0 →
    yieldsCopy h0 T D (k (VStruct (updateField f x' out)) h')) →
  yieldsCopy h0 T D ((ifNotNil f copy (VStruct fs) (VStruct out) ≫= k) h).
Proof.
  intros Hc Hd Hk. pose proof (into_step (orNil copy) t d X Hc Hd Hk) as Hi.
  replace ((ifNotNil f copy (VStruct fs) (VStruct out) ≫= k) h) with ((intoField f (orNil copy) (VStruct fs) (VStruct out) ≫= k) h); [done|].
  unfold mbind, H_bind. f_equal. unfold ifNotNil, intoField.
  rewrite !(bind_runs (field f (VStruct fs)) _ h h x) by (simpl; by rewrite Hin).
  unfold orNil. destruct (isNil x).
  - rewrite (bind_runs (mret x) _ h h x); [|done]. simpl. by rewrite updateField_same.
  - unfold mbind, H_bind. simpl. by rewrite Hin.
Qed.

End Steps.

Lemma denoteFields_cons h n t fs v vs m r :
  denote t h v = Some m → denoteFields h fs vs = Some r → denoteFields h ((n, t) :: fs) ((n, v) :: vs) = Some ((n, m) :: r).
Proof. intros Hm Hr. simpl. by rewrite eqb_refl_string, Hm, Hr. Qed.


Lemma denoteFields_cons_inv h n t fs vs r : denoteFields h ((n, t) :: fs) vs = Some r →
  ∃ v vs' d X r', vs = (n, v) :: vs' ∧ denote t h v = Some (d, X) ∧ denoteFields h fs vs' = Some r' ∧ r = (n, (d, X)) :: r'.
Proof.
  destruct vs as [|[n' v] vs]; [done|]. simpl. destruct (String.eqb_spec n n') as [<-|]; [|done]. intros Hr.
  apply bind_Some in Hr as ([d X] & Hm & Hr). apply bind_Some in Hr as (r' & Hr' & [= <-]). by exists v, vs, d, X, r'.
Qed.

Lemma denoteFields_nil_inv h vs r : denoteFields h [] vs = Some r → vs = [] ∧ r = [].
Proof. destruct vs; [|done]. by intros [= <-]. Qed.

Lemma denote_struct_intro fs h vs r d X : denoteFields h fs vs = Some r →
  d = DStruct (prod_map id fst <$> r) → X = ⋃ (snd <$> r.*2) → denote (TStruct fs) h (VStruct vs) = Some (d, X).
Proof. intros Hr -> ->. rewrite denote_struct. by rewrite Hr. Qed.

#[global] Existing Instances orNil_slice orNil_ptr.

#[global] Instance makeCopy_copies t : TCEq (flat t) true → Copies (TSlice t) (orNil (makeCopy t)).
Proof. intros Hf%TCEq_eq. by apply orNil_slice, copies_flat. Qed.

#[global] Instance newCopy_copies t : TCEq (flat t) true → Copies (TPtr t) (orNil (newCopy t)).
Proof. intros Hf%TCEq_eq. by apply orNil_ptr, copies_flat. Qed.
