(* ===== verification/NutanixTypes.v ===== *)
(** * Data of the Nutanix API (internal/nutanix/types.go)

    One record per struct, with the struct's fields; a pointer field is an
    [option], a slice is a [list], integers are [Z]. *)

From S2P Require Import Prelude.

(** ** Power states *)

Definition PowerState := string.
Definition PowerStateOn : PowerState := "ON".
Definition PowerStateOff : PowerState := "OFF".

(** ** Entities *)

Record Reference := mkReference { Reference_ExtID : string; Reference_Name : string }.

Record DiskAddress := mkDiskAddress { DiskAddress_BusType : string; DiskAddress_Index : Z }.

Record DiskBackingInfo := mkDiskBackingInfo {
  Backing_VMDiskUUID : string;
  Backing_StorageContainerRef : option Reference;
  Backing_DiskSizeBytes : Z
}.

Record Disk := mkDisk {
  Disk_ExtID : string;
  Disk_DiskAddress : option DiskAddress;
  Disk_BackingInfo : option DiskBackingInfo;
  Disk_DiskSizeBytes : Z;
  Disk_DeviceType : string
}.

Record IPAddress := mkIPAddress { IPAddress_IP : string; IPAddress_Type : string }.

Record NIC := mkNIC {
  NIC_ExtID : string;
  NIC_NetworkRef : option Reference;
  NIC_NicType : string;
  NIC_MacAddress : string;
  NIC_IPAddresses : list IPAddress
}.

Record BootConfig := mkBootConfig { Boot_BootType : string; Boot_BootOrder : list string }.

Record GPU := mkGPU { GPU_Mode : string; GPU_DeviceID : Z; GPU_Vendor : string }.

Record VM := mkVM {
  VM_ExtID : string;
  VM_Name : string;
  VM_Description : string;
  VM_PowerState : string;
  VM_NumSockets : Z;
  VM_NumCoresPerSocket : Z;
  VM_NumThreadsPerCore : Z;
  VM_MemorySizeBytes : Z;
  VM_MachineType : string;
  VM_BootConfig : option BootConfig;
  VM_Disks : list Disk;
  VM_Nics : list NIC;
  VM_Gpus : list GPU;
  VM_Cluster : option Reference
}.

Record Subnet := mkSubnet {
  Subnet_ExtID : string; Subnet_Name : string; Subnet_VlanID : Z; Subnet_SubnetType : string }.

Record StorageContainer := mkStorageContainer {
  StorageContainer_UUID : string; StorageContainer_Name : string }.

Record ClusterNetwork := mkClusterNetwork {
  Net_ExternalAddress : string; Net_ExternalDataServicesIP : string }.

Record Cluster := mkCluster {
  Cluster_ExtID : string; Cluster_Name : string; Cluster_Network : option ClusterNetwork }.

Record RecoveryPoint := mkRecoveryPoint {
  RP_ExtID : string; RP_Name : string; RP_Status : string; RP_VMExtID : string;
  RP_ExpirationTime : string; RP_RecoveryPointType : string }.

Record Image := mkImage {
  Image_ExtID : string; Image_Name : string; Image_Type : string; Image_SizeBytes : Z; Image_SourceURI : string }.

(** ** Asynchronous tasks *)

Record TaskError := mkTaskError { TaskError_Message : string }.

Record TaskEntity := mkTaskEntity { TaskEntity_ExtID : string; TaskEntity_Rel : string }.

Record Task := mkTask {
  Task_ExtID : string;
  Task_Status : string;
  Task_OperationType : string;
  Task_PercentComplete : Z;
  Task_ErrorMessages : list TaskError;
  Task_EntitiesAffected : list TaskEntity
}.

(** Paging information of a list response. *)
Record ListMetadata := mkListMetadata { Meta_TotalAvailableResults : Z; Meta_Offset : Z }.

(** ** Changed block tracking *)

Record CBTClusterInfo := mkCBTClusterInfo { CBT_PrismElementURL : string; CBT_JWTToken : string }.

Record ChangedRegion := mkChangedRegion { Region_Offset : Z; Region_Length : Z }.

Record ChangedRegions := mkChangedRegions {
  Regions_Regions : list ChangedRegion; Regions_NextOffset : option Z }.

#[global] Instance Reference_eq_dec : EqDecision Reference.
Proof. solve_decision. Defined.
#[global] Instance ChangedRegion_eq_dec : EqDecision ChangedRegion.
Proof. solve_decision. Defined.

(** ** Client configuration (client.go) *)

Record ClientConfig := mkClientConfig {
  Config_Host : string;
  Config_Username : string;
  Config_Password : string;
  Config_InsecureSkipVerify : bool;
  Config_CACert : string;
  Config_Timeout : Z;
  Config_MaxRetries : Z;
  Config_DisableKeepAlives : bool
}.

(** The configuration the controllers build: the other fields keep their zero value. *)
Definition providerConfig (host username password : string) (insecure : bool) : ClientConfig :=
  mkClientConfig host username password insecure "" 0 0 false.

(** A [NutanixClient] value: which connection a call goes through. *)
Record NutanixClient := mkNutanixClient { Client_Config : ClientConfig }.
