(* ===== verification/ApiTypes.v ===== *)
(** * Custom resources and the Kubernetes objects the operator handles

    The custom resources of api/v1alpha1 with their fields and enumerations,
    and, for the objects of other APIs (core, batch, KubeVirt, CDI), records of
    exactly the fields the sources read or write. *)

From S2P Require Import Prelude NutanixTypes.

(** ** Object metadata *)

Record OwnerReference := mkOwnerReference {
  Owner_APIVersion : string; Owner_Kind : string; Owner_Name : string; Owner_UID : string }.

Record ObjectMeta := mkObjectMeta {
  Meta_Name : string;
  Meta_Namespace : string;
  Meta_UID : string;
  Meta_Generation : Z;
  Meta_Labels : gmap string string;
  Meta_Annotations : gmap string string;
  Meta_Finalizers : list string;
  Meta_OwnerReferences : list OwnerReference;
  Meta_DeletionTimestamp : option Z
}.

(** Metadata of an object built by the operator. *)
Definition newMeta (name ns : string) (owners : list OwnerReference) : ObjectMeta :=
  mkObjectMeta name ns "" 0 ∅ ∅ [] owners None.

Inductive ConditionStatus := ConditionTrue | ConditionFalse | ConditionUnknown.

(** [metav1.Condition]; the transition time is set by the API machinery. *)
Record Condition := mkCondition {
  Cond_Type : string;
  Cond_Status : ConditionStatus;
  Cond_Reason : string;
  Cond_Message : string;
  Cond_ObservedGeneration : Z
}.

#[global] Instance ConditionStatus_eq_dec : EqDecision ConditionStatus.
Proof. solve_decision. Defined.
#[global] Instance Condition_eq_dec : EqDecision Condition.
Proof. solve_decision. Defined.
#[global] Instance OwnerReference_eq_dec : EqDecision OwnerReference.
Proof. solve_decision. Defined.

(** ** StorageMap and NetworkMap *)

Inductive PersistentVolumeMode := Filesystem | Block | VolumeModeUnset.
Inductive AccessMode := ReadWriteOnce | ReadWriteMany | ReadOnlyMany | AccessModeUnset.

Record StorageSource := mkStorageSource { StorageSource_ID : string; StorageSource_Name : string }.

Record StorageDestination := mkStorageDestination {
  StorageDest_StorageClass : string;
  StorageDest_VolumeMode : PersistentVolumeMode;
  StorageDest_AccessMode : AccessMode
}.

Record StoragePair := mkStoragePair {
  StoragePair_Source : StorageSource; StoragePair_Destination : StorageDestination }.

Record StorageMap := mkStorageMap {
  StorageMap_Meta : ObjectMeta;
  StorageMap_ProviderRef : string;
  StorageMap_Map : list StoragePair
}.

Inductive NetworkDestinationType := NetworkDestinationPod | NetworkDestinationMultus.

Record NetworkSource := mkNetworkSource { NetworkSource_ID : string; NetworkSource_Name : string }.

Record NetworkDestination := mkNetworkDestination {
  NetworkDest_Type : NetworkDestinationType;
  NetworkDest_Name : string;
  NetworkDest_Namespace : string
}.

Record NetworkPair := mkNetworkPair {
  NetworkPair_Source : NetworkSource; NetworkPair_Destination : NetworkDestination }.

Record NetworkMap := mkNetworkMap {
  NetworkMap_Meta : ObjectMeta;
  NetworkMap_ProviderRef : string;
  NetworkMap_Map : list NetworkPair
}.

#[global] Instance PersistentVolumeMode_eq_dec : EqDecision PersistentVolumeMode.
Proof. solve_decision. Defined.
#[global] Instance AccessMode_eq_dec : EqDecision AccessMode.
Proof. solve_decision. Defined.
#[global] Instance StorageDestination_eq_dec : EqDecision StorageDestination.
Proof. solve_decision. Defined.
#[global] Instance NetworkDestinationType_eq_dec : EqDecision NetworkDestinationType.
Proof. solve_decision. Defined.
#[global] Instance NetworkDestination_eq_dec : EqDecision NetworkDestination.
Proof. solve_decision. Defined.

(** ** NutanixProvider *)

Inductive ProviderPhase :=
| ProviderPhaseNone | ProviderPhasePending | ProviderPhaseConnecting
| ProviderPhaseConnected | ProviderPhaseError.

Record NutanixProviderSpec := mkNutanixProviderSpec {
  Provider_URL : string;
  Provider_SecretRef : string;
  Provider_RefreshInterval : string;
  Provider_InsecureSkipVerify : bool
}.

Record NutanixProviderStatus := mkNutanixProviderStatus {
  Provider_Phase : ProviderPhase;
  Provider_VMCount : Z;
  Provider_Conditions : list Condition
}.

Record NutanixProvider := mkNutanixProvider {
  Provider_Meta : ObjectMeta;
  Provider_Spec : NutanixProviderSpec;
  Provider_Status : NutanixProviderStatus
}.

(** ** Hook *)

Record HookSpec := mkHookSpec {
  Hook_Image : string;
  Hook_Playbook : string;
  Hook_Deadline : string;
  Hook_ServiceAccount : string
}.

Record Hook := mkHook { Hook_Meta : ObjectMeta; Hook_Spec : HookSpec }.

(** ** MigrationPlan *)

(** [MigrationTypeNone] is the empty string of an unset field. *)
Inductive MigrationType := MigrationTypeNone | MigrationTypeCold | MigrationTypeWarm.

Definition migrationTypeText (t : MigrationType) : string :=
  match t with MigrationTypeNone => "" | MigrationTypeCold => "cold" | MigrationTypeWarm => "warm" end.

Inductive TargetPowerState := TargetPowerStateNone | TargetPowerStateRunning | TargetPowerStateStopped.

Record PlanHookRef := mkPlanHookRef { HookRef_Name : string; HookRef_Step : string }.

Record PlanVM := mkPlanVM { PlanVM_ID : string; PlanVM_Name : string; PlanVM_Hooks : list PlanHookRef }.

Record WarmConfig := mkWarmConfig { Warm_PrecopyInterval : string; Warm_MaxPrecopyRounds : Z }.

Record MigrationPlanSpec := mkMigrationPlanSpec {
  Plan_ProviderRef : string;
  Plan_TargetNamespace : string;
  Plan_Type : MigrationType;
  Plan_NetworkMapRef : string;
  Plan_StorageMapRef : string;
  Plan_VMs : list PlanVM;
  Plan_MaxInFlight : Z;
  Plan_TargetPowerState : TargetPowerState;
  Plan_WarmConfig : option WarmConfig
}.

Inductive PlanPhase := PlanPhaseNone | PlanPhasePending | PlanPhaseValidating | PlanPhaseReady | PlanPhaseError.

Inductive ConcernCategory := ConcernCategoryError | ConcernCategoryWarning | ConcernCategoryInfo.

Record Concern := mkConcern { Concern_Category : ConcernCategory; Concern_Message : string }.

Record VMValidationStatus := mkVMValidationStatus {
  Validation_ID : string; Validation_Name : string; Validation_Concerns : list Concern }.

Record MigrationPlanStatus := mkMigrationPlanStatus {
  PlanStatus_Phase : PlanPhase;
  PlanStatus_VMs : list VMValidationStatus;
  PlanStatus_Conditions : list Condition
}.

Record MigrationPlan := mkMigrationPlan {
  Plan_Meta : ObjectMeta;
  Plan_Spec : MigrationPlanSpec;
  Plan_Status : MigrationPlanStatus
}.

#[global] Instance MigrationType_eq_dec : EqDecision MigrationType.
Proof. solve_decision. Defined.
#[global] Instance TargetPowerState_eq_dec : EqDecision TargetPowerState.
Proof. solve_decision. Defined.
#[global] Instance PlanPhase_eq_dec : EqDecision PlanPhase.
Proof. solve_decision. Defined.
#[global] Instance ConcernCategory_eq_dec : EqDecision ConcernCategory.
Proof. solve_decision. Defined.
#[global] Instance Concern_eq_dec : EqDecision Concern.
Proof. solve_decision. Defined.

(** ** Migration *)

Inductive MigrationPhase :=
| MigrationPhaseNone        (* the empty string of a fresh object *)
| MigrationPhasePending
| MigrationPhaseRunning
| MigrationPhaseCompleted
| MigrationPhaseFailed
| MigrationPhaseCancelled.

(** The 19 values of the CRD's enumeration, and the empty string. *)
Inductive VMMigrationPhase :=
| VMPhaseNone
| VMPhasePending
| VMPhasePreHook
| VMPhaseStorePowerState
| VMPhasePowerOff
| VMPhaseWaitForPowerOff
| VMPhaseCreateSnapshot
| VMPhaseExportDisks
| VMPhaseImportDisks
| VMPhaseCreateVM
| VMPhaseStartVM
| VMPhasePostHook
| VMPhaseCleanup
| VMPhaseBulkCopy
| VMPhaseWaitBulkCopy
| VMPhasePrecopy
| VMPhaseFinalSync
| VMPhaseCompleted
| VMPhaseFailed
| VMPhaseCancelled.

#[global] Instance MigrationPhase_eq_dec : EqDecision MigrationPhase.
Proof. solve_decision. Defined.
#[global] Instance VMMigrationPhase_eq_dec : EqDecision VMMigrationPhase.
Proof. solve_decision. Defined.

(** [string(phase)] *)
Definition phaseText (p : VMMigrationPhase) : string :=
  match p with
  | VMPhaseNone => ""
  | VMPhasePending => "Pending"
  | VMPhasePreHook => "PreHook"
  | VMPhaseStorePowerState => "StorePowerState"
  | VMPhasePowerOff => "PowerOff"
  | VMPhaseWaitForPowerOff => "WaitForPowerOff"
  | VMPhaseCreateSnapshot => "CreateSnapshot"
  | VMPhaseExportDisks => "ExportDisks"
  | VMPhaseImportDisks => "ImportDisks"
  | VMPhaseCreateVM => "CreateVM"
  | VMPhaseStartVM => "StartVM"
  | VMPhasePostHook => "PostHook"
  | VMPhaseCleanup => "Cleanup"
  | VMPhaseBulkCopy => "BulkCopy"
  | VMPhaseWaitBulkCopy => "WaitBulkCopy"
  | VMPhasePrecopy => "Precopy"
  | VMPhaseFinalSync => "FinalSync"
  | VMPhaseCompleted => "Completed"
  | VMPhaseFailed => "Failed"
  | VMPhaseCancelled => "Cancelled"
  end.

Record WarmMigrationStatus := mkWarm {
  PrecopyRounds : Z;
  CumulativeBytes : Z;
  LastDeltaBytes : Z;
  BaseSnapshotUUID : string;
  BaseImageUUIDs : list string;
  LastPrecopyTime : option Z;
  DeltaSnapshotUUID : string;
  DeltaImageUUIDs : list string;
  DeltaPodName : string;
  DeltaDiskIndex : Z;
  DeltaBytes : Z
}.

(** [&WarmMigrationStatus{}] *)
Definition emptyWarm : WarmMigrationStatus := mkWarm 0 0 0 "" [] None "" [] "" 0 0.

Record VMMigrationStatus := mkVMStatus {
  ID : string;
  Name : string;
  Phase : VMMigrationPhase;
  Started : option Z;
  Completed : option Z;
  Error : string;
  SnapshotUUID : string;
  ImageUUIDs : list string;
  TaskUUID : string;
  DataVolumeNames : list string;
  OriginalPowerState : string;
  Warm : option WarmMigrationStatus
}.

Record MigrationSpec := mkMigrationSpec {
  Mig_PlanRef : string;
  Mig_Cutover : option Z;
  Mig_Cancel : list string
}.

Record MigrationStatus := mkMigrationStatus {
  Mig_Phase : MigrationPhase;
  Mig_Started : option Z;
  Mig_Completed : option Z;
  Mig_VMs : list VMMigrationStatus;
  Mig_Conditions : list Condition
}.

Record Migration := mkMigration {
  Mig_Meta : ObjectMeta;
  Mig_Spec : MigrationSpec;
  Mig_Status : MigrationStatus
}.

(** *** Assignments to one field *)

Definition setPhase (p : VMMigrationPhase) (v : VMMigrationStatus) : VMMigrationStatus :=
  mkVMStatus (ID v) (Name v) p (Started v) (Completed v) (Error v) (SnapshotUUID v) (ImageUUIDs v)
    (TaskUUID v) (DataVolumeNames v) (OriginalPowerState v) (Warm v).
Definition setStarted (t : option Z) (v : VMMigrationStatus) : VMMigrationStatus :=
  mkVMStatus (ID v) (Name v) (Phase v) t (Completed v) (Error v) (SnapshotUUID v) (ImageUUIDs v)
    (TaskUUID v) (DataVolumeNames v) (OriginalPowerState v) (Warm v).
Definition setCompleted (t : option Z) (v : VMMigrationStatus) : VMMigrationStatus :=
  mkVMStatus (ID v) (Name v) (Phase v) (Started v) t (Error v) (SnapshotUUID v) (ImageUUIDs v)
    (TaskUUID v) (DataVolumeNames v) (OriginalPowerState v) (Warm v).
Definition setError (e : string) (v : VMMigrationStatus) : VMMigrationStatus :=
  mkVMStatus (ID v) (Name v) (Phase v) (Started v) (Completed v) e (SnapshotUUID v) (ImageUUIDs v)
    (TaskUUID v) (DataVolumeNames v) (OriginalPowerState v) (Warm v).
Definition setSnapshotUUID (u : string) (v : VMMigrationStatus) : VMMigrationStatus :=
  mkVMStatus (ID v) (Name v) (Phase v) (Started v) (Completed v) (Error v) u (ImageUUIDs v)
    (TaskUUID v) (DataVolumeNames v) (OriginalPowerState v) (Warm v).
Definition setImageUUIDs (l : list string) (v : VMMigrationStatus) : VMMigrationStatus :=
  mkVMStatus (ID v) (Name v) (Phase v) (Started v) (Completed v) (Error v) (SnapshotUUID v) l
    (TaskUUID v) (DataVolumeNames v) (OriginalPowerState v) (Warm v).
Definition setDataVolumeNames (l : list string) (v : VMMigrationStatus) : VMMigrationStatus :=
  mkVMStatus (ID v) (Name v) (Phase v) (Started v) (Completed v) (Error v) (SnapshotUUID v) (ImageUUIDs v)
    (TaskUUID v) l (OriginalPowerState v) (Warm v).
Definition setOriginalPowerState (s : string) (v : VMMigrationStatus) : VMMigrationStatus :=
  mkVMStatus (ID v) (Name v) (Phase v) (Started v) (Completed v) (Error v) (SnapshotUUID v) (ImageUUIDs v)
    (TaskUUID v) (DataVolumeNames v) s (Warm v).
Definition setWarm (w : option WarmMigrationStatus) (v : VMMigrationStatus) : VMMigrationStatus :=
  mkVMStatus (ID v) (Name v) (Phase v) (Started v) (Completed v) (Error v) (SnapshotUUID v) (ImageUUIDs v)
    (TaskUUID v) (DataVolumeNames v) (OriginalPowerState v) w.

Definition setDeltaSnapshot (u : string) (w : WarmMigrationStatus) : WarmMigrationStatus :=
  mkWarm (PrecopyRounds w) (CumulativeBytes w) (LastDeltaBytes w) (BaseSnapshotUUID w) (BaseImageUUIDs w)
    (LastPrecopyTime w) u (DeltaImageUUIDs w) (DeltaPodName w) (DeltaDiskIndex w) (DeltaBytes w).
Definition setDeltaImages (l : list string) (w : WarmMigrationStatus) : WarmMigrationStatus :=
  mkWarm (PrecopyRounds w) (CumulativeBytes w) (LastDeltaBytes w) (BaseSnapshotUUID w) (BaseImageUUIDs w)
    (LastPrecopyTime w) (DeltaSnapshotUUID w) l (DeltaPodName w) (DeltaDiskIndex w) (DeltaBytes w).
Definition setDeltaPodName (n : string) (w : WarmMigrationStatus) : WarmMigrationStatus :=
  mkWarm (PrecopyRounds w) (CumulativeBytes w) (LastDeltaBytes w) (BaseSnapshotUUID w) (BaseImageUUIDs w)
    (LastPrecopyTime w) (DeltaSnapshotUUID w) (DeltaImageUUIDs w) n (DeltaDiskIndex w) (DeltaBytes w).
Definition setDeltaDiskIndex (i : Z) (w : WarmMigrationStatus) : WarmMigrationStatus :=
  mkWarm (PrecopyRounds w) (CumulativeBytes w) (LastDeltaBytes w) (BaseSnapshotUUID w) (BaseImageUUIDs w)
    (LastPrecopyTime w) (DeltaSnapshotUUID w) (DeltaImageUUIDs w) (DeltaPodName w) i (DeltaBytes w).
Definition setDeltaBytes (b : Z) (w : WarmMigrationStatus) : WarmMigrationStatus :=
  mkWarm (PrecopyRounds w) (CumulativeBytes w) (LastDeltaBytes w) (BaseSnapshotUUID w) (BaseImageUUIDs w)
    (LastPrecopyTime w) (DeltaSnapshotUUID w) (DeltaImageUUIDs w) (DeltaPodName w) (DeltaDiskIndex w) b.
Definition setBase (snap : string) (imgs : list string) (w : WarmMigrationStatus) : WarmMigrationStatus :=
  mkWarm (PrecopyRounds w) (CumulativeBytes w) (LastDeltaBytes w) snap imgs
    (LastPrecopyTime w) (DeltaSnapshotUUID w) (DeltaImageUUIDs w) (DeltaPodName w) (DeltaDiskIndex w) (DeltaBytes w).

Definition setMigStatus (s : MigrationStatus) (m : Migration) : Migration :=
  mkMigration (Mig_Meta m) (Mig_Spec m) s.
Definition setMigVMs (l : list VMMigrationStatus) (s : MigrationStatus) : MigrationStatus :=
  mkMigrationStatus (Mig_Phase s) (Mig_Started s) (Mig_Completed s) l (Mig_Conditions s).
Definition setMigPhase (p : MigrationPhase) (s : MigrationStatus) : MigrationStatus :=
  mkMigrationStatus p (Mig_Started s) (Mig_Completed s) (Mig_VMs s) (Mig_Conditions s).
Definition setMigStarted (t : option Z) (s : MigrationStatus) : MigrationStatus :=
  mkMigrationStatus (Mig_Phase s) t (Mig_Completed s) (Mig_VMs s) (Mig_Conditions s).
Definition setMigCompleted (t : option Z) (s : MigrationStatus) : MigrationStatus :=
  mkMigrationStatus (Mig_Phase s) (Mig_Started s) t (Mig_VMs s) (Mig_Conditions s).
Definition setMigConditions (c : list Condition) (s : MigrationStatus) : MigrationStatus :=
  mkMigrationStatus (Mig_Phase s) (Mig_Started s) (Mig_Completed s) (Mig_VMs s) c.
Definition setFinalizers (f : list string) (m : ObjectMeta) : ObjectMeta :=
  mkObjectMeta (Meta_Name m) (Meta_Namespace m) (Meta_UID m) (Meta_Generation m) (Meta_Labels m)
    (Meta_Annotations m) f (Meta_OwnerReferences m) (Meta_DeletionTimestamp m).
Definition setMigMeta (o : ObjectMeta) (m : Migration) : Migration :=
  mkMigration o (Mig_Spec m) (Mig_Status m).

(** [vmav1alpha1.GroupVersion.String()] *)
Definition GroupVersion : string := "vma.nutanix.io/v1alpha1".

(** The owner reference the controllers put on the objects of a migration. *)
Definition ownerRef (m : Migration) : OwnerReference :=
  mkOwnerReference GroupVersion "Migration" (Meta_Name (Mig_Meta m)) (Meta_UID (Mig_Meta m)).

(** ** Core objects *)

Record Secret := mkSecret { Secret_Meta : ObjectMeta; Secret_Data : gmap string string }.
Record ConfigMap := mkConfigMap { ConfigMap_Meta : ObjectMeta; ConfigMap_Data : gmap string string }.

(** A [resource.Quantity] as the source writes it: [MustParse] of a text, or
    [NewQuantity] of a value in [BinarySI]. *)
Inductive Quantity :=
| MustParse (s : string)
| NewQuantityBinarySI (v : Z).

Inductive EnvVar :=
| EnvFromSecret (name secret key : string)
| EnvValue (name value : string).

Record VolumeMount := mkVolumeMount { Mount_Name : string; Mount_Path : string; Mount_ReadOnly : bool }.

Inductive VolumeSource :=
| VolumePVC (claim : string)
| VolumeConfigMap (name : string)
| VolumeNone.

Record Volume := mkVolume { Volume_Name : string; Volume_Source : VolumeSource }.

Record Container := mkContainer {
  Container_Name : string;
  Container_Image : string;
  Container_Command : list string;
  Container_Env : list EnvVar;
  Container_VolumeMounts : list VolumeMount
}.

Inductive RestartPolicy := RestartPolicyNever | RestartPolicyOther.

Record PodSpec := mkPodSpec {
  PodSpec_ServiceAccountName : string;
  PodSpec_RestartPolicy : RestartPolicy;
  PodSpec_Containers : list Container;
  PodSpec_Volumes : list Volume
}.

Inductive PodPhase := PodPending | PodRunning | PodSucceeded | PodFailed | PodUnknown | PodPhaseNone.

Record Pod := mkPod { Pod_Meta : ObjectMeta; Pod_Spec : PodSpec; Pod_Phase : PodPhase }.

Record Job := mkJob {
  Job_Meta : ObjectMeta;
  Job_BackoffLimit : Z;
  Job_ActiveDeadlineSeconds : Z;
  Job_PodSpec : PodSpec;
  Job_Succeeded : Z;
  Job_Failed : Z
}.

(** ** CDI *)

Inductive DataVolumePhase := DVSucceeded | DVFailed | DVOther (p : string).

Record DataVolume := mkDataVolume {
  DV_Meta : ObjectMeta;
  DV_URL : string;
  DV_SecretRef : string;
  DV_CertConfigMap : string;
  DV_AccessModes : list AccessMode;
  DV_StorageClassName : string;
  DV_VolumeMode : PersistentVolumeMode;
  DV_StorageRequest : Quantity;
  DV_Phase : DataVolumePhase;
  DV_Progress : string
}.

(** ** KubeVirt *)

Inductive DiskBus := DiskBusSCSI | DiskBusSATA | DiskBusVirtio.

Record KvDisk := mkKvDisk { KvDisk_Name : string; KvDisk_Bus : DiskBus; KvDisk_BootOrder : option Z }.

Record KvVolume := mkKvVolume { KvVolume_Name : string; KvVolume_PVC : option string }.

Inductive InterfaceBinding := BindingBridge | BindingMasquerade.

Record KvInterface := mkKvInterface {
  KvInterface_Name : string; KvInterface_Binding : InterfaceBinding; KvInterface_MacAddress : string }.

Inductive KvNetworkSource := KvMultus (networkName : string) | KvPod.

Record KvNetwork := mkKvNetwork { KvNetwork_Name : string; KvNetwork_Source : KvNetworkSource }.

Record KvCPU := mkKvCPU { CPU_Sockets : Z; CPU_Cores : Z; CPU_Threads : Z }.

Inductive Bootloader := BIOS | EFI (secureBoot : bool).

Inductive RunStrategy := RunStrategyHalted | RunStrategyAlways | RunStrategyOther.

Record VirtualMachine := mkVirtualMachine {
  KvVM_Meta : ObjectMeta;
  KvVM_RunStrategy : option RunStrategy;
  KvVM_TemplateLabels : gmap string string;
  KvVM_CPU : KvCPU;
  KvVM_MemoryGuest : Quantity;
  KvVM_MachineType : string;
  KvVM_Bootloader : Bootloader;
  KvVM_SMM : option bool;
  KvVM_MemoryRequest : Quantity;
  KvVM_Disks : list KvDisk;
  KvVM_Interfaces : list KvInterface;
  KvVM_Volumes : list KvVolume;
  KvVM_Networks : list KvNetwork
}.

Definition setRunStrategy (r : option RunStrategy) (v : VirtualMachine) : VirtualMachine :=
  mkVirtualMachine (KvVM_Meta v) r (KvVM_TemplateLabels v) (KvVM_CPU v) (KvVM_MemoryGuest v)
    (KvVM_MachineType v) (KvVM_Bootloader v) (KvVM_SMM v) (KvVM_MemoryRequest v) (KvVM_Disks v)
    (KvVM_Interfaces v) (KvVM_Volumes v) (KvVM_Networks v).
