(* ===== verification/DeepCopy.v ===== *)
(** * Deep copies of the custom resources (api/v1alpha1/zz_generated.deepcopy.go)

    The controllers read the custom resources from a cache that other goroutines share, and change
    what they read; the cache hands out deep copies. The structs as Go lays them out, one type of
    Heap.v per struct, and the generated [DeepCopyInto], [DeepCopy] and [DeepCopyObject] of each,
    in the order of the structs' use. [DeepCopyInto] is given what [in] points to and returns what
    it leaves in [out]; the two never overlap. What metav1 and corev1 bring in is a parameter: the
    layout of its types, its own copies, and that they are copies. *)

From S2P Require Import Prelude GoLib Heap.

(** ** Types of the Kubernetes libraries *)

Class MetaTypes := {
  ObjectMeta_ty : ty;
  ListMeta_ty : ty;
  Condition_ty : ty;
  Time_ty : ty;
  ObjectMeta_DeepCopyInto : val → H val;
  ListMeta_DeepCopyInto : val → H val;
  Condition_DeepCopyInto : val → H val;
  Time_DeepCopy : val → H val
}.

(** The copies of metav1 are copies. [metav1.Time] is opaque here: its DeepCopy assigns the struct, so
    that the time zone its unexported pointer refers to, which is never written, stays shared. *)
Class MetaCopies `{MetaTypes} : Prop := {
  ObjectMeta_copies :: Copies ObjectMeta_ty ObjectMeta_DeepCopyInto;
  ListMeta_copies :: Copies ListMeta_ty ListMeta_DeepCopyInto;
  Condition_copies :: Copies Condition_ty Condition_DeepCopyInto;
  Time_copies :: Copies (TPtr Time_ty) Time_DeepCopy;
  Time_nil h : Time_DeepCopy VNil h = Some (h, VNil)
}.

Definition TypeMeta_ty : ty := TStruct [("Kind", TStr); ("APIVersion", TStr)].
Definition LocalObjectReference_ty : ty := TStruct [("Name", TStr)].

Section DeepCopies.
Context `{MetaTypes}.

(** ** Layout of the structs *)

Definition Concern_ty : ty := TStruct [("Category", TStr); ("Message", TStr)].
Definition HookSpec_ty : ty := TStruct [("Image", TStr); ("Playbook", TStr); ("Deadline", TStr); ("ServiceAccount",
  TStr)].
Definition HookStatus_ty : ty := TStruct [("Conditions", TSlice Condition_ty)].
Definition Hook_ty : ty := TStruct [("TypeMeta", TypeMeta_ty); ("ObjectMeta", ObjectMeta_ty); ("Spec", HookSpec_ty);
  ("Status", HookStatus_ty)].
Definition HookList_ty : ty := TStruct [("TypeMeta", TypeMeta_ty); ("ListMeta", ListMeta_ty); ("Items", TSlice
  Hook_ty)].
Definition MigrationSpec_ty : ty := TStruct [("PlanRef", LocalObjectReference_ty); ("Cutover", TPtr Time_ty);
  ("Cancel", TSlice TStr)].
Definition WarmMigrationStatus_ty : ty := TStruct [("PrecopyRounds", TInt); ("CumulativeBytes", TInt);
  ("LastDeltaBytes", TInt); ("BaseSnapshotUUID", TStr); ("BaseImageUUIDs", TSlice TStr); ("LastPrecopyTime", TPtr
  Time_ty); ("DeltaSnapshotUUID", TStr); ("DeltaImageUUIDs", TSlice TStr); ("DeltaPodName", TStr); ("DeltaDiskIndex",
  TInt); ("DeltaBytes", TInt)].
Definition VMMigrationStatus_ty : ty := TStruct [("ID", TStr); ("Name", TStr); ("Phase", TStr); ("Started", TPtr
  Time_ty); ("Completed", TPtr Time_ty); ("Error", TStr); ("SnapshotUUID", TStr); ("ImageUUIDs", TSlice TStr);
  ("TaskUUID", TStr); ("DataVolumeNames", TSlice TStr); ("OriginalPowerState", TStr); ("Warm", TPtr
  WarmMigrationStatus_ty)].
Definition MigrationStatus_ty : ty := TStruct [("Phase", TStr); ("Started", TPtr Time_ty); ("Completed", TPtr
  Time_ty); ("VMs", TSlice VMMigrationStatus_ty); ("Conditions", TSlice Condition_ty)].
Definition Migration_ty : ty := TStruct [("TypeMeta", TypeMeta_ty); ("ObjectMeta", ObjectMeta_ty); ("Spec",
  MigrationSpec_ty); ("Status", MigrationStatus_ty)].
Definition MigrationList_ty : ty := TStruct [("TypeMeta", TypeMeta_ty); ("ListMeta", ListMeta_ty); ("Items", TSlice
  Migration_ty)].
Definition PlanHookRef_ty : ty := TStruct [("HookRef", LocalObjectReference_ty); ("Step", TStr)].
Definition PlanVM_ty : ty := TStruct [("ID", TStr); ("Name", TStr); ("Hooks", TSlice PlanHookRef_ty)].
Definition WarmConfig_ty : ty := TStruct [("PrecopyInterval", TStr); ("MaxPrecopyRounds", TInt)].
Definition MigrationPlanSpec_ty : ty := TStruct [("ProviderRef", LocalObjectReference_ty); ("TargetNamespace", TStr);
  ("Type", TStr); ("NetworkMapRef", LocalObjectReference_ty); ("StorageMapRef", LocalObjectReference_ty); ("VMs",
  TSlice PlanVM_ty); ("MaxInFlight", TInt); ("TargetPowerState", TStr); ("WarmConfig", TPtr WarmConfig_ty)].
Definition VMValidationStatus_ty : ty := TStruct [("ID", TStr); ("Name", TStr); ("Concerns", TSlice Concern_ty)].
Definition MigrationPlanStatus_ty : ty := TStruct [("Phase", TStr); ("VMs", TSlice VMValidationStatus_ty);
  ("Conditions", TSlice Condition_ty)].
Definition MigrationPlan_ty : ty := TStruct [("TypeMeta", TypeMeta_ty); ("ObjectMeta", ObjectMeta_ty); ("Spec",
  MigrationPlanSpec_ty); ("Status", MigrationPlanStatus_ty)].
Definition MigrationPlanList_ty : ty := TStruct [("TypeMeta", TypeMeta_ty); ("ListMeta", ListMeta_ty); ("Items",
  TSlice MigrationPlan_ty)].
Definition NetworkDestination_ty : ty := TStruct [("Type", TStr); ("Name", TStr); ("Namespace", TStr)].
Definition NetworkSource_ty : ty := TStruct [("ID", TStr); ("Name", TStr)].
Definition NetworkPair_ty : ty := TStruct [("Source", NetworkSource_ty); ("Destination", NetworkDestination_ty)].
Definition NetworkMapSpec_ty : ty := TStruct [("ProviderRef", LocalObjectReference_ty); ("Map", TSlice NetworkPair_ty)].
Definition NetworkMap_ty : ty := TStruct [("TypeMeta", TypeMeta_ty); ("ObjectMeta", ObjectMeta_ty); ("Spec",
  NetworkMapSpec_ty)].
Definition NetworkMapList_ty : ty := TStruct [("TypeMeta", TypeMeta_ty); ("ListMeta", ListMeta_ty); ("Items", TSlice
  NetworkMap_ty)].
Definition NutanixProviderSpec_ty : ty := TStruct [("URL", TStr); ("SecretRef", LocalObjectReference_ty);
  ("RefreshInterval", TStr); ("InsecureSkipVerify", TBool)].
Definition NutanixProviderStatus_ty : ty := TStruct [("Phase", TStr); ("VMCount", TInt); ("Conditions", TSlice
  Condition_ty)].
Definition NutanixProvider_ty : ty := TStruct [("TypeMeta", TypeMeta_ty); ("ObjectMeta", ObjectMeta_ty); ("Spec",
  NutanixProviderSpec_ty); ("Status", NutanixProviderStatus_ty)].
Definition NutanixProviderList_ty : ty := TStruct [("TypeMeta", TypeMeta_ty); ("ListMeta", ListMeta_ty); ("Items",
  TSlice NutanixProvider_ty)].
Definition StorageDestination_ty : ty := TStruct [("StorageClass", TStr); ("VolumeMode", TStr); ("AccessMode", TStr)].
Definition StorageSource_ty : ty := TStruct [("ID", TStr); ("Name", TStr)].
Definition StoragePair_ty : ty := TStruct [("Source", StorageSource_ty); ("Destination", StorageDestination_ty)].
Definition StorageMapSpec_ty : ty := TStruct [("ProviderRef", LocalObjectReference_ty); ("Map", TSlice StoragePair_ty)].
Definition StorageMap_ty : ty := TStruct [("TypeMeta", TypeMeta_ty); ("ObjectMeta", ObjectMeta_ty); ("Spec",
  StorageMapSpec_ty)].
Definition StorageMapList_ty : ty := TStruct [("TypeMeta", TypeMeta_ty); ("ListMeta", ListMeta_ty); ("Items", TSlice
  StorageMap_ty)].

(** ** Copies *)

Definition Concern_DeepCopyInto (in_ : val) : H val :=
  let out := in_ in
  mret out.
Definition Concern_DeepCopy : val → H val := deepCopy Concern_ty Concern_DeepCopyInto.

Definition HookSpec_DeepCopyInto (in_ : val) : H val :=
  let out := in_ in
  mret out.
Definition HookSpec_DeepCopy : val → H val := deepCopy HookSpec_ty HookSpec_DeepCopyInto.

Definition HookStatus_DeepCopyInto (in_ : val) : H val :=
  let out := in_ in
  out ← ifNotNil "Conditions" (makeEach Condition_ty Condition_DeepCopyInto) in_ out;
  mret out.
Definition HookStatus_DeepCopy : val → H val := deepCopy HookStatus_ty HookStatus_DeepCopyInto.

Definition Hook_DeepCopyInto (in_ : val) : H val :=
  let out := in_ in
  out ← assign "TypeMeta" in_ out;
  out ← intoField "ObjectMeta" ObjectMeta_DeepCopyInto in_ out;
  out ← assign "Spec" in_ out;
  out ← intoField "Status" HookStatus_DeepCopyInto in_ out;
  mret out.
Definition Hook_DeepCopy : val → H val := deepCopy Hook_ty Hook_DeepCopyInto.
Definition Hook_DeepCopyObject : val → H (option val) := deepCopyObject Hook_DeepCopy.

Definition HookList_DeepCopyInto (in_ : val) : H val :=
  let out := in_ in
  out ← assign "TypeMeta" in_ out;
  out ← intoField "ListMeta" ListMeta_DeepCopyInto in_ out;
  out ← ifNotNil "Items" (makeEach Hook_ty Hook_DeepCopyInto) in_ out;
  mret out.
Definition HookList_DeepCopy : val → H val := deepCopy HookList_ty HookList_DeepCopyInto.
Definition HookList_DeepCopyObject : val → H (option val) := deepCopyObject HookList_DeepCopy.

Definition MigrationSpec_DeepCopyInto (in_ : val) : H val :=
  let out := in_ in
  out ← assign "PlanRef" in_ out;
  out ← ifNotNil "Cutover" Time_DeepCopy in_ out;
  out ← ifNotNil "Cancel" (makeCopy TStr) in_ out;
  mret out.
Definition MigrationSpec_DeepCopy : val → H val := deepCopy MigrationSpec_ty MigrationSpec_DeepCopyInto.

Definition WarmMigrationStatus_DeepCopyInto (in_ : val) : H val :=
  let out := in_ in
  out ← ifNotNil "BaseImageUUIDs" (makeCopy TStr) in_ out;
  out ← ifNotNil "LastPrecopyTime" Time_DeepCopy in_ out;
  out ← ifNotNil "DeltaImageUUIDs" (makeCopy TStr) in_ out;
  mret out.
Definition WarmMigrationStatus_DeepCopy : val → H val := deepCopy WarmMigrationStatus_ty WarmMigrationStatus_DeepCopyInto.

Definition VMMigrationStatus_DeepCopyInto (in_ : val) : H val :=
  let out := in_ in
  out ← ifNotNil "Started" Time_DeepCopy in_ out;
  out ← ifNotNil "Completed" Time_DeepCopy in_ out;
  out ← ifNotNil "ImageUUIDs" (makeCopy TStr) in_ out;
  out ← ifNotNil "DataVolumeNames" (makeCopy TStr) in_ out;
  out ← ifNotNil "Warm" (newInto WarmMigrationStatus_ty WarmMigrationStatus_DeepCopyInto) in_ out;
  mret out.
Definition VMMigrationStatus_DeepCopy : val → H val := deepCopy VMMigrationStatus_ty VMMigrationStatus_DeepCopyInto.

Definition MigrationStatus_DeepCopyInto (in_ : val) : H val :=
  let out := in_ in
  out ← ifNotNil "Started" Time_DeepCopy in_ out;
  out ← ifNotNil "Completed" Time_DeepCopy in_ out;
  out ← ifNotNil "VMs" (makeEach VMMigrationStatus_ty VMMigrationStatus_DeepCopyInto) in_ out;
  out ← ifNotNil "Conditions" (makeEach Condition_ty Condition_DeepCopyInto) in_ out;
  mret out.
Definition MigrationStatus_DeepCopy : val → H val := deepCopy MigrationStatus_ty MigrationStatus_DeepCopyInto.

Definition Migration_DeepCopyInto (in_ : val) : H val :=
  let out := in_ in
  out ← assign "TypeMeta" in_ out;
  out ← intoField "ObjectMeta" ObjectMeta_DeepCopyInto in_ out;
  out ← intoField "Spec" MigrationSpec_DeepCopyInto in_ out;
  out ← intoField "Status" MigrationStatus_DeepCopyInto in_ out;
  mret out.
Definition Migration_DeepCopy : val → H val := deepCopy Migration_ty Migration_DeepCopyInto.
Definition Migration_DeepCopyObject : val → H (option val) := deepCopyObject Migration_DeepCopy.

Definition MigrationList_DeepCopyInto (in_ : val) : H val :=
  let out := in_ in
  out ← assign "TypeMeta" in_ out;
  out ← intoField "ListMeta" ListMeta_DeepCopyInto in_ out;
  out ← ifNotNil "Items" (makeEach Migration_ty Migration_DeepCopyInto) in_ out;
  mret out.
Definition MigrationList_DeepCopy : val → H val := deepCopy MigrationList_ty MigrationList_DeepCopyInto.
Definition MigrationList_DeepCopyObject : val → H (option val) := deepCopyObject MigrationList_DeepCopy.

Definition PlanHookRef_DeepCopyInto (in_ : val) : H val :=
  let out := in_ in
  out ← assign "HookRef" in_ out;
  mret out.
Definition PlanHookRef_DeepCopy : val → H val := deepCopy PlanHookRef_ty PlanHookRef_DeepCopyInto.

Definition PlanVM_DeepCopyInto (in_ : val) : H val :=
  let out := in_ in
  out ← ifNotNil "Hooks" (makeCopy PlanHookRef_ty) in_ out;
  mret out.
Definition PlanVM_DeepCopy : val → H val := deepCopy PlanVM_ty PlanVM_DeepCopyInto.

Definition WarmConfig_DeepCopyInto (in_ : val) : H val :=
  let out := in_ in
  mret out.
Definition WarmConfig_DeepCopy : val → H val := deepCopy WarmConfig_ty WarmConfig_DeepCopyInto.

Definition MigrationPlanSpec_DeepCopyInto (in_ : val) : H val :=
  let out := in_ in
  out ← assign "ProviderRef" in_ out;
  out ← assign "NetworkMapRef" in_ out;
  out ← assign "StorageMapRef" in_ out;
  out ← ifNotNil "VMs" (makeEach PlanVM_ty PlanVM_DeepCopyInto) in_ out;
  out ← ifNotNil "WarmConfig" (newCopy WarmConfig_ty) in_ out;
  mret out.
Definition MigrationPlanSpec_DeepCopy : val → H val := deepCopy MigrationPlanSpec_ty MigrationPlanSpec_DeepCopyInto.

Definition VMValidationStatus_DeepCopyInto (in_ : val) : H val :=
  let out := in_ in
  out ← ifNotNil "Concerns" (makeCopy Concern_ty) in_ out;
  mret out.
Definition VMValidationStatus_DeepCopy : val → H val := deepCopy VMValidationStatus_ty VMValidationStatus_DeepCopyInto.

Definition MigrationPlanStatus_DeepCopyInto (in_ : val) : H val :=
  let out := in_ in
  out ← ifNotNil "VMs" (makeEach VMValidationStatus_ty VMValidationStatus_DeepCopyInto) in_ out;
  out ← ifNotNil "Conditions" (makeEach Condition_ty Condition_DeepCopyInto) in_ out;
  mret out.
Definition MigrationPlanStatus_DeepCopy : val → H val := deepCopy MigrationPlanStatus_ty MigrationPlanStatus_DeepCopyInto.

Definition MigrationPlan_DeepCopyInto (in_ : val) : H val :=
  let out := in_ in
  out ← assign "TypeMeta" in_ out;
  out ← intoField "ObjectMeta" ObjectMeta_DeepCopyInto in_ out;
  out ← intoField "Spec" MigrationPlanSpec_DeepCopyInto in_ out;
  out ← intoField "Status" MigrationPlanStatus_DeepCopyInto in_ out;
  mret out.
Definition MigrationPlan_DeepCopy : val → H val := deepCopy MigrationPlan_ty MigrationPlan_DeepCopyInto.
Definition MigrationPlan_DeepCopyObject : val → H (option val) := deepCopyObject MigrationPlan_DeepCopy.

Definition MigrationPlanList_DeepCopyInto (in_ : val) : H val :=
  let out := in_ in
  out ← assign "TypeMeta" in_ out;
  out ← intoField "ListMeta" ListMeta_DeepCopyInto in_ out;
  out ← ifNotNil "Items" (makeEach MigrationPlan_ty MigrationPlan_DeepCopyInto) in_ out;
  mret out.
Definition MigrationPlanList_DeepCopy : val → H val := deepCopy MigrationPlanList_ty MigrationPlanList_DeepCopyInto.
Definition MigrationPlanList_DeepCopyObject : val → H (option val) := deepCopyObject MigrationPlanList_DeepCopy.

Definition NetworkDestination_DeepCopyInto (in_ : val) : H val :=
  let out := in_ in
  mret out.
Definition NetworkDestination_DeepCopy : val → H val := deepCopy NetworkDestination_ty NetworkDestination_DeepCopyInto.

Definition NetworkSource_DeepCopyInto (in_ : val) : H val :=
  let out := in_ in
  mret out.
Definition NetworkSource_DeepCopy : val → H val := deepCopy NetworkSource_ty NetworkSource_DeepCopyInto.

Definition NetworkPair_DeepCopyInto (in_ : val) : H val :=
  let out := in_ in
  out ← assign "Source" in_ out;
  out ← assign "Destination" in_ out;
  mret out.
Definition NetworkPair_DeepCopy : val → H val := deepCopy NetworkPair_ty NetworkPair_DeepCopyInto.

Definition NetworkMapSpec_DeepCopyInto (in_ : val) : H val :=
  let out := in_ in
  out ← assign "ProviderRef" in_ out;
  out ← ifNotNil "Map" (makeCopy NetworkPair_ty) in_ out;
  mret out.
Definition NetworkMapSpec_DeepCopy : val → H val := deepCopy NetworkMapSpec_ty NetworkMapSpec_DeepCopyInto.

Definition NetworkMap_DeepCopyInto (in_ : val) : H val :=
  let out := in_ in
  out ← assign "TypeMeta" in_ out;
  out ← intoField "ObjectMeta" ObjectMeta_DeepCopyInto in_ out;
  out ← intoField "Spec" NetworkMapSpec_DeepCopyInto in_ out;
  mret out.
Definition NetworkMap_DeepCopy : val → H val := deepCopy NetworkMap_ty NetworkMap_DeepCopyInto.
Definition NetworkMap_DeepCopyObject : val → H (option val) := deepCopyObject NetworkMap_DeepCopy.

Definition NetworkMapList_DeepCopyInto (in_ : val) : H val :=
  let out := in_ in
  out ← assign "TypeMeta" in_ out;
  out ← intoField "ListMeta" ListMeta_DeepCopyInto in_ out;
  out ← ifNotNil "Items" (makeEach NetworkMap_ty NetworkMap_DeepCopyInto) in_ out;
  mret out.
Definition NetworkMapList_DeepCopy : val → H val := deepCopy NetworkMapList_ty NetworkMapList_DeepCopyInto.
Definition NetworkMapList_DeepCopyObject : val → H (option val) := deepCopyObject NetworkMapList_DeepCopy.

Definition NutanixProviderSpec_DeepCopyInto (in_ : val) : H val :=
  let out := in_ in
  out ← assign "SecretRef" in_ out;
  mret out.
Definition NutanixProviderSpec_DeepCopy : val → H val := deepCopy NutanixProviderSpec_ty NutanixProviderSpec_DeepCopyInto.

Definition NutanixProviderStatus_DeepCopyInto (in_ : val) : H val :=
  let out := in_ in
  out ← ifNotNil "Conditions" (makeEach Condition_ty Condition_DeepCopyInto) in_ out;
  mret out.
Definition NutanixProviderStatus_DeepCopy : val → H val := deepCopy NutanixProviderStatus_ty NutanixProviderStatus_DeepCopyInto.

Definition NutanixProvider_DeepCopyInto (in_ : val) : H val :=
  let out := in_ in
  out ← assign "TypeMeta" in_ out;
  out ← intoField "ObjectMeta" ObjectMeta_DeepCopyInto in_ out;
  out ← assign "Spec" in_ out;
  out ← intoField "Status" NutanixProviderStatus_DeepCopyInto in_ out;
  mret out.
Definition NutanixProvider_DeepCopy : val → H val := deepCopy NutanixProvider_ty NutanixProvider_DeepCopyInto.
Definition NutanixProvider_DeepCopyObject : val → H (option val) := deepCopyObject NutanixProvider_DeepCopy.

Definition NutanixProviderList_DeepCopyInto (in_ : val) : H val :=
  let out := in_ in
  out ← assign "TypeMeta" in_ out;
  out ← intoField "ListMeta" ListMeta_DeepCopyInto in_ out;
  out ← ifNotNil "Items" (makeEach NutanixProvider_ty NutanixProvider_DeepCopyInto) in_ out;
  mret out.
Definition NutanixProviderList_DeepCopy : val → H val := deepCopy NutanixProviderList_ty NutanixProviderList_DeepCopyInto.
Definition NutanixProviderList_DeepCopyObject : val → H (option val) := deepCopyObject NutanixProviderList_DeepCopy.

Definition StorageDestination_DeepCopyInto (in_ : val) : H val :=
  let out := in_ in
  mret out.
Definition StorageDestination_DeepCopy : val → H val := deepCopy StorageDestination_ty StorageDestination_DeepCopyInto.

Definition StorageSource_DeepCopyInto (in_ : val) : H val :=
  let out := in_ in
  mret out.
Definition StorageSource_DeepCopy : val → H val := deepCopy StorageSource_ty StorageSource_DeepCopyInto.

Definition StoragePair_DeepCopyInto (in_ : val) : H val :=
  let out := in_ in
  out ← assign "Source" in_ out;
  out ← assign "Destination" in_ out;
  mret out.
Definition StoragePair_DeepCopy : val → H val := deepCopy StoragePair_ty StoragePair_DeepCopyInto.

Definition StorageMapSpec_DeepCopyInto (in_ : val) : H val :=
  let out := in_ in
  out ← assign "ProviderRef" in_ out;
  out ← ifNotNil "Map" (makeCopy StoragePair_ty) in_ out;
  mret out.
Definition StorageMapSpec_DeepCopy : val → H val := deepCopy StorageMapSpec_ty StorageMapSpec_DeepCopyInto.

Definition StorageMap_DeepCopyInto (in_ : val) : H val :=
  let out := in_ in
  out ← assign "TypeMeta" in_ out;
  out ← intoField "ObjectMeta" ObjectMeta_DeepCopyInto in_ out;
  out ← intoField "Spec" StorageMapSpec_DeepCopyInto in_ out;
  mret out.
Definition StorageMap_DeepCopy : val → H val := deepCopy StorageMap_ty StorageMap_DeepCopyInto.
Definition StorageMap_DeepCopyObject : val → H (option val) := deepCopyObject StorageMap_DeepCopy.

Definition StorageMapList_DeepCopyInto (in_ : val) : H val :=
  let out := in_ in
  out ← assign "TypeMeta" in_ out;
  out ← intoField "ListMeta" ListMeta_DeepCopyInto in_ out;
  out ← ifNotNil "Items" (makeEach StorageMap_ty StorageMap_DeepCopyInto) in_ out;
  mret out.
Definition StorageMapList_DeepCopy : val → H val := deepCopy StorageMapList_ty StorageMapList_DeepCopyInto.
Definition StorageMapList_DeepCopyObject : val → H (option val) := deepCopyObject StorageMapList_DeepCopy.

End DeepCopies.

(** ** Laws *)

#[global] Typeclasses Opaque Concern_DeepCopyInto HookSpec_DeepCopyInto HookStatus_DeepCopyInto Hook_DeepCopyInto
  HookList_DeepCopyInto MigrationSpec_DeepCopyInto WarmMigrationStatus_DeepCopyInto VMMigrationStatus_DeepCopyInto
  MigrationStatus_DeepCopyInto Migration_DeepCopyInto MigrationList_DeepCopyInto PlanHookRef_DeepCopyInto
  PlanVM_DeepCopyInto WarmConfig_DeepCopyInto MigrationPlanSpec_DeepCopyInto VMValidationStatus_DeepCopyInto
  MigrationPlanStatus_DeepCopyInto MigrationPlan_DeepCopyInto MigrationPlanList_DeepCopyInto
  NetworkDestination_DeepCopyInto NetworkSource_DeepCopyInto NetworkPair_DeepCopyInto NetworkMapSpec_DeepCopyInto
  NetworkMap_DeepCopyInto NetworkMapList_DeepCopyInto NutanixProviderSpec_DeepCopyInto
  NutanixProviderStatus_DeepCopyInto NutanixProvider_DeepCopyInto NutanixProviderList_DeepCopyInto
  StorageDestination_DeepCopyInto StorageSource_DeepCopyInto StoragePair_DeepCopyInto StorageMapSpec_DeepCopyInto
  StorageMap_DeepCopyInto StorageMapList_DeepCopyInto.

#[global] Instance Time_orNil `{MetaCopies} : Copies (TPtr Time_ty) (orNil Time_DeepCopy).
Proof. apply orNil_copies; [apply Time_nil|apply Time_copies]. Qed.

(** Each field of a struct that denotes, apart. Fields without references have no locations. *)
Ltac split_fields Hr :=
  repeat match type of Hr with
  | denoteFields _ [] _ = Some _ => apply denoteFields_nil_inv in Hr as [-> ->]
  | denoteFields _ (_ :: _) _ = Some _ =>
      let v := fresh "v" in let vs := fresh "vs" in let d := fresh "d" in let X := fresh "X" in let r := fresh "r" in
      let Hm := fresh "Hm" in let Hr' := fresh "Hr" in
      apply denoteFields_cons_inv in Hr as (v & vs & d & X & r & -> & Hm & Hr' & ->); rename Hr' into Hr;
      try (assert (X = ∅) as -> by (refine (denote_flat _ _ _ _ _ _ Hm); reflexivity))
  end.

(** What was read in a heap can be read in a larger one. *)
Ltac grow Hsub :=
  repeat match goal with
  | Hm : denote _ ?h _ = Some _ |- _ => match type of Hsub with h ⊆ _ => eapply denote_mono in Hm; [|exact Hsub] end
  end.

Ltac copy_step :=
  first
  [ eapply assign_step; [reflexivity|reflexivity|]
  | first [eapply into_step; [reflexivity|assumption| |eassumption|]; [solve [tc_solve]|]
          |eapply ifNotNil_step; [reflexivity|reflexivity|assumption| |eassumption|]; [solve [tc_solve]|]];
    let h := fresh "h" in let x := fresh "x" in let X := fresh "X" in let Hsub := fresh "Hsub" in
    intros h x X Hsub ???; grow Hsub; cbn [updateField String.eqb Ascii.eqb Bool.eqb] ].

(** The law of a struct copy, from those of its fields. *)
Ltac copy_law :=
  let h := fresh "h" in let v := fresh "v" in let d := fresh "d" in let X := fresh "X" in let Hd := fresh "Hd" in
  intros h v d X Hd; destruct v as [| | | | | | |vs]; try done;
  match goal with |- ∃ _ _ _, ?run = _ ∧ _ ∧ denote ?T _ _ = _ ∧ _ => change (yieldsCopy h T d run) end;
  assert (h ⊆ h) by done;
  match type of Hd with denote ?T _ _ = _ =>
    let T' := eval hnf in T in change (denote T' h (VStruct vs) = Some (d, X)) in Hd; rewrite denote_struct in Hd end;
  let r := fresh "r" in let Hr := fresh "Hr" in
  apply bind_Some in Hd as (r & Hr & [= <- <-]); split_fields Hr;
  cbv zeta; repeat copy_step;
  eexists _, (VStruct _), _; split; [reflexivity|]; split; [assumption|]; split;
  [ eapply denote_struct_intro; [repeat (eapply denoteFields_cons; [eassumption|]); reflexivity|reflexivity|reflexivity]
  | cbn [fmap list_fmap snd union_list]; repeat (apply disjoint_union_l; split); first [assumption|apply disjoint_empty_l] ].

#[global] Instance Concern_copies `{MetaCopies} : Copies Concern_ty Concern_DeepCopyInto.
Proof. unfold Concern_DeepCopyInto. copy_law. Qed.
#[global] Instance HookSpec_copies `{MetaCopies} : Copies HookSpec_ty HookSpec_DeepCopyInto.
Proof. unfold HookSpec_DeepCopyInto. copy_law. Qed.
#[global] Instance HookStatus_copies `{MetaCopies} : Copies HookStatus_ty HookStatus_DeepCopyInto.
Proof. unfold HookStatus_DeepCopyInto. copy_law. Qed.
#[global] Instance Hook_copies `{MetaCopies} : Copies Hook_ty Hook_DeepCopyInto.
Proof. unfold Hook_DeepCopyInto. copy_law. Qed.
#[global] Instance HookList_copies `{MetaCopies} : Copies HookList_ty HookList_DeepCopyInto.
Proof. unfold HookList_DeepCopyInto. copy_law. Qed.
#[global] Instance MigrationSpec_copies `{MetaCopies} : Copies MigrationSpec_ty MigrationSpec_DeepCopyInto.
Proof. unfold MigrationSpec_DeepCopyInto. copy_law. Qed.
#[global] Instance WarmMigrationStatus_copies `{MetaCopies} : Copies WarmMigrationStatus_ty WarmMigrationStatus_DeepCopyInto.
Proof. unfold WarmMigrationStatus_DeepCopyInto. copy_law. Qed.
#[global] Instance VMMigrationStatus_copies `{MetaCopies} : Copies VMMigrationStatus_ty VMMigrationStatus_DeepCopyInto.
Proof. unfold VMMigrationStatus_DeepCopyInto. copy_law. Qed.
#[global] Instance MigrationStatus_copies `{MetaCopies} : Copies MigrationStatus_ty MigrationStatus_DeepCopyInto.
Proof. unfold MigrationStatus_DeepCopyInto. copy_law. Qed.
#[global] Instance Migration_copies `{MetaCopies} : Copies Migration_ty Migration_DeepCopyInto.
Proof. unfold Migration_DeepCopyInto. copy_law. Qed.
#[global] Instance MigrationList_copies `{MetaCopies} : Copies MigrationList_ty MigrationList_DeepCopyInto.
Proof. unfold MigrationList_DeepCopyInto. copy_law. Qed.
#[global] Instance PlanHookRef_copies `{MetaCopies} : Copies PlanHookRef_ty PlanHookRef_DeepCopyInto.
Proof. unfold PlanHookRef_DeepCopyInto. copy_law. Qed.
#[global] Instance PlanVM_copies `{MetaCopies} : Copies PlanVM_ty PlanVM_DeepCopyInto.
Proof. unfold PlanVM_DeepCopyInto. copy_law. Qed.
#[global] Instance WarmConfig_copies `{MetaCopies} : Copies WarmConfig_ty WarmConfig_DeepCopyInto.
Proof. unfold WarmConfig_DeepCopyInto. copy_law. Qed.
#[global] Instance MigrationPlanSpec_copies `{MetaCopies} : Copies MigrationPlanSpec_ty MigrationPlanSpec_DeepCopyInto.
Proof. unfold MigrationPlanSpec_DeepCopyInto. copy_law. Qed.
#[global] Instance VMValidationStatus_copies `{MetaCopies} : Copies VMValidationStatus_ty VMValidationStatus_DeepCopyInto.
Proof. unfold VMValidationStatus_DeepCopyInto. copy_law. Qed.
#[global] Instance MigrationPlanStatus_copies `{MetaCopies} : Copies MigrationPlanStatus_ty MigrationPlanStatus_DeepCopyInto.
Proof. unfold MigrationPlanStatus_DeepCopyInto. copy_law. Qed.
#[global] Instance MigrationPlan_copies `{MetaCopies} : Copies MigrationPlan_ty MigrationPlan_DeepCopyInto.
Proof. unfold MigrationPlan_DeepCopyInto. copy_law. Qed.
#[global] Instance MigrationPlanList_copies `{MetaCopies} : Copies MigrationPlanList_ty MigrationPlanList_DeepCopyInto.
Proof. unfold MigrationPlanList_DeepCopyInto. copy_law. Qed.
#[global] Instance NetworkDestination_copies `{MetaCopies} : Copies NetworkDestination_ty NetworkDestination_DeepCopyInto.
Proof. unfold NetworkDestination_DeepCopyInto. copy_law. Qed.
#[global] Instance NetworkSource_copies `{MetaCopies} : Copies NetworkSource_ty NetworkSource_DeepCopyInto.
Proof. unfold NetworkSource_DeepCopyInto. copy_law. Qed.
#[global] Instance NetworkPair_copies `{MetaCopies} : Copies NetworkPair_ty NetworkPair_DeepCopyInto.
Proof. unfold NetworkPair_DeepCopyInto. copy_law. Qed.
#[global] Instance NetworkMapSpec_copies `{MetaCopies} : Copies NetworkMapSpec_ty NetworkMapSpec_DeepCopyInto.
Proof. unfold NetworkMapSpec_DeepCopyInto. copy_law. Qed.
#[global] Instance NetworkMap_copies `{MetaCopies} : Copies NetworkMap_ty NetworkMap_DeepCopyInto.
Proof. unfold NetworkMap_DeepCopyInto. copy_law. Qed.
#[global] Instance NetworkMapList_copies `{MetaCopies} : Copies NetworkMapList_ty NetworkMapList_DeepCopyInto.
Proof. unfold NetworkMapList_DeepCopyInto. copy_law. Qed.
#[global] Instance NutanixProviderSpec_copies `{MetaCopies} : Copies NutanixProviderSpec_ty NutanixProviderSpec_DeepCopyInto.
Proof. unfold NutanixProviderSpec_DeepCopyInto. copy_law. Qed.
#[global] Instance NutanixProviderStatus_copies `{MetaCopies} : Copies NutanixProviderStatus_ty NutanixProviderStatus_DeepCopyInto.
Proof. unfold NutanixProviderStatus_DeepCopyInto. copy_law. Qed.
#[global] Instance NutanixProvider_copies `{MetaCopies} : Copies NutanixProvider_ty NutanixProvider_DeepCopyInto.
Proof. unfold NutanixProvider_DeepCopyInto. copy_law. Qed.
#[global] Instance NutanixProviderList_copies `{MetaCopies} : Copies NutanixProviderList_ty NutanixProviderList_DeepCopyInto.
Proof. unfold NutanixProviderList_DeepCopyInto. copy_law. Qed.
#[global] Instance StorageDestination_copies `{MetaCopies} : Copies StorageDestination_ty StorageDestination_DeepCopyInto.
Proof. unfold StorageDestination_DeepCopyInto. copy_law. Qed.
#[global] Instance StorageSource_copies `{MetaCopies} : Copies StorageSource_ty StorageSource_DeepCopyInto.
Proof. unfold StorageSource_DeepCopyInto. copy_law. Qed.
#[global] Instance StoragePair_copies `{MetaCopies} : Copies StoragePair_ty StoragePair_DeepCopyInto.
Proof. unfold StoragePair_DeepCopyInto. copy_law. Qed.
#[global] Instance StorageMapSpec_copies `{MetaCopies} : Copies StorageMapSpec_ty StorageMapSpec_DeepCopyInto.
Proof. unfold StorageMapSpec_DeepCopyInto. copy_law. Qed.
#[global] Instance StorageMap_copies `{MetaCopies} : Copies StorageMap_ty StorageMap_DeepCopyInto.
Proof. unfold StorageMap_DeepCopyInto. copy_law. Qed.
#[global] Instance StorageMapList_copies `{MetaCopies} : Copies StorageMapList_ty StorageMapList_DeepCopyInto.
Proof. unfold StorageMapList_DeepCopyInto. copy_law. Qed.

(** ** Isolation *)

(** [DeepCopyObject] of a pointer gives nil for nil, and otherwise a new object: it stands for
    the same, the copy has left the memory alone, what is later written through the copy does not
    show in the original, and what is written to any memory there was before, the original's
    included, does not show in the copy. *)
Definition isolates (t : ty) (copy : val → H (option val)) : Prop :=
  (∀ h, copy VNil h = Some (h, None)) ∧
  ∀ h p d X, p ≠ VNil → denote (TPtr t) h p = Some (d, X) →
    ∃ h' c Y, copy p h = Some (h', Some c) ∧ denote (TPtr t) h' c = Some (d, Y) ∧ h ⊆ h' ∧
      (∀ w, (∀ l, l ∉ Y → w !! l = h' !! l) → denote (TPtr t) w p = Some (d, X)) ∧
      (∀ w, (∀ l, l ∉ dom h → w !! l = h' !! l) → denote (TPtr t) w c = Some (d, Y)).

Lemma object_isolates t into : Copies t into → isolates t (deepCopyObject (deepCopy t into)).
Proof.
  intros Hc. split; [done|]. intros h p d X Hp Hd.
  destruct (copies (Copies := deepCopy_copies t into Hc) h p d X Hd) as (h' & c & Y & Hrun & Hsub & Hd' & HY).
  assert (isNil c = false) as Hn.
  { destruct p; try done. unfold deepCopy in Hrun. simpl in Hrun. destruct c; try done. simpl in Hd'.
    simpl in Hd. destruct (h !! l) as [[vs|]|]; try done. apply bind_Some in Hd as (v & _ & Hd). apply bind_Some in Hd as (m & _ & Hd). congruence. }
  exists h', c, Y. unfold deepCopyObject. rewrite (bind_runs _ _ _ _ _ Hrun), Hn. split; [done|]. split; [done|]. split; [done|].
  pose proof (denote_dom _ _ _ _ _ Hd) as HX. split; intros w Hw.
  - eapply denote_frame; [exact Hd|]. intros l Hl. rewrite Hw by set_solver. by eapply agree_subseteq.
  - eapply denote_frame; [exact Hd'|]. intros l Hl. apply Hw. set_solver.
Qed.

(** The objects the package registers, with the types of their structs. *)
Definition apiObjects `{MetaTypes} : list (ty * (val → H (option val))) :=
  [(Hook_ty, Hook_DeepCopyObject); (HookList_ty, HookList_DeepCopyObject);
   (Migration_ty, Migration_DeepCopyObject); (MigrationList_ty, MigrationList_DeepCopyObject);
   (MigrationPlan_ty, MigrationPlan_DeepCopyObject); (MigrationPlanList_ty, MigrationPlanList_DeepCopyObject);
   (NetworkMap_ty, NetworkMap_DeepCopyObject); (NetworkMapList_ty, NetworkMapList_DeepCopyObject);
   (NutanixProvider_ty, NutanixProvider_DeepCopyObject); (NutanixProviderList_ty, NutanixProviderList_DeepCopyObject);
   (StorageMap_ty, StorageMap_DeepCopyObject); (StorageMapList_ty, StorageMapList_DeepCopyObject)].

(** C19: The deep copies of all custom resources are deep: whatever the object, its copy stands for
    the same value, with nil and empty slices told apart, and shares no memory with it. A controller
    that changes the copy leaves the cached object as it was, and the other way round. *)
Theorem deep_copies_isolate `{MetaCopies} : Forall (λ o, isolates o.1 o.2) apiObjects.
Proof. repeat (constructor; [apply object_isolates; tc_solve|]). constructor. Qed.

(** Metadata with labels and finalizers. *)
Module RefMeta.

Definition entries (l : loc) : H (list (string * val)) := λ h,
  match h !! l with Some (CMap es) => Some (h, es) | _ => None end.

(** A new map with the same entries. *)
Definition copyMap (m : val) : H val :=
  match m with VMap l => es ← entries l; out ← allocate (CMap es); mret (VMap out) | _ => crash end.

#[global] Instance copyMap_copies t : TCEq (flat t) true → Copies (TMap t) (orNil copyMap).
Proof.
  intros Hf%TCEq_eq h v d X Hd. destruct v as [| | | | | |l|]; try done.
  { exists h, VNil, X. split; [done|]. split; [done|]. split; [done|]. simpl in Hd. injection Hd as _ <-. set_solver. }
  simpl in Hd. destruct (h !! l) as [[|es]|] eqn:El; try done. apply bind_Some in Hd as (r & Hr & [= <- <-]).
  unfold orNil, copyMap. simpl. rewrite (bind_runs _ _ h h es) by (unfold entries; by rewrite El).
  rewrite (bind_runs _ _ _ _ _ (allocate_runs (CMap es) h)).
  assert (⋃ r.*2 ⊆ ∅) as Hfp by (eapply (mapM_dom (denote t h)); [|exact Hr]; intros x d X Hx; by rewrite (denote_flat _ _ _ _ _ Hf Hx)).
  exists (<[fresh (dom h) := CMap es]> h), (VMap (fresh (dom h))), ({[fresh (dom h)]} ∪ ⋃ r.*2).
  split; [done|]. split; [apply allocated_subseteq|]. split.
  - simpl. rewrite lookup_insert_eq. apply bind_Some. exists r. split; [|done]. eapply mapM_frame; [exact Hr|].
    intros x [d Y] Hx _. eapply denote_mono; [exact Hx|]. apply allocated_subseteq.
  - pose proof (is_fresh (dom h)). set_solver.
Qed.

Definition objectMeta : ty := TStruct [("Name", TStr); ("Labels", TMap TStr); ("Finalizers", TSlice TStr)].
Definition condition : ty := TStruct [("Type", TStr); ("Status", TStr)].

#[global] Instance types : MetaTypes := {|
  ObjectMeta_ty := objectMeta;
  ListMeta_ty := TStruct [("ResourceVersion", TStr)];
  Condition_ty := condition;
  Time_ty := TInt;
  ObjectMeta_DeepCopyInto in_ :=
    let out := in_ in
    out ← ifNotNil "Labels" copyMap in_ out;
    out ← ifNotNil "Finalizers" (makeCopy TStr) in_ out;
    mret out;
  ListMeta_DeepCopyInto := mret;
  Condition_DeepCopyInto := mret;
  Time_DeepCopy := deepCopy TInt mret
|}.

#[global] Instance types_copy : MetaCopies.
Proof.
  split; [cbv delta [ObjectMeta_ty ObjectMeta_DeepCopyInto types]; cbv beta match; copy_law|by apply copies_flat..|apply deepCopy_copies; by apply copies_flat|done].
Qed.

(** A migration with a label, a cutover and a VM to cancel. *)
Definition migration : val :=
  VStruct [("TypeMeta", VStruct [("Kind", VStr "Migration"); ("APIVersion", VStr "v1alpha1")]);
    ("ObjectMeta", VStruct [("Name", VStr "mig"); ("Labels", VMap 2); ("Finalizers", VNil)]);
    ("Spec", VStruct [("PlanRef", VStruct [("Name", VStr "plan")]); ("Cutover", VPtr 3 0); ("Cancel", VSlice 4 1 1)]);
    ("Status", VStruct [("Phase", VStr "Running"); ("Started", VPtr 3 0); ("Completed", VNil); ("VMs", VNil); ("Conditions", VSlice 5 0 0)])].

Definition memory : heap :=
  {[1%positive := CArray [migration]; 2%positive := CMap [("app", VStr "vma")]; 3%positive := CArray [VInt 7];
    4%positive := CArray [VStr "vm-1"; VStr "vm-2"]; 5%positive := CArray []]}.

End RefMeta.

Lemma deep_copies_isolate_witness : isolates Migration_ty Migration_DeepCopyObject ∧
  is_Some (denote (TPtr Migration_ty) RefMeta.memory (VPtr 1 0)).
Proof.
  split; [|vm_compute; eauto].
  exact (proj1 (Forall_lookup _ _) deep_copies_isolate 2%nat (Migration_ty, Migration_DeepCopyObject) eq_refl).
Defined.
