(* ===== verification/Tabwriter.v ===== *)
(** * Text of the command line tool

    What cmd/kubectl-vma uses of [text/tabwriter], [time] and [strings]: aligned tables, times
    in RFC 3339, and comparison without regard to case. *)

From S2P Require Import Prelude GoLib.

(** ** [tabwriter.NewWriter(out, 0, 0, 2, ' ', 0)]

    Text is cut into cells at tabs and into lines at newlines; a form feed also ends the
    alignment. A column is a run of lines that all have a cell in that place that a tab ends;
    it is two wider than its widest cell. Widths count runes. The escape byte 0xFF, which no
    UTF-8 text has, is not special here. *)

Module Tab.

Definition tab : ascii := "009".
Definition vtab : ascii := "011".
Definition newline : ascii := "010".
Definition formfeed : ascii := "012".

Definition cell := list ascii.
Definition line := list cell.

Definition padding : nat := 2.
Definition width (c : cell) : nat := length (Utf8.runes c).

(** The lines, each with whether it ends the alignment; the last one has no newline. *)
Fixpoint scan (l : list ascii) (cur : cell) (cells : line) : list (line * bool) :=
  match l with
  | [] => [(cells ++ [cur], false)]
  | c :: r =>
      if Ascii.eqb c tab || Ascii.eqb c vtab then scan r [] (cells ++ [cur])
      else if Ascii.eqb c newline then (cells ++ [cur], false) :: scan r [] []
      else if Ascii.eqb c formfeed then (cells ++ [cur], true) :: scan r [] []
      else scan r (cur ++ [c]) cells
  end.

Fixpoint takeWhile {A} (p : A → bool) (l : list A) : list A :=
  match l with x :: r => if p x then x :: takeWhile p r else [] | [] => [] end.

(** Does the line have a cell in column [j] that a tab ends? *)
Definition hasColumn (j : nat) (l : line) : bool := (S j <? length l)%nat.

Definition widest (j : nat) (ls : list line) : nat := max_list ((λ l, width (nth j l [])) <$> ls).

(** The width of column [j] at a line, given the lines before it, nearest first, and after it. *)
Definition columnWidth (j : nat) (before : list line) (l : line) (after : list line) : nat :=
  widest j (takeWhile (hasColumn j) before ++ l :: takeWhile (hasColumn j) after) + padding.

Definition spaces (n : nat) : list ascii := replicate n " "%char.

(** A line with its cells padded to the given widths, but for the last. *)
Fixpoint alignLine (w : nat → nat) (j : nat) (l : line) : list ascii :=
  match l with
  | [] => []
  | [c] => c
  | c :: r => c ++ spaces (w j - width c) ++ alignLine w (S j) r
  end.

(** The lines that are aligned together: up to and including one that ends the alignment. *)
Fixpoint segment (ls : list (line * bool)) : list line :=
  match ls with
  | [] => []
  | (l, true) :: _ => [l]
  | (l, false) :: r => l :: segment r
  end.

Fixpoint render (before : list line) (ls : list (line * bool)) : list ascii :=
  match ls with
  | [] => []
  | (l, flush) :: r =>
      let after := if flush : bool then [] else segment r in
      alignLine (λ j, columnWidth j before l after) 0 l ++
      match r with
      | [] => []
      | _ => newline :: render (if flush then [] else l :: before) r
      end
  end.

(** What is written through the writer, and flushed. *)
Definition format (s : string) : string := text (render [] (scan (chars s) [] [])).

Example format_example :
  format (text (chars "A" ++ [tab] ++ chars "BB" ++ [newline] ++ chars "CCC" ++ [tab] ++ chars "D" ++ [newline])) =
  text (chars "A    BB" ++ [newline] ++ chars "CCC  D" ++ [newline]).
Proof. vm_compute. reflexivity. Qed.

(** *** Tables

    Rows of the same number of cells, written cell by cell with tabs between them, line up: in
    every row each column takes the same width. *)

Definition special (c : ascii) : bool := Ascii.eqb c tab || Ascii.eqb c vtab || Ascii.eqb c newline || Ascii.eqb c formfeed.
Definition clean (c : cell) : bool := forallb (λ x, negb (special x)) c.

Fixpoint joinTabs (r : line) : list ascii :=
  match r with
  | [] => []
  | [c] => c
  | c :: r => c ++ tab :: joinTabs r
  end.
Definition rowText (r : line) : list ascii := joinTabs r ++ [newline].

(** The reference: each column as wide as its widest cell and two more. *)
Definition table (rows : list line) : list ascii :=
  concat ((λ r, alignLine (λ j, widest j rows + padding)%nat 0 r ++ [newline]) <$> rows).

Lemma scan_clean c : ∀ r cur cells, clean c = true → scan (c ++ r) cur cells = scan r (cur ++ c) cells.
Proof.
  induction c as [|x c IH]; intros r cur cells H; [by rewrite app_nil_r|]. simpl in H. apply andb_true_iff in H as [Hx H].
  unfold special in Hx. breflect. cbn [app scan].
  repeat match goal with E : Ascii.eqb x _ = false |- _ => rewrite E; clear E end. simpl. rewrite IH by done. by rewrite <- app_assoc.
Qed.

Lemma scan_row row : ∀ r cells, row ≠ [] → Forall (λ c, clean c = true) row →
  scan (rowText row ++ r) [] cells = (cells ++ row, false) :: scan r [] [].
Proof.
  unfold rowText. induction row as [|c row IH]; intros r cells Hne Hc; [done|]. apply Forall_cons in Hc as [Hc Hrow].
  destruct row as [|c' row].
  - simpl. rewrite <- app_assoc, scan_clean by done. reflexivity.
  - change (joinTabs (c :: c' :: row)) with (c ++ tab :: joinTabs (c' :: row)). rewrite <- !app_assoc, scan_clean by done.
    specialize (IH r (cells ++ [c]) ltac:(done) Hrow). rewrite <- !app_assoc in IH. exact IH.
Qed.

Lemma scan_rows rows : Forall (λ r, r ≠ [] ∧ Forall (λ c, clean c = true) r) rows →
  scan (concat (rowText <$> rows)) [] [] = ((λ r, (r, false)) <$> rows) ++ [([[]], false)].
Proof.
  induction 1 as [|r rows [Hne Hc] _ IH]; [done|]. csimpl. rewrite scan_row by done. by rewrite IH.
Qed.

Lemma takeWhile_all {A} (p : A → bool) l r : Forall (λ x, p x = true) l →
  match r with x :: _ => p x = false | [] => True end → takeWhile p (l ++ r) = l.
Proof.
  intros H Hr. induction H as [|x l Hx _ IH]; simpl; [destruct r as [|y r]; [done|]; simpl; by rewrite Hr|]. by rewrite Hx, IH.
Qed.

Lemma segment_rows rows : segment (((λ r, (r, false)) <$> rows) ++ [([[]], false)]) = rows ++ [[[]]].
Proof. induction rows as [|r rows IH]; [done|]. csimpl. by rewrite IH. Qed.

Lemma alignLine_ext w w' l : ∀ j, (∀ i, (i < j + length l - 1)%nat → w i = w' i) → alignLine w j l = alignLine w' j l.
Proof.
  induction l as [|c l IH]; intros j H; [done|]. destruct l as [|c' l]; [done|].
  change (alignLine ?f j (c :: c' :: l)) with (c ++ spaces (f j - width c) ++ alignLine f (S j) (c' :: l)).
  rewrite H by (simpl; lia). rewrite (IH (S j)); [done|]. intros i Hi. apply H. simpl in *. lia.
Qed.

Lemma widest_perm j l l' : l ≡ₚ l' → widest j l = widest j l'.
Proof.
  unfold widest. intros H. induction H as [|x l l' _ IH|x y l|l1 l2 l3 _ IH1 _ IH2]; csimpl; [done|by rewrite IH|lia|congruence].
Qed.

Lemma render_cons before l r : r ≠ [] →
  render before ((l, false) :: r) = alignLine (λ j, columnWidth j before l (segment r)) 0 l ++ newline :: render (l :: before) r.
Proof. by destruct r. Qed.

Lemma render_rows n : ∀ after before,
  Forall (λ r, length r = S n) before → Forall (λ r, length r = S n) after →
  render before (((λ r, (r, false)) <$> after) ++ [([[]], false)]) =
  concat ((λ r, alignLine (λ j, widest j (rev before ++ after) + padding)%nat 0 r ++ [newline]) <$> after).
Proof.
  induction after as [|r after IH]; intros before Hb Ha; [done|]. apply Forall_cons in Ha as [Hr Ha].
  rewrite !fmap_cons, concat_cons, <- app_comm_cons, render_cons by by destruct after.
  rewrite IH by (try constructor; done). cbn [rev]. rewrite segment_rows, <- !app_assoc. cbn [app].
  f_equal. apply alignLine_ext. intros j Hj. unfold columnWidth. rewrite Hr in Hj.
  assert (∀ l, Forall (λ r, length r = S n) l → Forall (λ r, hasColumn j r = true) l) as Hcol.
  { intros l Hl. eapply Forall_impl; [exact Hl|]. intros x' Hx'. unfold hasColumn. rewrite Hx'. apply Nat.ltb_lt. lia. }
  rewrite (takeWhile_all _ after [[[]]]) by first [by apply Hcol | done].
  rewrite <- (app_nil_r before) at 1. rewrite (takeWhile_all _ before []) by first [by apply Hcol | done].
  f_equal. apply widest_perm. by rewrite <- Permutation_rev.
Qed.

(** Rows of one shape, free of control characters, come out as the aligned table. *)
Lemma format_table n rows :
  Forall (λ r, length r = S n ∧ Forall (λ c, clean c = true) r) rows →
  format (text (concat (rowText <$> rows))) = text (table rows).
Proof.
  intros H. unfold format. rewrite chars_text, scan_rows.
  - rewrite (render_rows n) by first [done | eapply Forall_impl; [exact H|]; by intros r []]. done.
  - eapply Forall_impl; [exact H|]. intros r [Hr Hc]. split; [by intros ->|done].
Qed.

End Tab.

(** ** [time.Time] in RFC 3339 *)

Module Rfc3339.

(** Year, month and day of a day counted from 1970-01-01 (proleptic Gregorian calendar): years
    start in March, so that the leap day is the last of its year. *)
Definition civil (days : Z) : Z * Z * Z :=
  let z := days + 719468 in
  let era := z / 146097 in
  let doe := z mod 146097 in
  let yoe := (doe - doe / 1460 + doe / 36524 - doe / 146096) / 365 in
  let doy := doe - (365 * yoe + yoe / 4 - yoe / 100) in
  let mp := (5 * doy + 2) / 153 in
  let d := doy - (153 * mp + 2) / 5 + 1 in
  let m := if mp <? 10 then mp + 3 else mp - 9 in
  let y := yoe + 400 * era + (if m <=? 2 then 1 else 0) in
  (y, m, d).

(** At least [n] digits. *)
Definition padded (n : nat) (x : Z) : string :=
  let s := itoa x in text (replicate (n - String.length s) "0"%char) +s+ s.

(** [t.Format(time.RFC3339)] for nanoseconds [t] since the epoch at [zone] seconds east of UTC;
    the year is not before year 0. *)
Definition Format (zone t : Z) : string :=
  let sec := t / Duration.Second + zone in
  let '(y, m, d) := civil (sec / 86400) in
  let s := sec mod 86400 in
  padded 4 y +s+ "-" +s+ padded 2 m +s+ "-" +s+ padded 2 d +s+ "T" +s+
  padded 2 (s / 3600) +s+ ":" +s+ padded 2 (s / 60 mod 60) +s+ ":" +s+ padded 2 (s mod 60) +s+
  (if zone =? 0 then "Z"
   else
     let mins := Z.quot zone 60 in
     (if mins <? 0 then "-" else "+") +s+ padded 2 (Z.abs mins / 60) +s+ ":" +s+ padded 2 (Z.abs mins mod 60)).

Example format_epoch : Format 0 0 = "1970-01-01T00:00:00Z".
Proof. vm_compute. reflexivity. Qed.
Example format_leap : Format 3600 (1709210096 * Duration.Second) = "2024-02-29T13:34:56+01:00".
Proof. vm_compute. reflexivity. Qed.
Example format_west : Format (-19800) (1767225599 * Duration.Second) = "2025-12-31T18:29:59-05:30".
Proof. vm_compute. reflexivity. Qed.

End Rfc3339.
