(* ===== verification/HttpTypes.v ===== *)
(** * The HTTP operations behind the Nutanix client

    What internal/nutanix uses of [net/http], [io] and [time] to reach Prism: building a
    request, the round trip, sleeping and waiting. They are calls of the environment (Env.v),
    which may answer anything. *)

From S2P Require Import Prelude GoLib NutanixTypes.

(** ** Requests and responses *)

(** How a request authenticates: [SetBasicAuth] or a cookie. *)
Inductive Auth :=
| BasicAuth (username password : string)
| Cookie (name value : string).

(** An [http.Request] as it is sent. The body is what the reader still holds; [None] is a nil
    body. *)
Record Request := mkRequest {
  Req_Method : string;
  Req_URL : string;
  Req_Auth : Auth;
  Req_Accept : string;
  Req_ContentType : option string;
  Req_Body : option string
}.

(** An [http.Response]: the bytes its body delivers, and the error that ends them, if any. *)
Record Response := mkResponse {
  Resp_StatusCode : Z;
  Resp_Body : string;
  Resp_BodyError : option error
}.

(** What a round trip gives: how many bytes of the request body the transport has read, which
    the shared reader then no longer holds, and the response or the error. *)
Record Reply := mkReply { Reply_Consumed : nat; Reply_Result : result Response }.

(** ** Transport (auth.go) *)

(** The [http.Transport] of [buildTransport]. *)
Record Transport := mkTransport {
  TLS_MinVersion : string;
  TLS_InsecureSkipVerify : bool;
  TLS_RootCAs : option string;
  Transport_DisableKeepAlives : bool
}.

(** The [http.Client] inside an [httpClient]. *)
Record HTTPClient := mkHTTPClient { HTTP_Transport : Transport; HTTP_Timeout : Z }.

(** ** Signature *)

Inductive httpcall :=
| NewRequest (method url : string)
| Do (client : HTTPClient) (req : Request)
| Sleep (d : Z)
| WaitTimer (d : Z)
| WriteOut (data : string).

Definition httpanswer (c : httpcall) : Type :=
  match c with
  | NewRequest _ _ => option error
  | Do _ _ => Reply
  | Sleep _ => unit
  | WaitTimer _ => option error
  | WriteOut _ => option error
  end.
