(* ===== verification/HttpServer.v ===== *)
(** * The server side of net/http

    What pkg/mock uses of [net/http], [net/url], [strings] and [strconv]: the path and query of a
    request, the routes of a [ServeMux], and parsing numbers. Paths and queries are those written
    without escapes and without segments the router would clean first; any other request is not
    one of the model ([urlTarget] is [None]). *)

From S2P Require Import Prelude GoLib NutanixTypes HttpTypes.

(** ** Strings *)

Fixpoint stripPrefix (p l : list ascii) : option (list ascii) :=
  match p, l with
  | [], l => Some l
  | c :: p, d :: l => if Ascii.eqb c d then stripPrefix p l else None
  | _ :: _, [] => None
  end.

Definition HasPrefix (s prefix : string) : bool :=
  match stripPrefix (chars prefix) (chars s) with Some _ => true | None => false end.
Definition TrimPrefix (s prefix : string) : string :=
  match stripPrefix (chars prefix) (chars s) with Some r => text r | None => s end.

(** What is before and after the first [sep]. *)
Fixpoint cut (sep : ascii) (l : list ascii) : option (list ascii * list ascii) :=
  match l with
  | [] => None
  | c :: l => if Ascii.eqb c sep then Some ([], l) else '(a, b) ← cut sep l; Some (c :: a, b)
  end.

(** [strings.SplitN(s, sep, 2)] *)
Definition SplitN2 (s : string) (sep : ascii) : list string :=
  match cut sep (chars s) with Some (a, b) => [text a; text b] | None => [s] end.

(** [strconv.ParseInt(s, 10, 64)], which [Atoi] is on 64-bit machines *)
Definition ParseInt (s : string) : option Z :=
  let '(neg, ds) := match chars s with
    | c :: r => if Ascii.eqb c "-" then (true, r) else if Ascii.eqb c "+" then (false, r) else (false, c :: r)
    | [] => (false, []) end in
  match ds with
  | [] => None
  | _ =>
      if forallb is_digit ds then
        n ← atoi (text ds);
        let n := if neg then - n else n in
        if int64 n =? n then Some n else None
      else None
  end.

(** [fmt.Sprintf("%08d", z)]: zeros between the sign and the digits *)
Definition pad (width : nat) (l : list ascii) : list ascii := replicate (width - length l) "0"%char ++ l.
Definition Sprintf08d (z : Z) : string :=
  if z <? 0 then text ("-"%char :: pad 7 (chars (itoa (- z)))) else text (pad 8 (chars (itoa z))).

(** ** Requests as a handler sees them *)

(** Characters that stand for themselves in a path or query. *)
Definition plainChar (c : ascii) : bool :=
  is_digit c || is_lower c || is_upper c || bool_decide (c ∈ chars "-_~.$:").

(** A path the router takes as it is: no empty segment inside, none that begins with a dot. *)
Fixpoint tidy (l : list ascii) : bool :=
  match l with
  | [] => true
  | c :: l =>
      match l with
      | d :: _ => negb (Ascii.eqb c "/" && (Ascii.eqb d "/" || Ascii.eqb d ".")) && tidy l
      | [] => true
      end
  end.

Fixpoint splitAll (fuel : nat) (sep : ascii) (l : list ascii) : list (list ascii) :=
  match fuel with
  | O => [l]
  | S fuel => match cut sep l with Some (a, b) => a :: splitAll fuel sep b | None => [l] end
  end.

(** [url.Query()] *)
Definition parseQuery (l : list ascii) : list (string * string) :=
  (λ kv, match cut "=" kv with Some (k, v) => (text k, text v) | None => (text kv, "") end) <$>
  List.filter (λ kv, match kv with [] => false | _ => true end) (splitAll (length l) "&" l).

(** The path and query of a URL on the server at [base]. *)
Definition urlTarget (base url : string) : option (string * list (string * string)) :=
  rest ← stripPrefix (chars base) (chars url);
  let '(path, query) := match cut "?" rest with Some pq => pq | None => (rest, []) end in
  if forallb (λ c, plainChar c || Ascii.eqb c "/") path && tidy path &&
     forallb (λ c, plainChar c || Ascii.eqb c "=" || Ascii.eqb c "&") query
  then Some (text path, parseQuery query) else None.

(** [Values.Get]: the first value, or the empty string *)
Definition queryGet (q : list (string * string)) (key : string) : string :=
  match List.find (λ kv, kv.1 =s key) q with Some kv => kv.2 | None => "" end.

(** An [http.Request] in a handler. *)
Record ServerRequest := mkServerRequest {
  SR_Method : string;
  SR_Path : string;
  SR_Query : list (string * string);
  SR_Cookies : list (string * string);
  SR_Range : string;
  SR_Body : string
}.

(** [AddCookie] drops the bytes a cookie value must not have; a value with a space or a comma
    travels in quotes, which the server takes off. *)
Definition validCookieValueByte (c : ascii) : bool :=
  (32 <=? Z.of_nat (nat_of_ascii c)) && (Z.of_nat (nat_of_ascii c) <? 127) &&
  negb (bool_decide (c ∈ ["034"%char; ";"%char; "092"%char])).
Definition cookieValue (v : string) : string := text (List.filter validCookieValueByte (chars v)).

(** What the server makes of a request that was sent to it. *)
Definition received (base : string) (r : Request) : option ServerRequest :=
  '(path, query) ← urlTarget base (Req_URL r);
  Some (mkServerRequest (Req_Method r) path query
    (match Req_Auth r with Cookie n v => [(n, cookieValue v)] | BasicAuth _ _ => [] end) "" (default "" (Req_Body r))).

(** ** Routes *)

(** A pattern that ends with a slash stands for all paths below it. *)
Definition patternMatches (pattern path : string) : bool :=
  if bool_decide (last (chars pattern) = Some "/"%char) then HasPrefix path pattern else path =s pattern.

(** [ServeMux]: the longest pattern that matches. *)
Fixpoint mux {A} (routes : list (string * A)) (path : string) : option (string * A) :=
  match routes with
  | [] => None
  | r :: routes =>
      let best := mux routes path in
      if patternMatches r.1 path then
        match best with
        | Some b => if (String.length r.1 <? String.length b.1)%nat then Some b else Some r
        | None => Some r
        end
      else best
  end.

Lemma cut_none c l : c ∉ l → cut c l = None.
Proof.
  induction l as [|d l IH]; [done|]. intros Hc. simpl. destruct (Ascii.eqb_spec d c) as [->|]; [set_solver|].
  rewrite IH by set_solver. done.
Qed.

Lemma cut_at c l k : c ∉ l → cut c (l ++ c :: k) = Some (l, k).
Proof.
  induction l as [|d l IH]; intros Hc; simpl; [by rewrite Ascii.eqb_refl|]. destruct (Ascii.eqb_spec d c) as [->|]; [set_solver|].
  by rewrite IH by set_solver.
Qed.

Lemma stripPrefix_app p l : stripPrefix p (p ++ l) = Some l.
Proof. induction p as [|c p IH]; [done|]. simpl. by rewrite Ascii.eqb_refl. Qed.

Lemma TrimPrefix_app p s : TrimPrefix (p +s+ s) p = s.
Proof. unfold TrimPrefix. rewrite chars_app, stripPrefix_app. apply text_chars. Qed.

Lemma ParseInt_itoa z : 0 ≤ z < 2 ^ 63 → ParseInt (itoa z) = Some z.
Proof.
  intros Hz. unfold ParseInt. pose proof (itoa_digits z ltac:(lia)) as Hd. pose proof (itoa_nonempty z) as Hn.
  assert (text (chars (itoa z)) = itoa z) as Ht by apply text_chars.
  destruct (chars (itoa z)) as [|c r] eqn:Ec; [done|]. pose proof (Forall_inv Hd) as Hc. simpl in Hc.
  destruct (Ascii.eqb_spec c "-") as [->|_]; [done|]. destruct (Ascii.eqb_spec c "+") as [->|_]; [done|].
  assert (forallb is_digit (c :: r) = true) as -> by (apply forallb_forall; intros x Hx; rewrite Forall_forall in Hd; apply Hd; by apply list_elem_of_In).
  rewrite Ht, atoi_itoa. simpl. rewrite int64_id by (unfold in_int64; lia). by rewrite Z.eqb_refl.
Qed.

Lemma cookieValue_id v : forallb validCookieValueByte (chars v) = true → cookieValue v = v.
Proof.
  intros H. unfold cookieValue. rewrite forallb_forall in H. rewrite <- (text_chars v) at 2. f_equal.
  induction (chars v) as [|c l IH]; [done|]. simpl. rewrite H by (by left). f_equal. apply IH. intros x Hx. apply H. by right.
Qed.

Lemma ParseInt_range s n : ParseInt s = Some n → in_int64 n.
Proof.
  unfold ParseInt. destruct (match chars s with [] => _ | _ => _ end) as [neg ds]. destruct ds as [|d ds]; [done|].
  destruct (forallb _ _); [|done]. destruct (atoi _) as [m|]; [|done]. simpl.
  destruct (Z.eqb_spec (int64 (if neg then - m else m)) (if neg then - m else m)) as [E|]; [|done].
  intros [= <-]. rewrite <- E. apply int64_range.
Qed.

Lemma mux_found {A} (routes : list (string * A)) path r : mux routes path = Some r → r ∈ routes ∧ patternMatches r.1 path = true.
Proof.
  induction routes as [|x routes IH]; [done|]. simpl. destruct (patternMatches x.1 path) eqn:Hx.
  - destruct (mux routes path) as [b|]; [destruct (_ <? _)%nat|]; intros [= <-]; try (split; [left|done]).
    destruct (IH eq_refl). split; [by right|done].
  - intros H%IH. destruct H. split; [by right|done].
Qed.
