(* ===== verification/JsonText.v ===== *)
(** * JSON texts, as [encoding/json] reads and writes them

    The client sends and receives JSON. [print] is what [json.Marshal] writes, [parse] what
    [json.Decoder] reads: the first value of the text, syntax checked, with its strings
    unquoted; [parse_print] says that they are inverse. *)

From S2P Require Import Prelude GoLib.
Import Json.

(** ** Values *)

#[local] Set Warnings "-register-all".

(** Numbers are kept as their literal, since the target type decides how they are read. *)
Inductive json :=
| JNull
| JBool (b : bool)
| JNumber (lit : list ascii)
| JString (s : list ascii)
| JArray (l : list json)
| JObject (ms : list (list ascii * json)).

(** Induction that reaches into the lists. *)
Section JsonInd.
Context (P : json → Prop).
Hypothesis Hnull : P JNull.
Hypothesis Hbool : ∀ b, P (JBool b).
Hypothesis Hnumber : ∀ lit, P (JNumber lit).
Hypothesis Hstring : ∀ s, P (JString s).
Hypothesis Harray : ∀ l, Forall P l → P (JArray l).
Hypothesis Hobject : ∀ ms, Forall (λ m, P m.2) ms → P (JObject ms).

Fixpoint json_nested_ind (j : json) : P j :=
  match j with
  | JNull => Hnull
  | JBool b => Hbool b
  | JNumber lit => Hnumber lit
  | JString s => Hstring s
  | JArray l =>
      Harray l ((fix go l : Forall P l :=
        match l with [] => Forall_nil_2 _ | x :: r => Forall_cons_2 _ _ _ (json_nested_ind x) (go r) end) l)
  | JObject ms =>
      Hobject ms ((fix go ms : Forall (λ m, P m.2) ms :=
        match ms with [] => Forall_nil_2 _ | x :: r => Forall_cons_2 _ _ _ (json_nested_ind x.2) (go r) end) ms)
  end.

End JsonInd.

(** ** Printing *)

Definition quoteL (s : list ascii) : list ascii := [quoteChar] ++ escape s ++ [quoteChar].

Fixpoint joinL (sep : ascii) (ls : list (list ascii)) : list ascii :=
  match ls with
  | [] => []
  | [l] => l
  | l :: r => l ++ sep :: joinL sep r
  end.

(** [json.Marshal]: no white space, members in the order given. *)
Fixpoint print (j : json) : list ascii :=
  match j with
  | JNull => chars "null"
  | JBool true => chars "true"
  | JBool false => chars "false"
  | JNumber lit => lit
  | JString s => quoteL s
  | JArray l => "["%char :: joinL "," (List.map print l) ++ ["]"%char]
  | JObject ms => "{"%char :: joinL "," (List.map (λ m, quoteL m.1 ++ ":"%char :: print m.2) ms) ++ ["}"%char]
  end.

(** ** Scanning *)

Definition isSpace (c : ascii) : bool :=
  let n := code c in (n =? 32) || (n =? 9) || (n =? 10) || (n =? 13).

Fixpoint skipWs (l : list ascii) : list ascii :=
  match l with
  | c :: r => if isSpace c then skipWs r else l
  | [] => []
  end.

(** The digits at the front and what follows them. *)
Fixpoint spanDigits (l : list ascii) : list ascii * list ascii :=
  match l with
  | c :: r => if is_digit c then let '(ds, r') := spanDigits r in (c :: ds, r') else ([], l)
  | [] => ([], [])
  end.

(** The integer part: a lone zero or digits that do not start with zero. *)
Definition scanInt (l : list ascii) : option (list ascii * list ascii) :=
  match l with
  | c :: r =>
      if Ascii.eqb c "0" then Some ([c], r)
      else if is_digit c then Some (spanDigits l) else None
  | [] => None
  end.

Definition scanFraction (l : list ascii) : option (list ascii * list ascii) :=
  match l with
  | c :: r =>
      if Ascii.eqb c "." then
        match spanDigits r with
        | ([], _) => None
        | (ds, r') => Some (c :: ds, r')
        end
      else Some ([], l)
  | [] => Some ([], [])
  end.

Definition scanExponent (l : list ascii) : option (list ascii * list ascii) :=
  match l with
  | c :: r =>
      if Ascii.eqb c "e" || Ascii.eqb c "E" then
        let '(sign, r) :=
          match r with
          | d :: r' => if Ascii.eqb d "+" || Ascii.eqb d "-" then ([d], r') else ([], r)
          | [] => ([], [])
          end in
        match spanDigits r with
        | ([], _) => None
        | (ds, r') => Some (c :: sign ++ ds, r')
        end
      else Some ([], l)
  | [] => Some ([], [])
  end.

Definition scanNumber (l : list ascii) : option (list ascii * list ascii) :=
  let '(sign, l) :=
    match l with
    | c :: r => if Ascii.eqb c "-" then ([c], r) else ([], l)
    | [] => ([], [])
    end in
  match scanInt l with
  | None => None
  | Some (i, l) =>
      match scanFraction l with
      | None => None
      | Some (f, l) =>
          match scanExponent l with
          | None => None
          | Some (e, l) => Some (sign ++ i ++ f ++ e, l)
          end
      end
  end.

Definition hexValue (c : ascii) : option Z :=
  if is_digit c then Some (code c - 48)
  else if (97 <=? code c) && (code c <=? 102) then Some (code c - 87)
  else if (65 <=? code c) && (code c <=? 70) then Some (code c - 55)
  else None.

(** Is the character after a backslash a known escape (but [u])? *)
Definition simpleEscape (c : ascii) : option ascii :=
  let n := code c in
  if (n =? 34) || (n =? 92) || (n =? 47) then Some c
  else if n =? 98 then Some "008"%char
  else if n =? 102 then Some "012"%char
  else if n =? 110 then Some "010"%char
  else if n =? 114 then Some "013"%char
  else if n =? 116 then Some "009"%char
  else None.

(** A string literal after its opening quote: its raw text, up to the closing quote. *)
Fixpoint scanString (l : list ascii) : option (list ascii * list ascii) :=
  match l with
  | [] => None
  | c :: r =>
      if Ascii.eqb c quoteChar then Some ([], r)
      else if code c <? 32 then None
      else if Ascii.eqb c backslash then
        match r with
        | [] => None
        | d :: r1 =>
            if Ascii.eqb d "u" then
              match r1 with
              | h1 :: (h2 :: (h3 :: (h4 :: r2))) =>
                  match hexValue h1, hexValue h2, hexValue h3, hexValue h4 with
                  | Some _, Some _, Some _, Some _ =>
                      '(raw, rest) ← scanString r2; Some (c :: d :: h1 :: h2 :: h3 :: h4 :: raw, rest)
                  | _, _, _, _ => None
                  end
              | _ => None
              end
            else match simpleEscape d with
            | Some _ => '(raw, rest) ← scanString r1; Some (c :: d :: raw, rest)
            | None => None
            end
        end
      else '(raw, rest) ← scanString r; Some (c :: raw, rest)
  end.

(** ** Unquoting *)

(** [getu4]: the value of [\uXXXX] at the front. *)
Definition getu4 (l : list Utf8.rune) : option Z :=
  match l with
  | Utf8.Good [a] :: Utf8.Good [b] :: r =>
      if Ascii.eqb a backslash && Ascii.eqb b "u" then
        match r with
        | Utf8.Good [h1] :: Utf8.Good [h2] :: Utf8.Good [h3] :: Utf8.Good [h4] :: _ =>
            x1 ← hexValue h1; x2 ← hexValue h2; x3 ← hexValue h3; x4 ← hexValue h4;
            Some (((x1 * 16 + x2) * 16 + x3) * 16 + x4)
        | _ => None
        end
      else None
  | _ => None
  end.

(** [utf16.IsSurrogate] and [utf16.DecodeRune] *)
Definition isSurrogate (n : Z) : bool := (55296 <=? n) && (n <? 57344).
Definition decodeSurrogates (a b : Z) : option Z :=
  if (55296 <=? a) && (a <? 56320) && (56320 <=? b) && (b <? 57344)
  then Some ((a - 55296) * 1024 + (b - 56320) + 65536) else None.

(** The text of a scanned literal; the literal has at least as many runes as the fuel. *)
Fixpoint unquote (fuel : nat) (l : list Utf8.rune) : list ascii :=
  match fuel with
  | O => []
  | S fuel =>
      match l with
      | [] => []
      | Utf8.Bad _ :: r => Utf8.runeError ++ unquote fuel r
      | Utf8.Good bs :: r =>
          if negb (bool_decide (bs = [backslash])) then bs ++ unquote fuel r
          else match getu4 l with
          | Some n =>
              if isSurrogate n then
                match getu4 (drop 6 l) ≫= decodeSurrogates n with
                | Some m => Utf8.encode m ++ unquote fuel (drop 12 l)
                | None => Utf8.runeError ++ unquote fuel (drop 6 l)
                end
              else Utf8.encode n ++ unquote fuel (drop 6 l)
          | None =>
              match r with
              | Utf8.Good [d] :: r' => option_list (simpleEscape d) ++ unquote fuel r'
              | _ => []
              end
          end
      end
  end.

Definition unquoteText (raw : list ascii) : list ascii :=
  let rs := Utf8.runes raw in unquote (length rs) rs.

(** ** Parsing *)

Definition maxNestingDepth : Z := 10000.

Definition expect (lit : string) (v : json) (l : list ascii) : option (json * list ascii) :=
  if bool_decide (take (length (chars lit)) l = chars lit) then Some (v, drop (length (chars lit)) l) else None.

(** A value, after white space, at a nesting depth. *)
Fixpoint parseValue (fuel : nat) (depth : Z) (l : list ascii) : option (json * list ascii) :=
  match fuel with
  | O => None
  | S fuel =>
      match skipWs l with
      | [] => None
      | c :: r =>
          if Ascii.eqb c "{" then
            if maxNestingDepth <? depth + 1 then None
            else match skipWs r with
            | [] => None
            | d :: r' =>
                if Ascii.eqb d "}" then Some (JObject [], r')
                else '(ms, rest) ← parseMembers fuel (depth + 1) (d :: r'); Some (JObject ms, rest)
            end
          else if Ascii.eqb c "[" then
            if maxNestingDepth <? depth + 1 then None
            else match skipWs r with
            | [] => None
            | d :: r' =>
                if Ascii.eqb d "]" then Some (JArray [], r')
                else '(js, rest) ← parseElements fuel (depth + 1) (d :: r'); Some (JArray js, rest)
            end
          else if Ascii.eqb c quoteChar then
            '(raw, rest) ← scanString r; Some (JString (unquoteText raw), rest)
          else if Ascii.eqb c "t" then expect "true" (JBool true) (c :: r)
          else if Ascii.eqb c "f" then expect "false" (JBool false) (c :: r)
          else if Ascii.eqb c "n" then expect "null" JNull (c :: r)
          else '(lit, rest) ← scanNumber (c :: r); Some (JNumber lit, rest)
      end
  end
with parseMembers (fuel : nat) (depth : Z) (l : list ascii) : option (list (list ascii * json) * list ascii) :=
  match fuel with
  | O => None
  | S fuel =>
      match skipWs l with
      | [] => None
      | c :: r =>
          if negb (Ascii.eqb c quoteChar) then None
          else
            '(raw, r1) ← scanString r;
            match skipWs r1 with
            | [] => None
            | d :: r2 =>
                if negb (Ascii.eqb d ":") then None
                else
                  '(v, r3) ← parseValue fuel depth r2;
                  match skipWs r3 with
                  | [] => None
                  | e :: r4 =>
                      if Ascii.eqb e "}" then Some ([(unquoteText raw, v)], r4)
                      else if Ascii.eqb e "," then
                        '(ms, rest) ← parseMembers fuel depth r4; Some ((unquoteText raw, v) :: ms, rest)
                      else None
                  end
            end
      end
  end
with parseElements (fuel : nat) (depth : Z) (l : list ascii) : option (list json * list ascii) :=
  match fuel with
  | O => None
  | S fuel =>
      '(v, r) ← parseValue fuel depth l;
      match skipWs r with
      | [] => None
      | c :: r1 =>
          if Ascii.eqb c "]" then Some ([v], r1)
          else if Ascii.eqb c "," then '(js, rest) ← parseElements fuel depth r1; Some (v :: js, rest)
          else None
      end
  end.

(** [Decoder.Decode]'s reading of one value: what follows an object or array is left alone,
    any other value must be followed by white space or the end. *)
Definition parse (l : list ascii) : option json :=
  match parseValue (S (2 * length l)) 0 l with
  | None => None
  | Some (JObject ms, _) => Some (JObject ms)
  | Some (JArray js, _) => Some (JArray js)
  | Some (j, rest) => match rest with [] => Some j | c :: _ => if isSpace c then Some j else None end
  end.

Example parse_example :
  parse (chars " {a :" ) = None ∧
  parse ([ "{"; quoteChar; "a"; quoteChar; ":"; " "; "["; "-"; "1"; "."; "5"; ","; "t"; "r"; "u"; "e"; "]"; "}"; "x"]%char) =
    Some (JObject [(chars "a", JArray [JNumber (chars "-1.5"); JBool true])]).
Proof. vm_compute. split; reflexivity. Qed.

(** ** Round trip: strings *)

(** A chunk of a literal the scanner passes over. *)
Definition passes (bs : list ascii) : Prop :=
  ∀ l, scanString (bs ++ l) = '(raw, rest) ← scanString l; Some (bs ++ raw, rest).

Lemma passes_nil : passes [].
Proof. intros l. simpl. by destruct (scanString l) as [[]|]. Qed.

Lemma passes_app a b : passes a → passes b → passes (a ++ b).
Proof.
  intros Ha Hb l. rewrite <- app_assoc, Ha, Hb. destruct (scanString l) as [[raw rest]|]; simpl; [|done].
  by rewrite app_assoc.
Qed.

Lemma passes_high c : 128 ≤ code c → passes [c].
Proof.
  intros H l. cbn [app scanString]. destruct (Ascii.eqb_spec c quoteChar) as [->|_]; [done|].
  destruct (Z.ltb_spec (code c) 32); [lia|]. by destruct (Ascii.eqb_spec c backslash) as [->|_].
Qed.

Lemma passes_escByte c : Utf8.valid1 c = true → passes (escByte c).
Proof.
  intros H l. destruct c as [[] [] [] [] [] [] [] []]; try discriminate H;
    match goal with |- context [escByte ?c] => set (e := escByte c); vm_compute in e; subst e end;
    cbn; by destruct (scanString l) as [[]|].
Qed.

Lemma rune_high a b bs :
  Utf8.isRune (a :: b :: bs) = true → Forall (λ c, 128 ≤ code c) (a :: b :: bs).
Proof.
  unfold Utf8.isRune, Utf8.valid2, Utf8.valid3, Utf8.valid4, Utf8.cont, Utf8.between.
  intros H. repeat match type of H with context [match ?l with [] => _ | _ :: _ => _ end] => destruct l; try discriminate H end;
    repeat match goal with H : _ && _ = true |- _ => apply andb_true_iff in H as [? ?] end;
    repeat match goal with H : (_ <=? _) = true |- _ => apply Z.leb_le in H end;
    repeat (constructor; [first [lia | destruct (code a =? 224), (code a =? 240); lia]|]); constructor.
Qed.

Lemma passes_rune bs : Utf8.isRune bs = true → passes (escRune (Utf8.Good bs)).
Proof.
  intros H. destruct bs as [|a [|b bs]]; [done|by apply passes_escByte|].
  cbn [escRune]. case_bool_decide as H1; [intros l; cbn; by destruct (scanString l) as [[]|]|].
  case_bool_decide as H2; [intros l; cbn; by destruct (scanString l) as [[]|]|].
  apply rune_high in H. clear H1 H2. induction H as [|c l Hc _ IH]; [apply passes_nil|].
  change (c :: l) with ([c] ++ l). apply passes_app; [by apply passes_high|done].
Qed.

Lemma escape_good bs l : Utf8.isRune bs = true → escape (bs ++ l) = escRune (Utf8.Good bs) ++ escape l.
Proof. intros H. unfold escape. by rewrite Utf8.runes_good. Qed.

Lemma passes_escape s : passes (escape s).
Proof.
  induction s as [|bs l H IH|b l H IH] using Utf8.runes_ind.
  - apply passes_nil.
  - rewrite escape_good by done. apply passes_app; [by apply passes_rune|done].
  - unfold escape. rewrite H. cbn [fmap list_fmap concat]. apply passes_app; [|exact IH].
    intros k. cbn. by destruct (scanString k) as [[]|].
Qed.

Lemma scan_quote s rest : scanString (escape s ++ quoteChar :: rest) = Some (escape s, rest).
Proof. rewrite passes_escape. cbn. by rewrite app_nil_r. Qed.

Definition asRunes (l : list ascii) : list Utf8.rune := (λ c, Utf8.Good [c]) <$> l.

Lemma runes_asciis l k : forallb Utf8.valid1 l = true → Utf8.runes (l ++ k) = asRunes l ++ Utf8.runes k.
Proof. induction l as [|c l IH]; [done|]. intros [Hc Hl]%andb_true_iff. cbn [app]. by rewrite Utf8.runes_ascii, IH. Qed.

Lemma escByte_ascii c : Utf8.valid1 c = true → forallb Utf8.valid1 (escByte c) = true ∧ escByte c ≠ [].
Proof. intros H. destruct c as [[] [] [] [] [] [] [] []]; try discriminate H; (split; [reflexivity|discriminate]). Qed.

Lemma unquote_escByte c fuel l :
  Utf8.valid1 c = true → unquote (S fuel) (asRunes (escByte c) ++ l) = c :: unquote fuel l.
Proof. intros H. destruct c as [[] [] [] [] [] [] [] []]; try discriminate H; reflexivity. Qed.

Lemma unquote_step bs fuel l :
  Utf8.isRune bs = true → ∃ rs, Utf8.runes (escRune (Utf8.Good bs) ++ l) = rs ++ Utf8.runes l ∧ rs ≠ [] ∧
    unquote (S fuel) (rs ++ Utf8.runes l) = bs ++ unquote fuel (Utf8.runes l).
Proof.
  intros H. destruct bs as [|a [|b bs]]; [done| |].
  - destruct (escByte_ascii a H) as [H1 H2]. exists (asRunes (escByte a)). split; [by apply runes_asciis|].
    split; [by destruct (escByte a)|]. by apply unquote_escByte.
  - cbn [escRune]. case_bool_decide as H1; [|case_bool_decide as H2].
    + rewrite H1. eexists (asRunes _). split; [by apply runes_asciis|]. split; [done|]. reflexivity.
    + rewrite H2. eexists (asRunes _). split; [by apply runes_asciis|]. split; [done|]. reflexivity.
    + exists [Utf8.Good (a :: b :: bs)]. split; [by apply Utf8.runes_good|]. split; [done|].
      cbn [unquote app]. by rewrite bool_decide_eq_false_2.
Qed.

Lemma unquote_escape s fuel :
  Utf8.valid s = true → (length (Utf8.runes (escape s)) ≤ fuel)%nat → unquote fuel (Utf8.runes (escape s)) = s.
Proof.
  revert fuel. induction s as [|bs l H IH|b l H IH] using Utf8.runes_ind; intros fuel Hv Hf.
  - by destruct fuel.
  - unfold Utf8.valid in Hv. rewrite Utf8.runes_good in Hv by done. simpl in Hv.
    rewrite escape_good in Hf |- * by done. destruct (unquote_step bs (pred fuel) (escape l) H) as (rs & Hr & Hne & Hu).
    rewrite Hr in Hf |- *. rewrite length_app in Hf. destruct rs as [|r rs]; [done|]. simpl in Hf.
    destruct fuel as [|fuel]; [lia|]. cbn [Nat.pred] in Hu. rewrite Hu, IH; [done|done|lia].
  - unfold Utf8.valid in Hv. rewrite H in Hv. discriminate Hv.
Qed.

Lemma unquoteText_escape s : Utf8.valid s = true → unquoteText (escape s) = s.
Proof. intros H. by apply unquote_escape. Qed.

(** ** Round trip: numbers *)

(** What may follow a value: nothing that continues a number. *)
Definition stops (l : list ascii) : Prop :=
  match l with [] => True | c :: _ => is_digit c = false ∧ c ≠ "."%char ∧ c ≠ "e"%char ∧ c ≠ "E"%char end.

Lemma spanDigits_app l ds r k : stops k → spanDigits l = (ds, r) → spanDigits (l ++ k) = (ds, r ++ k).
Proof.
  intros Hk. revert ds r. induction l as [|c l IH]; simpl; intros ds r H.
  - injection H as <- <-. destruct k as [|c k]; [done|]. simpl. by destruct Hk as (-> & _).
  - destruct (is_digit c); [|by injection H as <- <-].
    destruct (spanDigits l) as [ds' r']. rewrite (IH ds' r') by done. by injection H as <- <-.
Qed.

Lemma scanInt_app l i r k : stops k → scanInt l = Some (i, r) → scanInt (l ++ k) = Some (i, r ++ k).
Proof.
  intros Hk H. destruct l as [|c l]; [done|]. unfold scanInt in *. cbn [app].
  destruct (Ascii.eqb c "0"); [by injection H as <- <-|]. destruct (is_digit c); [|done].
  injection H as H. f_equal. by apply (spanDigits_app (c :: l)).
Qed.

Lemma scanFraction_app l f r k : stops k → scanFraction l = Some (f, r) → scanFraction (l ++ k) = Some (f, r ++ k).
Proof.
  intros Hk H. destruct l as [|c l]; cbn [app] in *.
  - injection H as <- <-. destruct k as [|c k]; [done|]. destruct Hk as (_ & Hk & _). unfold scanFraction.
    by rewrite (proj2 (Ascii.eqb_neq _ _) Hk).
  - unfold scanFraction in *. destruct (Ascii.eqb c "."); [|by injection H as <- <-].
    destruct (spanDigits l) as [ds r'] eqn:E. rewrite (spanDigits_app l ds r') by done. destruct ds; [done|]. by injection H as <- <-.
Qed.

Lemma scanExponent_app l e r k : stops k → scanExponent l = Some (e, r) → scanExponent (l ++ k) = Some (e, r ++ k).
Proof.
  intros Hk H. destruct l as [|c l]; cbn [app] in *.
  - injection H as <- <-. destruct k as [|c k]; [done|]. destruct Hk as (_ & _ & H1 & H2). unfold scanExponent.
    by rewrite (proj2 (Ascii.eqb_neq _ _) H1), (proj2 (Ascii.eqb_neq _ _) H2).
  - unfold scanExponent in *. destruct (_ || _); [|by injection H as <- <-].
    destruct l as [|d l]; [by destruct k|]. cbn [app].
    destruct (Ascii.eqb d "+" || Ascii.eqb d "-").
    + destruct (spanDigits l) as [ds r'] eqn:E. rewrite (spanDigits_app l ds r') by done. destruct ds; [done|]. by injection H as <- <-.
    + destruct (spanDigits (d :: l)) as [ds r'] eqn:E. change (d :: l ++ k) with ((d :: l) ++ k).
      rewrite (spanDigits_app (d :: l) ds r') by done. destruct ds; [done|]. by injection H as <- <-.
Qed.

(** A number literal: scanned to its end. *)
Definition isNumber (lit : list ascii) : bool := bool_decide (scanNumber lit = Some (lit, [])).

Lemma scanNumber_app lit k : stops k → isNumber lit = true → scanNumber (lit ++ k) = Some (lit, k).
Proof.
  intros Hk H%bool_decide_eq_true. unfold scanNumber in *.
  assert (∀ sign l, (match scanInt l with None => None | Some (i, l) => match scanFraction l with None => None
      | Some (f, l) => match scanExponent l with None => None | Some (e, l) => Some (sign ++ i ++ f ++ e, l) end end end) = Some (lit, []) →
    (match scanInt (l ++ k) with None => None | Some (i, l) => match scanFraction l with None => None
      | Some (f, l) => match scanExponent l with None => None | Some (e, l) => Some (sign ++ i ++ f ++ e, l) end end end) = Some (lit, k)) as Hgo.
  { intros sign l Hl. destruct (scanInt l) as [[i l1]|] eqn:E1; [|done]. rewrite (scanInt_app _ _ _ k Hk E1).
    destruct (scanFraction l1) as [[f l2]|] eqn:E2; [|done]. rewrite (scanFraction_app _ _ _ k Hk E2).
    destruct (scanExponent l2) as [[e l3]|] eqn:E3; [|done]. rewrite (scanExponent_app _ _ _ k Hk E3).
    by injection Hl as -> ->. }
  destruct lit as [|c r]; [discriminate H|]. cbn [app]. destruct (Ascii.eqb c "-"); [by apply Hgo|].
  apply (Hgo [] (c :: r)). exact H.
Qed.

(** ** Round trip: values *)

(** Texts are valid UTF-8 and numbers are literals. *)
Fixpoint wellFormed (j : json) : bool :=
  match j with
  | JNull | JBool _ => true
  | JNumber lit => isNumber lit
  | JString s => Utf8.valid s
  | JArray l => forallb wellFormed l
  | JObject ms => forallb (λ m, Utf8.valid m.1 && wellFormed m.2) ms
  end.

Fixpoint nesting (j : json) : Z :=
  match j with
  | JArray l => 1 + fold_right (λ x n, Z.max (nesting x) n) 0 l
  | JObject ms => 1 + fold_right (λ m n, Z.max (nesting m.2) n) 0 ms
  | _ => 0
  end.

Lemma number_head c r : isNumber (c :: r) = true → c = "-"%char ∨ is_digit c = true.
Proof.
  intros H%bool_decide_eq_true. unfold scanNumber in H. destruct (Ascii.eqb_spec c "-"); [by left|right]. cbn [scanInt] in H.
  destruct (Ascii.eqb_spec c "0") as [->|]; [done|]. by destruct (is_digit c).
Qed.

(** A value starts with a character that is neither white space nor a closing bracket. *)
Lemma print_head j : wellFormed j = true → ∃ c r, print j = c :: r ∧ isSpace c = false ∧ c ≠ "]"%char.
Proof.
  intros H. destruct j as [|[]|lit|s|l|ms]; simpl in *; try by (do 2 eexists; split; [reflexivity|]; split; [reflexivity|discriminate]).
  destruct lit as [|c r]; [discriminate H|]. exists c, r. split; [done|].
  destruct (number_head c r H) as [->|Hd].
  - by split.
  - unfold is_digit in Hd. apply andb_true_iff in Hd as [H1%Z.leb_le H2%Z.leb_le]. unfold isSpace. split.
    + destruct (Z.eqb_spec (code c) 32), (Z.eqb_spec (code c) 9), (Z.eqb_spec (code c) 10), (Z.eqb_spec (code c) 13); lia || done.
    + intros ->. vm_compute in H2. done.
Qed.

Lemma skip_print j k : wellFormed j = true → skipWs (print j ++ k) = print j ++ k.
Proof. intros H. destruct (print_head j H) as (c & r & -> & Hs & _). simpl. by rewrite Hs. Qed.

Lemma skipWs_cons c l : isSpace c = false → skipWs (c :: l) = c :: l.
Proof. intros H. simpl. by rewrite H. Qed.

Lemma expect_text lit v k : expect lit v (chars lit ++ k) = Some (v, k).
Proof. unfold expect. rewrite take_app_length, bool_decide_eq_true_2, drop_app_length by done. done. Qed.

(** What [parseValue] needs: enough fuel, room for the nesting, and a rest that stops. *)
Definition parses (j : json) : Prop :=
  ∀ fuel d k, wellFormed j = true → (2 * length (print j) ≤ fuel)%nat → d + nesting j ≤ maxNestingDepth → stops k →
    parseValue fuel d (print j ++ k) = Some (j, k).

Lemma parseElements_print l fuel d k :
  Forall parses l → l ≠ [] → forallb wellFormed l = true → (S (2 * length (joinL "," (print <$> l))) ≤ fuel)%nat →
  d + fold_right (λ x n, Z.max (nesting x) n) 0 l ≤ maxNestingDepth →
  parseElements fuel d (joinL "," (print <$> l) ++ "]"%char :: k) = Some (l, k).
Proof.
  intros Hall. revert fuel. induction Hall as [|x l Hx Hl IH]; [done|]. intros fuel _ [Hw1 Hw2]%andb_true_iff Hf Hd.
  destruct fuel as [|fuel]; [lia|]. cbn [fold_right] in Hd. destruct l as [|y l]; cbn [parseElements].
  - cbn [fmap list_fmap joinL] in *. rewrite Hx; [done|done|lia|lia|done].
  - assert (∃ rest, rest = y :: l) as [rest Hr] by eauto. rewrite <- Hr in *. assert (joinL "," (print <$> x :: rest) = print x ++ ","%char :: joinL "," (print <$> rest)) as E by by subst rest.
    rewrite E in Hf |- *. rewrite length_app in Hf. simpl in Hf. rewrite <- app_assoc, Hx; [|done|lia|lia|done].
    cbn [mbind option_bind app]. rewrite skipWs_cons by done. cbn -[parseElements joinL fmap]. rewrite IH; [done|by subst|by rewrite Hr|lia|lia].
Qed.

Definition printMember (m : list ascii * json) : list ascii := quoteL m.1 ++ ":"%char :: print m.2.

Lemma parseMembers_print ms fuel d k :
  Forall (λ m, parses m.2) ms → ms ≠ [] → forallb (λ m, Utf8.valid m.1 && wellFormed m.2) ms = true →
  (S (2 * length (joinL "," (printMember <$> ms))) ≤ fuel)%nat →
  d + fold_right (λ m n, Z.max (nesting m.2) n) 0 ms ≤ maxNestingDepth →
  parseMembers fuel d (joinL "," (printMember <$> ms) ++ "}"%char :: k) = Some (ms, k).
Proof.
  intros Hall. revert fuel. induction Hall as [|[key x] ms Hx Hl IH]; [done|]. cbn [fst snd] in *.
  intros fuel _ [[Hv Hw1]%andb_true_iff Hw2]%andb_true_iff Hf Hd.
  destruct fuel as [|fuel]; [lia|]. cbn [fold_right snd] in Hd.
  assert (∀ rest, printMember (key, x) ++ rest = quoteChar :: escape key ++ quoteChar :: ":"%char :: print x ++ rest) as Hm.
  { intros rest. unfold printMember, quoteL. simpl. by rewrite <- !app_assoc. }
  assert (2 * length (print x) ≤ 2 * length (printMember (key, x)))%nat as Hlen.
  { unfold printMember. rewrite length_app. simpl. lia. }
  destruct ms as [|y ms]; cbn [parseMembers].
  - cbn [fmap list_fmap joinL] in *. rewrite Hm, skipWs_cons by done. change (Ascii.eqb quoteChar quoteChar) with true.
    cbn [negb]. rewrite scan_quote. cbn [mbind option_bind]. rewrite skipWs_cons by done. cbn [Ascii.eqb Bool.eqb negb andb].
    rewrite Hx; [|done|lia|lia|done]. cbn. by rewrite unquoteText_escape.
  - assert (∃ rest, rest = y :: ms) as [rest Hr] by eauto. rewrite <- Hr in *.
    assert (joinL "," (printMember <$> (key, x) :: rest) = printMember (key, x) ++ ","%char :: joinL "," (printMember <$> rest)) as E
      by by subst rest.
    rewrite E in Hf |- *. rewrite length_app in Hf. cbn [length] in Hf. rewrite <- app_assoc, Hm, skipWs_cons by done.
    change (Ascii.eqb quoteChar quoteChar) with true. cbn [negb]. rewrite scan_quote. cbn [mbind option_bind].
    rewrite skipWs_cons by done. cbn [Ascii.eqb Bool.eqb negb andb]. rewrite Hx; [|done|lia|lia|done].
    cbn [mbind option_bind app]. rewrite skipWs_cons by done. cbn -[parseMembers joinL fmap].
    rewrite IH; [|by subst|by rewrite Hr|lia|lia]. cbn. by rewrite unquoteText_escape.
Qed.

Lemma parses_all j : parses j.
Proof.
  induction j as [|b|lit|s|l IH|ms IH] using json_nested_ind; intros fuel d k Hw Hf Hd Hk.
  - destruct fuel; [simpl in Hf; lia|]. cbn [parseValue]. rewrite skip_print by done. apply (expect_text "null").
  - destruct fuel; [destruct b; simpl in Hf; lia|]. cbn [parseValue]. rewrite skip_print by done.
    destruct b; [apply (expect_text "true")|apply (expect_text "false")].
  - destruct (print_head _ Hw) as (c & r & E & Hs & Hne). simpl in E. subst lit.
    destruct fuel; [simpl in Hf; lia|]. cbn [parseValue]. rewrite skip_print by done. simpl in Hw.
    pose proof (scanNumber_app _ k Hk Hw) as Hscan. cbn [print app] in *.
    pose proof (number_head c r Hw) as Hfirst.
    repeat match goal with |- context [Ascii.eqb c ?x] =>
      destruct (Ascii.eqb_spec c x) as [->|_]; [by destruct Hfirst|] end.
    by rewrite Hscan.
  - destruct fuel; [simpl in Hf; lia|]. cbn [parseValue]. rewrite skip_print by done. cbn -[scanString].
    pose proof (scan_quote s k) as Hq. cbn -[scanString] in Hq. rewrite <- app_assoc. cbn [app]. rewrite Hq. cbn.
    by rewrite unquoteText_escape.
  - destruct fuel; [simpl in Hf; lia|]. cbn [parseValue]. rewrite skip_print by done. cbn [print app Ascii.eqb].
    cbn [nesting] in Hd. cbn -[parseElements skipWs maxNestingDepth joinL].
    assert (0 ≤ fold_right (λ x n, Z.max (nesting x) n) 0 l) by (clear; induction l; simpl; lia).
    destruct (Z.ltb_spec maxNestingDepth (d + 1)); [lia|]. destruct l as [|x l]; [done|].
    cbn [print] in Hf. simpl length in Hf. rewrite length_app in Hf. simpl in Hw.
    assert (wellFormed x = true) as Hx by (by apply andb_true_iff in Hw as [? _]).
    rewrite <- app_assoc. cbn [app].
    assert (∃ c r, joinL "," (List.map print (x :: l)) = c :: r ∧ isSpace c = false ∧ c ≠ "]"%char) as (c & r & E & Hs & Hne).
    { destruct (print_head x Hx) as (c & r & E & Hs & Hne). destruct l; cbn [List.map joinL]; rewrite E; simpl; eauto 10. }
    rewrite E. cbn [app skipWs]. rewrite Hs. cbn [skipWs]. rewrite (proj2 (Ascii.eqb_neq _ _) Hne).
    change (c :: r ++ "]"%char :: k) with ((c :: r) ++ "]"%char :: k). rewrite <- E.
    rewrite (parseElements_print (x :: l)); [done|done|done|exact Hw| |lia].
    change (print <$> x :: l) with (List.map print (x :: l)). simpl in Hf |- *. lia.
  - destruct fuel; [simpl in Hf; lia|]. cbn [parseValue]. rewrite skip_print by done. cbn [print app Ascii.eqb].
    cbn [nesting] in Hd. cbn -[parseMembers skipWs maxNestingDepth joinL].
    assert (0 ≤ fold_right (λ m n, Z.max (nesting m.2) n) 0 ms) by (clear; induction ms; simpl; lia).
    destruct (Z.ltb_spec maxNestingDepth (d + 1)); [lia|]. destruct ms as [|m ms]; [done|].
    assert (length (print (JObject (m :: ms))) = length (joinL "," (printMember <$> m :: ms)) + 2)%nat as Hlen.
    { change (print (JObject (m :: ms))) with ("{"%char :: joinL "," (printMember <$> m :: ms) ++ ["}"%char]).
      cbn [length]. rewrite length_app. cbn [length]. lia. }
    rewrite Hlen in Hf. clear Hlen. simpl in Hw. rewrite <- app_assoc. cbn [app].
    assert (∃ r, joinL "," (printMember <$> m :: ms) = quoteChar :: r) as [r E].
    { destruct ms; cbn [fmap list_fmap joinL]; unfold printMember, quoteL; simpl; eauto. }
    change (List.map _ (m :: ms)) with (printMember <$> m :: ms). rewrite E. cbn [app skipWs].
    change (isSpace quoteChar) with false. cbn [skipWs]. change (Ascii.eqb quoteChar "}") with false. cbn [skipWs].
    change (quoteChar :: r ++ "}"%char :: k) with ((quoteChar :: r) ++ "}"%char :: k). rewrite <- E.
    rewrite (parseMembers_print (m :: ms)); [done|done|done|exact Hw|lia|lia].
Qed.

(** Reading back what was printed. *)
Lemma parse_print j :
  wellFormed j = true → nesting j ≤ maxNestingDepth → parse (print j) = Some j.
Proof.
  intros Hw Hn. unfold parse. pose proof (parses_all j (S (2 * length (print j))) 0 [] Hw ltac:(lia) ltac:(lia) I) as H.
  rewrite app_nil_r in H. rewrite H. by destruct j.
Qed.

(** ** The fuel of [parse] is enough

    Every value, member and element takes at least one character. *)

Definition shrinks {A} (f : list ascii → option (A * list ascii)) : Prop :=
  ∀ l x r, f l = Some (x, r) → (length r < length l)%nat.

Lemma skipWs_length l : (length (skipWs l) ≤ length l)%nat.
Proof. induction l as [|c l IH]; simpl; [done|]. destruct (isSpace c); simpl; lia. Qed.

Lemma skipWs_shorter l c r : skipWs l = c :: r → (length r < length l)%nat.
Proof. intros H. pose proof (skipWs_length l) as Hl. rewrite H in Hl. simpl in Hl. lia. Qed.

Lemma spanDigits_length l : (length (spanDigits l).2 ≤ length l)%nat.
Proof. induction l as [|c l IH]; simpl; [done|]. destruct (is_digit c); simpl; [|lia]. destruct (spanDigits l). simpl in *. lia. Qed.

Lemma spanDigits_eq l ds r : spanDigits l = (ds, r) → l = ds ++ r.
Proof.
  revert ds r. induction l as [|c l IH]; simpl; intros ds r H; [by injection H as <- <-|].
  destruct (is_digit c); [|by injection H as <- <-]. destruct (spanDigits l) as [ds' r']. injection H as <- <-. simpl. by rewrite <- IH.
Qed.

Lemma scanNumber_shrinks : shrinks scanNumber.
Proof.
  intros l lit r H. unfold scanNumber in H.
  assert (∀ sign l', (match scanInt l' with None => None | Some (i, l) => match scanFraction l with None => None
      | Some (f, l) => match scanExponent l with None => None | Some (e, l) => Some (sign ++ i ++ f ++ e, l) end end end) = Some (lit, r) →
    (length r < length l')%nat) as Hgo.
  { clear. intros sign l H. destruct (scanInt l) as [[i l1]|] eqn:E1; [|done]. destruct (scanFraction l1) as [[f l2]|] eqn:E2; [|done].
    destruct (scanExponent l2) as [[e l3]|] eqn:E3; [|done]. injection H as _ <-.
    assert (length l1 < length l)%nat.
    { destruct l as [|c l]; [done|]. unfold scanInt in E1. destruct (Ascii.eqb c "0"); [injection E1 as _ <-; simpl; lia|].
      destruct (is_digit c) eqn:Hc; [|done]. simpl in E1. rewrite Hc in E1. pose proof (spanDigits_length l).
      destruct (spanDigits l). injection E1 as _ <-. simpl in *. lia. }
    assert (length l2 ≤ length l1)%nat.
    { destruct l1 as [|c l1]; [by injection E2 as _ <-|]. unfold scanFraction in E2.
      destruct (Ascii.eqb c "."); [|by injection E2 as _ <-]. pose proof (spanDigits_length l1).
      destruct (spanDigits l1) as [[|] r1]; [done|]. injection E2 as _ <-. simpl in *. lia. }
    assert (length l3 ≤ length l2)%nat; [|lia].
    destruct l2 as [|c l2]; [by injection E3 as _ <-|]. unfold scanExponent in E3. destruct (_ || _); [|by injection E3 as _ <-].
    destruct l2 as [|x l2]; [done|]. destruct (_ || _).
    - pose proof (spanDigits_length l2). destruct (spanDigits l2) as [[|] r1]; [done|]. injection E3 as _ <-. simpl in *. lia.
    - pose proof (spanDigits_length (x :: l2)). destruct (spanDigits (x :: l2)) as [[|] r1]; [done|]. injection E3 as _ <-. simpl in *. lia. }
  destruct l as [|c l]; [done|]. destruct (Ascii.eqb c "-"); [|by eapply (Hgo [] (c :: l))]. apply Hgo in H. simpl. lia.
Qed.

Lemma scanString_shrinks : shrinks scanString.
Proof.
  intros l. remember (length l) as n eqn:Hn. assert (length l ≤ n)%nat as Hle by lia. rewrite Hn. clear Hn.
  revert l Hle. induction n as [|n IH]; intros [|c l] Hle x r H; simpl in Hle; try done; [lia|]. cbn [scanString] in H.
  destruct (Ascii.eqb c quoteChar); [injection H as _ <-; simpl; lia|]. destruct (code c <? 32); [done|].
  assert (∀ l' f, (length l' ≤ length l)%nat → ('(raw, rest) ← scanString l'; Some (f raw, rest)) = Some (x, r) →
    (length r < length (c :: l))%nat) as Hgo.
  { intros l' f Hl' H'. destruct (scanString l') as [[raw rest]|] eqn:E; [|done]. injection H' as _ <-.
    apply IH in E; [|lia]. simpl. lia. }
  destruct (Ascii.eqb c backslash); [|by eapply (Hgo l (cons c))].
  destruct l as [|d l1]; [done|]. destruct (Ascii.eqb d "u").
  - destruct l1 as [|h1 [|h2 [|h3 [|h4 l2]]]]; try done.
    destruct (hexValue h1), (hexValue h2), (hexValue h3), (hexValue h4); try done.
    eapply (Hgo l2 (λ raw, c :: d :: h1 :: h2 :: h3 :: h4 :: raw)); [simpl; lia|exact H].
  - destruct (simpleEscape d); [|done]. eapply (Hgo l1 (λ raw, c :: d :: raw)); [simpl; lia|exact H].
Qed.

Lemma expect_shrinks lit v l x r : chars lit ≠ [] → expect lit v l = Some (x, r) → (length r < length l)%nat.
Proof.
  unfold expect. intros Hne H. case_bool_decide as Ht; [|done]. injection H as _ <-. rewrite length_drop.
  assert (length (chars lit) ≤ length l)%nat by (rewrite <- Ht, length_take; lia). destruct (chars lit); [done|]. simpl in *. lia.
Qed.

Lemma parse_shrinks n :
  (∀ d, shrinks (parseValue n d)) ∧ (∀ d, shrinks (parseMembers n d)) ∧ (∀ d, shrinks (parseElements n d)).
Proof.
  induction n as [|n (IHv & IHm & IHe)]; [done|]. split; [|split]; intros d l x r H.
  - cbn [parseValue] in H. destruct (skipWs l) as [|c r0] eqn:Es; [done|]. apply skipWs_shorter in Es as Hs.
    destruct (Ascii.eqb c "{").
    { destruct (_ <? _); [done|]. destruct (skipWs r0) as [|e r1] eqn:E1; [done|]. apply skipWs_shorter in E1.
      destruct (Ascii.eqb e "}"); [injection H as _ <-; lia|]. destruct (parseMembers n _ _) as [[ms rest]|] eqn:E; [|done].
      injection H as _ <-. apply IHm in E. simpl in E. lia. }
    destruct (Ascii.eqb c "[").
    { destruct (_ <? _); [done|]. destruct (skipWs r0) as [|e r1] eqn:E1; [done|]. apply skipWs_shorter in E1.
      destruct (Ascii.eqb e "]"); [injection H as _ <-; lia|]. destruct (parseElements n _ _) as [[ms rest]|] eqn:E; [|done].
      injection H as _ <-. apply IHe in E. simpl in E. lia. }
    pose proof (skipWs_length l) as Hle. rewrite Es in Hle.
    destruct (Ascii.eqb c quoteChar).
    { destruct (scanString r0) as [[raw rest]|] eqn:E; [|done]. injection H as _ <-. apply scanString_shrinks in E. lia. }
    destruct (Ascii.eqb c "t"); [apply expect_shrinks in H; [lia|done]|].
    destruct (Ascii.eqb c "f"); [apply expect_shrinks in H; [lia|done]|].
    destruct (Ascii.eqb c "n"); [apply expect_shrinks in H; [lia|done]|].
    destruct (scanNumber (c :: r0)) as [[lit rest]|] eqn:E; [|done]. injection H as _ <-. apply scanNumber_shrinks in E. lia.
  - cbn [parseMembers] in H. destruct (skipWs l) as [|c r0] eqn:Es; [done|]. apply skipWs_shorter in Es.
    destruct (negb _); [done|]. destruct (scanString r0) as [[raw r1]|] eqn:E1; [|done]. apply scanString_shrinks in E1. simpl in H.
    destruct (skipWs r1) as [|e r2] eqn:E2; [done|]. apply skipWs_shorter in E2. destruct (negb _); [done|].
    destruct (parseValue n d r2) as [[v r3]|] eqn:E3; [|done]. apply IHv in E3. simpl in H.
    destruct (skipWs r3) as [|f r4] eqn:E4; [done|]. apply skipWs_shorter in E4.
    destruct (Ascii.eqb f "}"); [injection H as _ <-; lia|]. destruct (Ascii.eqb f ","); [|done].
    destruct (parseMembers n d r4) as [[ms rest]|] eqn:E5; [|done]. apply IHm in E5. injection H as _ <-. lia.
  - cbn [parseElements] in H. destruct (parseValue n d l) as [[v r3]|] eqn:E3; [|done]. apply IHv in E3. simpl in H.
    destruct (skipWs r3) as [|f r4] eqn:E4; [done|]. apply skipWs_shorter in E4.
    destruct (Ascii.eqb f "]"); [injection H as _ <-; lia|]. destruct (Ascii.eqb f ","); [|done].
    destruct (parseElements n d r4) as [[ms rest]|] eqn:E5; [|done]. apply IHe in E5. injection H as _ <-. lia.
Qed.

Lemma parse_fuel n :
  (∀ d l m, (2 * length l < n)%nat → (n ≤ m)%nat → parseValue m d l = parseValue n d l) ∧
  (∀ d l m, (2 * length l < n)%nat → (n ≤ m)%nat → parseMembers m d l = parseMembers n d l) ∧
  (∀ d l m, (S (2 * length l) < n)%nat → (n ≤ m)%nat → parseElements m d l = parseElements n d l).
Proof.
  induction n as [|n (IHv & IHm & IHe)]; [split; [|split]; intros; lia|].
  split; [|split]; intros d l m Hl Hm; (destruct m as [|m]; [lia|]).
  - cbn [parseValue]. destruct (skipWs l) as [|c r0] eqn:Es; [done|]. apply skipWs_shorter in Es.
    destruct (Ascii.eqb c "{"); [|destruct (Ascii.eqb c "["); [|done]].
    + destruct (_ <? _); [done|]. destruct (skipWs r0) as [|e r1] eqn:E1; [done|]. apply skipWs_shorter in E1.
      rewrite IHm; [done|simpl; lia|lia].
    + destruct (_ <? _); [done|]. destruct (skipWs r0) as [|e r1] eqn:E1; [done|]. apply skipWs_shorter in E1.
      rewrite IHe; [done|simpl; lia|lia].
  - cbn [parseMembers]. destruct (skipWs l) as [|c r0] eqn:Es; [done|]. apply skipWs_shorter in Es.
    destruct (negb _); [done|]. destruct (scanString r0) as [[raw r1]|] eqn:E1; [|done]. apply scanString_shrinks in E1. simpl.
    destruct (skipWs r1) as [|e r2] eqn:E2; [done|]. apply skipWs_shorter in E2. destruct (negb _); [done|].
    rewrite IHv; [|lia|lia]. destruct (parseValue n d r2) as [[v r3]|] eqn:E3; [|done]. apply parse_shrinks in E3. simpl.
    destruct (skipWs r3) as [|f r4] eqn:E4; [done|]. apply skipWs_shorter in E4. rewrite IHm; [done|lia|lia].
  - cbn [parseElements]. rewrite IHv; [|lia|lia]. destruct (parseValue n d l) as [[v r3]|] eqn:E3; [|done].
    apply parse_shrinks in E3. simpl. destruct (skipWs r3) as [|f r4] eqn:E4; [done|]. apply skipWs_shorter in E4.
    rewrite IHe; [done|lia|lia].
Qed.

(** ** What is parsed is well formed

    Whatever bytes are parsed, the texts of the value are valid UTF-8, since invalid bytes and
    lone surrogates become U+FFFD, and its numbers are literals. *)

Lemma valid_rune bs l : Utf8.isRune bs = true → Utf8.valid l = true → Utf8.valid (bs ++ l) = true.
Proof. intros Hb Hl. unfold Utf8.valid. by rewrite Utf8.runes_good. Qed.

Definition okRune (r : Utf8.rune) : Prop := match r with Utf8.Good bs => Utf8.isRune bs = true | Utf8.Bad _ => True end.

Lemma runes_ok l : Forall okRune (Utf8.runes l).
Proof.
  induction l as [|bs l Hb IH|b l Hb IH] using Utf8.runes_ind; [constructor| |].
  - rewrite Utf8.runes_good by done. by constructor.
  - rewrite Hb. by constructor.
Qed.

Lemma code_byte n : 0 ≤ n < 256 → code (ascii_of_N (Z.to_N n)) = n.
Proof. intros H. unfold code. rewrite N_ascii_embedding by lia. lia. Qed.

Ltac dlia := Z.to_euclidean_division_equations; lia.

Lemma leb_and a b c : a ≤ b → b ≤ c → (a <=? b) && (b <=? c) = true.
Proof. intros. apply andb_true_iff. split; by apply Z.leb_le. Qed.

Lemma encode_rune n : 0 ≤ n → Utf8.isRune (Utf8.encode n) = true.
Proof.
  intros Hn. unfold Utf8.encode. cbv zeta.
  destruct (Z.ltb_spec n 128) as [|H1]; [|destruct (Z.ltb_spec n 2048) as [|H2]].
  - simpl. unfold Utf8.valid1. rewrite code_byte by lia. by apply Z.ltb_lt.
  - simpl. unfold Utf8.valid2, Utf8.cont, Utf8.between. rewrite !code_byte by dlia. rewrite !leb_and by dlia. done.
  - destruct ((_ && _) || _)%bool eqn:H3; [done|]. apply orb_false_iff in H3 as [H3 H4]. apply Z.ltb_ge in H4.
    assert (n < 55296 ∨ 57343 < n) as H5 by (apply andb_false_iff in H3 as [H3|H3]; apply Z.leb_gt in H3; lia).
    destruct (Z.ltb_spec n 65536); simpl; unfold Utf8.valid3, Utf8.valid4, Utf8.cont, Utf8.between; rewrite !code_byte by dlia.
    + destruct (Z.eqb_spec (224 + n / 4096) 224), (Z.eqb_spec (224 + n / 4096) 237); rewrite !leb_and by dlia; done.
    + destruct (Z.eqb_spec (240 + n / 262144) 240), (Z.eqb_spec (240 + n / 262144) 244); rewrite !leb_and by dlia; done.
Qed.

Lemma hexValue_nonneg c n : hexValue c = Some n → 0 ≤ n.
Proof. unfold hexValue, is_digit. intros H. repeat case_match; simplify_eq; breflect; lia. Qed.

Lemma getu4_nonneg l n : getu4 l = Some n → 0 ≤ n.
Proof.
  unfold getu4. intros H. repeat case_match; try done. clear -H. simplify_option_eq.
  repeat match goal with E : hexValue _ = Some _ |- _ => apply hexValue_nonneg in E end. lia.
Qed.

Lemma decodeSurrogates_nonneg a b n : decodeSurrogates a b = Some n → 0 ≤ n.
Proof. unfold decodeSurrogates. intros H. case_match; [|done]. injection H as <-. breflect. lia. Qed.

Lemma simpleEscape_ascii c d : simpleEscape c = Some d → Utf8.isRune [d] = true.
Proof.
  unfold simpleEscape. intros H. destruct (_ || _)%bool eqn:E.
  - injection H as <-. simpl. unfold Utf8.valid1. apply Z.ltb_lt.
    apply orb_true_iff in E as [E|E]; [apply orb_true_iff in E as [E|E]|]; breflect; lia.
  - repeat case_match; try done; by injection H as <-.
Qed.

Lemma unquote_valid fuel : ∀ l, Forall okRune l → Utf8.valid (unquote fuel l) = true.
Proof.
  induction fuel as [|fuel IH]; intros l Hl; [done|]. cbn [unquote].
  assert (∀ bs k, Utf8.isRune bs = true → Forall okRune k → Utf8.valid (bs ++ unquote fuel k) = true) as Hstep
    by (intros; apply valid_rune; auto).
  destruct l as [|[bs|b] r]; [done| |].
  - pose proof Hl as Hl'. apply Forall_cons in Hl' as [Hb Hr]. case_bool_decide as Hs; [|by apply Hstep]. cbn [negb].
    destruct (getu4 _) as [n|] eqn:En.
    + apply getu4_nonneg in En. destruct (isSurrogate n); [|by apply Hstep; [apply encode_rune|apply Forall_drop]].
      destruct (getu4 (drop 6 _) ≫= decodeSurrogates n) as [m|] eqn:Em; (apply Hstep; [|by apply Forall_drop]); [|done].
      apply encode_rune. destruct (getu4 (drop 6 _)) as [k|]; [|done]. by eapply decodeSurrogates_nonneg.
    + destruct r as [|[[|d [|]]|] r']; try done. apply Forall_cons in Hr as [_ Hr].
      destruct (simpleEscape d) as [e|] eqn:Ed; [|by apply IH]. apply (Hstep [e]); [by eapply simpleEscape_ascii|done].
  - apply Forall_cons in Hl as [_ Hr]. by apply Hstep.
Qed.

Lemma unquoteText_valid raw : Utf8.valid (unquoteText raw) = true.
Proof. apply unquote_valid, runes_ok. Qed.

Lemma spanDigits_idem l ds r : spanDigits l = (ds, r) → spanDigits ds = (ds, []).
Proof.
  revert ds r. induction l as [|c l IH]; simpl; intros ds r H; [by injection H as <- <-|].
  destruct (is_digit c) eqn:Hc; [|by injection H as <- <-]. destruct (spanDigits l) as [ds' r'] eqn:E. injection H as <- <-.
  simpl. by rewrite Hc, (IH _ _ eq_refl).
Qed.

(** The start of a fraction or exponent, or nothing. *)
Definition tailStart (l : list ascii) : Prop := match l with c :: _ => is_digit c = false | [] => True end.

Lemma spanDigits_stop l k : tailStart k → spanDigits l = (l, []) → spanDigits (l ++ k) = (l, k).
Proof.
  intros Hk. induction l as [|c l IH]; simpl; intros H.
  - destruct k as [|c k]; [done|]. simpl in Hk. simpl. by rewrite Hk.
  - destruct (is_digit c); [|done]. destruct (spanDigits l) as [ds r]. injection H as -> ->. by rewrite IH.
Qed.

Lemma scanInt_idem l i r k : tailStart k → scanInt l = Some (i, r) → scanInt (i ++ k) = Some (i, k).
Proof.
  intros Hk H. destruct l as [|c l]; [done|]. unfold scanInt in H. destruct (Ascii.eqb c "0") eqn:Hz.
  { injection H as <- <-. simpl. by rewrite Hz. }
  destruct (is_digit c) eqn:Hc; [|done]. injection H as H. pose proof (spanDigits_idem (c :: l) _ _ H) as Hi.
  simpl in H. rewrite Hc in H. destruct (spanDigits l) as [ds r']. injection H as <- <-.
  pose proof (spanDigits_stop _ k Hk Hi) as Hs. unfold scanInt. cbn [app] in *. by rewrite Hz, Hc, Hs.
Qed.

Definition exponentStart (l : list ascii) : Prop :=
  match l with c :: _ => (Ascii.eqb c "e" || Ascii.eqb c "E")%bool = true | [] => True end.

Lemma exponent_start l : exponentStart l → tailStart l.
Proof. destruct l as [|c l]; [done|]. simpl. intros H. apply orb_true_iff in H as [H|H]; apply Ascii.eqb_eq in H; by subst. Qed.

Lemma scanExponent_idem l e r : scanExponent l = Some (e, r) → scanExponent e = Some (e, []) ∧ exponentStart e.
Proof.
  destruct l as [|c l]; [by intros [= <- <-]|]. unfold scanExponent at 1. destruct (_ || _)%bool eqn:He; [|by intros [= <- <-]].
  intros H.
  assert (∀ s l', (match spanDigits l' with ([], _) => None | (ds, r') => Some (c :: s ++ ds, r') end) = Some (e, r) →
    ∃ ds, e = c :: s ++ ds ∧ ds ≠ [] ∧ spanDigits ds = (ds, [])) as Hgo.
  { intros s l' H'. destruct (spanDigits l') as [ds r'] eqn:E. apply spanDigits_idem in E. destruct ds; [done|].
    injection H' as <- <-. eauto. }
  destruct l as [|d l]; [done|].
  destruct (Ascii.eqb d "+" || Ascii.eqb d "-")%bool eqn:Hd; apply Hgo in H as (ds & -> & Hne & Hs); (split; [|exact He]);
    unfold scanExponent; rewrite He; cbn [app].
  - rewrite Hd, Hs. by destruct ds.
  - destruct ds as [|x ds]; [done|]. destruct (Ascii.eqb x "+" || Ascii.eqb x "-")%bool eqn:Hx.
    + exfalso. apply orb_true_iff in Hx as [Hx|Hx]; apply Ascii.eqb_eq in Hx; subst x; discriminate Hs.
    + by rewrite Hs.
Qed.

Lemma scanFraction_idem l f r e :
  exponentStart e → scanFraction l = Some (f, r) → scanFraction (f ++ e) = Some (f, e) ∧ tailStart (f ++ e).
Proof.
  intros He H. pose proof (exponent_start e He) as Ht.
  assert (scanFraction e = Some ([], e)) as Hnil.
  { destruct e as [|c e]; [done|]. simpl in He. simpl. destruct (Ascii.eqb_spec c "."); [by subst|done]. }
  destruct l as [|c l]; [by injection H as <- <-|]. unfold scanFraction in H.
  destruct (Ascii.eqb_spec c ".") as [->|Hc]; [|by injection H as <- <-].
  destruct (spanDigits l) as [ds r'] eqn:E. apply spanDigits_idem in E. destruct ds as [|d ds]; [done|]. injection H as <- <-.
  split; [|done]. pose proof (spanDigits_stop _ e Ht E) as Hs. unfold scanFraction. cbn [app] in *. simpl Ascii.eqb. cbv match. by rewrite Hs.
Qed.

(** A number without its sign. *)
Definition scanUnsigned (l : list ascii) : option (list ascii * list ascii) :=
  '(i, l) ← scanInt l; '(f, l) ← scanFraction l; '(e, l) ← scanExponent l; Some (i ++ f ++ e, l).

Lemma scanNumber_unfold l : scanNumber l =
  match l with
  | c :: r => if Ascii.eqb c "-" then '(n, l) ← scanUnsigned r; Some (c :: n, l) else scanUnsigned l
  | [] => None
  end.
Proof.
  destruct l as [|c r]; [done|]. unfold scanNumber, scanUnsigned, mbind, option_bind. destruct (Ascii.eqb c "-"); repeat case_match; by simplify_eq.
Qed.

Lemma scanUnsigned_idem l n r : scanUnsigned l = Some (n, r) →
  scanUnsigned n = Some (n, []) ∧ match n with c :: _ => Ascii.eqb c "-" = false | [] => False end.
Proof.
  intros H. unfold scanUnsigned in H. destruct (scanInt l) as [[i l1]|] eqn:E1; [|done]. simpl in H.
  destruct (scanFraction l1) as [[f l2]|] eqn:E2; [|done]. simpl in H.
  destruct (scanExponent l2) as [[e l3]|] eqn:E3; [|done]. injection H as <- <-.
  apply scanExponent_idem in E3 as [He Hs]. destruct (scanFraction_idem _ _ _ e Hs E2) as [Hf Ht].
  pose proof (scanInt_idem _ _ _ _ Ht E1) as Hi. split.
  - unfold scanUnsigned. rewrite Hi. simpl. rewrite Hf. simpl. rewrite He. done.
  - destruct i as [|c i].
    + destruct l as [|c l]; [done|]. unfold scanInt in E1. destruct (Ascii.eqb c "0"); [done|]. destruct (is_digit c) eqn:Hc; [|done].
      simpl in E1. rewrite Hc in E1. by destruct (spanDigits l).
    + simpl. destruct (Ascii.eqb_spec c "-") as [->|]; [discriminate Hi|done].
Qed.

Lemma scanNumber_literal l lit r : scanNumber l = Some (lit, r) → isNumber lit = true.
Proof.
  rewrite scanNumber_unfold. intros H. apply bool_decide_eq_true. rewrite scanNumber_unfold. destruct l as [|c l]; [done|].
  destruct (Ascii.eqb c "-") eqn:Hc.
  - destruct (scanUnsigned l) as [[n r']|] eqn:E; [|done]. injection H as <- <-. apply scanUnsigned_idem in E as [E _].
    by rewrite Hc, E.
  - apply scanUnsigned_idem in H as [E Hn]. destruct lit as [|d lit]; [done|]. by rewrite Hn.
Qed.

Definition yields {A} (P : A → Prop) (f : list ascii → option (A * list ascii)) : Prop := ∀ l x r, f l = Some (x, r) → P x.

Lemma expect_value lit v l x r : expect lit v l = Some (x, r) → x = v.
Proof. unfold expect. intros H. case_bool_decide; [|done]. by injection H as <- _. Qed.

Lemma parse_yields n :
  (∀ d, yields (λ j, wellFormed j = true) (parseValue n d)) ∧
  (∀ d, yields (λ ms, wellFormed (JObject ms) = true) (parseMembers n d)) ∧
  (∀ d, yields (λ js, wellFormed (JArray js) = true) (parseElements n d)).
Proof.
  induction n as [|n (IHv & IHm & IHe)]; [done|]. split; [|split]; intros d l x r H.
  - cbn [parseValue] in H. destruct (skipWs l) as [|c r0]; [done|].
    destruct (Ascii.eqb c "{").
    { destruct (_ <? _); [done|]. destruct (skipWs r0) as [|e r1]; [done|]. destruct (Ascii.eqb e "}"); [by injection H as <- _|].
      destruct (parseMembers n _ _) as [[ms rest]|] eqn:E; [|done]. injection H as <- _. by apply IHm in E. }
    destruct (Ascii.eqb c "[").
    { destruct (_ <? _); [done|]. destruct (skipWs r0) as [|e r1]; [done|]. destruct (Ascii.eqb e "]"); [by injection H as <- _|].
      destruct (parseElements n _ _) as [[ms rest]|] eqn:E; [|done]. injection H as <- _. by apply IHe in E. }
    destruct (Ascii.eqb c quoteChar).
    { destruct (scanString r0) as [[raw rest]|] eqn:E; [|done]. injection H as <- _. apply unquoteText_valid. }
    destruct (Ascii.eqb c "t"); [by apply expect_value in H as ->|]. destruct (Ascii.eqb c "f"); [by apply expect_value in H as ->|].
    destruct (Ascii.eqb c "n"); [by apply expect_value in H as ->|].
    destruct (scanNumber (c :: r0)) as [[lit rest]|] eqn:E; [|done]. injection H as <- _. by apply scanNumber_literal in E.
  - cbn [parseMembers] in H. destruct (skipWs l) as [|c r0]; [done|]. destruct (negb _); [done|].
    destruct (scanString r0) as [[raw r1]|]; [|done]. simpl in H. destruct (skipWs r1) as [|e r2]; [done|]. destruct (negb _); [done|].
    destruct (parseValue n d r2) as [[v r3]|] eqn:E3; [|done]. apply IHv in E3. simpl in H. destruct (skipWs r3) as [|f r4]; [done|].
    destruct (Ascii.eqb f "}"); [injection H as <- _; simpl; by rewrite unquoteText_valid, E3|]. destruct (Ascii.eqb f ","); [|done].
    destruct (parseMembers n d r4) as [[ms rest]|] eqn:E5; [|done]. apply IHm in E5. injection H as <- _. simpl in *.
    by rewrite unquoteText_valid, E3, E5.
  - cbn [parseElements] in H. destruct (parseValue n d l) as [[v r3]|] eqn:E3; [|done]. apply IHv in E3. simpl in H.
    destruct (skipWs r3) as [|f r4]; [done|]. destruct (Ascii.eqb f "]"); [injection H as <- _; simpl; by rewrite E3|].
    destruct (Ascii.eqb f ","); [|done]. destruct (parseElements n d r4) as [[ms rest]|] eqn:E5; [|done].
    apply IHe in E5. injection H as <- _. simpl in *. by rewrite E3, E5.
Qed.

Lemma parse_wellFormed l j : parse l = Some j → wellFormed j = true.
Proof.
  unfold parse. intros H. destruct (parseValue _ 0 l) as [[v r]|] eqn:E; [|done]. apply parse_yields in E.
  destruct v; try (by injection H as <-); (destruct r as [|c r]; [by injection H as <-|destruct (isSpace c); [by injection H as <-|done]]).
Qed.
