(* ===== verification/Codec.v ===== *)
(** * JSON codecs of the Nutanix types (internal/nutanix/types.go)

    How [encoding/json] reads and writes the structs of the client, by their field tags.
    Decoding starts from the value already there: null leaves it, an unknown member is
    skipped, a member given twice is read twice, and a value of another type is an error.
    Encoding omits empty fields where the tag says omitempty. *)

From S2P Require Import Prelude GoLib NutanixTypes JsonText.
From Stdlib Require Import DecimalString DecimalFacts DecimalPos.

(** ** Decoding *)

Definition decoder (A : Type) := A → json → option A.

Definition decString : decoder string := λ old j,
  match j with JNull => Some old | JString s => Some (text s) | _ => None end.

(** An [int] or [int64]: a literal without fraction or exponent, in range. *)
Definition decInt : decoder Z := λ old j,
  match j with
  | JNull => Some old
  | JNumber lit => n ← atoi (text lit); if int64 n =? n then Some n else None
  | _ => None
  end.

(** A pointer is allocated when nil, and reset by null. *)
Definition decPtr {A} (zero : A) (d : decoder A) : decoder (option A) := λ old j,
  match j with JNull => Some None | _ => Some <$> d (default zero old) j end.

(** The elements overwrite those already in the slice. *)
Fixpoint decElems {A} (zero : A) (d : decoder A) (old : list A) (js : list json) : option (list A) :=
  match js with
  | [] => Some []
  | j :: js => x ← d (default zero (head old)) j; xs ← decElems zero d (tail old) js; Some (x :: xs)
  end.

Definition decSlice {A} (zero : A) (d : decoder A) : decoder (list A) := λ old j,
  match j with JNull => Some [] | JArray js => decElems zero d old js | _ => None end.

(** [foldName]: member names match without regard to case. *)
Fixpoint foldName (l : list ascii) : list ascii :=
  match l with
  | "197"%char :: (("191"%char :: r)) => "S"%char :: foldName r
  | "226"%char :: (("132"%char :: (("170"%char :: r)))) => "K"%char :: foldName r
  | c :: r => upper_byte c :: foldName r
  | [] => []
  end.

(** The field a member goes to: the one of that name, or else the first whose name folds to it. *)
Definition fieldOf (names : list string) (k : list ascii) : option string :=
  if bool_decide (text k ∈ names) then Some (text k)
  else List.find (λ n, bool_decide (foldName (chars n) = foldName k)) names.

(** The values given for a field, in order. *)
Definition slot (names : list string) (ms : list (list ascii * json)) (n : string) : list json :=
  omap (λ m, if bool_decide (fieldOf names m.1 = Some n) then Some m.2 else None) ms.

Definition decField {A} (d : decoder A) (old : A) (js : list json) : option A :=
  foldl (λ acc j, a ← acc; d a j) (Some old) js.

(** A struct with the given field names. *)
Definition object {A} (names : list string) (k : (string → list json) → option A) : decoder A := λ old j,
  match j with JNull => Some old | JObject ms => k (slot names ms) | _ => None end.

(** ** Encoding *)

Definition encString (s : string) : json := JString (chars s).
Definition encInt (z : Z) : json := JNumber (chars (itoa z)).

(** Fields with omitempty. *)
Definition omitString (s : string) : option json := if s =s "" then None else Some (encString s).
Definition omitInt (z : Z) : option json := if z =? 0 then None else Some (encInt z).
Definition omitSlice {A} (e : A → json) (l : list A) : option json :=
  match l with [] => None | _ => Some (JArray (e <$> l)) end.
Definition omitPtr {A} (e : A → json) (o : option A) : option json := e <$> o.

(** A field without omitempty. *)
Definition always {A} (e : A → json) (a : A) : option json := Some (e a).

Definition members (fs : list (string * option json)) : list (list ascii * json) :=
  omap (λ f, pair (chars f.1) <$> f.2) fs.
Definition encStruct (fs : list (string * option json)) : json := JObject (members fs).

(** ** Laws

    [CodecLaw n ok zero e d]: on the values that satisfy [ok], decoding what was encoded gives
    the value back, and the encoding is a well-formed JSON value, nested at most [n] deep, that
    is not null. Whatever well-formed value is decoded, the result satisfies [ok]. *)

Class CodecLaw {A} (n : Z) (ok : A → Prop) (zero : A) (e : A → json) (d : decoder A) : Prop := {
  codec_zero : ok zero;
  codec_back a : ok a → d zero (e a) = Some a;
  codec_text a : ok a → wellFormed (e a) = true;
  codec_depth a : nesting (e a) ≤ n;
  codec_some a : e a ≠ JNull;
  codec_type old j a : ok old → wellFormed j = true → d old j = Some a → ok a
}.

(** The same for a field: the encoding may be left out. *)
Class FieldLaw {A} (n : Z) (ok : A → Prop) (zero : A) (e : A → option json) (d : decoder A) : Prop := {
  field_back a : ok a → decField d zero (option_list (e a)) = Some a;
  field_text a j : ok a → e a = Some j → wellFormed j = true;
  field_depth a j : e a = Some j → nesting j ≤ n;
  field_type old js a : ok old → Forall (λ j, wellFormed j = true) js → decField d old js = Some a → ok a
}.

Definition okString (s : string) : Prop := Utf8.valid (chars s) = true.
Definition okPtr {A} (ok : A → Prop) (o : option A) : Prop := match o with None => True | Some a => ok a end.

#[global] Instance string_codec : CodecLaw 0 okString "" encString decString.
Proof.
  split; [done|intros s _; simpl; by rewrite text_chars|done|done|done|].
  intros old [| | |s| |] a Hold Hw [= <-]; try done. unfold okString. by rewrite chars_text.
Qed.

Lemma to_uint_no_zero p d : Pos.to_uint p ≠ Decimal.D0 d.
Proof.
  intros H. pose proof (DecimalPos.Unsigned.to_of (Pos.to_uint p)) as Hn. rewrite DecimalPos.Unsigned.of_to in Hn.
  change (N.to_uint (N.pos p)) with (Pos.to_uint p) in Hn. unfold Decimal.unorm in Hn.
  destruct (Decimal.nzhead (Pos.to_uint p)) eqn:E; try (rewrite Hn in H; discriminate H).
  - exact (DecimalPos.Unsigned.to_uint_nonzero p Hn).
  - exact (nzhead_nonzero _ _ E).
Qed.

Lemma spanDigits_all l : Forall (λ c, is_digit c = true) l → spanDigits l = (l, []).
Proof. induction 1 as [|c l Hc _ IH]; simpl; [done|]. by rewrite Hc, IH. Qed.

Lemma positive_number p : scanInt (chars (NilZero.string_of_uint (Pos.to_uint p))) =
  Some (chars (NilZero.string_of_uint (Pos.to_uint p)), []).
Proof.
  pose proof (uint_digits (Pos.to_uint p)) as Hd. pose proof (to_uint_no_zero p) as Hz.
  pose proof (DecimalPos.Unsigned.to_uint_nonnil p) as Hn.
  destruct (Pos.to_uint p) as [|u|u|u|u|u|u|u|u|u|u]; try done; [by destruct (Hz u)|..];
    apply spanDigits_all in Hd; unfold scanInt; simpl in *; by rewrite Hd.
Qed.

Lemma itoa_number z : isNumber (chars (itoa z)) = true.
Proof.
  apply bool_decide_eq_true. unfold itoa. destruct z as [|p|p]; [done| |]; unfold scanNumber; simpl.
  - pose proof (positive_number p) as H. pose proof (to_uint_no_zero p) as Hz. pose proof (DecimalPos.Unsigned.to_uint_nonnil p) as Hn.
    destruct (chars (NilZero.string_of_uint (Pos.to_uint p))) as [|c r] eqn:E; [done|].
    destruct (Ascii.eqb_spec c "-") as [->|_]; [discriminate H|]. rewrite H. simpl. by rewrite List.app_nil_r.
  - rewrite positive_number. simpl. by rewrite List.app_nil_r.
Qed.

#[global] Instance int_codec : CodecLaw 0 in_int64 0 encInt decInt.
Proof.
  split; [done| |intros z _; apply itoa_number|done|done|].
  - intros z Hz. simpl. rewrite text_chars, atoi_itoa. simpl. by rewrite int64_id, Z.eqb_refl.
  - intros old [| |lit| | |] a Hold _ H; try done; simpl in H; [by injection H as <-|].
    destruct (atoi (text lit)) as [n|]; [|done]. simpl in H. destruct (Z.eqb_spec (int64 n) n) as [Hn|]; [|done].
    injection H as <-. rewrite <- Hn. apply int64_range.
Qed.

Lemma elems_back {A} n ok (zero : A) e d : CodecLaw n ok zero e d → ∀ l, Forall ok l → decElems zero d [] (e <$> l) = Some l.
Proof. intros Hc l. induction 1 as [|x l Hx _ IH]; [done|]. csimpl. rewrite codec_back by done. simpl. by rewrite IH. Qed.

Lemma elems_text {A} n ok (zero : A) e d : CodecLaw n ok zero e d → ∀ l, Forall ok l → wellFormed (JArray (e <$> l)) = true.
Proof. intros Hc l. induction 1 as [|x l Hx _ IH]; [done|]. csimpl in *. simpl in *. by rewrite (codec_text x Hx), IH. Qed.

Lemma elems_depth {A} n ok (zero : A) e d : CodecLaw n ok zero e d → 0 ≤ n → ∀ l, nesting (JArray (e <$> l)) ≤ 1 + n.
Proof.
  intros Hc Hn l. simpl. apply Z.add_le_mono_l. induction l as [|x l IH]; [done|]. csimpl. pose proof (codec_depth x). lia.
Qed.

Lemma elems_type {A} n ok (zero : A) e d : CodecLaw n ok zero e d →
  ∀ js old l, Forall ok old → forallb wellFormed js = true → decElems zero d old js = Some l → Forall ok l.
Proof.
  intros Hc js. induction js as [|j js IH]; intros old l Hold Hw H; [by injection H as <-|]. simpl in Hw, H. apply andb_true_iff in Hw as [Hj Hw].
  assert (ok (default zero (head old))) as Hh by (destruct Hold; [apply codec_zero|done]).
  destruct (d _ j) as [x|] eqn:E; [|done]. simpl in H. destruct (decElems zero d (tail old) js) as [xs|] eqn:E2; [|done]. injection H as <-.
  constructor; [by eapply codec_type|]. eapply (IH (tail old)); [by destruct Hold|done|done].
Qed.

#[global] Instance slice_codec {A} n ok (zero : A) e d :
  CodecLaw n ok zero e d → TCEq (0 <=? n) true → CodecLaw (1 + n) (Forall ok) [] (λ l, JArray (e <$> l)) (decSlice zero d).
Proof.
  intros Hc Hn%TCEq_eq%Z.leb_le. split; [done|intros l Hl; simpl; by eapply elems_back|intros l Hl; by eapply elems_text|
    intros l; by eapply elems_depth|done|].
  intros old [| | | |js|] l Hold Hw H; try done; [by injection H as <-|]. by eapply elems_type.
Qed.

(** ** Fields *)

Lemma decField_type {A} (P : A → Prop) (d : decoder A) :
  (∀ old j a, P old → wellFormed j = true → d old j = Some a → P a) →
  ∀ js old a, P old → Forall (λ j, wellFormed j = true) js → decField d old js = Some a → P a.
Proof.
  intros Hd js. unfold decField. induction js as [|j js IH]; intros old a Hold Hw H; [by injection H as <-|].
  apply Forall_cons in Hw as [Hj Hw]. simpl in H. destruct (d old j) as [b|] eqn:E; [by eapply (IH b); [eapply Hd|..]|].
  assert (foldl (λ acc j, a ← acc; d a j) None js = None) as Hn by (clear; by induction js). by rewrite Hn in H.
Qed.

#[global] Instance always_field {A} n ok (zero : A) e d : CodecLaw n ok zero e d → FieldLaw n ok zero (always e) d.
Proof.
  intros Hc. split.
  - intros a Ha. unfold decField. simpl. by apply codec_back.
  - intros a j Ha [= <-]. by apply codec_text.
  - intros a j [= <-]. apply codec_depth.
  - intros old js a. apply decField_type. apply codec_type.
Qed.

(** Leaving out the zero value. *)
Lemma omit_field {A} n ok (zero : A) (e : A → json) (e' : A → option json) d :
  CodecLaw n ok zero e d → (∀ a, e' a = Some (e a) ∨ e' a = None ∧ a = zero) → FieldLaw n ok zero e' d.
Proof.
  intros Hc He. split.
  - intros a Ha. destruct (He a) as [->|[-> ->]]; [|done]. unfold decField. simpl. by apply codec_back.
  - intros a j Ha Hj. destruct (He a) as [E|[E _]]; rewrite E in Hj; [|done]. injection Hj as <-. by apply codec_text.
  - intros a j Hj. destruct (He a) as [E|[E _]]; rewrite E in Hj; [|done]. injection Hj as <-. apply codec_depth.
  - intros old js a. apply decField_type. apply codec_type.
Qed.

#[global] Instance string_field : FieldLaw 0 okString "" omitString decString.
Proof.
  eapply omit_field; [apply string_codec|]. intros s. unfold omitString. destruct (String.eqb_spec s ""); auto.
Qed.

#[global] Instance int_field : FieldLaw 0 in_int64 0 omitInt decInt.
Proof. eapply omit_field; [apply int_codec|]. intros z. unfold omitInt. destruct (Z.eqb_spec z 0); auto. Qed.

#[global] Instance slice_field {A} n ok (zero : A) e d :
  CodecLaw n ok zero e d → TCEq (0 <=? n) true → FieldLaw (1 + n) (Forall ok) [] (omitSlice e) (decSlice zero d).
Proof. intros Hc Hn. eapply omit_field; [by apply slice_codec|]. intros [|x l]; auto. Qed.

#[global] Instance ptr_field {A} n ok (zero : A) e d :
  CodecLaw n ok zero e d → FieldLaw n (okPtr ok) None (omitPtr e) (decPtr zero d).
Proof.
  intros Hc. split.
  - intros [a|] Ho; [|done]. unfold decField, decPtr. simpl. pose proof (codec_some a) as Hs.
    pose proof (codec_back a Ho) as Hb. destruct (e a); try done; by rewrite Hb.
  - intros [a|] j Ho [= <-]. by apply codec_text.
  - intros [a|] j [= <-]. apply codec_depth.
  - intros old js a. apply decField_type. clear old js a. intros old j a Hold Hw H.
    assert (ok (default zero old)) as Hz by (destruct old; [done|apply codec_zero]).
    unfold decPtr in H. destruct j; try (by injection H as <-);
      (destruct (d _ _) as [x|] eqn:E; [|done]; simpl in H; injection H as <-; simpl; by eapply (codec_type _ _ _ Hz Hw)).
Qed.

(** ** Members *)

Fixpoint assoc (n : string) (fs : list (string * option json)) : option json :=
  match fs with
  | [] => None
  | (k, v) :: fs => if k =s n then v else assoc n fs
  end.

(** The value of a field among the members of an encoded struct. *)
Lemma slot_members (fs : list (string * option json)) n :
  NoDup fs.*1 → slot fs.*1 (members fs) n = option_list (assoc n fs).
Proof.
  intros Hnd. assert (∀ gs, gs.*1 ⊆ fs.*1 → NoDup gs.*1 → slot fs.*1 (members gs) n = option_list (assoc n gs)) as H; [|by apply H].
  clear Hnd. unfold slot, members. intros gs. induction gs as [|[k v] gs IH]; intros Hsub Hnd; [done|].
  cbn in Hsub. apply NoDup_cons in Hnd as [Hk Hnd].
  assert (fieldOf fs.*1 (chars k) = Some k) as Hf.
  { unfold fieldOf. rewrite text_chars, bool_decide_eq_true_2; [done|]. set_solver. }
  assert (k = n → omap (λ m, if bool_decide (fieldOf fs.*1 m.1 = Some n) then Some m.2 else None)
    (omap (λ f, pair (chars f.1) <$> f.2) gs) = []) as Hrest.
  { intros ->. rewrite IH by set_solver. clear -Hk. induction gs as [|[k' v'] gs IH]; [done|]. cbn in *.
    destruct (String.eqb_spec k' n); [set_solver|]. apply IH. set_solver. }
  cbn [assoc]. destruct v as [j|]; csimpl.
  - rewrite Hf. destruct (String.eqb_spec k n) as [->|Hne].
    + rewrite bool_decide_eq_true_2 by done. rewrite Hrest; done.
    + rewrite bool_decide_eq_false_2 by congruence. apply IH; set_solver.
  - destruct (String.eqb_spec k n) as [->|Hne]; [by rewrite Hrest|]. apply IH; set_solver.
Qed.

(** ** Structs *)

Lemma slot_get names (fs : list (string * option json)) n :
  names = fs.*1 → NoDup names → slot names (members fs) n = option_list (assoc n fs).
Proof. intros -> Hnd. by apply slot_members. Qed.

Lemma slot_wellFormed names ms n : wellFormed (JObject ms) = true → Forall (λ j, wellFormed j = true) (slot names ms n).
Proof.
  simpl. unfold slot. induction ms as [|m ms IH]; csimpl; intros H; [constructor|].
  apply andb_true_iff in H as [Hm H]. apply andb_true_iff in Hm as [_ Hm]. case_bool_decide; [constructor|]; auto.
Qed.

Lemma members_text (fs : list (string * option json)) :
  Forall (λ f, okString f.1 ∧ ∀ j, f.2 = Some j → wellFormed j = true) fs → wellFormed (encStruct fs) = true.
Proof.
  unfold encStruct, members. simpl. induction 1 as [|[k v] fs [Hk Hv] _ IH]; [done|]. destruct v as [j|]; csimpl; [|done].
  simpl in Hk, Hv. unfold okString in Hk. by rewrite Hk, Hv.
Qed.

Lemma members_depth n (fs : list (string * option json)) :
  1 ≤ n → Forall (λ f, ∀ j, f.2 = Some j → nesting j ≤ n - 1) fs → nesting (encStruct fs) ≤ n.
Proof.
  intros Hn. unfold encStruct, members. simpl. intros H. enough (∀ ms, ms = omap (λ f, pair (chars f.1) <$> f.2) fs →
    fold_right (λ m n, Z.max (nesting m.2) n) 0 ms ≤ n - 1) as Hm by (specialize (Hm _ eq_refl); lia).
  induction H as [|[k v] fs Hv _ IH]; intros ms ->; [simpl; lia|]. destruct v as [j|]; csimpl; [|by apply IH].
  specialize (Hv j eq_refl). specialize (IH _ eq_refl). lia.
Qed.

Lemma field_depth_le {A} n m ok (zero : A) e d a j : FieldLaw n ok zero e d → n ≤ m → e a = Some j → nesting j ≤ m.
Proof. intros Hf Hm Hj. pose proof (field_depth a j Hj). lia. Qed.

#[global] Arguments decField : simpl never.
#[global] Arguments omitString : simpl never.
#[global] Arguments omitInt : simpl never.
#[global] Arguments omitSlice : simpl never.
#[global] Arguments omitPtr : simpl never.
#[global] Opaque always.
#[global] Arguments okString : simpl never.
#[global] Arguments okPtr : simpl never.
#[global] Arguments in_int64 : simpl never.

(** The law of a struct from those of its fields, once its codec is unfolded. *)
Ltac struct_law :=
  split;
  [ repeat split; try done; lia
  | intros [] Hok; simpl in Hok; destruct_and? Hok; unfold encStruct, object;
    rewrite !slot_get by first [reflexivity | by apply (bool_decide_unpack _)]; simpl;
    rewrite !field_back by assumption; done
  | intros [] Hok; simpl in Hok; destruct_and? Hok; apply members_text; simpl;
    repeat (constructor; [split; [done|]; intros ? Hj; simpl in Hj; refine (field_text _ _ _ Hj); assumption|]); apply Forall_nil_2
  | intros []; apply members_depth; [lia|]; simpl;
    repeat (constructor; [simpl; intros ? Hj; eapply field_depth_le; [| |exact Hj]; [tc_solve|lia]|]); apply Forall_nil_2
  | done
  | intros old j a Hold Hw H; revert H; unfold object; destruct j as [| | | | |ms]; intros H; try done; [by injection H as <-|];
    pose proof (λ names n, slot_wellFormed names ms n Hw) as Hs; simpl in Hold; destruct_and? Hold;
    repeat match type of H with
    | (_ ← ?o; _) = Some _ => let E := fresh "E" in destruct o eqn:E; [|done]; simpl in H; eapply field_type in E; [|done|apply Hs]
    end; injection H as <-; simpl; repeat match goal with |- _ ∧ _ => split end; assumption ].
