(* ===== verification/NutanixCodec.v ===== *)
(** * The JSON form of the Nutanix types (internal/nutanix/types.go)

    For each struct, its decoder, its encoder, its zero value and the values its Go type holds:
    texts in UTF-8 and integers of 64 bits. *)

From S2P Require Import Prelude GoLib NutanixTypes JsonText Codec.

(** ** References *)

Definition zeroReference : Reference := mkReference "" "".
Definition decReference : decoder Reference := λ old,
  object ["extId"; "name"] (λ f,
    id ← decField decString (Reference_ExtID old) (f "extId");
    name ← decField decString (Reference_Name old) (f "name");
    Some (mkReference id name)) old.
Definition encReference (r : Reference) : json :=
  encStruct [("extId", omitString (Reference_ExtID r)); ("name", omitString (Reference_Name r))].
Definition okReference (r : Reference) : Prop := okString (Reference_ExtID r) ∧ okString (Reference_Name r).

#[global] Instance reference_codec : CodecLaw 1 okReference zeroReference encReference decReference.
Proof. unfold okReference, zeroReference, encReference, decReference. struct_law. Qed.

(** ** Disk addresses *)

Definition zeroDiskAddress : DiskAddress := mkDiskAddress "" 0.
Definition decDiskAddress : decoder DiskAddress := λ old,
  object ["busType"; "index"] (λ f,
    bus ← decField decString (DiskAddress_BusType old) (f "busType");
    index ← decField decInt (DiskAddress_Index old) (f "index");
    Some (mkDiskAddress bus index)) old.
Definition encDiskAddress (x : DiskAddress) : json :=
  encStruct [("busType", omitString (DiskAddress_BusType x)); ("index", omitInt (DiskAddress_Index x))].
Definition okDiskAddress (x : DiskAddress) : Prop :=
  okString (DiskAddress_BusType x) ∧ in_int64 (DiskAddress_Index x).

#[global] Instance DiskAddress_codec : CodecLaw 1 okDiskAddress zeroDiskAddress encDiskAddress decDiskAddress.
Proof. unfold okDiskAddress, zeroDiskAddress, encDiskAddress, decDiskAddress. struct_law. Qed.

Definition zeroDiskBackingInfo : DiskBackingInfo := mkDiskBackingInfo "" None 0.
Definition decDiskBackingInfo : decoder DiskBackingInfo := λ old,
  object ["vmDiskUuid"; "storageContainerReference"; "diskSizeBytes"] (λ f,
    disk ← decField decString (Backing_VMDiskUUID old) (f "vmDiskUuid");
    container ← decField (decPtr zeroReference decReference) (Backing_StorageContainerRef old) (f "storageContainerReference");
    size ← decField decInt (Backing_DiskSizeBytes old) (f "diskSizeBytes");
    Some (mkDiskBackingInfo disk container size)) old.
Definition encDiskBackingInfo (x : DiskBackingInfo) : json :=
  encStruct [("vmDiskUuid", omitString (Backing_VMDiskUUID x));
    ("storageContainerReference", omitPtr encReference (Backing_StorageContainerRef x));
    ("diskSizeBytes", omitInt (Backing_DiskSizeBytes x))].
Definition okDiskBackingInfo (x : DiskBackingInfo) : Prop :=
  okString (Backing_VMDiskUUID x) ∧ okPtr okReference (Backing_StorageContainerRef x) ∧
  in_int64 (Backing_DiskSizeBytes x).

#[global] Instance DiskBackingInfo_codec : CodecLaw 2 okDiskBackingInfo zeroDiskBackingInfo encDiskBackingInfo decDiskBackingInfo.
Proof. unfold okDiskBackingInfo, zeroDiskBackingInfo, encDiskBackingInfo, decDiskBackingInfo. struct_law. Qed.

(** ** Virtual machines *)

Definition zeroDisk : Disk := mkDisk "" None None 0 "".
Definition decDisk : decoder Disk := λ old,
  object ["extId"; "diskAddress"; "backingInfo"; "diskSizeBytes"; "deviceType"] (λ f,
    id ← decField decString (Disk_ExtID old) (f "extId");
    address ← decField (decPtr zeroDiskAddress decDiskAddress) (Disk_DiskAddress old) (f "diskAddress");
    backing ← decField (decPtr zeroDiskBackingInfo decDiskBackingInfo) (Disk_BackingInfo old) (f "backingInfo");
    size ← decField decInt (Disk_DiskSizeBytes old) (f "diskSizeBytes");
    device ← decField decString (Disk_DeviceType old) (f "deviceType");
    Some (mkDisk id address backing size device)) old.
Definition encDisk (d : Disk) : json :=
  encStruct [("extId", omitString (Disk_ExtID d)); ("diskAddress", omitPtr encDiskAddress (Disk_DiskAddress d));
    ("backingInfo", omitPtr encDiskBackingInfo (Disk_BackingInfo d));
    ("diskSizeBytes", omitInt (Disk_DiskSizeBytes d)); ("deviceType", omitString (Disk_DeviceType d))].
Definition okDisk (d : Disk) : Prop :=
  okString (Disk_ExtID d) ∧ okPtr okDiskAddress (Disk_DiskAddress d) ∧ okPtr okDiskBackingInfo (Disk_BackingInfo d) ∧
  in_int64 (Disk_DiskSizeBytes d) ∧ okString (Disk_DeviceType d).

#[global] Instance Disk_codec : CodecLaw 3 okDisk zeroDisk encDisk decDisk.
Proof. unfold okDisk, zeroDisk, encDisk, decDisk. struct_law. Qed.

Definition zeroIPAddress : IPAddress := mkIPAddress "" "".
Definition decIPAddress : decoder IPAddress := λ old,
  object ["value"; "type"] (λ f,
    ip ← decField decString (IPAddress_IP old) (f "value");
    type ← decField decString (IPAddress_Type old) (f "type");
    Some (mkIPAddress ip type)) old.
Definition encIPAddress (x : IPAddress) : json :=
  encStruct [("value", omitString (IPAddress_IP x)); ("type", omitString (IPAddress_Type x))].
Definition okIPAddress (x : IPAddress) : Prop :=
  okString (IPAddress_IP x) ∧ okString (IPAddress_Type x).

#[global] Instance IPAddress_codec : CodecLaw 1 okIPAddress zeroIPAddress encIPAddress decIPAddress.
Proof. unfold okIPAddress, zeroIPAddress, encIPAddress, decIPAddress. struct_law. Qed.

Definition zeroNIC : NIC := mkNIC "" None "" "" [].
Definition decNIC : decoder NIC := λ old,
  object ["extId"; "subnetReference"; "nicType"; "macAddress"; "ipAddresses"] (λ f,
    id ← decField decString (NIC_ExtID old) (f "extId");
    net ← decField (decPtr zeroReference decReference) (NIC_NetworkRef old) (f "subnetReference");
    type ← decField decString (NIC_NicType old) (f "nicType");
    mac ← decField decString (NIC_MacAddress old) (f "macAddress");
    ips ← decField (decSlice zeroIPAddress decIPAddress) (NIC_IPAddresses old) (f "ipAddresses");
    Some (mkNIC id net type mac ips)) old.
Definition encNIC (x : NIC) : json :=
  encStruct [("extId", omitString (NIC_ExtID x)); ("subnetReference", omitPtr encReference (NIC_NetworkRef x));
    ("nicType", omitString (NIC_NicType x)); ("macAddress", omitString (NIC_MacAddress x));
    ("ipAddresses", omitSlice encIPAddress (NIC_IPAddresses x))].
Definition okNIC (x : NIC) : Prop :=
  okString (NIC_ExtID x) ∧ okPtr okReference (NIC_NetworkRef x) ∧ okString (NIC_NicType x) ∧
  okString (NIC_MacAddress x) ∧ Forall okIPAddress (NIC_IPAddresses x).

#[global] Instance NIC_codec : CodecLaw 3 okNIC zeroNIC encNIC decNIC.
Proof. unfold okNIC, zeroNIC, encNIC, decNIC. struct_law. Qed.

Definition zeroBootConfig : BootConfig := mkBootConfig "" [].
Definition decBootConfig : decoder BootConfig := λ old,
  object ["bootType"; "bootOrder"] (λ f,
    type ← decField decString (Boot_BootType old) (f "bootType");
    order ← decField (decSlice "" decString) (Boot_BootOrder old) (f "bootOrder");
    Some (mkBootConfig type order)) old.
Definition encBootConfig (x : BootConfig) : json :=
  encStruct [("bootType", omitString (Boot_BootType x)); ("bootOrder", omitSlice encString (Boot_BootOrder x))].
Definition okBootConfig (x : BootConfig) : Prop :=
  okString (Boot_BootType x) ∧ Forall okString (Boot_BootOrder x).

#[global] Instance BootConfig_codec : CodecLaw 2 okBootConfig zeroBootConfig encBootConfig decBootConfig.
Proof. unfold okBootConfig, zeroBootConfig, encBootConfig, decBootConfig. struct_law. Qed.

Definition zeroGPU : GPU := mkGPU "" 0 "".
Definition decGPU : decoder GPU := λ old,
  object ["mode"; "deviceId"; "vendor"] (λ f,
    mode ← decField decString (GPU_Mode old) (f "mode");
    id ← decField decInt (GPU_DeviceID old) (f "deviceId");
    vendor ← decField decString (GPU_Vendor old) (f "vendor");
    Some (mkGPU mode id vendor)) old.
Definition encGPU (x : GPU) : json :=
  encStruct [("mode", omitString (GPU_Mode x)); ("deviceId", omitInt (GPU_DeviceID x));
    ("vendor", omitString (GPU_Vendor x))].
Definition okGPU (x : GPU) : Prop :=
  okString (GPU_Mode x) ∧ in_int64 (GPU_DeviceID x) ∧ okString (GPU_Vendor x).

#[global] Instance GPU_codec : CodecLaw 1 okGPU zeroGPU encGPU decGPU.
Proof. unfold okGPU, zeroGPU, encGPU, decGPU. struct_law. Qed.

Definition zeroVM : VM := mkVM "" "" "" "" 0 0 0 0 "" None [] [] [] None.
Definition decVM : decoder VM := λ old,
  object ["extId"; "name"; "description"; "powerState"; "numSockets"; "numCoresPerSocket"; "numThreadsPerCore";
    "memorySizeBytes"; "machineType"; "bootConfig"; "disks"; "nics"; "gpus"; "cluster"] (λ f,
    id ← decField decString (VM_ExtID old) (f "extId");
    name ← decField decString (VM_Name old) (f "name");
    descr ← decField decString (VM_Description old) (f "description");
    power ← decField decString (VM_PowerState old) (f "powerState");
    sockets ← decField decInt (VM_NumSockets old) (f "numSockets");
    cores ← decField decInt (VM_NumCoresPerSocket old) (f "numCoresPerSocket");
    threads ← decField decInt (VM_NumThreadsPerCore old) (f "numThreadsPerCore");
    memory ← decField decInt (VM_MemorySizeBytes old) (f "memorySizeBytes");
    machine ← decField decString (VM_MachineType old) (f "machineType");
    boot ← decField (decPtr zeroBootConfig decBootConfig) (VM_BootConfig old) (f "bootConfig");
    disks ← decField (decSlice zeroDisk decDisk) (VM_Disks old) (f "disks");
    nics ← decField (decSlice zeroNIC decNIC) (VM_Nics old) (f "nics");
    gpus ← decField (decSlice zeroGPU decGPU) (VM_Gpus old) (f "gpus");
    cluster ← decField (decPtr zeroReference decReference) (VM_Cluster old) (f "cluster");
    Some (mkVM id name descr power sockets cores threads memory machine boot disks nics gpus cluster)) old.
Definition encVM (v : VM) : json :=
  encStruct [("extId", omitString (VM_ExtID v)); ("name", omitString (VM_Name v));
    ("description", omitString (VM_Description v)); ("powerState", omitString (VM_PowerState v));
    ("numSockets", omitInt (VM_NumSockets v)); ("numCoresPerSocket", omitInt (VM_NumCoresPerSocket v));
    ("numThreadsPerCore", omitInt (VM_NumThreadsPerCore v)); ("memorySizeBytes", omitInt (VM_MemorySizeBytes v));
    ("machineType", omitString (VM_MachineType v)); ("bootConfig", omitPtr encBootConfig (VM_BootConfig v));
    ("disks", omitSlice encDisk (VM_Disks v)); ("nics", omitSlice encNIC (VM_Nics v));
    ("gpus", omitSlice encGPU (VM_Gpus v)); ("cluster", omitPtr encReference (VM_Cluster v))].
Definition okVM (v : VM) : Prop :=
  okString (VM_ExtID v) ∧ okString (VM_Name v) ∧ okString (VM_Description v) ∧ okString (VM_PowerState v) ∧
  in_int64 (VM_NumSockets v) ∧ in_int64 (VM_NumCoresPerSocket v) ∧ in_int64 (VM_NumThreadsPerCore v) ∧
  in_int64 (VM_MemorySizeBytes v) ∧ okString (VM_MachineType v) ∧ okPtr okBootConfig (VM_BootConfig v) ∧
  Forall okDisk (VM_Disks v) ∧ Forall okNIC (VM_Nics v) ∧ Forall okGPU (VM_Gpus v) ∧ okPtr okReference (VM_Cluster v).

#[global] Instance VM_codec : CodecLaw 5 okVM zeroVM encVM decVM.
Proof. unfold okVM, zeroVM, encVM, decVM. struct_law. Qed.

(** ** Infrastructure *)

Definition zeroSubnet : Subnet := mkSubnet "" "" 0 "".
Definition decSubnet : decoder Subnet := λ old,
  object ["extId"; "name"; "vlanId"; "subnetType"] (λ f,
    id ← decField decString (Subnet_ExtID old) (f "extId");
    name ← decField decString (Subnet_Name old) (f "name");
    vlan ← decField decInt (Subnet_VlanID old) (f "vlanId");
    type ← decField decString (Subnet_SubnetType old) (f "subnetType");
    Some (mkSubnet id name vlan type)) old.
Definition encSubnet (x : Subnet) : json :=
  encStruct [("extId", omitString (Subnet_ExtID x)); ("name", omitString (Subnet_Name x));
    ("vlanId", omitInt (Subnet_VlanID x)); ("subnetType", omitString (Subnet_SubnetType x))].
Definition okSubnet (x : Subnet) : Prop :=
  okString (Subnet_ExtID x) ∧ okString (Subnet_Name x) ∧ in_int64 (Subnet_VlanID x) ∧ okString (Subnet_SubnetType x).

#[global] Instance Subnet_codec : CodecLaw 1 okSubnet zeroSubnet encSubnet decSubnet.
Proof. unfold okSubnet, zeroSubnet, encSubnet, decSubnet. struct_law. Qed.

Definition zeroStorageContainer : StorageContainer := mkStorageContainer "" "".
Definition decStorageContainer : decoder StorageContainer := λ old,
  object ["containerUuid"; "name"] (λ f,
    id ← decField decString (StorageContainer_UUID old) (f "containerUuid");
    name ← decField decString (StorageContainer_Name old) (f "name");
    Some (mkStorageContainer id name)) old.
Definition encStorageContainer (x : StorageContainer) : json :=
  encStruct [("containerUuid", omitString (StorageContainer_UUID x)); ("name", omitString (StorageContainer_Name x))].
Definition okStorageContainer (x : StorageContainer) : Prop :=
  okString (StorageContainer_UUID x) ∧ okString (StorageContainer_Name x).

#[global] Instance StorageContainer_codec : CodecLaw 1 okStorageContainer zeroStorageContainer encStorageContainer decStorageContainer.
Proof. unfold okStorageContainer, zeroStorageContainer, encStorageContainer, decStorageContainer. struct_law. Qed.

Definition zeroClusterNetwork : ClusterNetwork := mkClusterNetwork "" "".
Definition decClusterNetwork : decoder ClusterNetwork := λ old,
  object ["externalAddress"; "externalDataServicesIp"] (λ f,
    address ← decField decString (Net_ExternalAddress old) (f "externalAddress");
    ip ← decField decString (Net_ExternalDataServicesIP old) (f "externalDataServicesIp");
    Some (mkClusterNetwork address ip)) old.
Definition encClusterNetwork (x : ClusterNetwork) : json :=
  encStruct [("externalAddress", omitString (Net_ExternalAddress x));
    ("externalDataServicesIp", omitString (Net_ExternalDataServicesIP x))].
Definition okClusterNetwork (x : ClusterNetwork) : Prop :=
  okString (Net_ExternalAddress x) ∧ okString (Net_ExternalDataServicesIP x).

#[global] Instance ClusterNetwork_codec : CodecLaw 1 okClusterNetwork zeroClusterNetwork encClusterNetwork decClusterNetwork.
Proof. unfold okClusterNetwork, zeroClusterNetwork, encClusterNetwork, decClusterNetwork. struct_law. Qed.

Definition zeroCluster : Cluster := mkCluster "" "" None.
Definition decCluster : decoder Cluster := λ old,
  object ["extId"; "name"; "network"] (λ f,
    id ← decField decString (Cluster_ExtID old) (f "extId");
    name ← decField decString (Cluster_Name old) (f "name");
    net ← decField (decPtr zeroClusterNetwork decClusterNetwork) (Cluster_Network old) (f "network");
    Some (mkCluster id name net)) old.
Definition encCluster (x : Cluster) : json :=
  encStruct [("extId", omitString (Cluster_ExtID x)); ("name", omitString (Cluster_Name x));
    ("network", omitPtr encClusterNetwork (Cluster_Network x))].
Definition okCluster (x : Cluster) : Prop :=
  okString (Cluster_ExtID x) ∧ okString (Cluster_Name x) ∧ okPtr okClusterNetwork (Cluster_Network x).

#[global] Instance Cluster_codec : CodecLaw 2 okCluster zeroCluster encCluster decCluster.
Proof. unfold okCluster, zeroCluster, encCluster, decCluster. struct_law. Qed.

(** ** Snapshots, images and tasks *)

Definition zeroRecoveryPoint : RecoveryPoint := mkRecoveryPoint "" "" "" "" "" "".
Definition decRecoveryPoint : decoder RecoveryPoint := λ old,
  object ["extId"; "name"; "status"; "vmExtId"; "expirationTime"; "recoveryPointType"] (λ f,
    id ← decField decString (RP_ExtID old) (f "extId");
    name ← decField decString (RP_Name old) (f "name");
    status ← decField decString (RP_Status old) (f "status");
    vm ← decField decString (RP_VMExtID old) (f "vmExtId");
    expires ← decField decString (RP_ExpirationTime old) (f "expirationTime");
    type ← decField decString (RP_RecoveryPointType old) (f "recoveryPointType");
    Some (mkRecoveryPoint id name status vm expires type)) old.
Definition encRecoveryPoint (x : RecoveryPoint) : json :=
  encStruct [("extId", omitString (RP_ExtID x)); ("name", omitString (RP_Name x));
    ("status", omitString (RP_Status x)); ("vmExtId", omitString (RP_VMExtID x));
    ("expirationTime", omitString (RP_ExpirationTime x)); ("recoveryPointType", omitString (RP_RecoveryPointType x))].
Definition okRecoveryPoint (x : RecoveryPoint) : Prop :=
  okString (RP_ExtID x) ∧ okString (RP_Name x) ∧ okString (RP_Status x) ∧ okString (RP_VMExtID x) ∧
  okString (RP_ExpirationTime x) ∧ okString (RP_RecoveryPointType x).

#[global] Instance RecoveryPoint_codec : CodecLaw 1 okRecoveryPoint zeroRecoveryPoint encRecoveryPoint decRecoveryPoint.
Proof. unfold okRecoveryPoint, zeroRecoveryPoint, encRecoveryPoint, decRecoveryPoint. struct_law. Qed.

Definition zeroImage : Image := mkImage "" "" "" 0 "".
Definition decImage : decoder Image := λ old,
  object ["extId"; "name"; "type"; "sizeBytes"; "sourceUri"] (λ f,
    id ← decField decString (Image_ExtID old) (f "extId");
    name ← decField decString (Image_Name old) (f "name");
    type ← decField decString (Image_Type old) (f "type");
    size ← decField decInt (Image_SizeBytes old) (f "sizeBytes");
    uri ← decField decString (Image_SourceURI old) (f "sourceUri");
    Some (mkImage id name type size uri)) old.
Definition encImage (x : Image) : json :=
  encStruct [("extId", omitString (Image_ExtID x)); ("name", omitString (Image_Name x));
    ("type", omitString (Image_Type x)); ("sizeBytes", omitInt (Image_SizeBytes x));
    ("sourceUri", omitString (Image_SourceURI x))].
Definition okImage (x : Image) : Prop :=
  okString (Image_ExtID x) ∧ okString (Image_Name x) ∧ okString (Image_Type x) ∧ in_int64 (Image_SizeBytes x) ∧
  okString (Image_SourceURI x).

#[global] Instance Image_codec : CodecLaw 1 okImage zeroImage encImage decImage.
Proof. unfold okImage, zeroImage, encImage, decImage. struct_law. Qed.

Definition zeroTaskError : TaskError := mkTaskError "".
Definition decTaskError : decoder TaskError := λ old,
  object ["message"] (λ f,
    msg ← decField decString (TaskError_Message old) (f "message");
    Some (mkTaskError msg)) old.
Definition encTaskError (x : TaskError) : json :=
  encStruct [("message", omitString (TaskError_Message x))].
Definition okTaskError (x : TaskError) : Prop :=
  okString (TaskError_Message x).

#[global] Instance TaskError_codec : CodecLaw 1 okTaskError zeroTaskError encTaskError decTaskError.
Proof. unfold okTaskError, zeroTaskError, encTaskError, decTaskError. struct_law. Qed.

Definition zeroTaskEntity : TaskEntity := mkTaskEntity "" "".
Definition decTaskEntity : decoder TaskEntity := λ old,
  object ["extId"; "rel"] (λ f,
    id ← decField decString (TaskEntity_ExtID old) (f "extId");
    rel ← decField decString (TaskEntity_Rel old) (f "rel");
    Some (mkTaskEntity id rel)) old.
Definition encTaskEntity (x : TaskEntity) : json :=
  encStruct [("extId", omitString (TaskEntity_ExtID x)); ("rel", omitString (TaskEntity_Rel x))].
Definition okTaskEntity (x : TaskEntity) : Prop :=
  okString (TaskEntity_ExtID x) ∧ okString (TaskEntity_Rel x).

#[global] Instance TaskEntity_codec : CodecLaw 1 okTaskEntity zeroTaskEntity encTaskEntity decTaskEntity.
Proof. unfold okTaskEntity, zeroTaskEntity, encTaskEntity, decTaskEntity. struct_law. Qed.

Definition zeroTask : Task := mkTask "" "" "" 0 [] [].
Definition decTask : decoder Task := λ old,
  object ["extId"; "status"; "operation"; "percentageComplete"; "errorMessages"; "entitiesAffected"] (λ f,
    id ← decField decString (Task_ExtID old) (f "extId");
    status ← decField decString (Task_Status old) (f "status");
    op ← decField decString (Task_OperationType old) (f "operation");
    percent ← decField decInt (Task_PercentComplete old) (f "percentageComplete");
    errs ← decField (decSlice zeroTaskError decTaskError) (Task_ErrorMessages old) (f "errorMessages");
    entities ← decField (decSlice zeroTaskEntity decTaskEntity) (Task_EntitiesAffected old) (f "entitiesAffected");
    Some (mkTask id status op percent errs entities)) old.
Definition encTask (x : Task) : json :=
  encStruct [("extId", omitString (Task_ExtID x)); ("status", omitString (Task_Status x));
    ("operation", omitString (Task_OperationType x)); ("percentageComplete", omitInt (Task_PercentComplete x));
    ("errorMessages", omitSlice encTaskError (Task_ErrorMessages x));
    ("entitiesAffected", omitSlice encTaskEntity (Task_EntitiesAffected x))].
Definition okTask (x : Task) : Prop :=
  okString (Task_ExtID x) ∧ okString (Task_Status x) ∧ okString (Task_OperationType x) ∧
  in_int64 (Task_PercentComplete x) ∧ Forall okTaskError (Task_ErrorMessages x) ∧
  Forall okTaskEntity (Task_EntitiesAffected x).

#[global] Instance Task_codec : CodecLaw 3 okTask zeroTask encTask decTask.
Proof. unfold okTask, zeroTask, encTask, decTask. struct_law. Qed.

(** ** Changed block tracking *)

Definition zeroCBTClusterInfo : CBTClusterInfo := mkCBTClusterInfo "" "".
Definition decCBTClusterInfo : decoder CBTClusterInfo := λ old,
  object ["prismElementUrl"; "jwtToken"] (λ f,
    url ← decField decString (CBT_PrismElementURL old) (f "prismElementUrl");
    token ← decField decString (CBT_JWTToken old) (f "jwtToken");
    Some (mkCBTClusterInfo url token)) old.
Definition encCBTClusterInfo (x : CBTClusterInfo) : json :=
  encStruct [("prismElementUrl", omitString (CBT_PrismElementURL x)); ("jwtToken", omitString (CBT_JWTToken x))].
Definition okCBTClusterInfo (x : CBTClusterInfo) : Prop :=
  okString (CBT_PrismElementURL x) ∧ okString (CBT_JWTToken x).

#[global] Instance CBTClusterInfo_codec : CodecLaw 1 okCBTClusterInfo zeroCBTClusterInfo encCBTClusterInfo decCBTClusterInfo.
Proof. unfold okCBTClusterInfo, zeroCBTClusterInfo, encCBTClusterInfo, decCBTClusterInfo. struct_law. Qed.

Definition zeroChangedRegion : ChangedRegion := mkChangedRegion 0 0.
Definition decChangedRegion : decoder ChangedRegion := λ old,
  object ["offset"; "length"] (λ f,
    offset ← decField decInt (Region_Offset old) (f "offset");
    length ← decField decInt (Region_Length old) (f "length");
    Some (mkChangedRegion offset length)) old.
Definition encChangedRegion (x : ChangedRegion) : json :=
  encStruct [("offset", always encInt (Region_Offset x)); ("length", always encInt (Region_Length x))].
Definition okChangedRegion (x : ChangedRegion) : Prop :=
  in_int64 (Region_Offset x) ∧ in_int64 (Region_Length x).

#[global] Instance ChangedRegion_codec : CodecLaw 1 okChangedRegion zeroChangedRegion encChangedRegion decChangedRegion.
Proof. unfold okChangedRegion, zeroChangedRegion, encChangedRegion, decChangedRegion. struct_law. Qed.

Definition zeroChangedRegions : ChangedRegions := mkChangedRegions [] None.
Definition decChangedRegions : decoder ChangedRegions := λ old,
  object ["changedRegions"; "nextOffset"] (λ f,
    regions ← decField (decSlice zeroChangedRegion decChangedRegion) (Regions_Regions old) (f "changedRegions");
    next ← decField (decPtr 0 decInt) (Regions_NextOffset old) (f "nextOffset");
    Some (mkChangedRegions regions next)) old.
Definition encChangedRegions (x : ChangedRegions) : json :=
  encStruct [("changedRegions", omitSlice encChangedRegion (Regions_Regions x));
    ("nextOffset", omitPtr encInt (Regions_NextOffset x))].
Definition okChangedRegions (x : ChangedRegions) : Prop :=
  Forall okChangedRegion (Regions_Regions x) ∧ okPtr in_int64 (Regions_NextOffset x).

#[global] Instance ChangedRegions_codec : CodecLaw 3 okChangedRegions zeroChangedRegions encChangedRegions decChangedRegions.
Proof. unfold okChangedRegions, zeroChangedRegions, encChangedRegions, decChangedRegions. struct_law. Qed.

(** ** Response wrappers *)

Definition zeroListMetadata : ListMetadata := mkListMetadata 0 0.
Definition decListMetadata : decoder ListMetadata := λ old,
  object ["totalAvailableResults"; "offset"] (λ f,
    total ← decField decInt (Meta_TotalAvailableResults old) (f "totalAvailableResults");
    offset ← decField decInt (Meta_Offset old) (f "offset");
    Some (mkListMetadata total offset)) old.
Definition encListMetadata (x : ListMetadata) : json :=
  encStruct [("totalAvailableResults", omitInt (Meta_TotalAvailableResults x)); ("offset", omitInt (Meta_Offset x))].
Definition okListMetadata (x : ListMetadata) : Prop :=
  in_int64 (Meta_TotalAvailableResults x) ∧ in_int64 (Meta_Offset x).

#[global] Instance ListMetadata_codec : CodecLaw 1 okListMetadata zeroListMetadata encListMetadata decListMetadata.
Proof. unfold okListMetadata, zeroListMetadata, encListMetadata, decListMetadata. struct_law. Qed.

(** The JSON form of the bodies the client reads: the struct of each response (vm.go,
    cluster.go, network.go, storage.go, snapshot.go, image.go, cbt.go). *)

Record listResponse (A : Type) := mkListResponse { List_Data : list A; List_Metadata : option ListMetadata }.
Arguments mkListResponse {A} _ _.
Arguments List_Data {A} _.
Arguments List_Metadata {A} _.

Definition zeroList {A} : listResponse A := mkListResponse [] None.
Definition decList {A} (zero : A) (d : decoder A) : decoder (listResponse A) := λ old,
  object ["data"; "metadata"] (λ f,
    data ← decField (decSlice zero d) (List_Data old) (f "data");
    meta ← decField (decPtr zeroListMetadata decListMetadata) (List_Metadata old) (f "metadata");
    Some (mkListResponse data meta)) old.
(** A page as a server sends it. *)
Definition encList {A} (e : A → json) (p : listResponse A) : json :=
  encStruct [("data", always (λ l, JArray (e <$> l)) (List_Data p)); ("metadata", omitPtr encListMetadata (List_Metadata p))].
Definition okList {A} (ok : A → Prop) (p : listResponse A) : Prop :=
  Forall ok (List_Data p) ∧ okPtr okListMetadata (List_Metadata p).

#[global] Instance list_codec {A} (n : Z) ok (zero : A) e d :
  CodecLaw n ok zero e d → TCEq (0 <=? n) true → CodecLaw (2 + n) (okList ok) zeroList (encList e) (decList zero d).
Proof. intros Hc Hn. pose proof Hn as Hn'%TCEq_eq%Z.leb_le. unfold okList, zeroList, encList, decList. struct_law. Qed.

(** A struct of one field: [data] in a response, [extId] in a task reference. *)
Definition decOne {A} (name : string) (d : decoder A) : decoder A := λ old,
  object [name] (λ f, decField d old (f name)) old.
Definition encOne {A} (name : string) (e : A → json) (a : A) : json := encStruct [(name, always e a)].

Lemma one_codec {A} name (n : Z) ok (zero : A) e d :
  CodecLaw n ok zero e d → 0 ≤ n → okString name → CodecLaw (1 + n) ok zero (encOne name e) (decOne name d).
Proof.
  intros Hc Hn Hname. unfold encOne, decOne, object. split.
  - exact codec_zero.
  - intros a Ha. unfold encStruct. rewrite slot_get by first [reflexivity | apply NoDup_singleton]. simpl.
    rewrite eqb_refl_string. by rewrite field_back.
  - intros a Ha. apply members_text. constructor; [|apply Forall_nil_2].
    split; [done|]. simpl. intros j Hj. refine (field_text _ _ _ Hj). exact Ha.
  - intros a. apply members_depth; [lia|]. constructor; [|apply Forall_nil_2]. simpl.
    intros j Hj. eapply field_depth_le; [| |exact Hj]; [tc_solve|lia].
  - done.
  - intros old [| | | | |ms] a Hold Hw H; try done; [by injection H as <-|]. eapply field_type in H; [done|done|by apply slot_wellFormed].
Qed.

Definition decData {A} (d : decoder A) : decoder A := decOne "data" d.
Definition encData {A} (e : A → json) : A → json := encOne "data" e.

#[global] Instance data_codec {A} (n : Z) ok (zero : A) e d :
  CodecLaw n ok zero e d → TCEq (0 <=? n) true → CodecLaw (1 + n) ok zero (encData e) (decData d).
Proof. intros Hc Hn%TCEq_eq%Z.leb_le. by apply one_codec. Qed.

(** [taskRefResponse]'s anonymous struct *)
Definition decTaskRef : decoder string := decOne "extId" decString.
Definition encTaskRef : string → json := encOne "extId" encString.

#[global] Instance taskRef_codec : CodecLaw 1 okString "" encTaskRef decTaskRef.
Proof. refine (one_codec "extId" 0 _ _ _ _ string_codec _ _); done. Qed.

Record v2Metadata := mkV2Metadata { V2_GrandTotalEntities : Z; V2_TotalEntities : Z }.
Definition zeroV2Metadata : v2Metadata := mkV2Metadata 0 0.
Definition decV2Metadata : decoder v2Metadata := λ old,
  object ["grandTotalEntities"; "totalEntities"] (λ f,
    grand ← decField decInt (V2_GrandTotalEntities old) (f "grandTotalEntities");
    total ← decField decInt (V2_TotalEntities old) (f "totalEntities");
    Some (mkV2Metadata grand total)) old.
Definition encV2Metadata (m : v2Metadata) : json :=
  encStruct [("grandTotalEntities", always encInt (V2_GrandTotalEntities m)); ("totalEntities", always encInt (V2_TotalEntities m))].
Definition okV2Metadata (m : v2Metadata) : Prop := in_int64 (V2_GrandTotalEntities m) ∧ in_int64 (V2_TotalEntities m).

#[global] Instance V2Metadata_codec : CodecLaw 1 okV2Metadata zeroV2Metadata encV2Metadata decV2Metadata.
Proof. unfold okV2Metadata, zeroV2Metadata, encV2Metadata, decV2Metadata. struct_law. Qed.

Record storageContainerV2Response := mkStorageContainerV2Response {
  V2_Entities : list StorageContainer; V2_Metadata : option v2Metadata }.
Definition zeroV2Response : storageContainerV2Response := mkStorageContainerV2Response [] None.
Definition decV2Response : decoder storageContainerV2Response := λ old,
  object ["entities"; "metadata"] (λ f,
    entities ← decField (decSlice zeroStorageContainer decStorageContainer) (V2_Entities old) (f "entities");
    meta ← decField (decPtr zeroV2Metadata decV2Metadata) (V2_Metadata old) (f "metadata");
    Some (mkStorageContainerV2Response entities meta)) old.
Definition encV2Response (p : storageContainerV2Response) : json :=
  encStruct [("entities", always (λ l, JArray (encStorageContainer <$> l)) (V2_Entities p));
    ("metadata", omitPtr encV2Metadata (V2_Metadata p))].
Definition okV2Response (p : storageContainerV2Response) : Prop :=
  Forall okStorageContainer (V2_Entities p) ∧ okPtr okV2Metadata (V2_Metadata p).

#[global] Instance V2Response_codec : CodecLaw 3 okV2Response zeroV2Response encV2Response decV2Response.
Proof. unfold okV2Response, zeroV2Response, encV2Response, decV2Response. struct_law. Qed.

(** ** Bodies

    Decoding the text of an encoded value gives it back; whatever text is decoded, the value is
    one of its Go type. *)

Section Bodies.
Context {A : Type} {n : Z} {ok : A → Prop} {zero : A} {e : A → json} {d : decoder A} `{Hc : !CodecLaw n ok zero e d}.

Lemma body_back a : n ≤ maxNestingDepth → ok a → parse (print (e a)) ≫= d zero = Some a.
Proof.
  intros Hn Ha. rewrite parse_print; [simpl; by apply codec_back|by apply codec_text|]. pose proof (codec_depth a). lia.
Qed.

Lemma body_type body a : parse body ≫= d zero = Some a → ok a.
Proof.
  intros H. destruct (parse body) as [j|] eqn:Hj; [|done]. apply parse_wellFormed in Hj. eapply codec_type; [apply codec_zero|exact Hj|exact H].
Qed.

End Bodies.
