(* ===== verification/Env.v ===== *)
(** * The operator's environment and its effect monad

    The controllers talk to the outside through two interfaces, [NutanixClient]
    (internal/nutanix/client.go) and controller-runtime's [client.Client], read
    the clock, and emit events and metrics. [call] is the signature of those
    operations, [answer] the type each returns. An [Env] gives the behaviour of
    the outside: it may answer anything and change in any way at each call, so a
    theorem over every [Env] holds whatever Prism, the API server and other
    actors do.

    [M A] is a Go function body with result [A]: from a world it gives the trace
    of the calls it made with their answers, the new world and an outcome. A
    run-time panic and a loop that exhausts its fuel are outcomes of their own. *)

From S2P Require Import Prelude GoLib NutanixTypes ApiTypes HttpTypes.

(** ** Signature *)

(** The methods of [NutanixClient]. [DownloadImage] copies to a writer; what the writer gets is in the
    HTTP client's trace. *)
Inductive nxcall :=
| ListVMs
| GetVM (uuid : string)
| PowerOffVM (uuid : string)
| PowerOnVM (uuid : string)
| GetVMPowerState (uuid : string)
| CreateRecoveryPoint (vmUUID name : string)
| GetRecoveryPoint (uuid : string)
| DeleteRecoveryPoint (uuid : string)
| CreateImageFromDisk (name diskUUID clusterRef : string)
| GetImage (uuid : string)
| DownloadImage (uuid : string)
| DeleteImage (uuid : string)
| CloneVMFromRecoveryPoint (recoveryPointUUID vmName : string)
| DeleteVM (uuid : string)
| DiscoverClusterForCBT (vmUUID : string)
| GetChangedRegions (peURL jwtToken vmUUID snapshotUUID baseSnapshotUUID : string)
    (offset length blockSize : Z)
| ListSubnets
| ListStorageContainers (peURL : string)
| ListClusters.

Definition nxanswer (c : nxcall) : Type :=
  match c with
  | ListVMs => result (list VM)
  | GetVM _ => result VM
  | PowerOffVM _ | PowerOnVM _ => result unit
  | GetVMPowerState _ => result PowerState
  | CreateRecoveryPoint _ _ => result string
  | GetRecoveryPoint _ => result RecoveryPoint
  | DeleteRecoveryPoint _ => result unit
  | CreateImageFromDisk _ _ _ => result string
  | GetImage _ => result Image
  | DownloadImage _ | DeleteImage _ => result unit
  | CloneVMFromRecoveryPoint _ _ => result string
  | DeleteVM _ => result unit
  | DiscoverClusterForCBT _ => result CBTClusterInfo
  | GetChangedRegions _ _ _ _ _ _ _ _ => result ChangedRegions
  | ListSubnets => result (list Subnet)
  | ListStorageContainers _ => result (list StorageContainer)
  | ListClusters => result (list Cluster)
  end.

(** The kinds of objects the operator handles. *)
Inductive kind :=
| KMigration | KPlan | KProvider | KNetworkMap | KStorageMap | KHook
| KSecret | KConfigMap | KPod | KJob | KDataVolume | KVirtualMachine
| KNamespace | KStorageClass | KNetAttachDef | KCustomResourceDefinition.

(** The Go type of a kind; of the last four only existence is asked. *)
Definition obj (k : kind) : Type :=
  match k with
  | KMigration => Migration
  | KPlan => MigrationPlan
  | KProvider => NutanixProvider
  | KNetworkMap => NetworkMap
  | KStorageMap => StorageMap
  | KHook => Hook
  | KSecret => Secret
  | KConfigMap => ConfigMap
  | KPod => Pod
  | KJob => Job
  | KDataVolume => DataVolume
  | KVirtualMachine => VirtualMachine
  | KNamespace | KStorageClass | KNetAttachDef | KCustomResourceDefinition => unit
  end.

(** [types.NamespacedName] *)
Record NamespacedName := mkNN { NN_Namespace : string; NN_Name : string }.

#[global] Instance kind_eq_dec : EqDecision kind.
Proof. solve_decision. Defined.
#[global] Instance NamespacedName_eq_dec : EqDecision NamespacedName.
Proof. solve_decision. Defined.

Inductive k8scall :=
| Get (k : kind) (key : NamespacedName)
| Create (k : kind) (o : obj k)
| Update (k : kind) (o : obj k)
| StatusUpdate (k : kind) (o : obj k)
| Delete (k : kind) (key : NamespacedName)
| ListPlans (namespace : string).

Definition k8sanswer (c : k8scall) : Type :=
  match c with
  | Get k _ => result (obj k)
  | Create _ _ | Update _ _ | StatusUpdate _ _ | Delete _ _ => result unit
  | ListPlans _ => result (list MigrationPlan)
  end.

Inductive EventType := EventTypeNormal | EventTypeWarning.

(** Events and Prometheus metrics. *)
Inductive obscall :=
| Eventf (type : EventType) (reason message : string)
| MigrationsTotalInc (status : string)
| ActiveMigrationsInc
| ActiveMigrationsDec
| DiskTransferBytesAdd (vm : string) (bytes : Z)
| MigrationDurationObserve (vm : string) (nanoseconds : Z).

Inductive call :=
| Nx (client : NutanixClient) (c : nxcall)
| K8s (c : k8scall)
| Obs (c : obscall)
| Now
| Http (c : httpcall).

Definition answer (c : call) : Type :=
  match c with
  | Nx _ c => nxanswer c
  | K8s c => k8sanswer c
  | Obs _ => unit
  | Now => Z
  | Http c => httpanswer c
  end.

(** A call with the answer it got. *)
Record event := Ev { ev_call : call; ev_answer : answer ev_call }.

Definition trace := list event.

(** ** Environments *)

Class Env (W : Type) := handle : ∀ c : call, W → W * answer c.

(** ** The monad *)

Inductive outcome (A : Type) :=
| Done (a : A)
| Panic
| OutOfFuel.
Arguments Done {A} a.
Arguments Panic {A}.
Arguments OutOfFuel {A}.

Record res (W A : Type) := mkRes { r_trace : trace; r_world : W; r_out : outcome A }.
Arguments mkRes {W A} _ _ _.
Arguments r_trace {W A} _.
Arguments r_world {W A} _.
Arguments r_out {W A} _.

Definition M (W A : Type) : Type := W → res W A.

Section Monad.
Context {W : Type} `{E : Env W}.

Definition ret {A} (a : A) : M W A := λ w, mkRes [] w (Done a).
Definition panic {A} : M W A := λ w, mkRes [] w Panic.
Definition outOfFuel {A} : M W A := λ w, mkRes [] w OutOfFuel.

Definition bind {A B} (m : M W A) (k : A → M W B) : M W B := λ w,
  let r := m w in
  match r_out r with
  | Done a => let r' := k a (r_world r) in mkRes (r_trace r ++ r_trace r') (r_world r') (r_out r')
  | Panic => mkRes (r_trace r) (r_world r) Panic
  | OutOfFuel => mkRes (r_trace r) (r_world r) OutOfFuel
  end.

(** One call to the outside. *)
Definition perform (c : call) : M W (answer c) := λ w,
  let '(w', a) := handle c w in mkRes [Ev c a] w' (Done a).

Definition nx (cl : NutanixClient) (c : nxcall) : M W (nxanswer c) := perform (Nx cl c).
Definition k8s (c : k8scall) : M W (k8sanswer c) := perform (K8s c).
Definition obs (c : obscall) : M W unit := perform (Obs c).
Definition now : M W Z := perform Now.
Definition http (c : httpcall) : M W (httpanswer c) := perform (Http c).

End Monad.

Notation "x <- m ;; k" := (bind m (λ x, k))
  (at level 100, m at next level, right associativity) : go_scope.
Notation "'let*' p := m 'in' k" := (bind m (λ x, match x with p => k end))
  (at level 100, p pattern, m at next level, right associativity) : go_scope.
Notation "m ;;; k" := (bind m (λ _, k)) (at level 100, right associativity) : go_scope.

(** ** Running *)

Definition run {W A} (m : M W A) (w : W) : outcome A := r_out (m w).
Definition traceOf {W A} (m : M W A) (w : W) : trace := r_trace (m w).

(** ** Postconditions

    [spec m Q]: from every world, the trace and outcome of [m] satisfy [Q].
    [total P] asks for a normal return with [P]; [partial P] says nothing of
    panics and exhausted fuel. *)

Section Spec.
Context {W : Type} `{E : Env W}.

Definition post A := trace → outcome A → Prop.

Definition spec {A} (m : M W A) (Q : post A) : Prop :=
  ∀ w, Q (r_trace (m w)) (r_out (m w)).

Definition total {A} (P : trace → A → Prop) : post A :=
  λ t o, match o with Done a => P t a | _ => False end.

Definition partial {A} (P : trace → A → Prop) : post A :=
  λ t o, match o with Done a => P t a | _ => True end.

Lemma spec_weaken {A} (m : M W A) (Q Q' : post A) :
  spec m Q → (∀ t o, Q t o → Q' t o) → spec m Q'.
Proof. intros H HQ w. apply HQ, H. Qed.

Lemma total_partial {A} (m : M W A) (P : trace → A → Prop) : spec m (total P) → spec m (partial P).
Proof. intros H. eapply spec_weaken; [exact H|]. by intros t []. Qed.

Lemma spec_total_weaken {A} (m : M W A) (P P' : trace → A → Prop) :
  spec m (total P) → (∀ t a, P t a → P' t a) → spec m (total P').
Proof. intros H HQ. eapply spec_weaken; [exact H|]. intros t []; simpl; auto. Qed.

Lemma spec_partial_weaken {A} (m : M W A) (P P' : trace → A → Prop) :
  spec m (partial P) → (∀ t a, P t a → P' t a) → spec m (partial P').
Proof. intros H HQ. eapply spec_weaken; [exact H|]. intros t []; simpl; auto. Qed.

Lemma spec_partial_and {A} (m : M W A) (P Q : trace → A → Prop) :
  spec m (partial P) → spec m (partial Q) → spec m (partial (λ t a, P t a ∧ Q t a)).
Proof. intros HP HQ w. specialize (HP w). specialize (HQ w). by destruct (r_out (m w)). Qed.

Lemma spec_ret {A} (a : A) (P : trace → A → Prop) : P [] a → spec (ret a) (total P).
Proof. intros H w. exact H. Qed.

Lemma spec_ret_p {A} (a : A) (P : trace → A → Prop) : P [] a → spec (ret a) (partial P).
Proof. intros H w. exact H. Qed.

Lemma spec_perform c (P : trace → answer c → Prop) :
  (∀ a, P [Ev c a] a) → spec (perform c) (total P).
Proof. intros H w. unfold perform. destruct (handle c w). apply H. Qed.

Lemma spec_bind {A B} (m : M W A) (k : A → M W B) (P : trace → A → Prop) (Q : trace → B → Prop) :
  spec m (total P) →
  (∀ t a, P t a → spec (k a) (total (λ t', Q (t ++ t')))) →
  spec (bind m k) (total Q).
Proof.
  intros Hm Hk w. specialize (Hm w). unfold bind.
  destruct (r_out (m w)) eqn:Eo; simpl in *; try done.
  exact (Hk _ _ Hm (r_world (m w))).
Qed.

Lemma spec_bind_p {A B} (m : M W A) (k : A → M W B) (P : trace → A → Prop) (Q : trace → B → Prop) :
  spec m (partial P) →
  (∀ t a, P t a → spec (k a) (partial (λ t', Q (t ++ t')))) →
  spec (bind m k) (partial Q).
Proof.
  intros Hm Hk w. specialize (Hm w). unfold bind.
  destruct (r_out (m w)) eqn:Eo; simpl in *; try done.
  exact (Hk _ _ Hm (r_world (m w))).
Qed.

(** A call followed by a continuation. *)
Lemma spec_call {B} c (k : answer c → M W B) (Q : trace → B → Prop) :
  (∀ a, spec (k a) (total (λ t', Q (Ev c a :: t')))) → spec (bind (perform c) k) (total Q).
Proof.
  intros Hk. eapply (spec_bind _ _ (λ t a, t = [Ev c a])).
  - by apply spec_perform.
  - intros t a ->. apply Hk.
Qed.

Lemma spec_call_p {B} c (k : answer c → M W B) (Q : trace → B → Prop) :
  (∀ a, spec (k a) (partial (λ t', Q (Ev c a :: t')))) → spec (bind (perform c) k) (partial Q).
Proof.
  intros Hk. eapply (spec_bind_p _ _ (λ t a, t = [Ev c a])).
  - apply total_partial. by apply spec_perform.
  - intros t a ->. apply Hk.
Qed.

Lemma bind_assoc_run {A B C} (m : M W A) (f : A → M W B) (g : B → M W C) w :
  bind (bind m f) g w = bind m (λ x, bind (f x) g) w.
Proof.
  unfold bind. destruct (r_out (m w)) as [a| |]; simpl; try done.
  destruct (r_out (f a (r_world (m w)))); simpl; by rewrite ?app_assoc.
Qed.

(** The sequencing of blocks, flattened. *)
Lemma spec_bind_assoc {A B C} (m : M W A) (f : A → M W B) (g : B → M W C) Q :
  spec (bind m (λ x, bind (f x) g)) Q → spec (bind (bind m f) g) Q.
Proof. intros H w. rewrite bind_assoc_run. apply H. Qed.

Lemma bind_ret_run {A B} (a : A) (k : A → M W B) w : bind (ret a) k w = k a w.
Proof. unfold bind, ret. simpl. by destruct (k a w). Qed.

Lemma spec_bind_ret {A B} (a : A) (k : A → M W B) Q : spec (k a) Q → spec (bind (ret a) k) Q.
Proof. intros H w. rewrite bind_ret_run. apply H. Qed.

(** What a run that returned satisfies. *)
Lemma spec_run {A} (m : M W A) (P : trace → A → Prop) w a :
  spec m (partial P) → run m w = Done a → P (traceOf m w) a.
Proof. intros H Hr. specialize (H w). unfold run in Hr. rewrite Hr in H. exact H. Qed.

Lemma spec_returns {A} (m : M W A) (P : trace → A → Prop) w :
  spec m (total P) → ∃ a, run m w = Done a ∧ P (traceOf m w) a.
Proof.
  intros H. specialize (H w). unfold run, traceOf in *.
  destruct (r_out (m w)); simpl in H; try done. eauto.
Qed.

End Spec.

(** One step through a function body: a call, a return, or a test. *)
Ltac spec_step :=
  match goal with
  | |- spec (bind (nx ?cl ?c) _) (total _) => apply (spec_call (Nx cl c)); intros ?
  | |- spec (bind (k8s ?c) _) (total _) => apply (spec_call (K8s c)); intros ?
  | |- spec (bind (obs ?c) _) (total _) => apply (spec_call (Obs c)); intros ?
  | |- spec (bind now _) (total _) => apply (spec_call Now); intros ?
  | |- spec (bind (http ?c) _) (total _) => apply (spec_call (Http c)); intros ?
  | |- spec (bind (nx ?cl ?c) _) (partial _) => apply (spec_call_p (Nx cl c)); intros ?
  | |- spec (bind (k8s ?c) _) (partial _) => apply (spec_call_p (K8s c)); intros ?
  | |- spec (bind (obs ?c) _) (partial _) => apply (spec_call_p (Obs c)); intros ?
  | |- spec (bind now _) (partial _) => apply (spec_call_p Now); intros ?
  | |- spec (bind (http ?c) _) (partial _) => apply (spec_call_p (Http c)); intros ?
  | |- spec (bind (ret _) _) _ => apply spec_bind_ret
  | |- spec (bind (bind _ _) _) _ => apply spec_bind_assoc
  | |- spec (bind (if ?b then _ else _) _) _ => destruct b eqn:?
  | |- spec (bind (match ?x with _ => _ end) _) _ => destruct x eqn:?
  | |- spec (ret _) (total _) => apply spec_ret
  | |- spec (ret _) (partial _) => apply spec_ret_p
  | |- spec panic (partial _) => intros ?; exact I
  | |- spec outOfFuel (partial _) => intros ?; exact I
  | |- spec (if ?b then _ else _) _ => destruct b eqn:?
  | |- spec (match ?x with _ => _ end) _ => destruct x eqn:?
  end.

(** Stateless environments, for concrete runs: given by the answers of Prism, of reads
    and of writes; the clock stands at zero. *)
Module RefEnv.

(** No server answers at the level of HTTP. *)
Definition unreachable (c : httpcall) : httpanswer c :=
  match c with
  | NewRequest _ _ | WaitTimer _ | WriteOut _ => Some (newErr "unreachable")
  | Do _ _ => mkReply 0 (Err (newErr "unreachable"))
  | Sleep _ => tt
  end.

Definition answers (fnx : ∀ c, nxanswer c) (fget : ∀ k, NamespacedName → result (obj k)) (fwrite : result unit)
  (c : call) : answer c :=
  match c with
  | Nx _ c => fnx c
  | K8s c =>
      match c return k8sanswer c with
      | Get k key => fget k key
      | Create _ _ | Update _ _ | StatusUpdate _ _ | Delete _ _ => fwrite
      | ListPlans _ => Ok []
      end
  | Obs _ => tt
  | Now => 0
  | Http c => unreachable c
  end.

Definition fixed (fnx : ∀ c, nxanswer c) (fget : ∀ k, NamespacedName → result (obj k)) (fwrite : result unit)
  : Env unit := λ c w, (w, answers fnx fget fwrite c).

Definition notFound : error := mkError ClassNotFound "not found".

Definition nxRefuse (c : nxcall) : nxanswer c :=
  match c with
  | ListVMs | GetVM _ | PowerOffVM _ | PowerOnVM _ | GetVMPowerState _ | CreateRecoveryPoint _ _
  | DeleteRecoveryPoint _ | CreateImageFromDisk _ _ _ | DeleteImage _ | DiscoverClusterForCBT _
  | GetRecoveryPoint _ | GetImage _ | DownloadImage _ | CloneVMFromRecoveryPoint _ _ | DeleteVM _
  | GetChangedRegions _ _ _ _ _ _ _ _ | ListSubnets | ListStorageContainers _ | ListClusters => Err notFound
  end.

(** Everything is missing and every call fails. *)
Definition refusing : Env unit := fixed nxRefuse (λ _ _, Err notFound) (Err notFound).

End RefEnv.

(** Is the call one of [NutanixClient]? *)
Definition isNx (e : event) : bool := match ev_call e with Nx _ _ => true | _ => false end.
(** ** API machinery

    [meta.SetStatusCondition] and the finalizer helpers of [controllerutil] are
    library functions: parameters of the model. *)

Class ApiMachinery := {
  SetStatusCondition : list Condition → Condition → list Condition;
  ContainsFinalizer : list string → string → bool;
  AddFinalizer : list string → string → list string;
  RemoveFinalizer : list string → string → list string
}.

(** Their documented behaviour, for the theorems that need it. *)
Class ApiMachineryLaws `{ApiMachinery} : Prop := {
  set_condition_present cs c : c ∈ SetStatusCondition cs c;
  set_condition_other cs c d : Cond_Type d ≠ Cond_Type c → d ∈ SetStatusCondition cs c ↔ d ∈ cs;
  contains_add fs f : ContainsFinalizer (AddFinalizer fs f) f = true;
  contains_remove fs f : ContainsFinalizer (RemoveFinalizer fs f) f = false
}.

(** An instance: conditions keyed by type, finalizers as a list of names. *)
Module RefMachinery.

Definition setCondition (cs : list Condition) (c : Condition) : list Condition :=
  List.filter (λ d, Cond_Type d <>s Cond_Type c) cs ++ [c].
Definition contains (fs : list string) (f : string) : bool := bool_decide (f ∈ fs).
Definition add (fs : list string) (f : string) : list string := if contains fs f then fs else fs ++ [f].
Definition remove (fs : list string) (f : string) : list string := List.filter (λ g, g <>s f) fs.

#[export] Instance machinery : ApiMachinery := {|
  SetStatusCondition := setCondition;
  ContainsFinalizer := contains;
  AddFinalizer := add;
  RemoveFinalizer := remove
|}.

#[export] Instance machinery_laws : ApiMachineryLaws.
Proof.
  split; simpl.
  - intros cs c. unfold setCondition. set_solver.
  - intros cs c d Hne. unfold setCondition.
    rewrite elem_of_app, list_elem_of_singleton, !list_elem_of_In, List.filter_In.
    rewrite negb_true_iff, String.eqb_neq. intuition congruence.
  - intros fs f. unfold add. destruct (contains fs f) eqn:H; [done|].
    unfold contains. apply bool_decide_eq_true. set_solver.
  - intros fs f. unfold contains, remove. apply bool_decide_eq_false.
    rewrite list_elem_of_In, List.filter_In. rewrite String.eqb_refl. simpl. intuition congruence.
Qed.

End RefMachinery.
