(* ===== verification/Client.v ===== *)
(** * The Nutanix HTTP client: connection and requests (internal/nutanix/client.go, auth.go)

    [NewClient] checks a configuration; [doRequest] sends a request, again while the server
    is busy or unreachable; [doJSON] decodes the response. *)

From S2P Require Import Prelude GoLib NutanixTypes ApiTypes HttpTypes JsonText Codec NutanixCodec Env.

(** ** Platform

    What the client takes from the platform and only passes on: whether a PEM text holds a
    certificate ([CertPool.AppendCertsFromPEM]), the error of [encoding/json] for a body of a
    Go type, and the result of converting an out-of-range float64 to an integer, which Go leaves
    to the implementation. *)

Class Platform := {
  AppendCertsFromPEM : string → bool;
  decodeErr : string → Response → error;
  floatOverflow : Z
}.

(** ** The client *)

Record httpClient := mkHttpClient {
  HC_client : HTTPClient;
  HC_host : string;
  HC_username : string;
  HC_password : string;
  HC_maxRetries : Z
}.

Section Connect.
Context `{P : Platform}.

Definition buildTransport (insecureSkipVerify : bool) (caCert : string) (disableKeepAlives : bool) : result Transport :=
  if caCert =s "" then Ok (mkTransport "TLS1.2" insecureSkipVerify None disableKeepAlives)
  else if negb (AppendCertsFromPEM caCert) then Err (newErr "failed to parse CA certificate")
  else Ok (mkTransport "TLS1.2" insecureSkipVerify (Some caCert) disableKeepAlives).

Definition NewClient (config : ClientConfig) : result httpClient :=
  if Config_Host config =s "" then Err (newErr "nutanix client: host is required")
  else if (Config_Username config =s "") || (Config_Password config =s "") then
    Err (newErr "nutanix client: username and password are required")
  else
    let host := TrimRight (Config_Host config) "/" in
    let timeout := if Config_Timeout config =? 0 then 30 * Duration.Second else Config_Timeout config in
    let maxRetries := if Config_MaxRetries config =? 0 then 3 else Config_MaxRetries config in
    match buildTransport (Config_InsecureSkipVerify config) (Config_CACert config) (Config_DisableKeepAlives config) with
    | Err e => Err (wrapErr "nutanix client: failed to build transport" e)
    | Ok transport =>
        Ok (mkHttpClient (mkHTTPClient transport timeout) host (Config_Username config) (Config_Password config) maxRetries)
    end.

End Connect.

(** [NutanixAPIError.Error] *)
Definition NutanixAPIError (status : Z) (message url : string) : error :=
  newErr ("nutanix API error: " +s+ itoa status +s+ " " +s+ message +s+ " (url: " +s+ url +s+ ")").

(** [shouldRetry(statusCode, nil)]; with an error it is true. *)
Definition shouldRetry (statusCode : Z) (err : option error) : bool :=
  match err with
  | Some _ => true
  | None => (statusCode =? 429) || (500 <=? statusCode)
  end.

(** [time.Duration(math.Pow(2, float64(attempt))) * time.Second]; powers of two are exact. *)
Definition backoffDuration `{Platform} (attempt : Z) : Z :=
  int64 ((if attempt <? 63 then 2 ^ attempt else floatOverflow) * Duration.Second).

(** ** Decoding *)

(** What a body is decoded into: the name of its Go type, its zero value and its decoder. *)
Record target (A : Type) := mkTarget { T_name : string; T_zero : A; T_decode : decoder A }.
Arguments mkTarget {A} _ _ _.
Arguments T_name {A} _.
Arguments T_zero {A} _.
Arguments T_decode {A} _.

(** The value [Decoder.Decode] reads. When the body breaks off with an error, the value must
    have ended before. *)
Definition readValue (resp : Response) : option json :=
  let l := chars (Resp_Body resp) in
  match Resp_BodyError resp with
  | None => parse l
  | Some _ =>
      match parseValue (S (2 * length l)) 0 l with
      | Some (JObject _, _) | Some (JArray _, _) | Some (_, _ :: _) => parse l
      | _ => None
      end
  end.

Definition decode {A} (t : target A) (resp : Response) : option A := readValue resp ≫= T_decode t (T_zero t).

(** ** Requests *)

Definition setContentType (method : string) (body : option string) : option string :=
  match body with
  | Some _ =>
      if (method =s "POST") || (method =s "PUT") || (method =s "PATCH") then Some "application/json" else None
  | None => None
  end.

(** The reader after [n] bytes of it were read. *)
Definition advance (n : nat) (body : option string) : option string :=
  (λ s, text (drop n (chars s))) <$> body.

Section Requests.
Context {W : Type} `{E : Env W} `{P : Platform}.

Definition sleepWithContext (d : Z) : M W unit := http (Sleep d).

(** The attempts left, [attempt] being the number of the next one. [Ok None] is a nil response
    with a nil error. *)
Fixpoint attempts (c : httpClient) (method url : string) (n : nat) (attempt : Z) (body : option string) (lastErr : option error)
  : M W (result (option Response)) :=
  match n with
  | O => ret (match lastErr with Some e => Err e | None => Ok None end)
  | S n =>
      err <- http (NewRequest method url) ;;
      match err with
      | Some e => ret (Err (wrapErr "nutanix client: failed to create request" e))
      | None =>
      reply <- http (Do (HC_client c)
        (mkRequest method url (BasicAuth (HC_username c) (HC_password c)) "application/json" (setContentType method body) body)) ;;
      let body := advance (Reply_Consumed reply) body in
      match Reply_Result reply with
      | Err e =>
          let lastErr := wrapErr "nutanix client: request failed" e in
          if negb (shouldRetry 0 (Some e)) || (attempt =? HC_maxRetries c) then ret (Err lastErr)
          else sleepWithContext (backoffDuration attempt) ;;; attempts c method url n (attempt + 1) body (Some lastErr)
      | Ok resp =>
          let status := Resp_StatusCode resp in
          if (200 <=? status) && (status <? 300) then ret (Ok (Some resp))
          else
            let apiErr := NutanixAPIError status (Resp_Body resp) url in
            if shouldRetry status None && (attempt <? HC_maxRetries c) then
              sleepWithContext (backoffDuration attempt) ;;; attempts c method url n (attempt + 1) body (Some apiErr)
            else ret (Err apiErr)
      end end
  end.

(** [for attempt := range c.maxRetries + 1] *)
Definition doRequest (c : httpClient) (method url : string) (body : option string) : M W (result (option Response)) :=
  attempts c method url (Z.to_nat (int64 (HC_maxRetries c + 1))) 0 body None.

(** A nil response is a nil pointer dereference. *)
Definition doJSON {A} (c : httpClient) (t : target A) (method url : string) (body : option string) : M W (result A) :=
  r <- doRequest c method url body ;;
  match r with
  | Err e => ret (Err e)
  | Ok None => panic
  | Ok (Some resp) =>
      match decode t resp with
      | None => ret (Err (wrapErr "nutanix client: failed to decode response" (decodeErr (T_name t) resp)))
      | Some a => ret (Ok a)
      end
  end.

End Requests.
