(* ===== verification/ClientOps.v ===== *)
(** * The operations of the Nutanix HTTP client (internal/nutanix)

    The methods of [NutanixClient] as [httpClient] implements them: listings page by page,
    asynchronous operations that poll their task, and changed-region queries with a cached
    token. *)

From S2P Require Import Prelude GoLib NutanixTypes ApiTypes HttpTypes JsonText Codec NutanixCodec Env Client.

(** ** Constants *)

Definition vmBasePath : string := "/api/vmm/v4.0/ahv/config/vms".
Definition pageSize : Z := 500.
Definition subnetBasePath : string := "/api/networking/v4.0/config/subnets".
Definition clusterBasePath : string := "/api/clustermgmt/v4.0/config/clusters".
Definition storageContainerV2Path : string := "/PrismGateway/services/rest/v2.0/storage_containers".
Definition recoveryPointBasePath : string := "/api/dataprotection/v4.0/config/recovery-points".
Definition imageBasePath : string := "/api/vmm/v4.0/images".
Definition cbtDiscoverPath : string := "/api/storage/v4.0/config/changed-regions/$actions/discover-cluster".
Definition cbtChangedRegionsPath : string := "/api/storage/v4.0/config/changed-regions".
Definition CBTTokenMaxAge : Z := 12 * Duration.Minute.
Definition CBTJWTCookieName : string := "NTNX_IGW_SESSION".

Definition TaskStatusQueued : string := "QUEUED".
Definition TaskStatusRunning : string := "RUNNING".
Definition TaskStatusSucceeded : string := "SUCCEEDED".
Definition TaskStatusFailed : string := "FAILED".
Definition TaskStatusCancelled : string := "CANCELLED".
Definition DefaultPollInterval : Z := 2 * Duration.Second.
Definition DefaultPollTimeout : Z := 30 * Duration.Minute.

(** ** What the responses are decoded into *)

Definition vmListResponse : target (listResponse VM) := mkTarget "nutanix.vmListResponse" zeroList (decList zeroVM decVM).
Definition subnetListResponse : target (listResponse Subnet) :=
  mkTarget "nutanix.subnetListResponse" zeroList (decList zeroSubnet decSubnet).
Definition clusterListResponse : target (listResponse Cluster) :=
  mkTarget "nutanix.clusterListResponse" zeroList (decList zeroCluster decCluster).
Definition storageContainers : target storageContainerV2Response :=
  mkTarget "nutanix.storageContainerV2Response" zeroV2Response decV2Response.
Definition vmResponse : target VM := mkTarget "nutanix.vmResponse" zeroVM (decData decVM).
Definition recoveryPointResponse : target RecoveryPoint :=
  mkTarget "nutanix.recoveryPointResponse" zeroRecoveryPoint (decData decRecoveryPoint).
Definition imageResponse : target Image := mkTarget "nutanix.imageResponse" zeroImage (decData decImage).
Definition taskRefResponse : target string := mkTarget "nutanix.taskRefResponse" "" (decData decTaskRef).
Definition taskTarget : target Task := mkTarget "nutanix.Task" zeroTask decTask.
Definition cbtDiscoverResponse : target CBTClusterInfo :=
  mkTarget "nutanix.cbtDiscoverResponse" zeroCBTClusterInfo (decData decCBTClusterInfo).
Definition changedRegionsResponse : target ChangedRegions :=
  mkTarget "nutanix.changedRegionsResponse" zeroChangedRegions (decData decChangedRegions).

(** ** Request bodies: [json.Marshal] of maps, whose keys are sorted *)

Definition marshal (fs : list (string * json)) : string := text (print (encStruct (prod_map id Some <$> fs))).
Definition nested (fs : list (string * json)) : json := encStruct (prod_map id Some <$> fs).

Definition recoveryPointBody (vmUUID name : string) : string :=
  marshal [("name", encString name); ("recoveryPointType", encString "APPLICATION_CONSISTENT");
    ("vmRecoveryPoints", JArray [nested [("vmExtId", encString vmUUID)]])].
Definition imageBody (name diskUUID clusterRef : string) : string :=
  marshal [("name", encString name);
    ("source", nested [("$objectType", encString "vmm.v4.images.VmDiskImageSource"); ("extId", encString clusterRef);
      ("vmDiskExtId", encString diskUUID)]);
    ("type", encString "DISK_IMAGE")].
Definition cloneBody (vmName : string) : string :=
  marshal [("vmRecoveryPoints", JArray [nested [("vmName", encString vmName)]])].
Definition discoverBody (vmUUID : string) : string := marshal [("vmExtId", encString vmUUID)].

(** [fmt.Errorf("nutanix client: op: %w", err)] and the same with a text. *)
Definition opErr (op : string) (e : error) : error := wrapErr ("nutanix client: " +s+ op) e.
Definition opFail (op msg : string) : error := newErr ("nutanix client: " +s+ op +s+ ": " +s+ msg).

(** The entity of a finished task: the first of one of two kinds, or else the first. *)
Definition affected (rel1 rel2 : string) (entities : list TaskEntity) : option string :=
  match List.find (λ e, (TaskEntity_Rel e =s rel1) || (TaskEntity_Rel e =s rel2)) entities with
  | Some e => Some (TaskEntity_ExtID e)
  | None => TaskEntity_ExtID <$> head entities
  end.

(** ** Token cache *)

Record cbtTokenEntry := mkCbtTokenEntry {
  Token_prismElementURL : string; Token_jwtToken : string; Token_discoveredAt : Z }.
Definition tokens := gmap string cbtTokenEntry.

Section Operations.
Context {W : Type} `{E : Env W} `{P : Platform}.
Implicit Types c : httpClient.

(** ** Listings *)

(** The loop of [ListVMs], [ListSubnets] and [ListClusters]. *)
Fixpoint listPages {A} (fuel : nat) c (t : target (listResponse A)) (op path : string) (all : list A) (offset : Z)
  : M W (result (list A)) :=
  match fuel with
  | O => outOfFuel
  | S fuel =>
      r <- doJSON c t "GET" (HC_host c +s+ path +s+ "?$top=" +s+ itoa pageSize +s+ "&$skip=" +s+ itoa offset) None ;;
      match r with
      | Err e => ret (Err (opErr op e))
      | Ok resp =>
          let all := all ++ List_Data resp in
          match List_Metadata resp with
          | None => ret (Ok all)
          | Some m =>
              if Meta_TotalAvailableResults m <=? len all then ret (Ok all)
              else listPages fuel c t op path all (int64 (offset + pageSize))
          end
      end
  end.

Definition ListVMs (fuel : nat) c : M W (result (list VM)) := listPages fuel c vmListResponse "ListVMs" vmBasePath [] 0.
Definition ListSubnets (fuel : nat) c : M W (result (list Subnet)) :=
  listPages fuel c subnetListResponse "ListSubnets" subnetBasePath [] 0.
Definition ListClusters (fuel : nat) c : M W (result (list Cluster)) :=
  listPages fuel c clusterListResponse "ListClusters" clusterBasePath [] 0.

Definition ListStorageContainers c (peURL : string) : M W (result (list StorageContainer)) :=
  r <- doJSON c storageContainers "GET" (TrimRight peURL "/" +s+ storageContainerV2Path) None ;;
  match r with
  | Err e => ret (Err (opErr "ListStorageContainers" e))
  | Ok resp => ret (Ok (V2_Entities resp))
  end.

(** ** Reading one entity *)

Definition getEntity {A} c (t : target A) (op path uuid : string) : M W (result A) :=
  r <- doJSON c t "GET" (HC_host c +s+ path +s+ "/" +s+ uuid) None ;;
  match r with Err e => ret (Err (opErr op e)) | Ok a => ret (Ok a) end.

Definition GetVM c (uuid : string) : M W (result VM) := getEntity c vmResponse "GetVM" vmBasePath uuid.
Definition GetRecoveryPoint c (uuid : string) : M W (result RecoveryPoint) :=
  getEntity c recoveryPointResponse "GetRecoveryPoint" recoveryPointBasePath uuid.
Definition GetImage c (uuid : string) : M W (result Image) := getEntity c imageResponse "GetImage" imageBasePath uuid.

Definition GetVMPowerState c (uuid : string) : M W (result PowerState) :=
  r <- GetVM c uuid ;;
  match r with
  | Err e => ret (Err (opErr "GetVMPowerState" e))
  | Ok vm => ret (Ok (VM_PowerState vm))
  end.

(** ** Tasks (tasks.go) *)

(** One round of the loop, after the deadline was checked: [None] is to poll again. *)
Definition taskOutcome (taskUUID : string) (task : Task) : option (result Task) :=
  let status := Task_Status task in
  if status =s TaskStatusSucceeded then Some (Ok task)
  else if status =s TaskStatusFailed then
    let msg := match Task_ErrorMessages task with m :: _ => TaskError_Message m | [] => "unknown error" end in
    Some (Err (newErr ("nutanix client: task " +s+ taskUUID +s+ " failed: " +s+ msg)))
  else if status =s TaskStatusCancelled then
    Some (Err (newErr ("nutanix client: task " +s+ taskUUID +s+ " was cancelled")))
  else if (status =s TaskStatusQueued) || (status =s TaskStatusRunning) then None
  else Some (Err (newErr ("nutanix client: task " +s+ taskUUID +s+ " has unknown status: " +s+ status))).

Fixpoint pollLoop (fuel : nat) c (taskUUID : string) (interval timeout deadline : Z) : M W (result Task) :=
  match fuel with
  | O => outOfFuel
  | S fuel =>
      t <- now ;;
      if deadline <? t then
        ret (Err (newErr ("nutanix client: task " +s+ taskUUID +s+ " timed out after " +s+ Duration.String timeout)))
      else
      r <- doJSON c taskTarget "GET" (HC_host c +s+ "/api/prism/v4.0/config/tasks/" +s+ taskUUID) None ;;
      match r with
      | Err e => ret (Err (wrapErr ("nutanix client: failed to poll task " +s+ taskUUID) e))
      | Ok task =>
      match taskOutcome taskUUID task with
      | Some r => ret r
      | None =>
      cancelled <- http (WaitTimer interval) ;;
      match cancelled with
      | Some e => ret (Err (wrapErr ("nutanix client: context cancelled while polling task " +s+ taskUUID) e))
      | None => pollLoop fuel c taskUUID interval timeout deadline
      end end end
  end.

Definition pollTaskWithOptions (fuel : nat) c (taskUUID : string) (interval timeout : Z) : M W (result Task) :=
  t <- now ;; pollLoop fuel c taskUUID interval timeout (t + timeout).

Definition PollTask (fuel : nat) c (taskUUID : string) : M W (result Task) :=
  pollTaskWithOptions fuel c taskUUID DefaultPollInterval DefaultPollTimeout.

(** An operation that returns a task, and the finished task. *)
Definition runTask (fuel : nat) c (op method url : string) (body : option string) : M W (result Task) :=
  r <- doJSON c taskRefResponse method url body ;;
  match r with
  | Err e => ret (Err (opErr op e))
  | Ok taskUUID =>
      if taskUUID =s "" then ret (Err (opFail op "no task ID returned"))
      else
        r <- PollTask fuel c taskUUID ;;
        match r with Err e => ret (Err (opErr op e)) | Ok task => ret (Ok task) end
  end.

Definition asUnit (r : result Task) : result unit := match r with Ok _ => Ok tt | Err e => Err e end.

(** The UUID of what a task created. *)
Definition createdBy (op what rel1 rel2 : string) (r : result Task) : result string :=
  match r with
  | Err e => Err e
  | Ok task =>
      match affected rel1 rel2 (Task_EntitiesAffected task) with
      | Some id => Ok id
      | None => Err (opFail op ("no " +s+ what +s+ " UUID in task entities"))
      end
  end.

Definition PowerOffVM (fuel : nat) c (uuid : string) : M W (result unit) :=
  r <- runTask fuel c "PowerOffVM" "POST" (HC_host c +s+ vmBasePath +s+ "/" +s+ uuid +s+ "/$actions/power-off") (Some "{}") ;;
  ret (asUnit r).
Definition PowerOnVM (fuel : nat) c (uuid : string) : M W (result unit) :=
  r <- runTask fuel c "PowerOnVM" "POST" (HC_host c +s+ vmBasePath +s+ "/" +s+ uuid +s+ "/$actions/power-on") (Some "{}") ;;
  ret (asUnit r).
Definition DeleteVM (fuel : nat) c (uuid : string) : M W (result unit) :=
  r <- runTask fuel c "DeleteVM" "DELETE" (HC_host c +s+ vmBasePath +s+ "/" +s+ uuid) None ;; ret (asUnit r).
Definition DeleteRecoveryPoint (fuel : nat) c (uuid : string) : M W (result unit) :=
  r <- runTask fuel c "DeleteRecoveryPoint" "DELETE" (HC_host c +s+ recoveryPointBasePath +s+ "/" +s+ uuid) None ;;
  ret (asUnit r).
Definition DeleteImage (fuel : nat) c (uuid : string) : M W (result unit) :=
  r <- runTask fuel c "DeleteImage" "DELETE" (HC_host c +s+ imageBasePath +s+ "/" +s+ uuid) None ;; ret (asUnit r).

Definition CreateRecoveryPoint (fuel : nat) c (vmUUID name : string) : M W (result string) :=
  r <- runTask fuel c "CreateRecoveryPoint" "POST" (HC_host c +s+ recoveryPointBasePath) (Some (recoveryPointBody vmUUID name)) ;;
  ret (createdBy "CreateRecoveryPoint" "recovery point" "dataprotection:config:recovery-point" "recovery-point" r).
Definition CreateImageFromDisk (fuel : nat) c (name diskUUID clusterRef : string) : M W (result string) :=
  r <- runTask fuel c "CreateImageFromDisk" "POST" (HC_host c +s+ imageBasePath) (Some (imageBody name diskUUID clusterRef)) ;;
  ret (createdBy "CreateImageFromDisk" "image" "vmm:images:image" "image" r).
Definition CloneVMFromRecoveryPoint (fuel : nat) c (recoveryPointUUID vmName : string) : M W (result string) :=
  r <- runTask fuel c "CloneVMFromRecoveryPoint" "POST"
    (HC_host c +s+ recoveryPointBasePath +s+ "/" +s+ recoveryPointUUID +s+ "/$actions/vm-recovery") (Some (cloneBody vmName)) ;;
  ret (createdBy "CloneVMFromRecoveryPoint" "VM" "vmm:ahv:config:vm" "vm" r).

(** [io.Copy] writes what the body delivers; an error of either side ends it. *)
Definition DownloadImage c (uuid : string) : M W (result unit) :=
  r <- doRequest c "GET" (HC_host c +s+ imageBasePath +s+ "/" +s+ uuid +s+ "/file") None ;;
  match r with
  | Err e => ret (Err (opErr "DownloadImage" e))
  | Ok None => panic
  | Ok (Some resp) =>
      err <- http (WriteOut (Resp_Body resp)) ;;
      match err, Resp_BodyError resp with
      | Some e, _ | None, Some e => ret (Err (wrapErr "nutanix client: DownloadImage: failed to stream image data" e))
      | None, None => ret (Ok tt)
      end
  end.

(** ** Changed block tracking (cbt.go) *)

Definition DiscoverClusterForCBT c (cbtTokens : tokens) (vmUUID : string) : M W (tokens * result CBTClusterInfo) :=
  r <- doJSON c cbtDiscoverResponse "POST" (HC_host c +s+ cbtDiscoverPath) (Some (discoverBody vmUUID)) ;;
  match r with
  | Err e => ret (cbtTokens, Err (opErr "DiscoverClusterForCBT" e))
  | Ok info =>
      if (CBT_PrismElementURL info =s "") || (CBT_JWTToken info =s "") then
        ret (cbtTokens, Err (opFail "DiscoverClusterForCBT" "incomplete response (missing PE URL or JWT token)"))
      else
        t <- now ;;
        ret (<[vmUUID := mkCbtTokenEntry (CBT_PrismElementURL info) (CBT_JWTToken info) t]> cbtTokens, Ok info)
  end.

Definition regionsURL (peURL vmUUID snapshotUUID baseSnapshotUUID : string) (offset length blockSize : Z) : string :=
  TrimRight peURL "/" +s+ cbtChangedRegionsPath +s+ "?vmExtId=" +s+ vmUUID +s+ "&snapshotExtId=" +s+ snapshotUUID +s+
  "&baseSnapshotExtId=" +s+ baseSnapshotUUID +s+ "&offset=" +s+ itoa offset +s+ "&length=" +s+ itoa length +s+
  "&blockSize=" +s+ itoa blockSize.

(** The query itself, with the URL and token in effect. *)
Definition queryRegions c (reqURL token : string) : M W (result ChangedRegions) :=
  err <- http (NewRequest "GET" reqURL) ;;
  match err with
  | Some e => ret (Err (wrapErr "nutanix client: GetChangedRegions: failed to create request" e))
  | None =>
  reply <- http (Do (HC_client c) (mkRequest "GET" reqURL (Cookie CBTJWTCookieName token) "application/json" None None)) ;;
  match Reply_Result reply with
  | Err e => ret (Err (wrapErr "nutanix client: GetChangedRegions: request failed" e))
  | Ok resp =>
      let status := Resp_StatusCode resp in
      if (status <? 200) || (300 <=? status) then ret (Err (NutanixAPIError status (Resp_Body resp) reqURL))
      else match decode changedRegionsResponse resp with
      | None =>
          ret (Err (wrapErr "nutanix client: GetChangedRegions: failed to decode response"
            (decodeErr (T_name changedRegionsResponse) resp)))
      | Some regions => ret (Ok regions)
      end
  end end.

(** [cached && time.Since(entry.discoveredAt) > CBTTokenMaxAge] *)
Definition tokenExpired (cbtTokens : tokens) (vmUUID : string) : M W bool :=
  match cbtTokens !! vmUUID with
  | None => ret false
  | Some entry => t <- now ;; ret (CBTTokenMaxAge <? t - Token_discoveredAt entry)
  end.

Definition GetChangedRegions c (cbtTokens : tokens) (peURL jwtToken vmUUID snapshotUUID baseSnapshotUUID : string)
  (offset length blockSize : Z) : M W (tokens * result ChangedRegions) :=
  refresh <- tokenExpired cbtTokens vmUUID ;;
  let* (cbtTokens, r) :=
    if refresh : bool then DiscoverClusterForCBT c cbtTokens vmUUID
    else ret (cbtTokens, Ok (mkCBTClusterInfo peURL jwtToken)) in
  match r with
  | Err e => ret (cbtTokens, Err (wrapErr "nutanix client: GetChangedRegions: token refresh failed" e))
  | Ok info =>
      r <- queryRegions c (regionsURL (CBT_PrismElementURL info) vmUUID snapshotUUID baseSnapshotUUID offset length blockSize)
        (CBT_JWTToken info) ;;
      ret (cbtTokens, r)
  end.

End Operations.
