(* ===== verification/ClientProperties.v ===== *)
(** * Properties of the Nutanix HTTP client

    What a request may send and return, the completeness of listings, the polling of tasks,
    the tokens of changed-region queries, and the types of what is decoded. *)

From S2P Require Import Prelude GoLib NutanixTypes ApiTypes HttpTypes JsonText Codec NutanixCodec Env Client ClientOps.

(** ** Reading a trace *)

Definition replyOf (e : event) : option Reply :=
  match ev_call e as c return answer c → option Reply with
  | Http h => match h return httpanswer h → option Reply with Do _ _ => Some | _ => λ _, None end
  | _ => λ _, None
  end (ev_answer e).
Definition requestOf (e : event) : option Request :=
  match ev_call e with Http (Do _ r) => Some r | _ => None end.
Definition sleepOf (e : event) : option Z :=
  match ev_call e with Http (Sleep d) => Some d | _ => None end.
Definition refusalOf (e : event) : option error :=
  match ev_call e as c return answer c → option error with
  | Http h => match h return httpanswer h → option error with NewRequest _ _ => λ r, r | _ => λ _, None end
  | _ => λ _, None
  end (ev_answer e).

Definition replies (t : trace) : list Reply := omap replyOf t.
Definition requests (t : trace) : list Request := omap requestOf t.
Definition sleeps (t : trace) : list Z := omap sleepOf t.
Definition refusals (t : trace) : list error := omap refusalOf t.

Lemma replies_app t t' : replies (t ++ t') = replies t ++ replies t'.
Proof. apply elem_of_omap_app. Qed.
Lemma requests_app t t' : requests (t ++ t') = requests t ++ requests t'.
Proof. apply elem_of_omap_app. Qed.

(** ** The promise of a request *)

Definition success (r : Reply) : bool :=
  match Reply_Result r with Ok resp => (200 <=? Resp_StatusCode resp) && (Resp_StatusCode resp <? 300) | Err _ => false end.

(** The server could not be reached, or says to come back. *)
Definition retryable (r : Reply) : bool :=
  match Reply_Result r with
  | Err _ => true
  | Ok resp => (Resp_StatusCode resp =? 429) || (500 <=? Resp_StatusCode resp)
  end.

(** What the last reply means. *)
Definition verdict (url : string) (r : Reply) : result (option Response) :=
  match Reply_Result r with
  | Err e => Err (wrapErr "nutanix client: request failed" e)
  | Ok resp =>
      if success r then Ok (Some resp) else Err (NutanixAPIError (Resp_StatusCode resp) (Resp_Body resp) url)
  end.

(** Doubling pauses, from the [i]-th on. *)
Definition pauses `{Platform} (i : Z) (n : nat) : list Z := (λ k, backoffDuration (i + Z.of_nat k)) <$> seq 0 n.

Lemma pauses_cons `{Platform} i n : pauses i (S n) = backoffDuration i :: pauses (i + 1) n.
Proof.
  unfold pauses. cbn [seq fmap list_fmap]. rewrite Z.add_0_r. f_equal. rewrite <- fmap_S_seq, <- list_fmap_compose.
  apply list_fmap_ext. intros k x _. simpl. f_equal. lia.
Qed.

(** The bodies of successive requests: each starts where the previous reading stopped. *)
Fixpoint drained (body : option string) (rs : list Reply) : list (option string) :=
  match rs with
  | [] => []
  | r :: rs => body :: drained (advance (Reply_Consumed r) body) rs
  end.

(** The promise of [doRequest], for the attempts from the [i]-th on, [m] being the last one
    allowed: at most [m - i + 1] requests, all but the last answered so as to be retried, with
    doubling pauses in between; the result is that of the last reply, which is retryable only
    when there are no attempts left. If a request cannot be built, its error is the result. *)
Definition requestPromise `{Platform} (url : string) (i m : Z) (body : option string) (t : trace) (r : result (option Response)) : Prop :=
  len (replies t) ≤ m - i + 1 ∧
  Req_Body <$> requests t = drained body (replies t) ∧
  ((∃ before final, replies t = before ++ [final] ∧ Forall (λ x, retryable x = true) before ∧
      sleeps t = pauses i (length before) ∧ r = verdict url final ∧ refusals t = [] ∧
      (retryable final = true → len (replies t) = m - i + 1)) ∨
   (∃ e, Forall (λ x, retryable x = true) (replies t) ∧ sleeps t = pauses i (length (replies t)) ∧
      r = Err (wrapErr "nutanix client: failed to create request" e) ∧ refusals t = [e])).

Section Requests.
Context {W : Type} `{E : Env W} `{P : Platform}.

Lemma promise_again url i m body body' hc req reply t r :
  Req_Body req = body → body' = advance (Reply_Consumed reply) body →
  retryable reply = true → requestPromise url (i + 1) m body' t r →
  requestPromise url i m body
    (Ev (Http (NewRequest (Req_Method req) (Req_URL req))) None :: Ev (Http (Do hc req)) reply :: Ev (Http (Sleep (backoffDuration i))) tt :: t) r.
Proof.
  intros Hb -> Hr (Hlen & Hbodies & Hend). unfold requestPromise, len, replies, requests, sleeps, refusals in *. csimpl. simpl length.
  split; [lia|]. split; [by rewrite Hb, Hbodies|]. destruct Hend as [(before & final & -> & Hall & -> & -> & Href & Hlast)|(e & Hall & -> & -> & Href)].
  - left. exists (reply :: before), final. split; [done|]. split; [by constructor|]. simpl length. rewrite pauses_cons.
    do 3 (split; [done|]). intros Hf. specialize (Hlast Hf). lia.
  - right. exists e. split; [by constructor|]. by rewrite pauses_cons.
Qed.

Lemma attempts_promise c method url n : ∀ i body lastErr,
  Z.of_nat n = HC_maxRetries c - i + 1 → (0 < n)%nat →
  spec (attempts c method url n i body lastErr) (total (requestPromise url i (HC_maxRetries c) body)).
Proof.
  induction n as [|n IH]; intros i body lastErr Hn Hpos; [lia|]. cbn [attempts].
  assert (∀ reply, (retryable reply = true → i = HC_maxRetries c) → requestPromise url i (HC_maxRetries c) body
    [Ev (Http (NewRequest method url)) None; Ev (Http (Do (HC_client c) (mkRequest method url (BasicAuth (HC_username c) (HC_password c))
      "application/json" (setContentType method body) body))) reply] (verdict url reply)) as Hlast.
  { intros reply Hr. unfold requestPromise, len. cbn. split; [lia|]. split; [done|]. left. exists [], reply. repeat (split; [done|]).
    intros Hf. specialize (Hr Hf). lia. }
  assert (∀ reply lastErr', retryable reply = true → i ≠ HC_maxRetries c →
    spec (sleepWithContext (backoffDuration i) ;;; attempts c method url n (i + 1) (advance (Reply_Consumed reply) body) lastErr')
      (total (λ t', requestPromise url i (HC_maxRetries c) body (Ev (Http (NewRequest method url)) None ::
        Ev (Http (Do (HC_client c) (mkRequest method url (BasicAuth (HC_username c) (HC_password c))
          "application/json" (setContentType method body) body))) reply :: t')))) as Hretry.
  { intros reply lastErr' Hr Hi. unfold sleepWithContext. spec_step. destruct a. eapply spec_total_weaken; [apply IH; lia|].
    intros t r Ht. by eapply (promise_again _ _ _ _ _ _ (mkRequest method url _ _ _ _)). }
  spec_step. destruct a as [e|].
  { apply spec_ret. unfold requestPromise, len. cbn. split; [lia|]. split; [done|]. right. by exists e. }
  spec_step. rename a into reply. specialize (Hlast reply). specialize (Hretry reply).
  unfold verdict, success, retryable, shouldRetry in *. destruct (Reply_Result reply) as [resp|e] eqn:Er.
  - destruct ((200 <=? Resp_StatusCode resp) && (Resp_StatusCode resp <? 300))%bool eqn:H2.
    { apply spec_ret. apply Hlast. intros H5. apply andb_true_iff in H2 as [H2 H3]. breflect.
      apply orb_true_iff in H5 as [H5|H5]; breflect; lia. }
    destruct ((_ || _) && _)%bool eqn:H5.
    + apply andb_true_iff in H5 as [H5 H6]. breflect. apply Hretry; [done|lia].
    + apply spec_ret, Hlast. intros H6. rewrite H6 in H5. simpl in H5. breflect. lia.
  - simpl. destruct (Z.eqb_spec i (HC_maxRetries c)); [by apply spec_ret, Hlast|by apply Hretry].
Qed.

(** Whatever the server answers, a request ends. *)
Lemma doRequest_promise c method url body :
  0 ≤ HC_maxRetries c < 2 ^ 63 - 1 →
  spec (doRequest c method url body) (total (requestPromise url 0 (HC_maxRetries c) body)).
Proof.
  intros Hm. unfold doRequest. rewrite int64_id by (unfold in_int64; lia). apply attempts_promise; lia.
Qed.

(** ** Answers of the server *)

(** The event is one the environment can produce. *)
Definition genuine (e : event) : Prop := ∃ w, ev_answer e = (handle (ev_call e) w).2.

(** The server answered the request with success. *)
Definition answered (c : httpClient) (method url : string) (resp : Response) : Prop :=
  ∃ req reply, Req_Method req = method ∧ Req_URL req = url ∧ Req_Auth req = BasicAuth (HC_username c) (HC_password c) ∧
    genuine (Ev (Http (Do (HC_client c) req)) reply) ∧ Reply_Result reply = Ok resp ∧ success reply = true.

(** A request could not be built or was not answered with success. *)
Definition fault (e : event) : bool :=
  match replyOf e with
  | Some r => negb (success r)
  | None => match refusalOf e with Some _ => true | None => false end
  end.
Definition faulty (t : trace) : bool := existsb fault t.

Lemma faulty_app t t' : faulty (t ++ t') = faulty t || faulty t'.
Proof. apply existsb_app. Qed.

Lemma spec_genuine {B} c (k : answer c → M W B) (Q : trace → B → Prop) :
  (∀ a, genuine (Ev c a) → spec (k a) (total (λ t', Q (Ev c a :: t')))) → spec (bind (perform c) k) (total Q).
Proof.
  intros Hk w. unfold bind, perform. destruct (handle c w) as [w' a] eqn:Eh. simpl.
  refine (Hk a _ w'). exists w. simpl. by rewrite Eh.
Qed.

Definition requestAnswer (c : httpClient) (method url : string) (t : trace) (r : result (option Response)) : Prop :=
  match r with Ok (Some resp) => answered c method url resp | Ok None => False | Err _ => faulty t = true end.

Lemma attempts_answer c method url n : ∀ i body lastErr,
  Z.of_nat n = HC_maxRetries c - i + 1 → (0 < n)%nat →
  spec (attempts c method url n i body lastErr) (total (requestAnswer c method url)).
Proof.
  induction n as [|n IH]; intros i body lastErr Hn Hpos; [lia|]. cbn [attempts]. spec_step. destruct a as [e|]; [by apply spec_ret|].
  match goal with |- spec (bind (http ?h) _) _ => apply (spec_genuine (Http h)) end. intros reply Hg.
  assert (∀ lastErr', success reply = false → i ≠ HC_maxRetries c →
    spec (sleepWithContext (backoffDuration i) ;;; attempts c method url n (i + 1) (advance (Reply_Consumed reply) body) lastErr')
      (total (λ t', requestAnswer c method url (Ev (Http (NewRequest method url)) None ::
        Ev (Http (Do (HC_client c) (mkRequest method url (BasicAuth (HC_username c) (HC_password c))
          "application/json" (setContentType method body) body))) reply :: t')))) as Hretry.
  { intros lastErr' Hs Hi. unfold sleepWithContext. spec_step. eapply spec_total_weaken; [apply IH; lia|].
    intros t [[resp|]|e] Ht; try done. simpl. unfold fault. simpl. by rewrite Hs. }
  simpl answer in reply. unfold success in Hretry. cbv zeta. destruct (Reply_Result reply) as [resp|e] eqn:Er.
  - destruct ((200 <=? Resp_StatusCode resp) && (Resp_StatusCode resp <? 300))%bool eqn:H2.
    { apply spec_ret. eexists (mkRequest method url _ _ _ _), reply. do 3 (split; [reflexivity|]). split; [exact Hg|]. split; [done|]. unfold success. by rewrite Er. }
    destruct (shouldRetry _ _ && _)%bool eqn:H5.
    + apply andb_true_iff in H5 as [H5 H6]. breflect. apply Hretry; [done|lia].
    + apply spec_ret. simpl. unfold fault. simpl. unfold success. by rewrite Er, H2.
  - simpl. destruct (Z.eqb_spec i (HC_maxRetries c)); [|by apply Hretry].
    apply spec_ret. simpl. unfold fault. simpl. unfold success. by rewrite Er.
Qed.

(** A bound on the retries under which the number of attempts does not wrap around. *)
Definition soundRetries (c : httpClient) : Prop := 0 ≤ HC_maxRetries c < 2 ^ 63 - 1.

Lemma doRequest_answer c method url body :
  soundRetries c → spec (doRequest c method url body) (total (requestAnswer c method url)).
Proof.
  intros Hm. unfold doRequest, soundRetries in *. rewrite int64_id by (unfold in_int64; lia). apply attempts_answer; lia.
Qed.

(** A decoded result comes from a response of the server; an error from a fault or from a
    response that does not decode. *)
Definition jsonAnswer {A} (c : httpClient) (t : target A) (method url : string) (tr : trace) (r : result A) : Prop :=
  match r with
  | Ok a => ∃ resp, answered c method url resp ∧ decode t resp = Some a
  | Err _ => faulty tr = true ∨ ∃ resp, answered c method url resp ∧ decode t resp = None
  end.

Lemma doJSON_answer {A} c (t : target A) method url body :
  soundRetries c → spec (doJSON c t method url body) (total (jsonAnswer c t method url)).
Proof.
  intros Hm. unfold doJSON. eapply spec_bind; [by apply doRequest_answer|]. intros tr [[resp|]|e] Hr; simpl in Hr; [|done|].
  - destruct (decode t resp) as [a|] eqn:Ed; apply spec_ret; simpl; [by exists resp|]. right. by exists resp.
  - apply spec_ret. rewrite app_nil_r. by left.
Qed.

End Requests.

(** ** Listings *)

Definition pageURL (c : httpClient) (path : string) (offset : Z) : string :=
  HC_host c +s+ path +s+ "?$top=" +s+ itoa pageSize +s+ "&$skip=" +s+ itoa offset.

(** The page of at most [top] entities from the [k]-th on. *)
Definition pageOf {A} (top : nat) (data : list A) (k off : Z) : listResponse A :=
  mkListResponse (take top (drop (Z.to_nat k) data)) (Some (mkListMetadata (len data) off)).

(** A server that has [data] under [path]: when it answers a page request, it sends the page as
    JSON, with the number of all entities. *)
Definition servesPages {W} `{Env W} {A} (c : httpClient) (path : string) (top : nat) (e : A → json) (data : list A) : Prop :=
  ∀ k resp, 0 ≤ k → answered c "GET" (pageURL c path k) resp →
    Resp_BodyError resp = None ∧
    ∃ off, in_int64 off ∧ Resp_Body resp = text (print (encList e (pageOf top data k off))).

Lemma page_text {A n ok} {zero : A} {e d} `{!CodecLaw n ok zero e d} top data k off :
  0 ≤ n ≤ 9998 → Forall ok data → len data < 2 ^ 63 - 500 → in_int64 off →
  parse (print (encList e (pageOf top data k off))) ≫= decList zero d zeroList = Some (pageOf top data k off).
Proof.
  intros Hn Hok Hlen Hoff. assert (CodecLaw (2 + n) (okList ok) zeroList (encList e) (decList zero d)) as Hl.
  { apply list_codec; [done|]. apply TCEq_eq, Z.leb_le. lia. }
  apply body_back; [unfold maxNestingDepth; lia|]. split; simpl; [by apply Forall_take, Forall_drop|].
  split; [|done]. unfold in_int64, len in *. simpl. lia.
Qed.

Section Listing.
Context {W : Type} `{E : Env W} `{P : Platform}.
Context {A : Type} {n : Z} {ok : A → Prop} {zero : A} {e : A → json} {d : decoder A} `{Hc : !CodecLaw n ok zero e d}.
Context (c : httpClient) (name op path : string) (top : nat) (data : list A).
Context (Hretries : soundRetries c) (Hn : 0 ≤ n ≤ 9998) (Hok : Forall ok data) (Hlen : len data < 2 ^ 63 - 500).
Context (Hserves : servesPages c path top e data).

Lemma page_decodes k resp : 0 ≤ k → answered c "GET" (pageURL c path k) resp →
  ∃ off, decode (mkTarget name zeroList (decList zero d)) resp = Some (pageOf top data k off).
Proof.
  intros Hk Ha. destruct (Hserves k resp Hk Ha) as (Hb & off & Hoff & Hbody). exists off.
  unfold decode, readValue. rewrite Hb, Hbody, chars_text. simpl T_decode. simpl T_zero.
  by apply page_text.
Qed.

(** One page request: the page, or a fault. *)
Lemma page_request k : 0 ≤ k →
  spec (doJSON c (mkTarget name zeroList (decList zero d)) "GET" (pageURL c path k) None)
    (total (λ tr r, match r with Ok p => ∃ off, p = pageOf top data k off | Err _ => faulty tr = true end)).
Proof.
  intros Hk. eapply spec_total_weaken; [by apply doJSON_answer|]. intros tr [p|err] Hr; simpl in Hr.
  - destruct Hr as (resp & Ha & Hd). destruct (page_decodes k resp Hk Ha) as [off Hp]. exists off. congruence.
  - destruct Hr as [Hf|(resp & Ha & Hd)]; [done|]. destruct (page_decodes k resp Hk Ha) as [off Hp]. congruence.
Qed.

Lemma take_page k : take k data ++ take 500 (drop k data) = take (k + 500) data.
Proof. by rewrite <- take_take_drop. Qed.

Lemma listPages_complete fuel : top = 500%nat → ∀ k,
  (length data < k + 500 * fuel)%nat → (0 < fuel)%nat → (k = 0 ∨ k < length data)%nat →
  spec (listPages fuel c (mkTarget name zeroList (decList zero d)) op path (take k data) (Z.of_nat k))
    (total (λ tr r, match r with Ok l => l = data | Err _ => faulty tr = true end)).
Proof.
  intros Htop. induction fuel as [|fuel IH]; intros k Hfuel Hpos Hk; [lia|]. cbn [listPages].
  eapply spec_bind; [apply page_request; lia|]. intros tr [p|err] Hp; simpl in Hp.
  - destruct Hp as [off ->]. cbn [pageOf List_Data List_Metadata Meta_TotalAvailableResults]. rewrite Nat2Z.id, Htop, take_page.
    assert (length (take (k + 500) data) = Nat.min (k + 500) (length data)) as Hl by apply length_take. unfold len at 1 2. rewrite Hl.
    destruct (Z.leb_spec (Z.of_nat (length data)) (Z.of_nat (Nat.min (k + 500) (length data)))).
    + apply spec_ret. apply take_ge. lia.
    + unfold pageSize. rewrite int64_id by (unfold in_int64, len in *; lia).
      replace (Z.of_nat k + 500) with (Z.of_nat (k + 500)) by lia.
      eapply spec_total_weaken; [apply IH; lia|]. intros tr' [l|err'] Hr; [done|]. by rewrite faulty_app, Hr, orb_true_r.
  - apply spec_ret. by rewrite app_nil_r.
Qed.

End Listing.

(** ** A request answered at once *)

Section AtOnce.
Context {W : Type} `{E : Env W} `{P : Platform}.

Definition firstRequest (c : httpClient) (method url : string) (body : option string) : Request :=
  mkRequest method url (BasicAuth (HC_username c) (HC_password c)) "application/json" (setContentType method body) body.

(** The raw response of a request. *)
Lemma doRequest_at_once c method url body w w1 w2 reply resp :
  soundRetries c →
  handle (Http (NewRequest method url)) w = (w1, None) →
  handle (Http (Do (HC_client c) (firstRequest c method url body))) w1 = (w2, reply) →
  Reply_Result reply = Ok resp → success reply = true →
  doRequest c method url body w =
    mkRes [Ev (Http (NewRequest method url)) None; Ev (Http (Do (HC_client c) (firstRequest c method url body))) reply] w2 (Done (Ok (Some resp))).
Proof.
  intros Hm H1 H2 Hr Hs. unfold doRequest, soundRetries, success in *. rewrite int64_id by (unfold in_int64; lia).
  destruct (Z.to_nat (HC_maxRetries c + 1)) as [|n] eqn:Hn; [lia|]. cbn [attempts]. unfold bind, http, perform.
  rewrite H1. cbn. unfold firstRequest in H2. rewrite H2. cbn. rewrite Hr in *. by rewrite Hs.
Qed.

Lemma doRequest_refused c method url body w w1 w2 reply resp :
  soundRetries c →
  handle (Http (NewRequest method url)) w = (w1, None) →
  handle (Http (Do (HC_client c) (firstRequest c method url body))) w1 = (w2, reply) →
  Reply_Result reply = Ok resp → success reply = false → retryable reply = false →
  doRequest c method url body w =
    mkRes [Ev (Http (NewRequest method url)) None; Ev (Http (Do (HC_client c) (firstRequest c method url body))) reply] w2
      (Done (Err (NutanixAPIError (Resp_StatusCode resp) (Resp_Body resp) url))).
Proof.
  intros Hm H1 H2 Hr Hs Hre. unfold doRequest, soundRetries, success, retryable in *. rewrite int64_id by (unfold in_int64; lia).
  destruct (Z.to_nat (HC_maxRetries c + 1)) as [|n] eqn:Hn; [lia|]. cbn [attempts]. unfold bind, http, perform.
  rewrite H1. cbn. unfold firstRequest in H2. rewrite H2. cbn. rewrite Hr in *. rewrite Hs. unfold shouldRetry. by rewrite Hre.
Qed.

Lemma doJSON_at_once {A} c (t : target A) method url body w w1 w2 reply resp a :
  soundRetries c →
  handle (Http (NewRequest method url)) w = (w1, None) →
  handle (Http (Do (HC_client c) (firstRequest c method url body))) w1 = (w2, reply) →
  Reply_Result reply = Ok resp → success reply = true → decode t resp = Some a →
  doJSON c t method url body w =
    mkRes [Ev (Http (NewRequest method url)) None; Ev (Http (Do (HC_client c) (firstRequest c method url body))) reply] w2 (Done (Ok a)).
Proof.
  intros Hm H1 H2 Hr Hs Hd. unfold doJSON, bind. erewrite doRequest_at_once by done. cbn. by rewrite Hd.
Qed.

(** A request that is refused for good. *)
Lemma doJSON_refused {A} c (t : target A) method url body w w1 w2 reply resp :
  soundRetries c →
  handle (Http (NewRequest method url)) w = (w1, None) →
  handle (Http (Do (HC_client c) (firstRequest c method url body))) w1 = (w2, reply) →
  Reply_Result reply = Ok resp → success reply = false → retryable reply = false →
  doJSON c t method url body w =
    mkRes [Ev (Http (NewRequest method url)) None; Ev (Http (Do (HC_client c) (firstRequest c method url body))) reply] w2
      (Done (Err (NutanixAPIError (Resp_StatusCode resp) (Resp_Body resp) url))).
Proof.
  intros Hm H1 H2 Hr Hs Hre. unfold doJSON, bind. by erewrite doRequest_refused.
Qed.

End AtOnce.

(** A server of one listing. It sends at most [cap] entities a page, whatever is asked. *)
Module RefPrism.

Definition offsetIn (prefix url : string) : option Z :=
  if bool_decide (take (length (chars prefix)) (chars url) = chars prefix)
  then atoi (text (drop (length (chars prefix)) (chars url))) else None.

Definition reply (body : string) : Reply := mkReply 0 (Ok (mkResponse 200 body None)).

Definition httpAnswer (prefix : string) (page : Z → string) (h : httpcall) : httpanswer h :=
  match h with
  | NewRequest _ _ | WaitTimer _ | WriteOut _ => None
  | Do _ req => match offsetIn prefix (Req_URL req) with
                | Some k => reply (page k)
                | None => mkReply 0 (Ok (mkResponse 404 "" None))
                end
  | Sleep _ => tt
  end.

Definition serverAnswer (prefix : string) (page : Z → string) (c : call) : answer c :=
  match c with
  | Http h => httpAnswer prefix page h
  | c => RefEnv.answers RefEnv.nxRefuse (λ _ _, Err RefEnv.notFound) (Err RefEnv.notFound) c
  end.

Definition server {A} (c : httpClient) (path : string) (cap : nat) (e : A → json) (data : list A) : Env unit := λ call w,
  (w, serverAnswer (HC_host c +s+ path +s+ "?$top=" +s+ itoa pageSize +s+ "&$skip=")
        (λ k, text (print (encList e (pageOf cap data k 0)))) call).

Lemma offset_found prefix k : offsetIn prefix (prefix +s+ itoa k) = Some k.
Proof.
  unfold offsetIn. rewrite chars_app, take_app_length, drop_app_length, bool_decide_eq_true_2 by done.
  by rewrite text_chars, atoi_itoa.
Qed.

Lemma pageURL_prefix c path k :
  pageURL c path k = (HC_host c +s+ path +s+ "?$top=" +s+ itoa pageSize +s+ "&$skip=") +s+ itoa k.
Proof. unfold pageURL. by rewrite !append_assoc. Qed.

Lemma server_serves {A} c path cap (e : A → json) data : @servesPages unit (server c path cap e data) A c path cap e data.
Proof.
  intros k resp Hk (req & rep & _ & Hurl & _ & [w Hg] & Hres & _). unfold handle, server in Hg. simpl in Hg.
  rewrite Hurl, pageURL_prefix, offset_found in Hg. rewrite Hg in Hres. injection Hres as <-. simpl. split; [done|]. by exists 0.
Qed.

Lemma server_page {A n ok} {zero : A} {e d} `{!CodecLaw n ok zero e d} `{P : Platform} c name path cap data k :
  soundRetries c → 0 ≤ n ≤ 9998 → Forall ok data → len data < 2 ^ 63 - 500 → 0 ≤ k →
  ∃ tr, @doJSON unit (server c path cap e data) P _ c (mkTarget name zeroList (decList zero d)) "GET" (pageURL c path k) None tt =
    mkRes tr tt (Done (Ok (pageOf cap data k 0))).
Proof.
  intros Hm Hn Hok Hlen Hk. eexists.
  eapply (@doJSON_at_once unit (server c path cap e data)) with (reply := reply (text (print (encList e (pageOf cap data k 0)))));
    [done|reflexivity| |reflexivity|done|].
  - unfold handle, server. simpl. by rewrite pageURL_prefix, offset_found.
  - unfold decode, readValue. simpl. rewrite chars_text. by apply page_text.
Qed.

End RefPrism.

Lemma take_short {A} cap (data : list A) : (cap < length data)%nat → len (take cap data) = Z.of_nat cap.
Proof. intros H. unfold len. rewrite length_take. lia. Qed.

(** Past the end of the data nothing comes, and the loop goes on asking. *)
Lemma listPages_spins {A n ok} {zero : A} {e d} `{!CodecLaw n ok zero e d} `{P : Platform} c name op path cap data fuel :
  soundRetries c → 0 ≤ n ≤ 9998 → Forall ok data → (cap < length data ≤ 500)%nat → ∀ k,
  500 ≤ k → k + 500 * Z.of_nat fuel < 2 ^ 63 →
  @run unit _ (@listPages unit (RefPrism.server c path cap e data) P _ fuel c
    (mkTarget name zeroList (decList zero d)) op path (take cap data) k) tt = OutOfFuel.
Proof.
  intros Hm Hn Hok Hcap. induction fuel as [|fuel IH]; intros k Hk Hf; [done|]. unfold run. cbn [listPages].
  destruct (RefPrism.server_page (d := d) c name path cap data k) as [tr Htr]; try done; [unfold len; lia|lia|].
  unfold bind. change (HC_host c +s+ path +s+ _) with (pageURL c path k). rewrite Htr. cbn [r_out r_world].
  cbn [pageOf List_Data List_Metadata Meta_TotalAvailableResults]. rewrite (drop_ge data) by lia. rewrite take_nil, app_nil_r.
  rewrite take_short by lia. destruct (Z.leb_spec (len data) (Z.of_nat cap)); [unfold len in *; lia|].
  cbn [r_out]. unfold pageSize. rewrite int64_id by (unfold in_int64; lia). apply IH; lia.
Qed.

(** ** Polling *)

Definition taskURL (c : httpClient) (id : string) : string := HC_host c +s+ "/api/prism/v4.0/config/tasks/" +s+ id.

(** A clock that does not go back, and timers that do not fire early. *)
Class SteadyClock {W} `{Env W} (clock : W → Z) : Prop := {
  clock_now w : (handle Now w).2 = clock w;
  clock_forward call w : clock w ≤ clock (handle call w).1;
  clock_timer d w w' : handle (Http (WaitTimer d)) w = (w', None) → clock w + d ≤ clock w'
}.

Section Polling.
Context {W : Type} `{E : Env W} `{P : Platform}.

(** What ends the polling of a task. *)
Definition pollAnswer (c : httpClient) (id : string) (deadline : Z) (tr : trace) (r : result Task) : Prop :=
  match r with
  | Ok task => Task_Status task = TaskStatusSucceeded ∧
      ∃ resp, answered c "GET" (taskURL c id) resp ∧ decode taskTarget resp = Some task
  | Err e =>
      (∃ t, Ev Now t ∈ tr ∧ deadline < t) ∨ faulty tr = true ∨
      (∃ resp, answered c "GET" (taskURL c id) resp ∧
        (decode taskTarget resp = None ∨ ∃ task, decode taskTarget resp = Some task ∧ taskOutcome id task = Some (Err e))) ∨
      (∃ d cause, Ev (Http (WaitTimer d)) (Some cause) ∈ tr)
  end.

Lemma pollAnswer_app c id deadline tr tr' r : pollAnswer c id deadline tr' r → pollAnswer c id deadline (tr ++ tr') r.
Proof.
  destruct r as [task|e]; [done|]. intros [(t & Ht & Hd)|[Hf|[Ha|(d & cause & Hc)]]].
  - left. exists t. set_solver.
  - right. left. by rewrite faulty_app, Hf, orb_true_r.
  - right. right. by left.
  - do 3 right. exists d, cause. set_solver.
Qed.

Lemma taskOutcome_ok id task a : taskOutcome id task = Some (Ok a) → a = task ∧ Task_Status task = TaskStatusSucceeded.
Proof. unfold taskOutcome. intros H. repeat case_match; try done. breflect. by simplify_eq. Qed.

Lemma pollLoop_answer c id interval timeout deadline : soundRetries c → ∀ fuel,
  spec (pollLoop fuel c id interval timeout deadline) (partial (pollAnswer c id deadline)).
Proof.
  intros Hm. induction fuel as [|fuel IH]; cbn [pollLoop]; [spec_step|]. spec_step. rename a into t.
  destruct (Z.ltb_spec deadline t).
  { apply spec_ret_p. left. exists t. set_solver. }
  eapply spec_bind_p; [by apply total_partial, doJSON_answer|]. intros tr [task|e] Hr; simpl in Hr.
  - destruct Hr as (resp & Ha & Hd). destruct (taskOutcome id task) as [[a|e]|] eqn:Ho.
    + apply taskOutcome_ok in Ho as [-> Hs]. apply spec_ret_p. simpl. eauto.
    + apply spec_ret_p. do 2 right. left. exists resp. eauto.
    + spec_step. destruct a as [cause|].
      * apply spec_ret_p. do 3 right. exists interval, cause. set_solver.
      * eapply spec_partial_weaken; [apply IH|]. intros tr' r Hr. apply (pollAnswer_app _ _ _ [_]), pollAnswer_app, (pollAnswer_app _ _ _ [_]), Hr.
  - apply spec_ret_p. rewrite app_nil_r. apply (pollAnswer_app _ _ _ [_]). destruct Hr as [Hf|(resp & Ha & Hd)]; [right; by left|].
    do 2 right. left. exists resp. auto.
Qed.

Context (clock : W → Z) `{Hclock : !SteadyClock clock}.

(** The clock is not behind after a program. *)
Definition forward {A} (m : M W A) : Prop := ∀ w, clock w ≤ clock (r_world (m w)).

Lemma forward_ret {A} (a : A) : forward (ret a).
Proof. intros w. done. Qed.

Lemma forward_perform call : forward (perform call).
Proof. intros w. unfold perform. pose proof (clock_forward call w). by destruct (handle call w). Qed.

Lemma forward_http h : forward (http h).
Proof. exact (forward_perform (Http h)). Qed.

Lemma forward_bind {A B} (m : M W A) (k : A → M W B) : forward m → (∀ a, forward (k a)) → forward (bind m k).
Proof.
  intros Hf Hk w. unfold bind. specialize (Hf w). destruct (r_out (m w)) as [a| |]; [|done|done].
  specialize (Hk a (r_world (m w))). simpl. lia.
Qed.

Lemma forward_attempts c method url n : ∀ i body lastErr, forward (attempts c method url n i body lastErr).
Proof.
  induction n as [|n IH]; intros i body lastErr; cbn [attempts]; [apply forward_ret|].
  assert (∀ d j b l, forward (sleepWithContext d ;;; attempts c method url n j b l)) as Hs
    by (intros; apply forward_bind; [apply (forward_http (Sleep _))|intros _; apply IH]).
  apply forward_bind; [apply forward_http|]. intros [e|]; [apply forward_ret|].
  apply forward_bind; [apply forward_http|]. intros reply. cbv zeta. repeat case_match; auto using forward_ret.
Qed.

Lemma forward_doJSON {A} c (t : target A) method url body : forward (doJSON c t method url body).
Proof.
  unfold doJSON. apply forward_bind; [apply forward_attempts|]. intros [[resp|]|e]; [|intros w; done|apply forward_ret].
  destruct (decode t resp); apply forward_ret.
Qed.

Lemma pollLoop_ends c id interval timeout deadline : soundRetries c → 0 < interval → ∀ fuel w,
  (0 < fuel)%nat → deadline < clock w + interval * (Z.of_nat fuel - 1) →
  ∃ r, run (pollLoop fuel c id interval timeout deadline) w = Done r.
Proof.
  intros Hm Hi. induction fuel as [|fuel IH]; intros w Hpos Hf; [lia|]. cbn [pollLoop]. unfold run, bind at 1, now, perform.
  pose proof (clock_now w) as Hn. pose proof (clock_forward Now w) as Hw0.
  destruct (handle Now w) as [w1 t]. simpl in Hn, Hw0. subst t. cbn [r_out r_world].
  destruct (Z.ltb_spec deadline (clock w)); [by eexists|]. unfold bind at 1.
  pose proof (doJSON_answer c taskTarget "GET" (HC_host c +s+ "/api/prism/v4.0/config/tasks/" +s+ id) None Hm w1) as Hj.
  pose proof (forward_doJSON c taskTarget "GET" (HC_host c +s+ "/api/prism/v4.0/config/tasks/" +s+ id) None w1) as Hw1.
  destruct (r_out (doJSON c taskTarget _ _ _ w1)) as [[task|e]| |]; try done; [|by eexists]. cbn [r_out].
  destruct (taskOutcome id task); [by eexists|]. set (w2 := r_world _) in *. unfold bind, http, perform.
  pose proof (clock_timer interval w2) as Ht. destruct (handle (Http (WaitTimer interval)) w2) as [w3 [cause|]]; [by eexists|].
  specialize (Ht w3 eq_refl). cbn [r_out r_world]. destruct fuel as [|fuel]; [exfalso; lia|].
  destruct (IH w3) as [r Hr]; [lia|lia|]. exists r. exact Hr.
Qed.

End Polling.
