(* ===== verification/ClientTheorems.v ===== *)
(** * Theorems about the Nutanix HTTP client

    The properties of requests, listings, tasks, tokens and decoded values, with concrete runs. *)

From S2P Require Import Prelude GoLib NutanixTypes ApiTypes HttpTypes JsonText Codec NutanixCodec Env Client ClientOps ClientProperties.

(** ** Tasks that create something *)

(** [id] is what a finished task reports as created: the first entity of one of the two kinds,
    or else the first entity. *)
Definition reported (rel1 rel2 : string) (entities : list TaskEntity) (id : string) : Prop :=
  let kind e := TaskEntity_Rel e = rel1 ∨ TaskEntity_Rel e = rel2 in
  (∃ before e after, entities = before ++ e :: after ∧ kind e ∧ Forall (λ x, ¬ kind x) before ∧ TaskEntity_ExtID e = id) ∨
  (Forall (λ x, ¬ kind x) entities ∧ ∃ e after, entities = e :: after ∧ TaskEntity_ExtID e = id).

Lemma find_first {A} (p : A → bool) l x :
  List.find p l = Some x → ∃ before after, l = before ++ x :: after ∧ p x = true ∧ Forall (λ y, p y = false) before.
Proof.
  induction l as [|y l IH]; simpl; [done|]. destruct (p y) eqn:Hy.
  - intros [= ->]. by exists [], l.
  - intros H. destruct (IH H) as (before & after & -> & Hx & Hb). exists (y :: before), after. auto.
Qed.

Lemma affected_reported rel1 rel2 entities id : affected rel1 rel2 entities = Some id → reported rel1 rel2 entities id.
Proof.
  unfold affected, reported. intros H.
  assert (∀ e, ((TaskEntity_Rel e =s rel1) || (TaskEntity_Rel e =s rel2))%bool = true ↔ TaskEntity_Rel e = rel1 ∨ TaskEntity_Rel e = rel2) as Hk.
  { intros e. by rewrite orb_true_iff, !String.eqb_eq. }
  destruct (List.find _ entities) as [e|] eqn:Ef.
  - injection H as <-. apply find_first in Ef as (before & after & -> & He & Hb). left. exists before, e, after.
    split; [done|]. split; [by apply Hk|]. split; [|done]. eapply Forall_impl; [exact Hb|]. intros x Hx. rewrite <- Hk. simpl in Hx. by rewrite Hx.
  - right. split; [|destruct entities as [|e after]; [done|]; injection H as <-; eauto]. apply Forall_forall. intros x Hx. rewrite <- Hk.
    intros Ht. pose proof (List.find_none _ _ Ef x (proj1 (list_elem_of_In _ _) Hx)) as Hn. simpl in Hn. congruence.
Qed.

(** The readings of the clock. *)
Definition nowOf (e : event) : option Z :=
  match ev_call e as c return answer c → option Z with Now => Some | _ => λ _, None end (ev_answer e).

Section Tasks.
Context {W : Type} `{E : Env W} `{P : Platform}.

(** A request as [doRequest] sends it. *)
Definition sentAs (c : httpClient) (method url : string) (req : Request) : Prop :=
  Req_Method req = method ∧ Req_URL req = url ∧ Req_Auth req = BasicAuth (HC_username c) (HC_password c) ∧
  Req_ContentType req = setContentType method (Req_Body req).

Lemma attempts_requests c method url n : ∀ i body lastErr,
  spec (attempts c method url n i body lastErr) (partial (λ t _, omap nowOf t = [] ∧
    Forall (sentAs c method url) (requests t))).
Proof.
  induction n as [|n IH]; intros i body lastErr; cbn [attempts]; [by apply spec_ret_p|].
  spec_step. destruct a as [e|]; [by apply spec_ret_p|]. spec_step. cbv zeta.
  assert (∀ d j b l, spec (sleepWithContext d ;;; attempts c method url n j b l) (partial (λ t _, omap nowOf t = [] ∧
    Forall (sentAs c method url) (requests t)))) as Hs.
  { intros d j b l. unfold sleepWithContext. spec_step. eapply spec_partial_weaken; [apply IH|]. intros t r [Ht Hr]. by split. }
  repeat case_match; try (apply spec_ret_p; split; [done|]; by repeat constructor);
    (eapply spec_partial_weaken; [apply Hs|]; intros t r [Ht Hr]; split; [exact Ht|]; unfold requests; csimpl; by constructor).
Qed.

Lemma doJSON_requests {A} c (t : target A) method url body :
  spec (doJSON c t method url body) (partial (λ tr _, omap nowOf tr = [] ∧
    Forall (sentAs c method url) (requests tr))).
Proof.
  unfold doJSON, doRequest. eapply spec_bind_p; [apply attempts_requests|]. intros tr [[resp|]|e] Hr; [|intros w; exact I|].
  - destruct (decode t resp); apply spec_ret_p; by rewrite app_nil_r.
  - apply spec_ret_p. by rewrite app_nil_r.
Qed.

(** The exchange of one request, as its trace shows it: every attempt is sent to the URL with the
    method and the credentials, the first with the whole body and each later one with what the server
    left unread; all but the last were answered so as to be retried, and the last with [resp]. *)
Definition asked (c : httpClient) (method url : string) (body : option string) (resp : Response) (t : trace) : Prop :=
  Forall (sentAs c method url) (requests t) ∧ Req_Body <$> requests t = drained body (replies t) ∧
  ∃ before final, replies t = before ++ [final] ∧ Forall (λ x, retryable x = true) before ∧ Reply_Result final = Ok resp ∧ success final = true.

Lemma verdict_ok url final resp : verdict url final = Ok (Some resp) → Reply_Result final = Ok resp ∧ success final = true.
Proof. unfold verdict. destruct (Reply_Result final); [|done]. destruct (success final) eqn:Hs; [|done]. intros [= <-]. by split. Qed.

Lemma doJSON_asked {A} c (t : target A) method url body : soundRetries c →
  spec (doJSON c t method url body) (partial (λ tr r, ∀ a, r = Ok a → ∃ resp, asked c method url body resp tr ∧ decode t resp = Some a)).
Proof.
  intros Hm. unfold doJSON. eapply spec_bind_p.
  { apply spec_partial_and; [by apply total_partial, doRequest_promise|apply attempts_requests]. }
  intros tr [[resp|]|e] [(_ & Hb & Hr) [_ Hs]]; [|spec_step|by apply spec_ret_p].
  destruct (decode t resp) as [a|] eqn:Hd; apply spec_ret_p; [|done]. intros a' [= <-]. rewrite app_nil_r. exists resp. split; [|done].
  split; [done|]. split; [done|]. destruct Hr as [(before & final & Hrep & Hall & _ & Hv & _)|(e & _ & _ & Hv & _)]; [|done].
  symmetry in Hv. apply verdict_ok in Hv as [Hf Hok]. by exists before, final.
Qed.

(** Polling a task that finished: the last exchange reported it as succeeded. *)
Definition polledTo (c : httpClient) (id : string) (task : Task) (t : trace) : Prop :=
  Task_Status task = TaskStatusSucceeded ∧
  ∃ t1 t2 resp, t = t1 ++ t2 ∧ Forall (sentAs c "GET" (taskURL c id)) (requests t1) ∧
    asked c "GET" (taskURL c id) None resp t2 ∧ decode taskTarget resp = Some task.

Lemma polledTo_app c id task t t' : Forall (sentAs c "GET" (taskURL c id)) (requests t) → polledTo c id task t' → polledTo c id task (t ++ t').
Proof.
  intros Ht (Hs & t1 & t2 & resp & -> & H1 & H2 & Hd). split; [done|]. exists (t ++ t1), t2, resp. rewrite requests_app, app_assoc.
  split; [done|]. split; [by apply Forall_app|done].
Qed.

Lemma pollLoop_asked c id interval timeout deadline : soundRetries c → ∀ fuel,
  spec (pollLoop fuel c id interval timeout deadline) (partial (λ t r, ∀ task, r = Ok task → polledTo c id task t)).
Proof.
  intros Hm. induction fuel as [|fuel IH]; cbn [pollLoop]; [spec_step|]. spec_step. destruct (deadline <? a); [by apply spec_ret_p|].
  eapply spec_bind_p; [apply spec_partial_and; [by apply doJSON_asked|apply doJSON_requests]|].
  intros tr [task|e] [Hr [_ Hs]]; [|by apply spec_ret_p]. destruct (taskOutcome id task) as [[task'|e]|] eqn:Ho; [|by apply spec_ret_p|].
  - apply taskOutcome_ok in Ho as [-> Hok]. apply spec_ret_p. intros ? [= <-]. rewrite app_nil_r.
    destruct (Hr task eq_refl) as (resp & Ha & Hd). split; [done|]. by exists [Ev Now a], tr, resp.
  - spec_step. destruct a0 as [cause|]; [by apply spec_ret_p|]. eapply spec_partial_weaken; [apply IH|]. intros tr' r Hp task' Hr'.
    apply (polledTo_app _ _ _ [_]); [constructor|]. apply polledTo_app; [done|]. apply (polledTo_app _ _ _ [_]); [constructor|auto].
Qed.

(** A finished task and the request that started it: the trace is the exchange of the request,
    which named the task, and then the polling of that task. *)
Definition taskDone (c : httpClient) (method url : string) (body : option string) (task : Task) (t : trace) : Prop :=
  ∃ t1 t2 taskUUID resp, t = t1 ++ t2 ∧ asked c method url body resp t1 ∧ decode taskRefResponse resp = Some taskUUID ∧ taskUUID ≠ "" ∧
    polledTo c taskUUID task t2.

Lemma runTask_done fuel c op method url body : soundRetries c →
  spec (runTask fuel c op method url body) (partial (λ t r, ∀ task, r = Ok task → taskDone c method url body task t)).
Proof.
  intros Hm. unfold runTask. eapply spec_bind_p; [by apply doJSON_asked|]. intros tr [id|e] Hr; simpl in Hr; [|by apply spec_ret_p].
  destruct (Hr id eq_refl) as (resp & Ha & Hd). destruct (String.eqb_spec id "") as [->|Hid]; [by apply spec_ret_p|].
  unfold PollTask, pollTaskWithOptions. spec_step. spec_step. eapply spec_bind_p; [by apply pollLoop_asked|].
  intros tr' [task|e] Hp; apply spec_ret_p; [|done]. intros task' [= <-]. rewrite app_nil_r.
  exists tr, (Ev Now a :: tr'), id, resp. do 4 (split; [done|]). apply (polledTo_app _ _ _ [_]); [constructor|auto].
Qed.

Lemma created_done fuel c op what rel1 rel2 method url body : soundRetries c →
  spec (r <- runTask fuel c op method url body ;; ret (createdBy op what rel1 rel2 r))
    (partial (λ t r, ∀ id, r = Ok id → ∃ task, taskDone c method url body task t ∧ reported rel1 rel2 (Task_EntitiesAffected task) id)).
Proof.
  intros Hm. eapply spec_bind_p; [by apply runTask_done|]. intros tr [task|e] Hr; apply spec_ret_p; [|done]. simpl.
  intros id. destruct (affected rel1 rel2 (Task_EntitiesAffected task)) as [id'|] eqn:Ha; [|done]. intros [= ->]. rewrite app_nil_r.
  exists task. split; [by apply Hr|by apply affected_reported].
Qed.

(** The JSON a body holds, as a server reads it. *)
Definition holds (body : string) (j : json) : Prop := parse (chars body) = Some j.

Definition texts (fs : list (string * string)) : list (list ascii * json) := (λ f, (chars f.1, JString (chars f.2))) <$> fs.

#[local] Ltac wellformed :=
  repeat first [ done | assumption | apply andb_true_iff; split | apply members_text; simpl
    | constructor; [split; [done|intros ? [= <-]; simpl]|] | constructor ].

Lemma marshal_back fs : wellFormed (nested fs) = true → nesting (nested fs) ≤ maxNestingDepth → parse (chars (marshal fs)) = Some (nested fs).
Proof. intros Hw Hn. unfold marshal. rewrite chars_text. by apply parse_print. Qed.

Lemma imageBody_holds name disk cluster : okString name → okString disk → okString cluster →
  holds (imageBody name disk cluster)
    (JObject (texts [("name", name)] ++
      (chars "source", JObject (texts [("$objectType", "vmm.v4.images.VmDiskImageSource"); ("extId", cluster); ("vmDiskExtId", disk)])) ::
      texts [("type", "DISK_IMAGE")])).
Proof. intros Hn Hd Hc. unfold holds, imageBody. rewrite marshal_back; [done|wellformed|done]. Qed.

Lemma recoveryPointBody_holds vm name : okString vm → okString name →
  holds (recoveryPointBody vm name)
    (JObject (texts [("name", name); ("recoveryPointType", "APPLICATION_CONSISTENT")] ++
      [(chars "vmRecoveryPoints", JArray [JObject (texts [("vmExtId", vm)])])])).
Proof. intros Hv Hn. unfold holds, recoveryPointBody. rewrite marshal_back; [done|wellformed|done]. Qed.

Lemma cloneBody_holds name : okString name →
  holds (cloneBody name) (JObject [(chars "vmRecoveryPoints", JArray [JObject (texts [("vmName", name)])])]).
Proof. intros Hn. unfold holds, cloneBody. rewrite marshal_back; [done|wellformed|done]. Qed.

End Tasks.

(** ** Tokens *)

(** When the token in the cache was read as too old. *)
Definition expiredIn (cbtTokens : tokens) (vmUUID : string) (t : trace) : Prop :=
  ∃ entry now, cbtTokens !! vmUUID = Some entry ∧ head (omap nowOf t) = Some now ∧ CBTTokenMaxAge < now - Token_discoveredAt entry.

Section Tokens.
Context {W : Type} `{E : Env W} `{P : Platform}.

Definition regionsRequest (info : CBTClusterInfo) (vmUUID snapshotUUID baseSnapshotUUID : string) (offset length blockSize : Z) : Request :=
  mkRequest "GET" (regionsURL (CBT_PrismElementURL info) vmUUID snapshotUUID baseSnapshotUUID offset length blockSize)
    (Cookie CBTJWTCookieName (CBT_JWTToken info)) "application/json" None None.

Definition discovery (c : httpClient) : Request → Prop := sentAs c "POST" (HC_host c +s+ cbtDiscoverPath).

Lemma queryRegions_request c url token :
  spec (queryRegions c url token) (total (λ t _, omap nowOf t = [] ∧
    requests t `prefix_of` [mkRequest "GET" url (Cookie CBTJWTCookieName token) "application/json" None None])).
Proof.
  unfold queryRegions. spec_step. destruct a as [e|]; [apply spec_ret; split; [done|apply prefix_nil]|].
  spec_step. cbv zeta. repeat case_match; by apply spec_ret.
Qed.

Lemma discover_promise c cbtTokens vmUUID :
  spec (DiscoverClusterForCBT c cbtTokens vmUUID) (partial (λ t x, Forall (discovery c) (requests t) ∧
    match x.2 with
    | Ok info => CBT_PrismElementURL info ≠ "" ∧ CBT_JWTToken info ≠ "" ∧
        ∃ at_, x.1 = <[vmUUID := mkCbtTokenEntry (CBT_PrismElementURL info) (CBT_JWTToken info) at_]> cbtTokens
    | Err _ => x.1 = cbtTokens
    end)).
Proof.
  unfold DiscoverClusterForCBT. eapply spec_bind_p; [apply doJSON_requests|]. intros tr [info|e] [_ Hr].
  - destruct (_ || _)%bool eqn:Hi; [apply spec_ret_p; by rewrite app_nil_r|]. breflect. spec_step. apply spec_ret_p. rewrite requests_app.
    split; [by apply Forall_app|]. simpl. eauto.
  - apply spec_ret_p. by rewrite app_nil_r.
Qed.

(** What a changed-region query sends: with a token that is not known to be old, the caller's
    token; otherwise that of a new discovery, which the cache then holds. *)
Definition regionsPromise (c : httpClient) (cbtTokens : tokens) (peURL jwtToken vmUUID snap base : string) (offset length blockSize : Z)
  (t : trace) (x : tokens * result ChangedRegions) : Prop :=
  (¬ expiredIn cbtTokens vmUUID t →
     x.1 = cbtTokens ∧ requests t `prefix_of` [regionsRequest (mkCBTClusterInfo peURL jwtToken) vmUUID snap base offset length blockSize]) ∧
  (expiredIn cbtTokens vmUUID t →
     (x.1 = cbtTokens ∧ is_ok x.2 = false ∧ Forall (discovery c) (requests t)) ∨
     ∃ info at_ found rest, CBT_PrismElementURL info ≠ "" ∧ CBT_JWTToken info ≠ "" ∧
       x.1 = <[vmUUID := mkCbtTokenEntry (CBT_PrismElementURL info) (CBT_JWTToken info) at_]> cbtTokens ∧
       requests t = found ++ rest ∧ Forall (discovery c) found ∧
       rest `prefix_of` [regionsRequest info vmUUID snap base offset length blockSize]).

Lemma regions_promise c cbtTokens peURL jwtToken vmUUID snap base offset length blockSize :
  spec (GetChangedRegions c cbtTokens peURL jwtToken vmUUID snap base offset length blockSize)
    (partial (regionsPromise c cbtTokens peURL jwtToken vmUUID snap base offset length blockSize)).
Proof.
  unfold GetChangedRegions, tokenExpired.
  assert (∀ t0, omap nowOf t0 = [] ∨ (∃ entry now, cbtTokens !! vmUUID = Some entry ∧ t0 = [Ev Now now] ∧
      ¬ CBTTokenMaxAge < now - Token_discoveredAt entry) → requests t0 = [] →
    spec (queryRegions c (regionsURL peURL vmUUID snap base offset length blockSize) jwtToken)
      (total (λ t r, regionsPromise c cbtTokens peURL jwtToken vmUUID snap base offset length blockSize (t0 ++ t) (cbtTokens, r)))) as Hcaller.
  { intros t0 Hnow Hreq. eapply spec_total_weaken; [apply queryRegions_request|]. intros t r [Hn Hr].
    assert (¬ expiredIn cbtTokens vmUUID (t0 ++ t)) as Hne.
    { intros (entry & now & He & Hh & Ha). rewrite elem_of_omap_app, Hn, app_nil_r in Hh.
      destruct Hnow as [Hnow|(entry' & now' & He' & -> & Ha')]; [by rewrite Hnow in Hh|]. simpl in Hh. simplify_eq. done. }
    split; [|done]. intros _. split; [done|]. rewrite requests_app, Hreq. exact Hr. }
  destruct (cbtTokens !! vmUUID) as [entry|] eqn:Hent.
  - spec_step. spec_step. rename a into now. spec_step. destruct (Z.ltb_spec CBTTokenMaxAge (now - Token_discoveredAt entry)) as [Hold|Hfresh].
    + eapply spec_bind_p; [apply discover_promise|]. intros tr [toks r] [Hd Hx]. simpl in Hx.
      assert (∀ t', expiredIn cbtTokens vmUUID (Ev Now now :: t')) as Hexp by (intros t'; by exists entry, now).
      destruct r as [info|e].
      * destruct Hx as (Hu & Ht & at_ & ->). eapply spec_bind_p; [apply total_partial, queryRegions_request|]. intros tr' r [_ Hq].
        apply spec_ret_p. rewrite app_nil_r. split; [intros Hne; by destruct (Hne (Hexp _))|]. intros _. right.
        exists info, at_, (requests tr), (requests tr'). by rewrite <- requests_app.
      * apply spec_ret_p. rewrite app_nil_r. split; [intros Hne; by destruct (Hne (Hexp _))|]. intros _. left. by rewrite Hx.
    + spec_step. eapply spec_bind_p; [apply total_partial, (Hcaller [Ev Now now]); [|done]|].
      * right. exists entry, now. split; [done|]. split; [done|]. lia.
      * intros tr r Hr. apply spec_ret_p. rewrite app_nil_r. exact Hr.
  - spec_step. spec_step. eapply spec_bind_p; [apply total_partial, (Hcaller []); [by left|done]|].
    intros tr r Hr. apply spec_ret_p. rewrite app_nil_r. exact Hr.
Qed.

End Tokens.

Lemma spec_total_and {W} `{E : Env W} {A} (m : M W A) (Q : trace → A → Prop) :
  spec m (total (λ _ _, True)) → spec m (partial Q) → spec m (total Q).
Proof. intros H1 H2 w. specialize (H1 w). specialize (H2 w). by destruct (r_out (m w)). Qed.

Lemma regions_return {W} `{E : Env W} `{P : Platform} c cbtTokens peURL jwtToken vmUUID snap base offset length blockSize :
  soundRetries c →
  spec (GetChangedRegions c cbtTokens peURL jwtToken vmUUID snap base offset length blockSize) (total (λ _ _, True)).
Proof.
  intros Hm. unfold GetChangedRegions. eapply (spec_bind _ _ (λ _ _, True)).
  { unfold tokenExpired. repeat spec_step; done. }
  intros t1 refresh _. eapply (spec_bind _ _ (λ _ _, True)).
  { destruct refresh; [|by apply spec_ret]. unfold DiscoverClusterForCBT. eapply spec_bind; [by apply doJSON_answer|].
    intros t r _. repeat spec_step; done. }
  intros t2 [toks [info|e]] _; [|by apply spec_ret]. eapply spec_bind; [apply queryRegions_request|]. intros t3 r _. by apply spec_ret.
Qed.

(** ** Page after page

    The tokens a series of queries of one disk sends, when the caller repeats what it was first given,
    as the loop of [deltaDisk] does. *)
Section Pages.
Context {W : Type} `{E : Env W} `{P : Platform} (clock : W → Z) `{Hclock : !SteadyClock clock}.
Context (c : httpClient) (peURL jwtToken vmUUID snap base : string) (length blockSize : Z).

Definition nextPages : tokens → list Z → M W tokens :=
  fix nextPages cbtTokens offsets :=
    match offsets with
    | [] => ret cbtTokens
    | offset :: offsets =>
        let* (cbtTokens, _) := GetChangedRegions c cbtTokens peURL jwtToken vmUUID snap base offset length blockSize in
        nextPages cbtTokens offsets
    end.

Lemma forward_now : forward clock now.
Proof using Hclock. apply (forward_perform clock Now). Qed.

Lemma forward_regions cbtTokens offset : forward clock (GetChangedRegions c cbtTokens peURL jwtToken vmUUID snap base offset length blockSize).
Proof using Hclock.
  assert (∀ url token, forward clock (queryRegions c url token)) as Hq.
  { intros url token. unfold queryRegions. apply forward_bind; [by apply forward_http|]. intros [e|]; [apply forward_ret|].
    apply forward_bind; [by apply forward_http|]. intros reply. cbv zeta. repeat case_match; apply forward_ret. }
  unfold GetChangedRegions. apply forward_bind.
  { unfold tokenExpired. destruct (_ !! _); [|apply forward_ret]. apply forward_bind; [apply forward_now|]. intros t. apply forward_ret. }
  intros refresh. apply forward_bind.
  { destruct refresh; [|apply forward_ret]. unfold DiscoverClusterForCBT. apply forward_bind; [by apply forward_doJSON|].
    intros [info|e]; [|apply forward_ret]. destruct (_ || _); [apply forward_ret|]. apply forward_bind; [apply forward_now|]. intros t. apply forward_ret. }
  intros [toks [info|e]]; [|apply forward_ret]. apply forward_bind; [apply Hq|]. intros r. apply forward_ret.
Qed.

Lemma forward_nextPages offsets : ∀ cbtTokens, forward clock (nextPages cbtTokens offsets).
Proof using Hclock.
  induction offsets as [|offset offsets IH]; intros cbtTokens; simpl; [apply forward_ret|].
  apply forward_bind; [apply forward_regions|]. intros [toks r]. apply IH.
Qed.

Lemma bind_trace {A B} (m : M W A) (k : A → M W B) w : ∃ t, r_trace (bind m k w) = r_trace (m w) ++ t.
Proof. unfold bind. destruct (r_out (m w)); [by eexists|exists []; by rewrite app_nil_r..]. Qed.

(** The age of the cached token is read first. *)
Lemma regions_expired cbtTokens offset w entry : cbtTokens !! vmUUID = Some entry →
  expiredIn cbtTokens vmUUID (traceOf (GetChangedRegions c cbtTokens peURL jwtToken vmUUID snap base offset length blockSize) w) ↔
  CBTTokenMaxAge < clock w - Token_discoveredAt entry.
Proof using Hclock.
  intros He. assert (∃ t, traceOf (GetChangedRegions c cbtTokens peURL jwtToken vmUUID snap base offset length blockSize) w = Ev Now (clock w) :: t) as [t ->].
  { unfold traceOf, GetChangedRegions, tokenExpired. rewrite He.
    match goal with |- ∃ t, r_trace (bind (bind now ?f) ?k w) = _ => destruct (bind_trace (bind now f) k w) as [t1 ->], (bind_trace now f w) as [t2 ->] end.
    unfold now, perform. pose proof (clock_now w) as Hn. destruct (handle Now w) as [w' t]. simpl in Hn. subst t. simpl. by eexists. }
  unfold expiredIn. rewrite He. simpl. split; [intros (? & ? & [= <-] & [= <-] & H); done|]. intros H. by exists entry, (clock w).
Qed.

(** A query with a cached token that is not too old: one request, with the caller's token. *)
Lemma regions_fresh cbtTokens offset w entry : soundRetries c → cbtTokens !! vmUUID = Some entry →
  clock w - Token_discoveredAt entry ≤ CBTTokenMaxAge →
  total (λ t x, x.1 = cbtTokens ∧ requests t `prefix_of` [regionsRequest (mkCBTClusterInfo peURL jwtToken) vmUUID snap base offset length blockSize])
    (traceOf (GetChangedRegions c cbtTokens peURL jwtToken vmUUID snap base offset length blockSize) w)
    (run (GetChangedRegions c cbtTokens peURL jwtToken vmUUID snap base offset length blockSize) w).
Proof using Hclock.
  intros Hm He Ha. destruct (spec_returns _ _ w (spec_total_and _ _ (regions_return c cbtTokens peURL jwtToken vmUUID snap base offset length blockSize Hm)
    (regions_promise c cbtTokens peURL jwtToken vmUUID snap base offset length blockSize))) as (x & -> & Hf & _).
  simpl. apply Hf. rewrite (regions_expired cbtTokens offset w entry He). lia.
Qed.

(** As long as the cached token is not too old, every page is asked for with the caller's token. *)
Lemma nextPages_fresh cbtTokens entry offsets : soundRetries c → cbtTokens !! vmUUID = Some entry → ∀ w,
  clock (r_world (nextPages cbtTokens offsets w)) - Token_discoveredAt entry ≤ CBTTokenMaxAge →
  run (nextPages cbtTokens offsets) w = Done cbtTokens ∧
  requests (traceOf (nextPages cbtTokens offsets) w) `sublist_of`
    ((λ offset, regionsRequest (mkCBTClusterInfo peURL jwtToken) vmUUID snap base offset length blockSize) <$> offsets).
Proof using Hclock.
  intros Hm He. induction offsets as [|offset offsets IH]; intros w Hw; [done|]. simpl in Hw |- *. unfold run, traceOf, bind in *.
  pose proof (regions_fresh cbtTokens offset w entry Hm He) as Hf. pose proof (forward_regions cbtTokens offset w) as Hfwd.
  unfold run, traceOf in Hf. destruct (GetChangedRegions c cbtTokens peURL jwtToken vmUUID snap base offset length blockSize w) as [t w' o].
  cbn [r_out r_trace r_world] in *. destruct o as [[toks r]| |].
  - pose proof (forward_nextPages offsets toks w') as Hfwd'. cbn [r_world] in Hw. destruct Hf as [Ht Hr]; [lia|]. simpl in Ht. subst toks.
    destruct (IH w' Hw) as [Ho Hs]. cbn [r_out r_trace]. split; [done|]. rewrite requests_app. csimpl.
    apply (sublist_app _ [_]); [destruct Hr as [k Hr]; rewrite Hr; apply sublist_inserts_r; reflexivity|done].
  - exfalso. apply Hf. cbn [r_world] in Hw. lia.
  - exfalso. apply Hf. cbn [r_world] in Hw. lia.
Qed.

End Pages.

(** ** Concrete clients and servers *)

Module RefClient.

#[export] Instance platform : Platform := {|
  AppendCertsFromPEM := λ _, true;
  decodeErr := λ name _, newErr ("json: cannot unmarshal into Go value of type " +s+ name);
  floatOverflow := - 2 ^ 63
|}.

Definition client : httpClient :=
  mkHttpClient (mkHTTPClient (mkTransport "TLS1.2" false None false) (30 * Duration.Second)) "https://prism:9440" "admin" "secret" 3.

Lemma client_sound : soundRetries client.
Proof. unfold soundRetries. simpl. lia. Qed.

(** A server that answers by the number of requests seen so far; the clock shows the world. *)
Definition httpAnswer (answer : Z → Request → Reply) (h : httpcall) (w : Z) : Z * httpanswer h :=
  match h with
  | NewRequest _ _ | WriteOut _ => (w, None)
  | WaitTimer d => (w + Z.max 0 d, None)
  | Do _ req => (w + 1, answer w req)
  | Sleep _ => (w, tt)
  end.
Definition scripted (answer : Z → Request → Reply) : Env Z := λ c w,
  match c return Z * Env.answer c with
  | Http h => httpAnswer answer h w
  | Now => (w, w)
  | c => (w, RefEnv.answers RefEnv.nxRefuse (λ _ _, Err RefEnv.notFound) (Err RefEnv.notFound) c)
  end.

Definition status (code : Z) (body : string) (req : Request) : Reply :=
  mkReply (length (chars (default "" (Req_Body req)))) (Ok (mkResponse code body None)).

(** Busy once, then reachable. *)
Definition busyOnce : Env Z := scripted (λ w req, if w =? 0 then status 503 "busy" req else status 200 "{}" req).

Definition body (j : json) : string := text (print j).

(** A task that runs on the first poll and has then succeeded. *)
Definition taskServer (task : Task) : Env Z := scripted (λ w req,
  if Req_Method req =s "POST" then status 202 (body (encData encTaskRef "task-1")) req
  else if w =? 1 then status 200 (body (encTask (mkTask "task-1" "RUNNING" "" 50 [] []))) req
  else status 200 (body (encTask task)) req).

Definition imageTask : Task :=
  mkTask "task-1" "SUCCEEDED" "CreateImage" 100 [] [mkTaskEntity "vm-1" "vm"; mkTaskEntity "img-1" "vmm:images:image"].


#[export] Instance scripted_steady answer : @SteadyClock Z (scripted answer) id.
Proof.
  split; [done| |].
  - intros c w. destruct c as [| | | |h]; try (simpl; lia). destruct h; simpl; lia.
  - intros d w w' [= <-]. simpl. lia.
Qed.

Definition vm (id : string) (disks : list Disk) : VM :=
  mkVM id "web" "" "ON" 2 2 1 4294967296 "PC" (Some (mkBootConfig "UEFI" ["DISK"])) disks [] [] (Some (mkReference "c-1" "")).
Definition vms : list VM := [vm "vm-1" [mkDisk "d-1" (Some (mkDiskAddress "SCSI" 0)) None 1073741824 "DISK"]; vm "vm-2" []; vm "vm-3" []].

Lemma vms_ok : Forall okVM vms.
Proof. repeat constructor; try done; unfold in_int64; simpl; lia. Qed.

End RefClient.

(** ** Requests *)

Lemma drained_lookup rs : ∀ b i body, drained (Some b) rs !! i = Some body →
  body = Some (text (drop (sum_list (Reply_Consumed <$> take i rs)) (chars b))).
Proof.
  induction rs as [|r rs IH]; intros b i body H; [done|]. destruct i as [|i]; simpl in H.
  - injection H as <-. simpl. by rewrite drop_0, text_chars.
  - apply IH in H as ->. csimpl. by rewrite chars_text, drop_drop.
Qed.

Section RequestTheorems.
Context {W : Type} `{E : Env W} `{P : Platform}.

(** C20: Whatever the server answers, a request ends after at most maxRetries + 1 attempts. All but
    the last attempt were answered with 429, a status of 500 or more, or not at all, and were
    followed by a pause of 1, 2, 4, ... seconds; the result is that of the last reply, which asks
    for another attempt only when none is left. *)
Theorem request_retries_exact c method url body :
  soundRetries c →
  spec (doRequest c method url body) (total (λ t r,
    len (replies t) ≤ HC_maxRetries c + 1 ∧
    ((∃ before final, replies t = before ++ [final] ∧ Forall (λ x, retryable x = true) before ∧
        sleeps t = pauses 0 (length before) ∧ r = verdict url final ∧ refusals t = [] ∧
        (retryable final = true → len (replies t) = HC_maxRetries c + 1)) ∨
     (∃ e, Forall (λ x, retryable x = true) (replies t) ∧ sleeps t = pauses 0 (length (replies t)) ∧
        r = Err (wrapErr "nutanix client: failed to create request" e) ∧ refusals t = [e])))).
Proof.
  intros Hm. eapply spec_total_weaken; [by apply doRequest_promise|]. intros t r (Hl & _ & Hr). rewrite Z.sub_0_r in *. by split.
Qed.

(** C28: A retried request sends what the previous attempts left of the body: once the whole body
    was read, every further attempt sends an empty one, still announced as JSON. *)
Theorem retries_send_the_rest c method url b :
  soundRetries c →
  spec (doRequest c method url (Some b)) (total (λ t _, ∀ i req, requests t !! i = Some req →
    Req_Body req = Some (text (drop (sum_list (Reply_Consumed <$> take i (replies t))) (chars b))) ∧
    (method = "POST" → Req_ContentType req = Some "application/json"))).
Proof.
  intros Hm w. pose proof (doRequest_promise c method url (Some b) Hm w) as H1.
  pose proof (attempts_requests c method url (Z.to_nat (int64 (HC_maxRetries c + 1))) 0 (Some b) None w) as H2.
  change (attempts _ _ _ _ _ _ _ w) with (doRequest c method url (Some b) w) in H2.
  destruct (r_out (doRequest c method url (Some b) w)) as [r| |]; try done. destruct H1 as (_ & Hb & _). destruct H2 as [_ H2].
  intros i req Hi. assert (Req_Body req = Some (text (drop (sum_list (Reply_Consumed <$> take i (replies (r_trace (doRequest c method url (Some b) w))))) (chars b)))) as Hreq.
  { pose proof (f_equal (lookup i) Hb) as Hbi. rewrite list_lookup_fmap, Hi in Hbi. simpl in Hbi. symmetry in Hbi.
    apply drained_lookup in Hbi. congruence. }
  split; [done|]. intros ->. rewrite Forall_lookup in H2. destruct (H2 i req Hi) as (_ & _ & _ & Hct). by rewrite Hct, Hreq.
Qed.

End RequestTheorems.

Lemma request_retries_exact_witness :
  soundRetries RefClient.client ∧
  total (λ t r, len (replies t) ≤ 4 ∧ r = Ok (Some (mkResponse 200 "{}" None)))
    (@traceOf Z _ (@doRequest Z RefClient.busyOnce RefClient.platform RefClient.client "GET" "u" None) 0)
    (@run Z _ (@doRequest Z RefClient.busyOnce RefClient.platform RefClient.client "GET" "u" None) 0).
Proof.
  split; [exact RefClient.client_sound|].
  pose proof (@request_retries_exact Z RefClient.busyOnce RefClient.platform RefClient.client "GET" "u" None RefClient.client_sound 0) as H.
  split; [exact (proj1 H)|]. vm_compute. reflexivity.
Defined.

(** The server read the two bytes of the body and answered 503: the second attempt has none. *)
Lemma retries_send_the_rest_witness :
  ∃ req, requests (@traceOf Z _ (@doRequest Z RefClient.busyOnce RefClient.platform RefClient.client "POST" "u" (Some "{}")) 0) !! 1%nat = Some req ∧
    Req_Body req = Some "" ∧ Req_ContentType req = Some "application/json".
Proof.
  eexists. split; [vm_compute; reflexivity|].
  pose proof (@retries_send_the_rest Z RefClient.busyOnce RefClient.platform RefClient.client "POST" "u" "{}" RefClient.client_sound 0) as H.
  destruct (H 1%nat _ eq_refl) as [Hb Hc]. split; [exact Hb|exact (Hc eq_refl)].
Defined.

(** A negative MaxRetries is accepted, and every operation of the client then panics without
    sending anything. *)
Theorem negative_retries_panic `{P : Platform} (config : ClientConfig) :
  Config_Host config ≠ "" → Config_Username config ≠ "" → Config_Password config ≠ "" → Config_CACert config = "" →
  - 2 ^ 63 ≤ Config_MaxRetries config < 0 →
  ∃ c, NewClient config = Ok c ∧ HC_host c = TrimRight (Config_Host config) "/" ∧
    ∀ W (E : Env W) (w : W) (uuid : string), GetVM c uuid w = mkRes [] w Panic ∧ ListVMs 1 c w = mkRes [] w Panic.
Proof.
  intros Hh Hu Hp Hca Hr. unfold NewClient, buildTransport. apply String.eqb_neq in Hh, Hu, Hp. rewrite Hh, Hu, Hp, Hca. simpl.
  destruct (Z.eqb_spec (Config_MaxRetries config) 0) as [|_]; [lia|]. eexists. split; [reflexivity|]. split; [done|].
  intros W E w uuid. unfold GetVM, getEntity, ListVMs. cbn [listPages]. unfold doJSON, doRequest. simpl HC_maxRetries.
  rewrite int64_id by (unfold in_int64; lia). replace (Z.to_nat (Config_MaxRetries config + 1)) with O by lia. split; reflexivity.
Qed.

Lemma negative_retries_panic_witness :
  ∃ c, NewClient (P := RefClient.platform) (mkClientConfig "https://prism" "admin" "secret" false "" 0 (-1) false) = Ok c ∧
    @GetVM Z RefClient.busyOnce RefClient.platform c "vm-1" 0 = mkRes [] 0 Panic.
Proof.
  destruct (negative_retries_panic (P := RefClient.platform) (mkClientConfig "https://prism" "admin" "secret" false "" 0 (-1) false))
    as (c & Hc & _ & H); try discriminate; [reflexivity|simpl; lia|].
  exists c. split; [exact Hc|]. exact (proj1 (H Z RefClient.busyOnce 0 "vm-1")).
Defined.

(** ** Listings *)

(** The clients of the operator and the plugin have the default number of retries. *)
Lemma provider_client_sound `{P : Platform} host username password insecure c :
  NewClient (providerConfig host username password insecure) = Ok c → soundRetries c.
Proof. unfold NewClient, providerConfig. simpl. intros Hc. repeat case_match; simplify_eq. unfold soundRetries. simpl. lia. Qed.

Lemma ListVMs_lists {W} `{E : Env W} `{P : Platform} c (vms : list VM) fuel :
  soundRetries c → Forall okVM vms → len vms < 2 ^ 63 - 500 → (length vms < 500 * fuel)%nat →
  servesPages c vmBasePath 500 encVM vms →
  spec (ListVMs fuel c) (total (λ t r, match r with Ok l => l = vms | Err _ => faulty t = true end)).
Proof.
  intros Hm Hok Hlen Hf Hs. apply (listPages_complete (ok := okVM) c _ _ _ 500 vms Hm) with (k := 0%nat); try done; lia.
Qed.

(** C21: Against a server that has some VMs and honours $top and $skip, listing the VMs ends, and
    returns exactly those VMs in order, every field as it was sent, unless a request failed. *)
Theorem list_vms_complete {W} `{E : Env W} `{P : Platform} c (vms : list VM) fuel :
  soundRetries c → Forall okVM vms → len vms < 2 ^ 63 - 500 → (length vms < 500 * fuel)%nat →
  servesPages c vmBasePath 500 encVM vms →
  spec (ListVMs fuel c) (total (λ t r, match r with Ok l => l = vms | Err _ => faulty t = true end)).
Proof. apply ListVMs_lists. Qed.

Lemma list_vms_complete_witness :
  total (λ t r, r = Ok RefClient.vms)
    (@traceOf unit _ (@ListVMs unit (RefPrism.server RefClient.client vmBasePath 500 encVM RefClient.vms) RefClient.platform 1 RefClient.client) tt)
    (@run unit _ (@ListVMs unit (RefPrism.server RefClient.client vmBasePath 500 encVM RefClient.vms) RefClient.platform 1 RefClient.client) tt).
Proof.
  pose proof (@list_vms_complete unit (RefPrism.server RefClient.client vmBasePath 500 encVM RefClient.vms) RefClient.platform
    RefClient.client RefClient.vms 1 RefClient.client_sound RefClient.vms_ok ltac:(vm_compute; reflexivity) ltac:(simpl; lia)
    (RefPrism.server_serves _ _ _ _ _) tt) as H.
  vm_compute in H |- *. exact (f_equal Ok H).
Defined.

(** The listing moves on by the page size it asked for, not by what it got. Against a server
    that sends fewer entities a page than it has, all of them within the first 500, it never
    ends: whatever the number of requests, it is still asking. *)
Theorem short_pages_spin `{P : Platform} c (vms : list VM) cap fuel :
  soundRetries c → Forall okVM vms → (cap < length vms ≤ 500)%nat → 500 * Z.of_nat fuel < 2 ^ 63 →
  @run unit _ (@ListVMs unit (RefPrism.server c vmBasePath cap encVM vms) P fuel c) tt = OutOfFuel.
Proof.
  intros Hm Hok Hcap Hf. destruct fuel as [|fuel]; [done|]. unfold run, ListVMs, vmListResponse. cbn [listPages].
  destruct (RefPrism.server_page (e := encVM) (d := decVM) c "nutanix.vmListResponse" vmBasePath cap vms 0) as [tr Htr];
    try done; [unfold len; lia|].
  unfold bind. change (HC_host c +s+ vmBasePath +s+ _) with (pageURL c vmBasePath 0). rewrite Htr. cbn [r_out r_world].
  cbn [pageOf List_Data List_Metadata Meta_TotalAvailableResults app Z.to_nat]. rewrite drop_0, take_short by lia.
  destruct (Z.leb_spec (len vms) (Z.of_nat cap)); [unfold len in *; lia|]. cbn [r_out].
  apply (listPages_spins (ok := okVM) c _ _ _ cap vms fuel); try done; unfold pageSize; rewrite ?int64_id by (unfold in_int64; lia); lia.
Qed.

Lemma short_pages_spin_witness :
  @run unit _ (@ListVMs unit (RefPrism.server RefClient.client vmBasePath 2 encVM RefClient.vms) RefClient.platform 1000 RefClient.client) tt = OutOfFuel.
Proof. apply short_pages_spin; [exact RefClient.client_sound|exact RefClient.vms_ok|simpl; lia|lia]. Defined.

(** ** Tasks *)

(** C24: Polling a task ends when the clock does not go back and timers do not fire early: 902
    rounds are enough for the 30 minutes at 2 seconds each. The task is returned only when the
    server reported it as succeeded; an error means that the deadline has passed, a request
    failed, the report did not decode or was of a task that failed, was cancelled or has an
    unknown status, or the caller gave up. *)
Theorem poll_task_correct {W} `{E : Env W} `{P : Platform} (clock : W → Z) `{Hclock : !SteadyClock clock} c id fuel w :
  soundRetries c → (902 ≤ fuel)%nat →
  ∃ r t0 rest, run (PollTask fuel c id) w = Done r ∧ traceOf (PollTask fuel c id) w = Ev Now t0 :: rest ∧
    pollAnswer c id (t0 + DefaultPollTimeout) rest r.
Proof.
  intros Hm Hf. assert (∃ r, run (PollTask fuel c id) w = Done r) as [r Hr].
  { unfold PollTask, pollTaskWithOptions, run, bind, now, perform.
    pose proof (clock_now w) as Hn. pose proof (clock_forward Now w) as Hw. destruct (handle Now w) as [w1 t]. simpl in Hn, Hw. subst t.
    cbn [r_out r_world]. apply (pollLoop_ends clock); [done|done|lia|].
    unfold DefaultPollInterval, DefaultPollTimeout, Duration.Minute, Duration.Second. lia. }
  exists r. assert (spec (PollTask fuel c id) (partial (λ t r, ∃ t0 rest, t = Ev Now t0 :: rest ∧ pollAnswer c id (t0 + DefaultPollTimeout) rest r))) as H.
  { unfold PollTask, pollTaskWithOptions. spec_step. eapply spec_partial_weaken; [by apply pollLoop_answer|]. intros t x Hx. by exists a, t. }
  destruct (spec_run _ _ _ _ H Hr) as (t0 & rest & Ht & Hp). by exists t0, rest.
Qed.

Lemma poll_task_correct_witness :
  ∃ r t0 rest, @run Z _ (@PollTask Z (RefClient.taskServer RefClient.imageTask) RefClient.platform 902 RefClient.client "task-1") 1 = Done r ∧
    @traceOf Z _ (@PollTask Z (RefClient.taskServer RefClient.imageTask) RefClient.platform 902 RefClient.client "task-1") 1 = Ev Now t0 :: rest ∧
    @pollAnswer Z (RefClient.taskServer RefClient.imageTask) RefClient.client "task-1" (t0 + DefaultPollTimeout) rest r.
Proof.
  apply (@poll_task_correct Z (RefClient.taskServer RefClient.imageTask) RefClient.platform id);
    [apply RefClient.scripted_steady|exact RefClient.client_sound|lia].
Defined.

(** C23: What is created was created by that very request. When CreateImageFromDisk, CreateRecoveryPoint
    or CloneVMFromRecoveryPoint returns an identifier, its trace is one POST to the collection, with
    the client's credentials and a body that holds the arguments as JSON (retries included: the first
    attempt carries all of it, each later one what the server left unread), whose answer named a task;
    then the polling of that task and nothing else, until the server reported it as succeeded; and
    the identifier is the one of the first entity of the kind, or else of the first entity, that the
    task names. *)
Theorem created_uuid_sound {W} `{E : Env W} `{P : Platform} c fuel :
  soundRetries c →
  (∀ name disk cluster, okString name → okString disk → okString cluster →
     ∃ body, holds body (JObject (texts [("name", name)] ++
        (chars "source", JObject (texts [("$objectType", "vmm.v4.images.VmDiskImageSource"); ("extId", cluster); ("vmDiskExtId", disk)])) ::
        texts [("type", "DISK_IMAGE")])) ∧
     spec (CreateImageFromDisk fuel c name disk cluster) (partial (λ t r, ∀ id, r = Ok id →
       ∃ task, taskDone c "POST" (HC_host c +s+ "/api/vmm/v4.0/images") (Some body) task t ∧
         reported "vmm:images:image" "image" (Task_EntitiesAffected task) id))) ∧
  (∀ vm name, okString vm → okString name →
     ∃ body, holds body (JObject (texts [("name", name); ("recoveryPointType", "APPLICATION_CONSISTENT")] ++
        [(chars "vmRecoveryPoints", JArray [JObject (texts [("vmExtId", vm)])])])) ∧
     spec (CreateRecoveryPoint fuel c vm name) (partial (λ t r, ∀ id, r = Ok id →
       ∃ task, taskDone c "POST" (HC_host c +s+ "/api/dataprotection/v4.0/config/recovery-points") (Some body) task t ∧
         reported "dataprotection:config:recovery-point" "recovery-point" (Task_EntitiesAffected task) id))) ∧
  (∀ rp name, okString name →
     ∃ body, holds body (JObject [(chars "vmRecoveryPoints", JArray [JObject (texts [("vmName", name)])])]) ∧
     spec (CloneVMFromRecoveryPoint fuel c rp name) (partial (λ t r, ∀ id, r = Ok id →
       ∃ task, taskDone c "POST" (HC_host c +s+ "/api/dataprotection/v4.0/config/recovery-points/" +s+ rp +s+ "/$actions/vm-recovery") (Some body) task t ∧
         reported "vmm:ahv:config:vm" "vm" (Task_EntitiesAffected task) id))).
Proof.
  intros Hm. split; [|split].
  - intros name disk cluster Hn Hd Hc. exists (imageBody name disk cluster). split; [by apply imageBody_holds|by apply created_done].
  - intros vm name Hv Hn. exists (recoveryPointBody vm name). split; [by apply recoveryPointBody_holds|by apply created_done].
  - intros rp name Hn. exists (cloneBody name). split; [by apply cloneBody_holds|by apply created_done].
Qed.

Lemma created_uuid_sound_witness :
  ∃ body task, holds body (JObject (texts [("name", "disk")] ++
      (chars "source", JObject (texts [("$objectType", "vmm.v4.images.VmDiskImageSource"); ("extId", "c-1"); ("vmDiskExtId", "d-1")])) ::
      texts [("type", "DISK_IMAGE")])) ∧
    taskDone RefClient.client "POST" "https://prism:9440/api/vmm/v4.0/images" (Some body) task
      (@traceOf Z _ (@CreateImageFromDisk Z (RefClient.taskServer RefClient.imageTask) RefClient.platform 5 RefClient.client "disk" "d-1" "c-1") 0) ∧
    reported "vmm:images:image" "image" (Task_EntitiesAffected task) "img-1".
Proof.
  destruct (@created_uuid_sound Z (RefClient.taskServer RefClient.imageTask) RefClient.platform RefClient.client 5 RefClient.client_sound) as [H _].
  assert (@run Z _ (@CreateImageFromDisk Z (RefClient.taskServer RefClient.imageTask) RefClient.platform 5 RefClient.client "disk" "d-1" "c-1") 0 =
    Done (Ok "img-1")) as Hr by (vm_compute; reflexivity).
  destruct (H "disk" "d-1" "c-1" eq_refl eq_refl eq_refl) as (body & Hb & Hs).
  destruct (spec_run _ _ _ _ Hs Hr "img-1" eq_refl) as (task & Ht & Hrep). exists body, task. exact (conj Hb (conj Ht Hrep)).
Defined.

(** ** Tokens *)

(** C26: A changed-region query returns. Unless the cached token of the VM is over 12 minutes old, it
    sends one request, to the given Prism Element with the given token, and leaves the cache alone.
    With an older one it first asks Prism Central, sends the query where that says with the token
    that gives, and caches both. Basic credentials go to Prism Central only. *)
Theorem regions_token_exact {W} `{E : Env W} `{P : Platform} c cbtTokens peURL jwtToken vmUUID snap base offset length blockSize :
  soundRetries c →
  spec (GetChangedRegions c cbtTokens peURL jwtToken vmUUID snap base offset length blockSize)
    (total (regionsPromise c cbtTokens peURL jwtToken vmUUID snap base offset length blockSize)).
Proof. intros Hm. apply spec_total_and; [by apply regions_return|apply regions_promise]. Qed.

Lemma regions_token_exact_witness :
  total (λ t x, requests t = [regionsRequest (mkCBTClusterInfo "https://pe" "jwt") "vm" "s" "b" 0 10 5])
    (@traceOf Z _ (@GetChangedRegions Z RefClient.busyOnce RefClient.platform RefClient.client ∅ "https://pe" "jwt" "vm" "s" "b" 0 10 5) 0)
    (@run Z _ (@GetChangedRegions Z RefClient.busyOnce RefClient.platform RefClient.client ∅ "https://pe" "jwt" "vm" "s" "b" 0 10 5) 0).
Proof.
  pose proof (@regions_token_exact Z RefClient.busyOnce RefClient.platform RefClient.client ∅ "https://pe" "jwt" "vm" "s" "b" 0 10 5
    RefClient.client_sound 0) as H.
  destruct (proj1 H) as [_ [rest Hr]]; [intros (entry & t & He & _); discriminate He|].
  vm_compute in Hr |- *. destruct rest; [|discriminate Hr]. symmetry. exact Hr.
Defined.

(** C27: A refreshed token serves one page only. In any environment whose clock does not run back, take a
    query of changed regions that succeeds with a cached token more than 12 minutes old: it was sent
    with the token of a new discovery, now cached. Yet every further page asked for with the caller's
    first token, as the controller does, is sent with that old token, as long as the new one is not
    itself more than 12 minutes old: one request per page at most, none with the new token. *)
Theorem refreshed_token_is_dropped {W} `{E : Env W} `{P : Platform} (clock : W → Z) `{Hclock : !SteadyClock clock}
  c cbtTokens cbtTokens' peURL jwtToken vmUUID snap base offset offsets length blockSize entry regions w :
  let query := GetChangedRegions c cbtTokens peURL jwtToken vmUUID snap base offset length blockSize in
  let further := nextPages c peURL jwtToken vmUUID snap base length blockSize cbtTokens' offsets in
  let w' := r_world (query w) in
  soundRetries c → cbtTokens !! vmUUID = Some entry → CBTTokenMaxAge < clock w - Token_discoveredAt entry →
  run query w = Done (cbtTokens', Ok regions) →
  ∃ info at_ found rest, cbtTokens' !! vmUUID = Some (mkCbtTokenEntry (CBT_PrismElementURL info) (CBT_JWTToken info) at_) ∧
    requests (traceOf query w) = found ++ rest ∧ Forall (discovery c) found ∧
    rest `prefix_of` [regionsRequest info vmUUID snap base offset length blockSize] ∧
    (clock (r_world (further w')) - at_ ≤ CBTTokenMaxAge →
     run further w' = Done cbtTokens' ∧
     requests (traceOf further w') `sublist_of`
       ((λ offset, regionsRequest (mkCBTClusterInfo peURL jwtToken) vmUUID snap base offset length blockSize) <$> offsets)).
Proof.
  intros query further w' Hm He Ha Hr.
  destruct (spec_run _ _ _ _ (regions_promise c cbtTokens peURL jwtToken vmUUID snap base offset length blockSize) Hr) as [_ Hp].
  destruct Hp as [(_ & H & _)|(info & at_ & found & rest & _ & _ & Ht & Hreq & Hfound & Hrest)]; [by eapply regions_expired|done|].
  simpl in Ht. exists info, at_, found, rest. assert (cbtTokens' !! vmUUID = Some (mkCbtTokenEntry (CBT_PrismElementURL info) (CBT_JWTToken info) at_)) as He'.
  { rewrite Ht. apply lookup_insert_eq. }
  do 4 (split; [done|]). intros Hlate. by eapply (nextPages_fresh clock).
Qed.

(** A token discovered 13 minutes ago; Prism Central gives a new one. *)
Definition refreshing : Env Z := RefClient.scripted (λ _ req,
  if Req_Method req =s "POST" then RefClient.status 200 (RefClient.body (encData encCBTClusterInfo (mkCBTClusterInfo "https://pe" "new"))) req
  else RefClient.status 200 (RefClient.body (encData encChangedRegions (mkChangedRegions [] (Some 1)))) req).
Definition outdated : tokens := {["vm" := mkCbtTokenEntry "https://pe" "old" (- (13 * Duration.Minute))]}.

Lemma refreshed_token_is_dropped_witness :
  let query := @GetChangedRegions Z refreshing RefClient.platform RefClient.client outdated "https://pe" "old" "vm" "s" "b" 0 10 5 in
  ∃ info at_ found rest toks, info = mkCBTClusterInfo "https://pe" "new" ∧
    requests (traceOf query 0) = found ++ rest ∧ rest `prefix_of` [regionsRequest info "vm" "s" "b" 0 10 5] ∧
    (Token_jwtToken <$> toks !! "vm" = Some "new") ∧ at_ = 1 ∧
    requests (traceOf (@nextPages Z refreshing RefClient.platform RefClient.client "https://pe" "old" "vm" "s" "b" 10 5 toks [1; 2]) (r_world (query 0)))
      `sublist_of` ((λ offset, regionsRequest (mkCBTClusterInfo "https://pe" "old") "vm" "s" "b" offset 10 5) <$> [1; 2]).
Proof.
  intros query. destruct (run query 0) as [[toks [regions|e]]| |] eqn:Er; [|vm_compute in Er; discriminate Er..].
  destruct (@refreshed_token_is_dropped Z refreshing RefClient.platform id (RefClient.scripted_steady _) RefClient.client outdated toks "https://pe" "old" "vm" "s" "b" 0 [1; 2] 10 5
    (mkCbtTokenEntry "https://pe" "old" (- (13 * Duration.Minute))) regions 0 RefClient.client_sound eq_refl ltac:(vm_compute; reflexivity) Er)
    as (info & at_ & found & rest & Ht & Hreq & _ & Hrest & Hnext).
  assert (toks = {["vm" := mkCbtTokenEntry "https://pe" "new" 1]}) as -> by (vm_compute in Er; injection Er as <- _; vm_compute; reflexivity).
  vm_compute in Ht. injection Ht as Hu Hj <-. exists info, 1, found, rest, {["vm" := mkCbtTokenEntry "https://pe" "new" 1]}.
  split; [destruct info as [u j]; simpl in Hu, Hj; subst; reflexivity|]. split; [exact Hreq|]. split; [exact Hrest|]. split; [reflexivity|]. split; [reflexivity|].
  apply Hnext. vm_compute. discriminate.
Defined.

(** C25: What a server encodes the client decodes to the same value: pages of VMs, tasks and changed
    regions survive the way through their JSON text, with every field. *)
Theorem json_roundtrip :
  (∀ p, okList okVM p → decode vmListResponse (mkResponse 200 (text (print (encList encVM p))) None) = Some p) ∧
  (∀ t, okTask t → decode taskTarget (mkResponse 200 (text (print (encTask t))) None) = Some t) ∧
  (∀ r, okChangedRegions r → decode changedRegionsResponse (mkResponse 200 (text (print (encData encChangedRegions r))) None) = Some r).
Proof.
  unfold decode, readValue. cbn [Resp_Body Resp_BodyError]. repeat split; intros x Hx; rewrite chars_text.
  - by apply (body_back (ok := okList okVM) (e := encList encVM) (d := decList zeroVM decVM)).
  - by apply (body_back (ok := okTask) (e := encTask) (d := decTask)).
  - by apply (body_back (ok := okChangedRegions) (e := encData encChangedRegions) (d := decData decChangedRegions)).
Qed.

Lemma json_roundtrip_witness :
  okTask RefClient.imageTask ∧
  decode taskTarget (mkResponse 200 (text (print (encTask RefClient.imageTask))) None) = Some RefClient.imageTask.
Proof.
  assert (okTask RefClient.imageTask) as H by (repeat constructor; try done; unfold in_int64; simpl; lia).
  split; [exact H|]. exact (proj1 (proj2 json_roundtrip) RefClient.imageTask H).
Defined.
