(* ===== verification/MockServer.v ===== *)
(** * The mock Prism server (pkg/mock)

    The store of the server and its handlers, one definition per function of the source. A handler
    takes the store and the request and gives the new store and the response; [None] is a panic,
    on which net/http drops the connection. Handlers run one after the other. *)

From S2P Require Import Prelude GoLib NutanixTypes HttpTypes HttpServer JsonText Codec NutanixCodec Env Client ClientOps.

Module Mock.

(** ** Store (store.go) *)

Definition recoveryPointStatusComplete : string := "COMPLETE".

Record CBTConfig := mkCBTConfig { CBTC_ChangedRegions : list ChangedRegion; CBTC_JWTToken : string }.

Definition DefaultCBTConfig : CBTConfig :=
  mkCBTConfig [mkChangedRegion 0 65536; mkChangedRegion 1048576 131072; mkChangedRegion 4194304 65536] "mock-jwt-token-for-cbt".

Record TaskState := mkTaskState { TS_Task : Task; TS_PollCount : Z; TS_TargetPolls : Z }.

Record Store := mkStore {
  St_VMs : list VM;
  St_Subnets : list Subnet;
  St_StorageContainers : list StorageContainer;
  St_Clusters : list Cluster;
  St_Tasks : gmap string TaskState;
  St_RecoveryPoints : gmap string RecoveryPoint;
  St_Images : gmap string Image;
  St_CBTConfig : CBTConfig;
  St_imageCounter : Z;
  St_taskCounter : Z
}.

Definition NewStore : Store := mkStore [] [] [] [] ∅ ∅ ∅ (mkCBTConfig [] "") 0 0.

Definition setVMs (vms : list VM) (s : Store) : Store :=
  mkStore vms (St_Subnets s) (St_StorageContainers s) (St_Clusters s) (St_Tasks s) (St_RecoveryPoints s) (St_Images s)
    (St_CBTConfig s) (St_imageCounter s) (St_taskCounter s).
Definition setTasks (ts : gmap string TaskState) (counter : Z) (s : Store) : Store :=
  mkStore (St_VMs s) (St_Subnets s) (St_StorageContainers s) (St_Clusters s) ts (St_RecoveryPoints s) (St_Images s)
    (St_CBTConfig s) (St_imageCounter s) counter.
Definition setRecoveryPoints (rps : gmap string RecoveryPoint) (s : Store) : Store :=
  mkStore (St_VMs s) (St_Subnets s) (St_StorageContainers s) (St_Clusters s) (St_Tasks s) rps (St_Images s)
    (St_CBTConfig s) (St_imageCounter s) (St_taskCounter s).
Definition setImages (imgs : gmap string Image) (s : Store) : Store :=
  mkStore (St_VMs s) (St_Subnets s) (St_StorageContainers s) (St_Clusters s) (St_Tasks s) (St_RecoveryPoints s) imgs
    (St_CBTConfig s) (St_imageCounter s) (St_taskCounter s).
Definition setCounter (n : Z) (s : Store) : Store :=
  mkStore (St_VMs s) (St_Subnets s) (St_StorageContainers s) (St_Clusters s) (St_Tasks s) (St_RecoveryPoints s) (St_Images s)
    (St_CBTConfig s) n (St_taskCounter s).

(** [imageCounter.Add(1)], with the number it returns *)
Definition nextID (s : Store) : Z := int64 (St_imageCounter s + 1).

Definition GetVM (extID : string) (s : Store) : option VM := List.find (λ vm, VM_ExtID vm =s extID) (St_VMs s).

Definition setPowerState (state : string) (v : VM) : VM :=
  mkVM (VM_ExtID v) (VM_Name v) (VM_Description v) state (VM_NumSockets v) (VM_NumCoresPerSocket v) (VM_NumThreadsPerCore v)
    (VM_MemorySizeBytes v) (VM_MachineType v) (VM_BootConfig v) (VM_Disks v) (VM_Nics v) (VM_Gpus v) (VM_Cluster v).

(** The loop of [SetVMPowerState]: the first VM with the identifier. *)
Fixpoint setFirst (extID state : string) (vms : list VM) : option (list VM) :=
  match vms with
  | [] => None
  | vm :: vms =>
      if VM_ExtID vm =s extID then Some (setPowerState state vm :: vms) else cons vm <$> setFirst extID state vms
  end.

Definition SetVMPowerState (extID state : string) (s : Store) : Store * bool :=
  match setFirst extID state (St_VMs s) with Some vms => (setVMs vms s, true) | None => (s, false) end.

(** The loop of [handleVMDelete]. *)
Fixpoint removeFirst (extID : string) (vms : list VM) : list VM :=
  match vms with
  | [] => []
  | vm :: vms => if VM_ExtID vm =s extID then vms else vm :: removeFirst extID vms
  end.

Definition AddRecoveryPoint (rp : RecoveryPoint) (s : Store) : Store * string :=
  let id := nextID s in
  let extID := "rp-" +s+ Sprintf08d id in
  let rp := mkRecoveryPoint extID (RP_Name rp) recoveryPointStatusComplete (RP_VMExtID rp) (RP_ExpirationTime rp) (RP_RecoveryPointType rp) in
  (setRecoveryPoints (<[extID := rp]> (St_RecoveryPoints s)) (setCounter id s), extID).

Definition GetRecoveryPoint (uuid : string) (s : Store) : option RecoveryPoint := St_RecoveryPoints s !! uuid.

Definition DeleteRecoveryPoint (uuid : string) (s : Store) : Store * bool :=
  match St_RecoveryPoints s !! uuid with
  | None => (s, false)
  | Some _ => (setRecoveryPoints (delete uuid (St_RecoveryPoints s)) s, true)
  end.

Definition AddImage (img : Image) (s : Store) : Store * string :=
  let id := nextID s in
  let extID := "img-" +s+ Sprintf08d id in
  let img := mkImage extID (Image_Name img) (Image_Type img) (Image_SizeBytes img) (Image_SourceURI img) in
  (setImages (<[extID := img]> (St_Images s)) (setCounter id s), extID).

Definition GetImage (uuid : string) (s : Store) : option Image := St_Images s !! uuid.

Definition DeleteImage (uuid : string) (s : Store) : Store * bool :=
  match St_Images s !! uuid with
  | None => (s, false)
  | Some _ => (setImages (delete uuid (St_Images s)) s, true)
  end.

Definition taskUUIDFromCounter (id : Z) : string := "task-" +s+ Sprintf08d id.

Definition CreateTask (entities : list TaskEntity) (targetPolls : Z) (s : Store) : Store * string :=
  let id := int64 (St_taskCounter s + 1) in
  let taskUUID := taskUUIDFromCounter id in
  let ts := mkTaskState (mkTask taskUUID TaskStatusQueued "" 0 [] entities) 0 targetPolls in
  (setTasks (<[taskUUID := ts]> (St_Tasks s)) id s, taskUUID).

Definition setProgress (status : string) (percent : Z) (t : Task) : Task :=
  mkTask (Task_ExtID t) status (Task_OperationType t) percent (Task_ErrorMessages t) (Task_EntitiesAffected t).

(** One poll of a task. *)
Definition advanceTask (ts : TaskState) : TaskState :=
  let n := int64 (TS_PollCount ts + 1) in
  let task :=
    if TS_TargetPolls ts <=? n then setProgress TaskStatusSucceeded 100 (TS_Task ts)
    else if 1 <=? n then setProgress TaskStatusRunning 50 (TS_Task ts)
    else TS_Task ts in
  mkTaskState task n (TS_TargetPolls ts).

Definition GetTask (uuid : string) (s : Store) : Store * option Task :=
  match St_Tasks s !! uuid with
  | None => (s, None)
  | Some ts =>
      let ts := advanceTask ts in
      (setTasks (<[uuid := ts]> (St_Tasks s)) (St_taskCounter s) s, Some (TS_Task ts))
  end.

(** ** Helpers (helpers.go) *)

Definition defaultPageSize : Z := 500.

Definition writeJSON (status : Z) (v : json) : Response := mkResponse status (text (print v ++ ["010"%char])) None.

Definition writeError (status : Z) (message : string) : Response :=
  writeJSON status (nested [("error", encString message)]).

(** A query parameter that is a number in range. *)
Definition numberParam (q : list (string * string)) (key : string) (good : Z → bool) (dflt : Z) : Z :=
  let v := queryGet q key in
  if v =s "" then dflt else match ParseInt v with Some n => if good n then n else dflt | None => dflt end.

Definition parsePagination (r : ServerRequest) : Z * Z :=
  (numberParam (SR_Query r) "$top" (λ n, 0 <? n) defaultPageSize, numberParam (SR_Query r) "$skip" (λ n, 0 <=? n) 0).

Definition paginatedResponse (data : json) (totalAvailable : Z) : json :=
  nested [("data", data); ("metadata", nested [("totalAvailableResults", encInt totalAvailable)])].

Definition singleResponse (data : json) : json := nested [("data", data)].

Definition taskRefBody (taskUUID : string) : json := nested [("data", nested [("extId", encString taskUUID)])].

(** ** Handlers *)

Definition handler := Store → ServerRequest → option (Store * Response).

Definition methodNotAllowed : Response := writeError 405 "method not allowed".

(** [l[i:j]], which panics when the bounds are wrong *)
Definition slice {A} (l : list A) (i j : Z) : option (list A) :=
  if (0 <=? i) && (i <=? j) && (j <=? len l) then Some (take (Z.to_nat (j - i)) (drop (Z.to_nat i) l)) else None.

(** The body of [handleVMList], [handleSubnetList] and [handleClusterList]. *)
Definition listHandler {A} (e : A → json) (data : Store → list A) : handler := λ s r,
  if SR_Method r <>s "GET" then Some (s, methodNotAllowed)
  else
    let '(top, skip) := parsePagination r in
    let total := len (data s) in
    if total <=? skip then Some (s, writeJSON 200 (paginatedResponse (JArray []) total))
    else
      page ← slice (data s) skip (Z.min (int64 (skip + top)) total);
      Some (s, writeJSON 200 (paginatedResponse (JArray (e <$> page)) total)).

(** handlers_vm.go *)

Definition handleVMList : handler := listHandler encVM St_VMs.

Definition vmEntity (uuid : string) : TaskEntity := mkTaskEntity uuid "vmm:ahv:config:vm".

Definition handleVMGet (uuid : string) (s : Store) : Store * Response :=
  match GetVM uuid s with
  | None => (s, writeError 404 "VM not found")
  | Some vm => (s, writeJSON 200 (singleResponse (encVM vm)))
  end.

Definition handleVMPowerOff (uuid : string) (s : Store) : Store * Response :=
  match GetVM uuid s with
  | None => (s, writeError 404 "VM not found")
  | Some _ =>
      let '(s, taskUUID) := CreateTask [vmEntity uuid] 2 s in
      let '(s, _) := SetVMPowerState uuid "OFF" s in
      (s, writeJSON 202 (taskRefBody taskUUID))
  end.

Definition handleVMPowerOn (uuid : string) (s : Store) : Store * Response :=
  match GetVM uuid s with
  | None => (s, writeError 404 "VM not found")
  | Some _ =>
      let '(s, taskUUID) := CreateTask [vmEntity uuid] 2 s in
      let '(s, _) := SetVMPowerState uuid "ON" s in
      (s, writeJSON 202 (taskRefBody taskUUID))
  end.

Definition handleVMDelete (uuid : string) (s : Store) : Store * Response :=
  match GetVM uuid s with
  | None => (s, writeError 404 "VM not found")
  | Some _ =>
      let '(s, taskUUID) := CreateTask [vmEntity uuid] 2 s in
      (setVMs (removeFirst uuid (St_VMs s)) s, writeJSON 202 (taskRefBody taskUUID))
  end.

Definition handleVMByID : handler := λ s r,
  let path := TrimPrefix (SR_Path r) (vmBasePath +s+ "/") in
  match SplitN2 path "/" with
  | [uuid; action] =>
      if (action =s "$actions/power-off") && (SR_Method r =s "POST") then Some (handleVMPowerOff uuid s)
      else if (action =s "$actions/power-on") && (SR_Method r =s "POST") then Some (handleVMPowerOn uuid s)
      else Some (s, writeError 404 "unknown action")
  | _ =>
      if SR_Method r =s "GET" then Some (handleVMGet path s)
      else if SR_Method r =s "DELETE" then Some (handleVMDelete path s)
      else Some (s, methodNotAllowed)
  end.

(** handlers_task.go *)

Definition tasksPath : string := "/api/prism/v4.0/config/tasks/".

Definition handleTask : handler := λ s r,
  if SR_Method r <>s "GET" then Some (s, methodNotAllowed)
  else
    let uuid := TrimPrefix (SR_Path r) tasksPath in
    if uuid =s "" then Some (s, writeError 400 "task UUID required")
    else match GetTask uuid s with
    | (s, None) => Some (s, writeError 404 "task not found")
    | (s, Some task) => Some (s, writeJSON 200 (encTask task))
    end.

(** handlers_network.go, handlers_cluster.go and handlers_storage.go *)

Definition handleSubnetList : handler := listHandler encSubnet St_Subnets.
Definition handleClusterList : handler := listHandler encCluster St_Clusters.

Definition handleStorageContainerList : handler := λ s r,
  if SR_Method r <>s "GET" then Some (s, methodNotAllowed)
  else
    let n := len (St_StorageContainers s) in
    Some (s, writeJSON 200 (nested [("entities", JArray (encStorageContainer <$> St_StorageContainers s));
      ("metadata", nested [("grandTotalEntities", encInt n); ("totalEntities", encInt n)])])).

(** handlers_snapshot.go *)

Definition recoveryPointEntity (uuid : string) : TaskEntity := mkTaskEntity uuid "dataprotection:config:recovery-point".

(** The name and the VMs of a request for a recovery point. *)
Definition decRecoveryPointRequest : decoder (string * list string) := λ old,
  object ["name"; "vmRecoveryPoints"] (λ f,
    name ← decField decString old.1 (f "name");
    vms ← decField (decSlice "" (decOne "vmExtId" decString)) old.2 (f "vmRecoveryPoints");
    Some (name, vms)) old.

Definition handleRecoveryPointCreate : handler := λ s r,
  if SR_Method r <>s "POST" then Some (s, methodNotAllowed)
  else match parse (chars (SR_Body r)) ≫= decRecoveryPointRequest ("", []) with
  | None => Some (s, writeError 400 "invalid request body")
  | Some (name, vms) =>
      let vmUUID := default "" (head vms) in
      let '(s, rpUUID) := AddRecoveryPoint (mkRecoveryPoint "" name "" vmUUID "" "APPLICATION_CONSISTENT") s in
      let '(s, taskUUID) := CreateTask [recoveryPointEntity rpUUID] 2 s in
      Some (s, writeJSON 202 (taskRefBody taskUUID))
  end.

Definition handleRecoveryPointGet (uuid : string) (s : Store) : Store * Response :=
  match GetRecoveryPoint uuid s with
  | None => (s, writeError 404 "recovery point not found")
  | Some rp => (s, writeJSON 200 (singleResponse (encRecoveryPoint rp)))
  end.

Definition handleRecoveryPointDelete (uuid : string) (s : Store) : Store * Response :=
  match DeleteRecoveryPoint uuid s with
  | (s, false) => (s, writeError 404 "recovery point not found")
  | (s, true) =>
      let '(s, taskUUID) := CreateTask [recoveryPointEntity uuid] 2 s in
      (s, writeJSON 202 (taskRefBody taskUUID))
  end.

(** The names of the clones a request asks for. *)
Definition decCloneRequest : decoder (list string) := λ old,
  object ["vmRecoveryPoints"] (λ f, decField (decSlice "" (decOne "vmName" decString)) old (f "vmRecoveryPoints")) old.

Definition handleCloneVMFromRP (rpUUID : string) (s : Store) (r : ServerRequest) : Store * Response :=
  match GetRecoveryPoint rpUUID s with
  | None => (s, writeError 404 "recovery point not found")
  | Some _ =>
      match parse (chars (SR_Body r)) ≫= decCloneRequest [] with
      | None => (s, writeError 400 "invalid request body")
      | Some names =>
          let vmName := match names with n :: _ => if n <>s "" then n else "cloned-vm" | [] => "cloned-vm" end in
          let cloneID := nextID s in
          let cloneUUID := "clone-" +s+ Sprintf08d cloneID in
          let clone := mkVM cloneUUID vmName "" "OFF" 0 0 0 0 "" None [] [] [] None in
          let s := setVMs (St_VMs s ++ [clone]) (setCounter cloneID s) in
          let '(s, taskUUID) := CreateTask [vmEntity cloneUUID] 2 s in
          (s, writeJSON 202 (taskRefBody taskUUID))
      end
  end.

Definition handleRecoveryPointByID : handler := λ s r,
  let path := TrimPrefix (SR_Path r) (recoveryPointBasePath +s+ "/") in
  match SplitN2 path "/" with
  | [uuid; action] =>
      if (action =s "$actions/vm-recovery") && (SR_Method r =s "POST") then Some (handleCloneVMFromRP uuid s r)
      else Some (s, writeError 404 "unknown action")
  | _ =>
      if SR_Method r =s "GET" then Some (handleRecoveryPointGet path s)
      else if SR_Method r =s "DELETE" then Some (handleRecoveryPointDelete path s)
      else Some (s, methodNotAllowed)
  end.

(** handlers_image.go *)

Definition defaultImageSize : Z := 4096.

Definition imageEntity (uuid : string) : TaskEntity := mkTaskEntity uuid "vmm:images:image".

Definition decImageRequest : decoder (string * string) := λ old,
  object ["name"; "type"] (λ f,
    name ← decField decString old.1 (f "name");
    type ← decField decString old.2 (f "type");
    Some (name, type)) old.

Definition handleImageCreate : handler := λ s r,
  if SR_Method r <>s "POST" then Some (s, methodNotAllowed)
  else match parse (chars (SR_Body r)) ≫= decImageRequest ("", "") with
  | None => Some (s, writeError 400 "invalid request body")
  | Some (name, type) =>
      let '(s, imgUUID) := AddImage (mkImage "" name type defaultImageSize "") s in
      let '(s, taskUUID) := CreateTask [imageEntity imgUUID] 2 s in
      Some (s, writeJSON 202 (taskRefBody taskUUID))
  end.

Definition handleImageGet (uuid : string) (s : Store) : Store * Response :=
  match GetImage uuid s with
  | None => (s, writeError 404 "image not found")
  | Some img => (s, writeJSON 200 (singleResponse (encImage img)))
  end.

Definition handleImageDelete (uuid : string) (s : Store) : Store * Response :=
  match DeleteImage uuid s with
  | (s, false) => (s, writeError 404 "image not found")
  | (s, true) =>
      let '(s, taskUUID) := CreateTask [imageEntity uuid] 2 s in
      (s, writeJSON 202 (taskRefBody taskUUID))
  end.

Definition parseRangeHeader (header : string) (totalSize : Z) : option (Z * Z) :=
  if negb (HasPrefix header "bytes=") then None
  else match SplitN2 (TrimPrefix header "bytes=") "-" with
  | [first; second] =>
      if first =s "" then
        n ← ParseInt second;
        if n <=? 0 then None else Some (Z.max (totalSize - n) 0, totalSize - 1)
      else
        start ← ParseInt first;
        if (start <? 0) || (totalSize <=? start) then None
        else if second =s "" then Some (start, totalSize - 1)
        else
          end_ ← ParseInt second;
          if end_ <? start then None else Some (start, if totalSize <=? end_ then totalSize - 1 else end_)
  | _ => None
  end.

(** Bytes [0xAA]. *)
Definition imageData (n : Z) : string := text (replicate (Z.to_nat n) (ascii_of_N 170)).

Definition handleImageDownload (uuid : string) (s : Store) (r : ServerRequest) : Store * Response :=
  match GetImage uuid s with
  | None => (s, writeError 404 "image not found")
  | Some img =>
      let totalSize := if Image_SizeBytes img <=? 0 then defaultImageSize else Image_SizeBytes img in
      if SR_Range r =s "" then (s, mkResponse 200 (imageData totalSize) None)
      else match parseRangeHeader (SR_Range r) totalSize with
      | None => (s, writeError 416 "invalid range")
      | Some (start, end_) => (s, mkResponse 206 (imageData (end_ - start + 1)) None)
      end
  end.

Definition handleImageByID : handler := λ s r,
  let path := TrimPrefix (SR_Path r) (imageBasePath +s+ "/") in
  let parts := SplitN2 path "/" in
  let uuid := default "" (head parts) in
  if match parts with [_; action] => action =s "file" | _ => false end then
    if SR_Method r <>s "GET" then Some (s, methodNotAllowed) else Some (handleImageDownload uuid s r)
  else if SR_Method r =s "GET" then Some (handleImageGet uuid s)
  else if SR_Method r =s "DELETE" then Some (handleImageDelete uuid s)
  else Some (s, methodNotAllowed).

(** handlers_cbt.go *)

Definition cbtPageSize : Z := 3.

(** The token of the configuration, or the default one. *)
Definition cbtToken (s : Store) : string :=
  if CBTC_JWTToken (St_CBTConfig s) =s "" then "mock-jwt-token" else CBTC_JWTToken (St_CBTConfig s).

Definition handleCBTDiscoverCluster (serverURL : string) : handler := λ s r,
  if SR_Method r <>s "POST" then Some (s, methodNotAllowed)
  else Some (s, writeJSON 200 (nested [("data", encCBTClusterInfo (mkCBTClusterInfo serverURL (cbtToken s)))])).

(** [r.Cookie(name)]: the first cookie of that name *)
Definition cookie (r : ServerRequest) (name : string) : option string :=
  snd <$> List.find (λ c, c.1 =s name) (SR_Cookies r).

(** A [ChangedRegions] whose regions are an empty slice, not a nil one, is sent the same way. *)
Definition handleCBTChangedRegions : handler := λ s r,
  if SR_Method r <>s "GET" then Some (s, methodNotAllowed)
  else match cookie r CBTJWTCookieName with
  | None => Some (s, writeError 401 "missing JWT token in cookie")
  | Some token =>
      if token =s "" then Some (s, writeError 401 "missing JWT token in cookie")
      else if token <>s cbtToken s then Some (s, writeError 401 "invalid JWT token")
      else
        let start := numberParam (SR_Query r) "offset" (λ n, 0 <=? n) 0 in
        let regions := CBTC_ChangedRegions (St_CBTConfig s) in
        let total := len regions in
        if total <=? start then Some (s, writeJSON 200 (nested [("data", encChangedRegions (mkChangedRegions [] None))]))
        else
          let end_ := Z.min (int64 (start + cbtPageSize)) total in
          page ← slice regions start end_;
          let nextOffset := if end_ <? total then Some end_ else None in
          Some (s, writeJSON 200 (nested [("data", encChangedRegions (mkChangedRegions page nextOffset))]))
  end.

(** ** Server (server.go) *)

(** [registerRoutes]; [serverURL] is the server's own base URL. *)
Definition registerRoutes (serverURL : string) : list (string * handler) :=
  [("/api/vmm/v4.0/ahv/config/vms", handleVMList);
   ("/api/vmm/v4.0/ahv/config/vms/", handleVMByID);
   ("/api/prism/v4.0/config/tasks/", handleTask);
   ("/api/networking/v4.0/config/subnets", handleSubnetList);
   ("/PrismGateway/services/rest/v2.0/storage_containers", handleStorageContainerList);
   ("/api/clustermgmt/v4.0/config/clusters", handleClusterList);
   ("/api/dataprotection/v4.0/config/recovery-points", handleRecoveryPointCreate);
   ("/api/dataprotection/v4.0/config/recovery-points/", handleRecoveryPointByID);
   ("/api/vmm/v4.0/images", handleImageCreate);
   ("/api/vmm/v4.0/images/", handleImageByID);
   ("/api/storage/v4.0/config/changed-regions/$actions/discover-cluster", handleCBTDiscoverCluster serverURL);
   ("/api/storage/v4.0/config/changed-regions", handleCBTChangedRegions)].

(** [http.NotFound] *)
Definition pageNotFound : Response := mkResponse 404 (text (chars "404 page not found" ++ ["010"%char])) None.

Definition serveHTTP (serverURL : string) (s : Store) (r : ServerRequest) : option (Store * Response) :=
  match mux (registerRoutes serverURL) (SR_Path r) with
  | Some (_, h) => h s r
  | None => Some (s, pageNotFound)
  end.

Definition disk (id container bus : string) (size : Z) : Disk :=
  mkDisk id (Some (mkDiskAddress bus 0)) (Some (mkDiskBackingInfo ("v" +s+ id) (Some (mkReference container "default-container")) size)) size "DISK".
Definition nic (id subnet name mac : string) : NIC := mkNIC id (Some (mkReference subnet name)) "NORMAL_NIC" mac [].

Definition defaultVMs : list VM :=
  let cluster := Some (mkReference "cluster-uuid-001" "test-cluster") in
  [mkVM "vm-uuid-001" "test-vm-linux" "Test Linux VM" "ON" 2 4 1 8589934592 "Q35" (Some (mkBootConfig "LEGACY" []))
     [disk "disk-001" "sc-uuid-001" "SCSI" 53687091200] [nic "nic-001" "subnet-uuid-001" "vm-network" "50:6b:8d:aa:bb:01"] [] cluster;
   mkVM "vm-uuid-002" "test-vm-windows" "Test Windows VM" "ON" 4 2 2 17179869184 "Q35" (Some (mkBootConfig "UEFI" []))
     [disk "disk-002" "sc-uuid-001" "SCSI" 107374182400; mkDisk "disk-003" (Some (mkDiskAddress "IDE" 0)) None 0 "CDROM"]
     [nic "nic-002" "subnet-uuid-001" "vm-network" "50:6b:8d:aa:bb:02"] [] cluster;
   mkVM "vm-uuid-003" "test-vm-gpu" "Test VM with GPU" "OFF" 2 8 1 34359738368 "Q35" (Some (mkBootConfig "SECURE_BOOT" []))
     [disk "disk-004" "sc-uuid-001" "SCSI" 214748364800] [nic "nic-003" "subnet-uuid-002" "gpu-network" "50:6b:8d:aa:bb:03"]
     [mkGPU "PASSTHROUGH_GRAPHICS" 7864 "NVIDIA"] cluster].

Definition defaultSubnets : list Subnet :=
  [mkSubnet "subnet-uuid-001" "vm-network" 100 "VLAN"; mkSubnet "subnet-uuid-002" "gpu-network" 200 "VLAN"].
Definition defaultStorageContainers : list StorageContainer := [mkStorageContainer "sc-uuid-001" "default-container"].
Definition defaultClusters : list Cluster :=
  [mkCluster "cluster-uuid-001" "test-cluster" (Some (mkClusterNetwork "10.0.0.10" "10.0.0.11"))].

(** Options of [NewServer] *)
Definition WithFixtures (s : Store) : Store :=
  mkStore defaultVMs defaultSubnets defaultStorageContainers defaultClusters (St_Tasks s) (St_RecoveryPoints s) (St_Images s)
    (St_CBTConfig s) (St_imageCounter s) (St_taskCounter s).
Definition WithCBTConfig (cfg : CBTConfig) (s : Store) : Store :=
  mkStore (St_VMs s) (St_Subnets s) (St_StorageContainers s) (St_Clusters s) (St_Tasks s) (St_RecoveryPoints s) (St_Images s)
    cfg (St_imageCounter s) (St_taskCounter s).

Definition NewServer (opts : list (Store → Store)) : Store := foldl (λ s opt, opt s) NewStore opts.

(** cmd/mock-nutanix/main.go *)
Definition mainStore : Store := NewServer [WithFixtures; WithCBTConfig DefaultCBTConfig].

(** ** The server in an environment

    The world is the store, the time, and what is around the server. Requests to the server are
    served; timers fire when they are due; everything else, requests to other hosts included, is
    the environment's. *)

Record world (K : Type) := mkWorld { W_Store : Store; W_Clock : Z; W_Rest : K }.
#[global] Arguments mkWorld {K} _ _ _.
#[global] Arguments W_Store {K} _.
#[global] Arguments W_Clock {K} _.
#[global] Arguments W_Rest {K} _.

Definition setStore {K} (s : Store) (w : world K) : world K := mkWorld s (W_Clock w) (W_Rest w).
Definition wait {K} (d : Z) (w : world K) : world K := mkWorld (W_Store w) (W_Clock w + Z.max d 0) (W_Rest w).

Definition delegate {K} (E : Env K) (c : call) (w : world K) : world K * answer c :=
  let '(k, a) := handle c (W_Rest w) in (mkWorld (W_Store w) (W_Clock w) k, a).

(** A round trip. A handler that panics ends the connection. *)
Definition roundTrip {K} (serverURL : string) (sr : ServerRequest) (w : world K) : world K * Reply :=
  let n := String.length (SR_Body sr) in
  match serveHTTP serverURL (W_Store w) sr with
  | Some (s, resp) => (setStore s w, mkReply n (Ok resp))
  | None => (w, mkReply n (Err (newErr "EOF")))
  end.

Definition server {K} (serverURL : string) (E : Env K) : Env (world K) := λ c w,
  match c return world K * answer c with
  | Now => (w, W_Clock w)
  | Http h =>
      match h return world K * answer (Http h) with
      | NewRequest method url =>
          match urlTarget serverURL url with Some _ => (w, None) | None => delegate E (Http (NewRequest method url)) w end
      | Do client req =>
          match received serverURL req with Some sr => roundTrip serverURL sr w | None => delegate E (Http (Do client req)) w end
      | Sleep d => (wait d w, tt)
      | WaitTimer d => (wait d w, None)
      | WriteOut data => delegate E (Http (WriteOut data)) w
      end
  | c => delegate E c w
  end.

(** ** When a handler panics *)

(** The listings of the server, by path. *)
Definition listingSize (s : Store) (path : string) : option Z :=
  if path =s vmBasePath then Some (len (St_VMs s))
  else if path =s subnetBasePath then Some (len (St_Subnets s))
  else if path =s clusterBasePath then Some (len (St_Clusters s))
  else None.

(** A page inside the list whose end [skip + top] overflows. *)
Definition overflowing (s : Store) (r : ServerRequest) : Prop :=
  SR_Method r = "GET" ∧ ∃ total, listingSize s (SR_Path r) = Some total ∧
    (parsePagination r).2 < total ∧ 2 ^ 63 ≤ (parsePagination r).2 + (parsePagination r).1.

Lemma numberParam_range q key good dflt :
  in_int64 dflt → good dflt = true → in_int64 (numberParam q key good dflt) ∧ good (numberParam q key good dflt) = true.
Proof.
  intros Hd Hg. unfold numberParam. destruct (_ =s ""); [done|]. destruct (ParseInt _) as [n|] eqn:Hn; [|done].
  destruct (good n) eqn:Hgn; [|done]. split; [|done]. by eapply ParseInt_range.
Qed.

Lemma slice_none {A} (l : list A) i j : slice l i j = None ↔ ¬ (0 ≤ i ≤ j ∧ j ≤ len l).
Proof.
  unfold slice. destruct (_ && _ && _) eqn:H; rewrite ?andb_true_iff, ?andb_false_iff, ?Z.leb_le, ?Z.leb_gt in H; split; try done; lia.
Qed.

Lemma list_panics {A} (e : A → json) (data : Store → list A) s r : len (data s) < 2 ^ 62 →
  listHandler e data s r = None ↔ SR_Method r = "GET" ∧ (parsePagination r).2 < len (data s) ∧
    2 ^ 63 ≤ (parsePagination r).2 + (parsePagination r).1.
Proof.
  intros Hl. unfold listHandler, parsePagination. cbn [fst snd].
  destruct (numberParam_range (SR_Query r) "$top" (λ n, 0 <? n) defaultPageSize) as [Ht Ht0]; [done|done|].
  destruct (numberParam_range (SR_Query r) "$skip" (λ n, 0 <=? n) 0) as [Hs Hs0]; [done|done|].
  set (top := numberParam _ "$top" _ _) in *. set (skip := numberParam _ "$skip" _ _) in *. apply Z.ltb_lt in Ht0. apply Z.leb_le in Hs0.
  destruct (String.eqb_spec (SR_Method r) "GET") as [->|Hm]; cbn [negb]; [|split; [done|]; by intros [? _]].
  destruct (Z.leb_spec (len (data s)) skip); [split; [done|lia]|].
  destruct (slice (data s) skip _) as [page|] eqn:Hp; cbn.
  - split; [done|]. intros (_ & _ & Ho). exfalso.
    assert (slice (data s) skip (Z.min (int64 (skip + top)) (len (data s))) = None) as Hn; [|congruence].
    apply slice_none. unfold in_int64 in *. rewrite int64_wraps by lia. lia.
  - split; [intros _|done]. split; [done|]. split; [done|]. apply slice_none in Hp. unfold in_int64 in *.
    destruct (Z.le_gt_cases (2 ^ 63) (skip + top)); [done|]. rewrite int64_id in Hp by (unfold in_int64; lia). unfold len in *. lia.
Qed.

(** The other handlers never panic. *)
Lemma regions_safe s r : len (CBTC_ChangedRegions (St_CBTConfig s)) < 2 ^ 62 → handleCBTChangedRegions s r ≠ None.
Proof.
  intros Hl. unfold handleCBTChangedRegions. destruct (_ <>s _); [done|]. destruct (cookie _ _) as [token|]; [|done].
  destruct (token =s ""), (token <>s cbtToken s); try done.
  destruct (numberParam_range (SR_Query r) "offset" (λ n, 0 <=? n) 0) as [Hs Hs0]; [done|done|]. apply Z.leb_le in Hs0.
  set (start := numberParam _ _ _ _) in *. destruct (Z.leb_spec (len (CBTC_ChangedRegions (St_CBTConfig s))) start); [done|].
  destruct (slice _ start _) eqn:Hp; [done|]. apply slice_none in Hp. unfold cbtPageSize in Hp. rewrite int64_id in Hp by (unfold in_int64; lia). lia.
Qed.

Definition smallStore (s : Store) : Prop :=
  len (St_VMs s) < 2 ^ 62 ∧ len (St_Subnets s) < 2 ^ 62 ∧ len (St_Clusters s) < 2 ^ 62 ∧ len (CBTC_ChangedRegions (St_CBTConfig s)) < 2 ^ 62.

(** When a request makes the mock panic: exactly when it lists VMs, subnets or clusters, from
    inside the list, with a page size that makes the end of the page overflow. Every other request,
    whatever its path, method, parameters, cookies and body, is answered. *)
Theorem mock_panics_exactly url s r : smallStore s → serveHTTP url s r = None ↔ overflowing s r.
Proof.
  intros (Hv & Hn & Hc & Hr). unfold serveHTTP, overflowing. split.
  - destruct (mux _ _) as [[p h]|] eqn:Hm; [|done]. apply mux_found in Hm as [Hin Hp]. intros Hh. cbn [fst] in Hp.
    unfold registerRoutes in Hin. rewrite !elem_of_cons, elem_of_nil in Hin.
    assert (patternMatches vmBasePath (SR_Path r) = true → listingSize s (SR_Path r) = Some (len (St_VMs s))) as Lv by by intros ->%String.eqb_eq.
    assert (patternMatches subnetBasePath (SR_Path r) = true → listingSize s (SR_Path r) = Some (len (St_Subnets s))) as Ln by by intros ->%String.eqb_eq.
    assert (patternMatches clusterBasePath (SR_Path r) = true → listingSize s (SR_Path r) = Some (len (St_Clusters s))) as Lc by by intros ->%String.eqb_eq.
    destruct_or! Hin; try done; injection Hin as -> ->; try by apply regions_safe in Hh.
    all: try (exfalso; revert Hh; unfold handleVMByID, handleTask, handleStorageContainerList, handleRecoveryPointCreate,
      handleRecoveryPointByID, handleImageCreate, handleImageByID, handleCBTDiscoverCluster; repeat case_match; done).
    all: apply list_panics in Hh as [? Hh]; [|done]; (split; [done|]); eauto.
  - intros (Hm & total & Hl & Hlt & Ho). unfold listingSize in Hl.
    destruct (String.eqb_spec (SR_Path r) vmBasePath) as [->|_]; [injection Hl as <-; by apply list_panics|].
    destruct (String.eqb_spec (SR_Path r) subnetBasePath) as [->|_]; [injection Hl as <-; by apply list_panics|].
    destruct (String.eqb_spec (SR_Path r) clusterBasePath) as [->|_]; [injection Hl as <-; by apply list_panics|done].
Qed.

Lemma mock_panics_exactly_witness :
  smallStore mainStore ∧
  serveHTTP "https://mock" mainStore (mkServerRequest "GET" vmBasePath [("$top", "9223372036854775807"); ("$skip", "1")] [] "" "") = None.
Proof.
  assert (smallStore mainStore) as Hs by (unfold smallStore, len; simpl; lia). split; [exact Hs|].
  apply (mock_panics_exactly "https://mock" mainStore _ Hs). split; [reflexivity|]. exists 3. repeat split; vm_compute; congruence.
Defined.

End Mock.
