(* ===== verification/MockClient.v ===== *)
(** * The HTTP client against the mock Prism server

    Every method of the client, run against the server of pkg/mock, does what a plain inventory
    would, through JSON, paging, tasks and polling. MockComposition.v says what the inventory promises. *)

From S2P Require Import Prelude GoLib NutanixTypes ApiTypes HttpTypes HttpServer JsonText Codec NutanixCodec Env Client ClientOps.
From S2P Require Import ClientProperties ClientTheorems MockServer.

(** ** URLs *)

(** An identifier as Prism and the mock make them. *)
Definition idChar (c : ascii) : bool := is_digit c || is_lower c || is_upper c || Ascii.eqb c "-".
Definition plainID (id : string) : Prop := id ≠ "" ∧ forallb idChar (chars id) = true.

#[global] Instance plainID_dec id : Decision (plainID id).
Proof. unfold plainID. apply _. Defined.

Definition pathChar (c : ascii) : bool := plainChar c || Ascii.eqb c "/".
Definition queryChar (c : ascii) : bool := plainChar c || Ascii.eqb c "=" || Ascii.eqb c "&".

Lemma not_in_plain (p : ascii → bool) c l : forallb p l = true → p c = false → c ∉ l.
Proof. intros Hl Hc Hin. rewrite forallb_forall in Hl. apply list_elem_of_In, Hl in Hin. congruence. Qed.

Lemma urlTarget_path base path :
  forallb pathChar (chars path) = true → tidy (chars path) = true → urlTarget base (base +s+ path) = Some (path, []).
Proof.
  intros Hp Ht. unfold urlTarget. rewrite chars_app, stripPrefix_app. simpl.
  rewrite cut_none by (by eapply not_in_plain). unfold pathChar in Hp. rewrite Hp, Ht. simpl. by rewrite text_chars.
Qed.

(** Queries of parameters with plain keys and values. *)
Definition printParam (kv : string * string) : list ascii := chars kv.1 ++ "="%char :: chars kv.2.
Definition printQuery (kvs : list (string * string)) : list ascii := joinL "&" (printParam <$> kvs).
Definition plainParam (kv : string * string) : Prop := forallb plainChar (chars kv.1) = true ∧ forallb plainChar (chars kv.2) = true.

Lemma printParam_plain kv : plainParam kv → "&"%char ∉ printParam kv.
Proof.
  intros [Hk Hv]. unfold printParam. apply (not_in_plain plainChar "&"%char) in Hk; [|done].
  apply (not_in_plain plainChar "&"%char) in Hv; [|done]. set_solver.
Qed.

Lemma splitAll_join fuel ls : Forall (λ l, "&"%char ∉ l) ls → ls ≠ [] → (length ls ≤ S fuel)%nat → splitAll fuel "&" (joinL "&" ls) = ls.
Proof.
  revert fuel. induction ls as [|l ls IH]; intros fuel Hls Hne Hf; [done|]. apply Forall_cons in Hls as [Hl Hls].
  destruct ls as [|l' ls].
  - simpl. destruct fuel; simpl; [done|]. by rewrite cut_none.
  - destruct fuel as [|fuel]; [simpl in Hf; lia|]. change (joinL "&" (l :: l' :: ls)) with (l ++ "&"%char :: joinL "&" (l' :: ls)).
    cbn [splitAll]. rewrite cut_at by done. f_equal. apply IH; [done|done|simpl in *; lia].
Qed.

Lemma printQuery_length kvs : (length kvs ≤ S (length (printQuery kvs)))%nat.
Proof.
  unfold printQuery. induction kvs as [|kv kvs IH]; [simpl; lia|]. destruct kvs as [|kv' kvs]; [simpl; lia|].
  change (joinL "&" (printParam <$> kv :: kv' :: kvs)) with (printParam kv ++ "&"%char :: joinL "&" (printParam <$> kv' :: kvs)).
  rewrite length_app. cbn [length] in *. lia.
Qed.

Lemma parseQuery_print kvs : Forall plainParam kvs → kvs ≠ [] → parseQuery (printQuery kvs) = kvs.
Proof.
  intros Hp Hne. unfold parseQuery.
  assert (splitAll (length (printQuery kvs)) "&" (printQuery kvs) = printParam <$> kvs) as ->.
  { apply splitAll_join; [|by destruct kvs|rewrite length_fmap; apply printQuery_length].
    apply Forall_fmap. eapply Forall_impl; [exact Hp|]. intros kv. apply printParam_plain. }
  clear Hne. induction Hp as [|[k v] kvs [Hk Hv] Hkvs IH]; [done|]. csimpl.
  assert (match printParam (k, v) with [] => false | _ => true end = true) as -> by (unfold printParam; simpl; by destruct (chars k)).
  csimpl. rewrite IH. unfold printParam. simpl in *. rewrite cut_at by (by eapply not_in_plain). by rewrite !text_chars.
Qed.

Lemma printQuery_chars kvs : Forall plainParam kvs → forallb queryChar (printQuery kvs) = true.
Proof.
  unfold printQuery. induction 1 as [|[k v] kvs [Hk Hv] Hkvs IH]; [done|].
  assert (∀ l, forallb plainChar l = true → forallb queryChar l = true) as Hq.
  { intros l. rewrite !forallb_forall. intros Hl x Hx. unfold queryChar. by rewrite (Hl x Hx). }
  assert (forallb queryChar (printParam (k, v)) = true) as Hkv.
  { unfold printParam. rewrite forallb_app. simpl in *. by rewrite (Hq _ Hk), (Hq _ Hv). }
  destruct kvs as [|kv kvs]; [by simpl|].
  change (joinL "&" (printParam <$> (k, v) :: kv :: kvs)) with (printParam (k, v) ++ "&"%char :: joinL "&" (printParam <$> kv :: kvs)).
  rewrite forallb_app, Hkv. exact IH.
Qed.

Lemma urlTarget_query base path kvs :
  forallb pathChar (chars path) = true → tidy (chars path) = true → Forall plainParam kvs → kvs ≠ [] →
  urlTarget base (base +s+ path +s+ "?" +s+ text (printQuery kvs)) = Some (path, kvs).
Proof.
  intros Hp Ht Hk Hne. unfold urlTarget. rewrite !chars_app, stripPrefix_app, chars_text. simpl.
  rewrite cut_at by (by eapply not_in_plain). pose proof (printQuery_chars kvs Hk) as Hq. unfold pathChar in Hp. unfold queryChar in Hq.
  rewrite Hp, Ht, Hq. simpl. by rewrite text_chars, parseQuery_print.
Qed.

(** ** Identifiers in paths *)

Lemma idChar_plain c : idChar c = true → plainChar c = true.
Proof.
  unfold idChar, plainChar. rewrite !orb_true_iff. intros [[[H|H]|H]|H]; auto. right. apply Ascii.eqb_eq in H as ->. by vm_compute.
Qed.

Lemma plainID_plain id : plainID id → forallb plainChar (chars id) = true.
Proof. intros [_ H]. rewrite forallb_forall in *. auto using idChar_plain. Qed.

Lemma plainID_path id : plainID id → forallb pathChar (chars id) = true.
Proof. intros H%plainID_plain. rewrite forallb_forall in *. intros c Hc. unfold pathChar. by rewrite H. Qed.

Lemma plainID_noslash id : plainID id → "/"%char ∉ chars id.
Proof. intros [_ H]. by eapply not_in_plain. Qed.

Lemma tidy_app l k :
  tidy l = true → tidy k = true → (∀ c, head k = Some c → c ≠ "/"%char ∧ c ≠ "."%char ∨ last l ≠ Some "/"%char) → tidy (l ++ k) = true.
Proof.
  induction l as [|c l IH]; intros Hl Hk Hb; [done|]. destruct l as [|d l].
  - simpl. destruct k as [|d k]; [done|]. rewrite Hk, andb_true_r. destruct (Hb d eq_refl) as [[H1 H2]|H].
    + destruct (Ascii.eqb_spec d "/"), (Ascii.eqb_spec d "."); try done. by rewrite andb_false_r.
    + destruct (Ascii.eqb_spec c "/") as [->|]; done.
  - simpl in Hl |- *. apply andb_true_iff in Hl as [Hc Hl]. rewrite Hc. simpl. apply IH; [done|done|].
    intros x Hx. destruct (Hb x Hx) as [H|H]; [by left|right]. by rewrite last_cons_cons in H.
Qed.

Lemma tidy_noslash l : "/"%char ∉ l → tidy l = true.
Proof.
  induction l as [|c l IH]; [done|]. intros Hc. simpl. destruct l as [|d l]; [done|].
  destruct (Ascii.eqb_spec c "/"); [set_solver|]. simpl. apply IH. set_solver.
Qed.

(** The paths of the entities and of their actions. *)
Lemma entity_path prefix id suffix :
  forallb pathChar (chars prefix) = true → tidy (chars prefix) = true → plainID id →
  forallb pathChar (chars suffix) = true → tidy (chars suffix) = true →
  forallb pathChar (chars (prefix +s+ id +s+ suffix)) = true ∧ tidy (chars (prefix +s+ id +s+ suffix)) = true.
Proof.
  intros Hp Htp Hid Hs Hts. rewrite !chars_app, !forallb_app, Hp, Hs, plainID_path by done. split; [done|].
  pose proof (plainID_noslash id Hid) as Hns.
  assert (∀ c, c ∈ chars id → c ≠ "/"%char ∧ c ≠ "."%char) as Hc.
  { intros c Hin. split; [set_solver|]. intros ->. revert Hin. destruct Hid as [_ Hid]. by eapply not_in_plain. }
  assert (chars id ≠ []) as Hne by (destruct Hid as [Hid _]; intros E; apply Hid; rewrite <- (text_chars id), E; done).
  apply tidy_app; [done| |].
  - apply tidy_app; [by apply tidy_noslash|done|]. intros c _. right. intros Hl. apply last_Some in Hl as [l' E].
    apply Hns. rewrite E. set_solver.
  - intros c Hhead. left. apply Hc. destruct (chars id) as [|d l]; [done|]. simpl in Hhead. injection Hhead as ->. set_solver.
Qed.

Lemma append_nil_r (s : string) : s +s+ "" = s.
Proof. apply chars_inj. change (chars (s +s+ "") = chars s). by rewrite chars_app, app_nil_r. Qed.

(** A path that a plain identifier may be put into. *)
Definition slashed (prefix : string) : Prop := forallb pathChar (chars prefix) = true ∧ tidy (chars prefix) = true.

Lemma url_entity base prefix id : slashed prefix → plainID id →
  urlTarget base (base +s+ prefix +s+ id) = Some (prefix +s+ id, []).
Proof.
  intros [H1 H2] Hid. destruct (entity_path prefix id "" H1 H2 Hid eq_refl eq_refl) as [H3 H4].
  rewrite append_nil_r in H3, H4. by apply urlTarget_path.
Qed.

Lemma url_action base prefix id suffix : slashed prefix → plainID id → slashed suffix →
  urlTarget base (base +s+ prefix +s+ id +s+ suffix) = Some (prefix +s+ id +s+ suffix, []).
Proof. intros [H1 H2] Hid [H3 H4]. destruct (entity_path prefix id suffix H1 H2 Hid H3 H4). by apply urlTarget_path. Qed.

Lemma SplitN2_id id : plainID id → SplitN2 id "/" = [id].
Proof. intros H. unfold SplitN2. by rewrite cut_none by by apply plainID_noslash. Qed.

Lemma SplitN2_action id action : plainID id → SplitN2 (id +s+ "/" +s+ action) "/" = [id; action].
Proof.
  intros H. unfold SplitN2. rewrite !chars_app. simpl. rewrite cut_at by by apply plainID_noslash. by rewrite !text_chars.
Qed.

(** The identifiers the mock makes are such identifiers, and valid UTF-8. *)
Lemma plainID_app a b : forallb idChar (chars a) = true → a ≠ "" → forallb idChar (chars b) = true → plainID (a +s+ b).
Proof.
  intros Ha Hne Hb. split; [|by rewrite chars_app, forallb_app, Ha, Hb]. intros E. apply Hne. by destruct a.
Qed.

Lemma Sprintf08d_chars z : forallb idChar (chars (Sprintf08d z)) = true.
Proof.
  assert (∀ n w, 0 ≤ n → forallb idChar (pad w (chars (itoa n))) = true) as H.
  { intros n w Hn. unfold pad. rewrite forallb_app. apply andb_true_iff. split.
    - apply forallb_forall. intros c Hc. apply list_elem_of_In, elem_of_replicate in Hc as [-> _]. done.
    - pose proof (itoa_digits n Hn) as Hd. rewrite Forall_forall in Hd. apply forallb_forall. intros c Hc.
      unfold idChar. by rewrite Hd by by apply list_elem_of_In. }
  unfold Sprintf08d. destruct (Z.ltb_spec z 0); rewrite chars_text; [|by apply H]. simpl. apply H. lia.
Qed.

Lemma idChar_valid1 c : idChar c = true → Utf8.valid1 c = true.
Proof.
  unfold idChar, Utf8.valid1, is_digit, is_lower, is_upper. rewrite !orb_true_iff, !andb_true_iff, !Z.leb_le, Z.ltb_lt.
  intros [[[H|H]|H]|H]; [lia..|]. apply Ascii.eqb_eq in H as ->. done.
Qed.

Lemma ascii_okString s : forallb Utf8.valid1 (chars s) = true → okString s.
Proof.
  intros H. unfold okString, Utf8.valid. rewrite <- (app_nil_r (chars s)), runes_asciis by done. unfold asRunes.
  rewrite forallb_app. simpl. rewrite andb_true_r. apply forallb_forall. intros r Hr.
  apply list_elem_of_In, list_elem_of_fmap in Hr as (c & -> & _). done.
Qed.

Lemma plainID_okString id : plainID id → okString id.
Proof. intros [_ H]. apply ascii_okString. rewrite forallb_forall in *. auto using idChar_valid1. Qed.

(** ** One request *)

(** What the server writes can be read back. *)
Lemma decode_written {A} (t : target A) status j a :
  wellFormed j = true → nesting j ≤ maxNestingDepth → T_decode t (T_zero t) j = Some a →
  decode t (Mock.writeJSON status j) = Some a.
Proof.
  intros Hw Hn Hd. unfold decode, readValue, Mock.writeJSON. cbn [Resp_Body Resp_BodyError]. rewrite chars_text.
  pose proof (parses_all j (S (2 * length (print j ++ ["010"%char]))) 0 ["010"%char] Hw) as Hp.
  unfold parse. rewrite Hp; [|rewrite length_app; lia|lia|done]. by destruct j.
Qed.

(** The same when the server encodes with the client's own codec. *)
Lemma decode_encoded {A n ok} {zero : A} {e d} `{!CodecLaw n ok zero e d} name status j a :
  j = e a → n ≤ maxNestingDepth → ok a → decode (mkTarget name zero d) (Mock.writeJSON status j) = Some a.
Proof.
  intros -> Hn Ha. apply decode_written; [by apply codec_text| |by apply codec_back]. pose proof (codec_depth a). lia.
Qed.

Lemma nested_struct fs : nested fs = encStruct (prod_map id Some <$> fs).
Proof. done. Qed.

Lemma single_data {A} (e : A → json) a : Mock.singleResponse (e a) = encData e a.
Proof. with_strategy transparent [always] reflexivity. Qed.

Lemma taskRef_data id : Mock.taskRefBody id = encData encTaskRef id.
Proof. with_strategy transparent [always] reflexivity. Qed.

(** ** Runs that return *)

Definition yields {W A} (m : M W A) (w w' : W) (a : A) : Prop := ∃ tr, m w = mkRes tr w' (Done a).

Lemma yields_ret {W A} (w : W) (a : A) : yields (ret a) w w a.
Proof. by eexists. Qed.

Lemma yields_bind {W A B} (m : M W A) (k : A → M W B) w w1 w2 a b :
  yields m w w1 a → yields (k a) w1 w2 b → yields (bind m k) w w2 b.
Proof. intros [tr Hm] [tr' Hk]. eexists. unfold bind. rewrite Hm. cbn. by rewrite Hk. Qed.

Lemma yields_call {W} `{E : Env W} q w w' a : handle q w = (w', a) → yields (perform q) w w' a.
Proof. intros H. eexists. unfold perform. by rewrite H. Qed.

(** ** The inventory

    What the server has, apart from tasks. *)

Record Inventory := mkInventory {
  Inv_VMs : list VM;
  Inv_Subnets : list Subnet;
  Inv_Containers : list StorageContainer;
  Inv_Clusters : list Cluster;
  Inv_Images : gmap string Image;
  Inv_RecoveryPoints : gmap string RecoveryPoint;
  Inv_Regions : list ChangedRegion;
  Inv_Token : string;
  Inv_Made : Z
}.

Definition inventoryOf (s : Mock.Store) : Inventory :=
  mkInventory (Mock.St_VMs s) (Mock.St_Subnets s) (Mock.St_StorageContainers s) (Mock.St_Clusters s) (Mock.St_Images s)
    (Mock.St_RecoveryPoints s) (Mock.CBTC_ChangedRegions (Mock.St_CBTConfig s)) (Mock.cbtToken s) (Mock.St_imageCounter s).

(** Values of their Go types, and slices of a length that fits. *)
Record okInventory (inv : Inventory) : Prop := {
  ok_vms : Forall okVM (Inv_VMs inv);
  ok_subnets : Forall okSubnet (Inv_Subnets inv);
  ok_containers : Forall okStorageContainer (Inv_Containers inv);
  ok_clusters : Forall okCluster (Inv_Clusters inv);
  ok_images : map_Forall (λ _, okImage) (Inv_Images inv);
  ok_points : map_Forall (λ _, okRecoveryPoint) (Inv_RecoveryPoints inv);
  ok_regions : Forall okChangedRegion (Inv_Regions inv);
  ok_token : okString (Inv_Token inv) ∧ Inv_Token inv ≠ "" ∧ forallb validCookieValueByte (chars (Inv_Token inv)) = true;
  ok_sizes : len (Inv_VMs inv) < 2 ^ 62 ∧ len (Inv_Subnets inv) < 2 ^ 62 ∧ len (Inv_Containers inv) < 2 ^ 62 ∧
    len (Inv_Clusters inv) < 2 ^ 62 ∧ len (Inv_Regions inv) < 2 ^ 62
}.

Definition vmWith (uuid : string) (vms : list VM) : option VM := List.find (λ vm, VM_ExtID vm =s uuid) vms.

(** The first VM with the identifier, changed. *)
Fixpoint changeVM (uuid : string) (f : VM → VM) (vms : list VM) : list VM :=
  match vms with
  | [] => []
  | vm :: vms => if VM_ExtID vm =s uuid then f vm :: vms else vm :: changeVM uuid f vms
  end.

(** The list without the first VM with the identifier. *)
Fixpoint removeVM (uuid : string) (vms : list VM) : list VM :=
  match vms with
  | [] => []
  | vm :: vms => if VM_ExtID vm =s uuid then vms else vm :: removeVM uuid vms
  end.

Definition setInvVMs (vms : list VM) (i : Inventory) : Inventory :=
  mkInventory vms (Inv_Subnets i) (Inv_Containers i) (Inv_Clusters i) (Inv_Images i) (Inv_RecoveryPoints i) (Inv_Regions i) (Inv_Token i) (Inv_Made i).
Definition setInvImages (imgs : gmap string Image) (made : Z) (i : Inventory) : Inventory :=
  mkInventory (Inv_VMs i) (Inv_Subnets i) (Inv_Containers i) (Inv_Clusters i) imgs (Inv_RecoveryPoints i) (Inv_Regions i) (Inv_Token i) made.
Definition setInvPoints (rps : gmap string RecoveryPoint) (made : Z) (i : Inventory) : Inventory :=
  mkInventory (Inv_VMs i) (Inv_Subnets i) (Inv_Containers i) (Inv_Clusters i) (Inv_Images i) rps (Inv_Regions i) (Inv_Token i) made.

Section Client.
Context {K : Type} (E0 : Env K) `{P : Platform} (base : string) (c : httpClient).
Context (Hhost : HC_host c = base) (Hm : soundRetries c).

#[local] Instance mockEnv : Env (Mock.world K) := Mock.server base E0.

Implicit Types w : Mock.world K.

(** The request, as the mock receives it. *)
Definition arrives (method url : string) (body : option string) (path : string) (query : list (string * string)) : ServerRequest :=
  mkServerRequest method path query [] "" (default "" body).

Section Request.
Context (method url path : string) (query : list (string * string)) (body : option string).
Context (Hurl : urlTarget base url = Some (path, query)).

Lemma mock_accepts w : handle (Http (NewRequest method url)) w = (w, None).
Proof. unfold handle, mockEnv, Mock.server. by rewrite Hurl. Qed.

Lemma mock_answers w s resp :
  Mock.serveHTTP base (Mock.W_Store w) (arrives method url body path query) = Some (s, resp) →
  handle (Http (Do (HC_client c) (firstRequest c method url body))) w =
    (Mock.setStore s w, mkReply (String.length (default "" body)) (Ok resp)).
Proof.
  intros Hs. unfold handle, mockEnv, Mock.server, received. cbn [Req_URL firstRequest]. rewrite Hurl. simpl.
  unfold Mock.roundTrip, arrives in *. simpl. by rewrite Hs.
Qed.

Lemma served {A} (t : target A) w s resp a :
  Mock.serveHTTP base (Mock.W_Store w) (arrives method url body path query) = Some (s, resp) →
  200 ≤ Resp_StatusCode resp < 300 → decode t resp = Some a →
  yields (doJSON c t method url body) w (Mock.setStore s w) (Ok a).
Proof.
  intros Hs Hst Hd. eexists. eapply doJSON_at_once; [done|apply mock_accepts|by apply mock_answers|done| |done].
  unfold success. simpl. apply andb_true_iff. split; [apply Z.leb_le|apply Z.ltb_lt]; lia.
Qed.

(** The raw response of a request, or its refusal. *)
Lemma delivered w s resp :
  Mock.serveHTTP base (Mock.W_Store w) (arrives method url body path query) = Some (s, resp) →
  200 ≤ Resp_StatusCode resp < 300 → yields (doRequest c method url body) w (Mock.setStore s w) (Ok (Some resp)).
Proof.
  intros Hs Hst. eexists. eapply doRequest_at_once; [done|apply mock_accepts|by apply mock_answers|done|].
  unfold success. simpl. apply andb_true_iff. split; [apply Z.leb_le|apply Z.ltb_lt]; lia.
Qed.

Lemma undelivered w s resp :
  Mock.serveHTTP base (Mock.W_Store w) (arrives method url body path query) = Some (s, resp) →
  400 ≤ Resp_StatusCode resp < 429 →
  yields (doRequest c method url body) w (Mock.setStore s w) (Err (NutanixAPIError (Resp_StatusCode resp) (Resp_Body resp) url)).
Proof.
  intros Hs Hst. eexists. eapply doRequest_refused; [done|apply mock_accepts|by apply mock_answers|done| |]; unfold success, retryable; simpl.
  - apply andb_false_iff. right. apply Z.ltb_ge. lia.
  - apply orb_false_iff. split; [apply Z.eqb_neq|apply Z.leb_gt]; lia.
Qed.

(** A refusal that is not retried. *)
Lemma refused {A} (t : target A) w s resp :
  Mock.serveHTTP base (Mock.W_Store w) (arrives method url body path query) = Some (s, resp) →
  400 ≤ Resp_StatusCode resp < 429 →
  yields (doJSON c t method url body) w (Mock.setStore s w) (Err (NutanixAPIError (Resp_StatusCode resp) (Resp_Body resp) url)).
Proof.
  intros Hs Hst. eexists. eapply doJSON_refused; [done|apply mock_accepts|by apply mock_answers|done| |]; unfold success, retryable; simpl.
  - apply andb_false_iff. right. apply Z.ltb_ge. lia.
  - apply orb_false_iff. split; [apply Z.eqb_neq|apply Z.leb_gt]; lia.
Qed.

End Request.

(** ** A task *)

(** A task that was just created. *)
Definition freshTask (id : string) (entities : list TaskEntity) : Mock.TaskState :=
  Mock.mkTaskState (mkTask id TaskStatusQueued "" 0 [] entities) 0 2.

Definition polled (id : string) (entities : list TaskEntity) (status : string) (n percent : Z) : Mock.TaskState :=
  Mock.mkTaskState (mkTask id status "" percent [] entities) n 2.

Definition withTask (id : string) (ts : Mock.TaskState) (s : Mock.Store) : Mock.Store :=
  Mock.setTasks (<[id := ts]> (Mock.St_Tasks s)) (Mock.St_taskCounter s) s.

Lemma tasks_path id : plainID id → urlTarget base (taskURL c id) = Some (Mock.tasksPath +s+ id, []).
Proof.
  intros Hid. unfold taskURL. rewrite Hhost. by apply (url_entity base Mock.tasksPath).
Qed.

Lemma poll_once id w ts task : plainID id → Mock.St_Tasks (Mock.W_Store w) !! id = Some ts →
  Mock.TS_Task (Mock.advanceTask ts) = task → okTask task →
  yields (doJSON c taskTarget "GET" (taskURL c id) None) w
    (Mock.setStore (withTask id (Mock.advanceTask ts) (Mock.W_Store w)) w) (Ok task).
Proof.
  intros Hid Hts Ht Hok. eapply served; [by apply tasks_path| | |].
  - unfold Mock.serveHTTP, arrives. cbn [SR_Path].
    change (mux (Mock.registerRoutes base) (Mock.tasksPath +s+ id)) with (Some ("/api/prism/v4.0/config/tasks/", Mock.handleTask)).
    unfold Mock.handleTask. cbn [SR_Method SR_Path]. rewrite TrimPrefix_app. simpl negb. cbv iota.
    destruct (String.eqb_spec id "") as [->|_]; [by destruct Hid|]. unfold Mock.GetTask. rewrite Hts, Ht. reflexivity.
  - simpl. lia.
  - by apply (decode_encoded (e := encTask) (d := decTask)).
Qed.

Definition doneTask (id : string) (entities : list TaskEntity) : Task := mkTask id TaskStatusSucceeded "" 100 [] entities.

Lemma outcome_running id task : Task_Status task = TaskStatusRunning → taskOutcome id task = None.
Proof. intros H. unfold taskOutcome. by rewrite H. Qed.

Lemma outcome_succeeded id task : Task_Status task = TaskStatusSucceeded → taskOutcome id task = Some (Ok task).
Proof. intros H. unfold taskOutcome. by rewrite H. Qed.

(** A round of polling before the deadline. *)
Lemma poll_again fuel id interval timeout deadline w w1 w2 task r : Mock.W_Clock w ≤ deadline → 0 ≤ interval →
  yields (doJSON c taskTarget "GET" (taskURL c id) None) w w1 (Ok task) → Task_Status task = TaskStatusRunning →
  yields (pollLoop fuel c id interval timeout deadline) (Mock.wait interval w1) w2 r →
  yields (pollLoop (S fuel) c id interval timeout deadline) w w2 r.
Proof.
  intros Hd Hi Hj Ht Hk. cbn [pollLoop]. eapply yields_bind; [by apply (yields_call Now)|].
  destruct (Z.ltb_spec deadline (Mock.W_Clock w)); [lia|]. eapply yields_bind; [exact Hj|]. cbv beta iota.
  rewrite outcome_running by done. eapply yields_bind; [by apply (yields_call (Http (WaitTimer interval)))|]. exact Hk.
Qed.

Lemma poll_ends fuel id interval timeout deadline w w1 task : Mock.W_Clock w ≤ deadline →
  yields (doJSON c taskTarget "GET" (taskURL c id) None) w w1 (Ok task) → Task_Status task = TaskStatusSucceeded →
  yields (pollLoop (S fuel) c id interval timeout deadline) w w1 (Ok task).
Proof.
  intros Hd Hj Ht. cbn [pollLoop]. eapply yields_bind; [by apply (yields_call Now)|].
  destruct (Z.ltb_spec deadline (Mock.W_Clock w)); [lia|]. eapply yields_bind; [exact Hj|]. cbv beta iota.
  rewrite outcome_succeeded by done. apply yields_ret.
Qed.

(** The world after a task was polled until it was done. *)
Definition afterTask (id : string) (entities : list TaskEntity) (s : Mock.Store) (w : Mock.world K) : Mock.world K :=
  Mock.mkWorld (withTask id (polled id entities TaskStatusSucceeded 2 100) s) (Mock.W_Clock w + DefaultPollInterval) (Mock.W_Rest w).

Lemma withTask_twice id ts ts' s : withTask id ts' (withTask id ts s) = withTask id ts' s.
Proof. unfold withTask, Mock.setTasks. simpl. by rewrite insert_insert_eq. Qed.

(** The first poll finds the task running, the second finds it done. *)
Lemma poll_task fuel id entities w : (2 ≤ fuel)%nat → plainID id → Forall okTaskEntity entities →
  Mock.St_Tasks (Mock.W_Store w) !! id = Some (freshTask id entities) →
  yields (PollTask fuel c id) w (afterTask id entities (Mock.W_Store w) w) (Ok (doneTask id entities)).
Proof.
  intros Hf Hid Hent Hts. destruct fuel as [|[|fuel]]; [lia..|]. pose proof (plainID_okString id Hid) as Hok.
  assert (∀ status percent, okString status → in_int64 percent → okTask (mkTask id status "" percent [] entities)) as Htask
    by (intros; unfold okTask; cbn; do 4 (split; [done|]); by split).
  eapply yields_bind; [by apply (yields_call Now)|]. change DefaultPollTimeout with 1800000000000.
  eapply (poll_again _ _ _ _ _ _ _ _ (mkTask id TaskStatusRunning "" 50 [] entities)); [lia|done| |reflexivity|].
  { apply (poll_once id w (freshTask id entities) (mkTask id TaskStatusRunning "" 50 [] entities)); [done..|].
    apply Htask; [done|]. unfold in_int64. lia. }
  set (w1 := Mock.wait _ _). assert (Mock.W_Clock w1 = Mock.W_Clock w + 2000000000) as Hclock by done.
  replace (afterTask id entities (Mock.W_Store w) w) with
    (Mock.setStore (withTask id (Mock.advanceTask (polled id entities TaskStatusRunning 1 50)) (Mock.W_Store w1)) w1).
  2:{ unfold w1, Mock.setStore, Mock.wait, afterTask. simpl. by rewrite withTask_twice. }
  eapply poll_ends; [lia| |reflexivity].
  apply (poll_once id w1 (polled id entities TaskStatusRunning 1 50) (doneTask id entities)); [done| |done|].
  - unfold w1. simpl. apply lookup_insert_eq.
  - apply Htask; [done|]. unfold in_int64. lia.
Qed.

(** An operation that the mock answers with a new task. *)
Lemma run_task fuel op method url body path query w s id entities : (2 ≤ fuel)%nat →
  urlTarget base url = Some (path, query) →
  Mock.serveHTTP base (Mock.W_Store w) (arrives method url body path query) = Some (s, Mock.writeJSON 202 (Mock.taskRefBody id)) →
  plainID id → Forall okTaskEntity entities → Mock.St_Tasks s !! id = Some (freshTask id entities) →
  yields (runTask fuel c op method url body) w (afterTask id entities s w) (Ok (doneTask id entities)).
Proof.
  intros Hf Hurl Hs Hid Hent Hts. unfold runTask. eapply yields_bind.
  { eapply (served method url path query body Hurl taskRefResponse w s _ id); [exact Hs|simpl; lia|].
    apply (decode_encoded (e := encData encTaskRef) (d := decData decTaskRef)); [apply taskRef_data|done|by apply plainID_okString]. }
  cbv beta iota. destruct (String.eqb_spec id "") as [->|_]; [by destruct Hid|].
  eapply yields_bind; [by eapply (poll_task fuel id entities (Mock.setStore s w))|]. apply yields_ret.
Qed.

(** An operation that the mock refuses. *)
Lemma run_refused fuel op method url body path query w s resp :
  urlTarget base url = Some (path, query) →
  Mock.serveHTTP base (Mock.W_Store w) (arrives method url body path query) = Some (s, resp) →
  400 ≤ Resp_StatusCode resp < 429 →
  yields (runTask fuel c op method url body) w (Mock.setStore s w)
    (Err (opErr op (NutanixAPIError (Resp_StatusCode resp) (Resp_Body resp) url))).
Proof.
  intros Hurl Hs Hst. unfold runTask. eapply yields_bind; [by eapply refused|]. apply yields_ret.
Qed.

(** Time goes on, and the rest of the world is left alone. *)
Definition kept (w w' : Mock.world K) : Prop := Mock.W_Rest w' = Mock.W_Rest w ∧ Mock.W_Clock w ≤ Mock.W_Clock w'.

Lemma run_created fuel op method url body path query w s entities : (2 ≤ fuel)%nat →
  urlTarget base url = Some (path, query) →
  Mock.serveHTTP base (Mock.W_Store w) (arrives method url body path query) =
    (let '(s, t) := Mock.CreateTask entities 2 s in Some (s, Mock.writeJSON 202 (Mock.taskRefBody t))) →
  Forall okTaskEntity entities →
  ∃ w' id, yields (runTask fuel c op method url body) w w' (Ok (doneTask id entities)) ∧
    inventoryOf (Mock.W_Store w') = inventoryOf s ∧ kept w w'.
Proof.
  intros Hf Hurl Hs Hent. set (id := Mock.taskUUIDFromCounter (int64 (Mock.St_taskCounter s + 1))).
  eexists _, id. split; [eapply run_task; [done|done|exact Hs| |done|]|].
  - apply plainID_app; [done|done|apply Sprintf08d_chars].
  - simpl. apply lookup_insert_eq.
  - split; [done|]. split; [done|]. simpl. unfold DefaultPollInterval, Duration.Second. lia.
Qed.

(** ** VMs *)

Lemma route_vm rest : mux (Mock.registerRoutes base) ((vmBasePath +s+ "/") +s+ rest) =
  Some ("/api/vmm/v4.0/ahv/config/vms/", Mock.handleVMByID).
Proof. reflexivity. Qed.

Lemma serve_vm method url body id s : plainID id →
  Mock.serveHTTP base s (arrives method url body ((vmBasePath +s+ "/") +s+ id) []) =
    if method =s "GET" then Some (Mock.handleVMGet id s)
    else if method =s "DELETE" then Some (Mock.handleVMDelete id s) else Some (s, Mock.methodNotAllowed).
Proof.
  intros Hid. unfold Mock.serveHTTP, arrives. cbn [SR_Path]. rewrite route_vm. unfold Mock.handleVMByID. cbn [SR_Path SR_Method].
  by rewrite TrimPrefix_app, SplitN2_id.
Qed.

Lemma serve_vm_action method url body id action s : plainID id →
  Mock.serveHTTP base s (arrives method url body ((vmBasePath +s+ "/") +s+ id +s+ "/" +s+ action) []) =
    if (action =s "$actions/power-off") && (method =s "POST") then Some (Mock.handleVMPowerOff id s)
    else if (action =s "$actions/power-on") && (method =s "POST") then Some (Mock.handleVMPowerOn id s)
    else Some (s, Mock.writeError 404 "unknown action").
Proof.
  intros Hid. unfold Mock.serveHTTP, arrives. cbn [SR_Path]. rewrite route_vm. unfold Mock.handleVMByID. cbn [SR_Path SR_Method].
  by rewrite TrimPrefix_app, SplitN2_action.
Qed.

Lemma vm_url id : plainID id → urlTarget base (HC_host c +s+ vmBasePath +s+ "/" +s+ id) = Some ((vmBasePath +s+ "/") +s+ id, []).
Proof. intros Hid. rewrite Hhost. by apply (url_entity base (vmBasePath +s+ "/")). Qed.

Lemma vmWith_ok id vms vm : Forall okVM vms → vmWith id vms = Some vm → okVM vm.
Proof. intros Hok Hf. apply List.find_some in Hf as [Hin _]. rewrite Forall_forall in Hok. apply Hok. by apply list_elem_of_In. Qed.

Lemma setStore_same w : Mock.setStore (Mock.W_Store w) w = w.
Proof. by destruct w. Qed.

Lemma served_same {A} (t : target A) method url path query body w resp a :
  urlTarget base url = Some (path, query) →
  Mock.serveHTTP base (Mock.W_Store w) (arrives method url body path query) = Some (Mock.W_Store w, resp) →
  200 ≤ Resp_StatusCode resp < 300 → decode t resp = Some a → yields (doJSON c t method url body) w w (Ok a).
Proof. intros. rewrite <- (setStore_same w) at 2. by eapply served. Qed.

(** What an operation returns: a value, or some error. *)
Definition meets {A} (o : option A) (r : result A) : Prop := match o with Some a => r = Ok a | None => is_ok r = false end.

(** Reading one entity. *)
Lemma get_entity {A n ok} {zero : A} {e d} `{!CodecLaw n ok zero (encData e) (decData d)} name op path id w (o : option A) msg :
  slashed (path +s+ "/") → plainID id → n ≤ maxNestingDepth → (∀ a, o = Some a → ok a) →
  Mock.serveHTTP base (Mock.W_Store w) (arrives "GET" (HC_host c +s+ path +s+ "/" +s+ id) None ((path +s+ "/") +s+ id) []) =
    Some (match o with
          | None => (Mock.W_Store w, Mock.writeError 404 msg)
          | Some a => (Mock.W_Store w, Mock.writeJSON 200 (Mock.singleResponse (e a)))
          end) →
  ∃ a, yields (getEntity c (mkTarget name zero (decData d)) op path id) w w a ∧ meets o a.
Proof.
  intros Hp Hid Hn Hok Hs. unfold getEntity.
  assert (urlTarget base (HC_host c +s+ path +s+ "/" +s+ id) = Some ((path +s+ "/") +s+ id, [])) as Hurl.
  { rewrite Hhost, <- (append_assoc path "/" id). by apply url_entity. }
  destruct o as [a|]; simpl in Hs.
  - exists (Ok a). split; [|done]. eapply (yields_bind _ _ _ _ _ (Ok a)); [|apply yields_ret].
    eapply served_same; [exact Hurl|exact Hs|simpl; lia|]. apply (decode_encoded (e := encData e) (d := decData d)); auto using single_data.
  - eexists (Err _). split; [|done]. eapply yields_bind.
    + eapply refused; [exact Hurl|exact Hs|simpl; lia].
    + rewrite setStore_same. apply yields_ret.
Qed.

Lemma get_vm id w : plainID id → okInventory (inventoryOf (Mock.W_Store w)) →
  ∃ a, yields (ClientOps.GetVM c id) w w a ∧ meets (vmWith id (Inv_VMs (inventoryOf (Mock.W_Store w)))) a.
Proof.
  intros Hid Hok. apply (get_entity (e := encVM) _ _ vmBasePath _ _ _ "VM not found"); [done|done|done| |].
  - intros vm Hv. eapply vmWith_ok; [apply Hok|exact Hv].
  - rewrite serve_vm by done. simpl. unfold Mock.handleVMGet, Mock.GetVM.
    change (List.find _ _) with (vmWith id (Inv_VMs (inventoryOf (Mock.W_Store w)))). by destruct (vmWith _ _).
Qed.

(** ** Operations with a task *)

(** What an operation does: the new store, or nothing. *)
Definition effect (w w' : Mock.world K) (o : option Mock.Store) : Prop :=
  inventoryOf (Mock.W_Store w') = default (inventoryOf (Mock.W_Store w)) (inventoryOf <$> o) ∧ kept w w'.

Section TaskOp.
Context (fuel : nat) (Hf : (2 ≤ fuel)%nat).
Context (op method url path : string) (body : option string) (w : Mock.world K) (o : option Mock.Store).
Context (entities : list TaskEntity) (refusal : Response).
Context (Hurl : urlTarget base url = Some (path, [])) (Hent : Forall okTaskEntity entities).
Context (Hrefusal : 400 ≤ Resp_StatusCode refusal < 429).
Context (Hs : Mock.serveHTTP base (Mock.W_Store w) (arrives method url body path []) =
  match o with
  | Some s => let '(s, t) := Mock.CreateTask entities 2 s in Some (s, Mock.writeJSON 202 (Mock.taskRefBody t))
  | None => Some (Mock.W_Store w, refusal)
  end).

Lemma run_op : ∃ w' r, yields (runTask fuel c op method url body) w w' r ∧ effect w w' o ∧
  match o with Some _ => ∃ id, r = Ok (doneTask id entities) | None => is_ok r = false end.
Proof using Hf Hurl Hent Hrefusal Hs Hhost Hm.
  destruct o as [s|].
  - destruct (run_created fuel op method url body path [] w s entities Hf Hurl Hs Hent) as (w' & id & Hy & Hi & Hk).
    eexists w', _. split; [exact Hy|]. split; [by split|]. by exists id.
  - eexists w, _. split; [|split; [by split; [|split]|]].
    + rewrite <- (setStore_same w) at 2. by eapply run_refused.
    + done.
Qed.

Lemma unit_op : ∃ w' a, yields (r <- runTask fuel c op method url body ;; ret (asUnit r)) w w' a ∧ effect w w' o ∧ meets ((λ _, tt) <$> o) a.
Proof using Hf Hurl Hent Hrefusal Hs Hhost Hm.
  destruct run_op as (w' & r & Hy & He & Hr). eexists w', _. split; [eapply yields_bind; [exact Hy|apply yields_ret]|]. split; [done|].
  destruct o; simpl; [by destruct Hr as [id ->]|]. by destruct r.
Qed.

Lemma create_op what rel1 rel2 id : entities = [mkTaskEntity id rel1] →
  ∃ w' a, yields (r <- runTask fuel c op method url body ;; ret (createdBy op what rel1 rel2 r)) w w' a ∧ effect w w' o ∧ meets ((λ _, id) <$> o) a.
Proof using Hf Hurl Hent Hrefusal Hs Hhost Hm.
  intros Hid. destruct run_op as (w' & r & Hy & He & Hr). eexists w', _. split; [eapply yields_bind; [exact Hy|apply yields_ret]|].
  split; [done|]. destruct o; simpl; [|by destruct r]. destruct Hr as [t ->]. simpl. rewrite Hid. unfold affected. simpl. by rewrite String.eqb_refl.
Qed.

End TaskOp.

(** Powering a VM off and on. *)
Lemma setFirst_change id state vms :
  Mock.setFirst id state vms = (λ _, changeVM id (Mock.setPowerState state) vms) <$> vmWith id vms.
Proof.
  induction vms as [|vm vms IH]; [done|]. simpl. unfold vmWith. simpl. destruct (VM_ExtID vm =s id) eqn:E; [done|].
  rewrite IH. fold (vmWith id vms). by destruct (vmWith id vms).
Qed.

Definition powered (id state : string) (s : Mock.Store) : option Mock.Store :=
  (λ _, Mock.setVMs (changeVM id (Mock.setPowerState state) (Mock.St_VMs s)) s) <$> vmWith id (Mock.St_VMs s).

Lemma action_url id action : plainID id → slashed ("/" +s+ action) →
  urlTarget base (HC_host c +s+ vmBasePath +s+ "/" +s+ id +s+ "/" +s+ action) = Some ((vmBasePath +s+ "/") +s+ id +s+ "/" +s+ action, []).
Proof. intros Hid Ha. rewrite Hhost. by apply (url_action base (vmBasePath +s+ "/")). Qed.

Lemma vmEntity_ok id : plainID id → Forall okTaskEntity [Mock.vmEntity id].
Proof. intros Hid. constructor; [|constructor]. split; [by apply plainID_okString|done]. Qed.

Lemma power_off fuel id w : (2 ≤ fuel)%nat → plainID id →
  ∃ w' a, yields (ClientOps.PowerOffVM fuel c id) w w' a ∧ effect w w' (powered id "OFF" (Mock.W_Store w)) ∧
    meets ((λ _, tt) <$> powered id "OFF" (Mock.W_Store w)) a.
Proof.
  intros Hf Hid. eapply (unit_op fuel Hf _ "POST"); [by apply action_url|by apply vmEntity_ok| |].
  2:{ rewrite serve_vm_action by done. simpl. unfold Mock.handleVMPowerOff, Mock.SetVMPowerState, Mock.GetVM, powered. simpl.
      rewrite setFirst_change. fold (vmWith id (Mock.St_VMs (Mock.W_Store w))). by destruct (vmWith _ _). }
  simpl. lia.
Qed.

Lemma power_on fuel id w : (2 ≤ fuel)%nat → plainID id →
  ∃ w' a, yields (ClientOps.PowerOnVM fuel c id) w w' a ∧ effect w w' (powered id "ON" (Mock.W_Store w)) ∧
    meets ((λ _, tt) <$> powered id "ON" (Mock.W_Store w)) a.
Proof.
  intros Hf Hid. eapply (unit_op fuel Hf _ "POST"); [by apply action_url|by apply vmEntity_ok| |].
  2:{ rewrite serve_vm_action by done. simpl. unfold Mock.handleVMPowerOn, Mock.SetVMPowerState, Mock.GetVM, powered. simpl.
      rewrite setFirst_change. fold (vmWith id (Mock.St_VMs (Mock.W_Store w))). by destruct (vmWith _ _). }
  simpl. lia.
Qed.

Lemma power_state id w : plainID id → okInventory (inventoryOf (Mock.W_Store w)) →
  ∃ a, yields (ClientOps.GetVMPowerState c id) w w a ∧ meets (VM_PowerState <$> vmWith id (Inv_VMs (inventoryOf (Mock.W_Store w)))) a.
Proof.
  intros Hid Hok. destruct (get_vm id w Hid Hok) as (a & Hy & Ha). unfold ClientOps.GetVMPowerState.
  destruct (vmWith _ _) as [vm|]; simpl in *; [subst a|destruct a as [|e]; [done|]]; eexists; (split; [eapply yields_bind; [exact Hy|apply yields_ret]|done]).
Qed.

(** Deleting a VM. *)
Lemma removeFirst_remove id vms : Mock.removeFirst id vms = removeVM id vms.
Proof. induction vms as [|vm vms IH]; [done|]. simpl. by rewrite IH. Qed.

Definition withoutVM (id : string) (s : Mock.Store) : option Mock.Store :=
  (λ _, Mock.setVMs (removeVM id (Mock.St_VMs s)) s) <$> vmWith id (Mock.St_VMs s).

Lemma delete_vm fuel id w : (2 ≤ fuel)%nat → plainID id →
  ∃ w' a, yields (ClientOps.DeleteVM fuel c id) w w' a ∧ effect w w' (withoutVM id (Mock.W_Store w)) ∧
    meets ((λ _, tt) <$> withoutVM id (Mock.W_Store w)) a.
Proof.
  intros Hf Hid. eapply (unit_op fuel Hf _ "DELETE"); [by apply vm_url|by apply vmEntity_ok| |].
  2:{ rewrite serve_vm by done. simpl. unfold Mock.handleVMDelete, Mock.GetVM, withoutVM.
      fold (vmWith id (Mock.St_VMs (Mock.W_Store w))). destruct (vmWith _ _); [|done]. simpl. by rewrite removeFirst_remove. }
  simpl. lia.
Qed.

(** ** Images and recovery points *)

Definition withoutImage (id : string) (s : Mock.Store) : option Mock.Store :=
  (λ _, Mock.setImages (delete id (Mock.St_Images s)) s) <$> Mock.St_Images s !! id.
Definition withoutPoint (id : string) (s : Mock.Store) : option Mock.Store :=
  (λ _, Mock.setRecoveryPoints (delete id (Mock.St_RecoveryPoints s)) s) <$> Mock.St_RecoveryPoints s !! id.

Lemma route_image rest : mux (Mock.registerRoutes base) ((imageBasePath +s+ "/") +s+ rest) = Some ("/api/vmm/v4.0/images/", Mock.handleImageByID).
Proof. reflexivity. Qed.
Lemma route_point rest : mux (Mock.registerRoutes base) ((recoveryPointBasePath +s+ "/") +s+ rest) =
  Some ("/api/dataprotection/v4.0/config/recovery-points/", Mock.handleRecoveryPointByID).
Proof. reflexivity. Qed.

Lemma serve_image method url body id s : plainID id →
  Mock.serveHTTP base s (arrives method url body ((imageBasePath +s+ "/") +s+ id) []) =
    if method =s "GET" then Some (Mock.handleImageGet id s)
    else if method =s "DELETE" then Some (Mock.handleImageDelete id s) else Some (s, Mock.methodNotAllowed).
Proof.
  intros Hid. unfold Mock.serveHTTP, arrives. cbn [SR_Path]. rewrite route_image. unfold Mock.handleImageByID. cbn [SR_Path SR_Method].
  by rewrite TrimPrefix_app, SplitN2_id.
Qed.

Lemma serve_image_file url id s : plainID id →
  Mock.serveHTTP base s (arrives "GET" url None ((imageBasePath +s+ "/") +s+ id +s+ "/" +s+ "file") []) =
    Some (Mock.handleImageDownload id s (arrives "GET" url None ((imageBasePath +s+ "/") +s+ id +s+ "/" +s+ "file") [])).
Proof.
  intros Hid. unfold Mock.serveHTTP, arrives. cbn [SR_Path]. rewrite route_image. unfold Mock.handleImageByID. cbn [SR_Path SR_Method].
  by rewrite TrimPrefix_app, SplitN2_action.
Qed.

Lemma serve_point method url body id s : plainID id →
  Mock.serveHTTP base s (arrives method url body ((recoveryPointBasePath +s+ "/") +s+ id) []) =
    if method =s "GET" then Some (Mock.handleRecoveryPointGet id s)
    else if method =s "DELETE" then Some (Mock.handleRecoveryPointDelete id s) else Some (s, Mock.methodNotAllowed).
Proof.
  intros Hid. unfold Mock.serveHTTP, arrives. cbn [SR_Path]. rewrite route_point. unfold Mock.handleRecoveryPointByID. cbn [SR_Path SR_Method].
  by rewrite TrimPrefix_app, SplitN2_id.
Qed.

Lemma serve_point_clone url body id s : plainID id →
  Mock.serveHTTP base s (arrives "POST" url body ((recoveryPointBasePath +s+ "/") +s+ id +s+ "/" +s+ "$actions/vm-recovery") []) =
    Some (Mock.handleCloneVMFromRP id s (arrives "POST" url body ((recoveryPointBasePath +s+ "/") +s+ id +s+ "/" +s+ "$actions/vm-recovery") [])).
Proof.
  intros Hid. unfold Mock.serveHTTP, arrives. cbn [SR_Path]. rewrite route_point. unfold Mock.handleRecoveryPointByID. cbn [SR_Path SR_Method].
  by rewrite TrimPrefix_app, SplitN2_action.
Qed.

Lemma get_image id w : plainID id → okInventory (inventoryOf (Mock.W_Store w)) →
  ∃ a, yields (ClientOps.GetImage c id) w w a ∧ meets (Inv_Images (inventoryOf (Mock.W_Store w)) !! id) a.
Proof.
  intros Hid Hok. apply (get_entity (e := encImage) _ _ imageBasePath _ _ _ "image not found"); [done|done|done| |].
  - intros img Hi. exact (ok_images _ Hok id img Hi).
  - rewrite serve_image by done. simpl. unfold Mock.handleImageGet, Mock.GetImage. by destruct (_ !! id).
Qed.

Lemma get_point id w : plainID id → okInventory (inventoryOf (Mock.W_Store w)) →
  ∃ a, yields (ClientOps.GetRecoveryPoint c id) w w a ∧ meets (Inv_RecoveryPoints (inventoryOf (Mock.W_Store w)) !! id) a.
Proof.
  intros Hid Hok. apply (get_entity (e := encRecoveryPoint) _ _ recoveryPointBasePath _ _ _ "recovery point not found"); [done|done|done| |].
  - intros rp Hr. exact (ok_points _ Hok id rp Hr).
  - rewrite serve_point by done. simpl. unfold Mock.handleRecoveryPointGet, Mock.GetRecoveryPoint. by destruct (_ !! id).
Qed.

Lemma entity_ok id rel : plainID id → okString rel → Forall okTaskEntity [mkTaskEntity id rel].
Proof. intros Hid Hr. constructor; [|constructor]. split; [by apply plainID_okString|done]. Qed.

Lemma delete_image fuel id w : (2 ≤ fuel)%nat → plainID id →
  ∃ w' a, yields (ClientOps.DeleteImage fuel c id) w w' a ∧ effect w w' (withoutImage id (Mock.W_Store w)) ∧
    meets ((λ _, tt) <$> withoutImage id (Mock.W_Store w)) a.
Proof.
  intros Hf Hid. eapply (unit_op fuel Hf _ "DELETE").
  - rewrite Hhost. by apply (url_entity base (imageBasePath +s+ "/")).
  - by apply (entity_ok id "vmm:images:image").
  - shelve.
  - rewrite serve_image by done. simpl. unfold Mock.handleImageDelete, Mock.DeleteImage, withoutImage. by destruct (_ !! id).
  Unshelve. simpl. lia.
Qed.

Lemma delete_point fuel id w : (2 ≤ fuel)%nat → plainID id →
  ∃ w' a, yields (ClientOps.DeleteRecoveryPoint fuel c id) w w' a ∧ effect w w' (withoutPoint id (Mock.W_Store w)) ∧
    meets ((λ _, tt) <$> withoutPoint id (Mock.W_Store w)) a.
Proof.
  intros Hf Hid. eapply (unit_op fuel Hf _ "DELETE").
  - rewrite Hhost. by apply (url_entity base (recoveryPointBasePath +s+ "/")).
  - by apply (entity_ok id "dataprotection:config:recovery-point").
  - shelve.
  - rewrite serve_point by done. simpl. unfold Mock.handleRecoveryPointDelete, Mock.DeleteRecoveryPoint, withoutPoint. by destruct (_ !! id).
  Unshelve. simpl. lia.
Qed.

(** The request bodies are read back. *)
#[local] Ltac wellformed :=
  repeat first [ done | assumption | apply andb_true_iff; split | apply members_text; simpl
    | constructor; [split; [done|intros ? [= <-]; simpl]|] | constructor ].

Lemma imageBody_read name disk cluster : okString name → okString disk → okString cluster →
  parse (chars (imageBody name disk cluster)) ≫= Mock.decImageRequest ("", "") = Some (name, "DISK_IMAGE").
Proof.
  intros Hn Hd Hc. unfold imageBody. rewrite marshal_back; [|wellformed|done]. simpl.
  unfold Mock.decImageRequest, object, nested, encStruct.
  change (slot _ _ "name") with [encString name]. change (slot _ _ "type") with [encString "DISK_IMAGE"].
  unfold decField. simpl. by rewrite text_chars.
Qed.

Lemma recoveryPointBody_read vm name : okString vm → okString name →
  parse (chars (recoveryPointBody vm name)) ≫= Mock.decRecoveryPointRequest ("", []) = Some (name, [vm]).
Proof.
  intros Hv Hn. unfold recoveryPointBody. rewrite marshal_back; [|wellformed|done]. simpl.
  unfold Mock.decRecoveryPointRequest, object, nested, encStruct.
  change (slot _ _ "name") with [encString name]. change (slot _ _ "vmRecoveryPoints") with [JArray [nested [("vmExtId", encString vm)]]].
  unfold decField. simpl. by rewrite !text_chars.
Qed.

(** What is made is numbered by the server. *)
Definition imageID (n : Z) : string := "img-" +s+ Sprintf08d (int64 (n + 1)).
Definition pointID (n : Z) : string := "rp-" +s+ Sprintf08d (int64 (n + 1)).

Lemma imageID_plain n : plainID (imageID n).
Proof. apply plainID_app; [done|done|apply Sprintf08d_chars]. Qed.
Lemma pointID_plain n : plainID (pointID n).
Proof. apply plainID_app; [done|done|apply Sprintf08d_chars]. Qed.

Definition madeImage (name : string) (s : Mock.Store) : Mock.Store :=
  (Mock.AddImage (mkImage "" name "DISK_IMAGE" Mock.defaultImageSize "") s).1.
Definition madePoint (vm name : string) (s : Mock.Store) : Mock.Store :=
  (Mock.AddRecoveryPoint (mkRecoveryPoint "" name "" vm "" "APPLICATION_CONSISTENT") s).1.

Lemma create_image fuel name disk cluster w : (2 ≤ fuel)%nat → okString name → okString disk → okString cluster →
  ∃ w' a, yields (ClientOps.CreateImageFromDisk fuel c name disk cluster) w w' a ∧
    effect w w' (Some (madeImage name (Mock.W_Store w))) ∧ a = Ok (imageID (Mock.St_imageCounter (Mock.W_Store w))).
Proof.
  intros Hf Hn Hd Hc. eapply (create_op fuel Hf _ "POST") with (o := Some (madeImage name (Mock.W_Store w))) (refusal := Mock.methodNotAllowed).
  - rewrite Hhost. by apply (urlTarget_path base imageBasePath).
  - apply (entity_ok (imageID (Mock.St_imageCounter (Mock.W_Store w))) "vmm:images:image"); [apply imageID_plain|done].
  - simpl. lia.
  - unfold Mock.serveHTTP, arrives. cbn [SR_Path].
    change (mux (Mock.registerRoutes base) imageBasePath) with (Some ("/api/vmm/v4.0/images", Mock.handleImageCreate)).
    unfold Mock.handleImageCreate. cbn [SR_Method SR_Body from_option]; unfold id. simpl negb. cbv iota. by rewrite imageBody_read.
  - done.
Qed.

Lemma create_point fuel vm name w : (2 ≤ fuel)%nat → okString vm → okString name →
  ∃ w' a, yields (ClientOps.CreateRecoveryPoint fuel c vm name) w w' a ∧
    effect w w' (Some (madePoint vm name (Mock.W_Store w))) ∧ a = Ok (pointID (Mock.St_imageCounter (Mock.W_Store w))).
Proof.
  intros Hf Hv Hn. eapply (create_op fuel Hf _ "POST") with (o := Some (madePoint vm name (Mock.W_Store w))) (refusal := Mock.methodNotAllowed).
  - rewrite Hhost. by apply (urlTarget_path base recoveryPointBasePath).
  - apply (entity_ok (pointID (Mock.St_imageCounter (Mock.W_Store w))) "dataprotection:config:recovery-point"); [apply pointID_plain|done].
  - simpl. lia.
  - unfold Mock.serveHTTP, arrives. cbn [SR_Path].
    change (mux (Mock.registerRoutes base) recoveryPointBasePath) with
      (Some ("/api/dataprotection/v4.0/config/recovery-points", Mock.handleRecoveryPointCreate)).
    unfold Mock.handleRecoveryPointCreate. cbn [SR_Method SR_Body from_option]; unfold id. simpl negb. cbv iota. by rewrite recoveryPointBody_read.
  - done.
Qed.

(** Cloning a VM from a recovery point. *)
Definition cloneID (n : Z) : string := "clone-" +s+ Sprintf08d (int64 (n + 1)).
Definition cloneOf (id name : string) : VM :=
  mkVM id (if name =s "" then "cloned-vm" else name) "" "OFF" 0 0 0 0 "" None [] [] [] None.

Lemma cloneID_plain n : plainID (cloneID n).
Proof. apply plainID_app; [done|done|apply Sprintf08d_chars]. Qed.

Lemma cloneBody_read name : okString name →
  parse (chars (cloneBody name)) ≫= Mock.decCloneRequest [] = Some [name].
Proof.
  intros Hn. unfold cloneBody. rewrite marshal_back; [|wellformed|done]. simpl.
  unfold Mock.decCloneRequest, object, nested, encStruct.
  change (slot _ _ "vmRecoveryPoints") with [JArray [nested [("vmName", encString name)]]].
  unfold decField. simpl. by rewrite !text_chars.
Qed.

Definition cloned (rp name : string) (s : Mock.Store) : option Mock.Store :=
  (λ _, Mock.setVMs (Mock.St_VMs s ++ [cloneOf (cloneID (Mock.St_imageCounter s)) name]) (Mock.setCounter (Mock.nextID s) s))
    <$> Mock.St_RecoveryPoints s !! rp.

Lemma clone_vm fuel rp name w : (2 ≤ fuel)%nat → plainID rp → okString name →
  ∃ w' a, yields (ClientOps.CloneVMFromRecoveryPoint fuel c rp name) w w' a ∧ effect w w' (cloned rp name (Mock.W_Store w)) ∧
    meets ((λ _, cloneID (Mock.St_imageCounter (Mock.W_Store w))) <$> cloned rp name (Mock.W_Store w)) a.
Proof.
  intros Hf Hid Hn. eapply (create_op fuel Hf _ "POST") with (entities := [Mock.vmEntity (cloneID (Mock.St_imageCounter (Mock.W_Store w)))])
    (refusal := Mock.writeError 404 "recovery point not found").
  - rewrite Hhost. by apply (url_action base (recoveryPointBasePath +s+ "/") rp "/$actions/vm-recovery").
  - apply vmEntity_ok, cloneID_plain.
  - simpl. lia.
  - rewrite serve_point_clone by done. unfold Mock.handleCloneVMFromRP, Mock.GetRecoveryPoint, cloned. destruct (_ !! rp); [|done].
    cbn [SR_Body arrives from_option]; unfold id. rewrite cloneBody_read by done. unfold cloneOf. by destruct (name =s "").
  - done.
Qed.

(** Downloading an image: its bytes go to the writer, which is around the server. *)
Definition imageBytes (img : Image) : string :=
  Mock.imageData (if Image_SizeBytes img <=? 0 then 4096 else Image_SizeBytes img).

Definition written (o : option Image) (k : K) : K * result unit :=
  match o with
  | None => (k, Err (newErr "not found"))
  | Some img => let '(k, err) := E0 (Http (WriteOut (imageBytes img))) k in (k, match err with Some e => Err e | None => Ok tt end)
  end.

Lemma download id w : plainID id →
  let '(k, r) := written (Mock.St_Images (Mock.W_Store w) !! id) (Mock.W_Rest w) in
  ∃ a, yields (ClientOps.DownloadImage c id) w (Mock.mkWorld (Mock.W_Store w) (Mock.W_Clock w) k) a ∧ is_ok a = is_ok r.
Proof.
  intros Hid. unfold ClientOps.DownloadImage, written.
  assert (urlTarget base (HC_host c +s+ imageBasePath +s+ "/" +s+ id +s+ "/file") = Some ((imageBasePath +s+ "/") +s+ id +s+ "/" +s+ "file", [])) as Hurl.
  { rewrite Hhost. by apply (url_action base (imageBasePath +s+ "/") id "/file"). }
  pose proof (serve_image_file (HC_host c +s+ imageBasePath +s+ "/" +s+ id +s+ "/file") id (Mock.W_Store w) Hid) as Hs.
  unfold Mock.handleImageDownload, Mock.GetImage in Hs. change (SR_Range _ =s "") with true in Hs. cbv iota zeta in Hs. destruct (_ !! id) as [img|].
  - destruct (E0 _ _) as [k err] eqn:He.
    assert (∀ a, yields (match err with Some e => ret (Err (wrapErr "nutanix client: DownloadImage: failed to stream image data" e)) | None => ret (Ok tt) end)
      (Mock.mkWorld (Mock.W_Store w) (Mock.W_Clock w) k) (Mock.mkWorld (Mock.W_Store w) (Mock.W_Clock w) k) a →
      yields (ClientOps.DownloadImage c id) w (Mock.mkWorld (Mock.W_Store w) (Mock.W_Clock w) k) a) as Hrun.
    { intros a Ha. eapply yields_bind; [eapply delivered; [exact Hurl|exact Hs|simpl; lia]|]. cbv beta iota. rewrite setStore_same.
      eapply (yields_bind _ _ _ _ _ err); [|by destruct err].
      eapply (yields_call (Http (WriteOut _))). unfold handle, mockEnv, Mock.server, Mock.delegate, handle.
      change (Resp_Body _) with (imageBytes img). by rewrite He. }
    destruct err; eexists; (split; [apply Hrun, yields_ret|done]).
  - eexists (Err _). split; cycle 1; [|eapply yields_bind; [eapply undelivered; [exact Hurl|exact Hs|simpl; lia]|]].
    2:{ rewrite setStore_same. destruct w. apply yields_ret. }
    done.
Qed.

(** ** Listings *)

Lemma meta_back total : in_int64 total →
  decListMetadata zeroListMetadata (nested [("totalAvailableResults", encInt total)]) = Some (mkListMetadata total 0).
Proof.
  intros Ht. unfold decListMetadata, object, nested, encStruct. change (slot _ _ "totalAvailableResults") with [encInt total].
  change (slot _ _ "offset") with (@nil json). change (decField decInt ?o [?j]) with (decInt o j).
  by rewrite (codec_back (e := encInt)).
Qed.

(** A page of the mock, read back. *)
Lemma page_back {A n ok} {zero : A} {e d} `{!CodecLaw n ok zero e d} (l : list A) total : Forall ok l → in_int64 total →
  decList zero d zeroList (Mock.paginatedResponse (JArray (e <$> l)) total) = Some (mkListResponse l (Some (mkListMetadata total 0))).
Proof.
  intros Hl Ht. unfold decList, object, Mock.paginatedResponse, nested at 1, encStruct at 1.
  change (slot _ _ "data") with [JArray (e <$> l)]. change (slot _ _ "metadata") with [nested [("totalAvailableResults", encInt total)]].
  change (decField ?f ?o [?j]) with (f o j). change (decSlice zero d _ (JArray ?js)) with (decElems zero d [] js).
  rewrite (elems_back n ok zero e d) by done. change (decPtr _ decListMetadata _ ?j) with (Some <$> decListMetadata zeroListMetadata j).
  by rewrite meta_back.
Qed.

Lemma page_written {A n ok} {zero : A} {e d} `{!CodecLaw n ok zero e d} name (l : list A) total :
  0 ≤ n ≤ 9998 → Forall ok l → in_int64 total →
  decode (mkTarget name zeroList (decList zero d)) (Mock.writeJSON 200 (Mock.paginatedResponse (JArray (e <$> l)) total)) =
    Some (mkListResponse l (Some (mkListMetadata total 0))).
Proof.
  intros Hn Hl Ht. apply decode_written; [| |by apply page_back].
  - apply members_text. simpl. repeat constructor; simpl; intros ? [= <-]; [by eapply elems_text|].
    simpl. by rewrite itoa_number.
  - apply members_depth; [done|]. repeat constructor; simpl; intros ? [= <-]; [|done].
    pose proof (elems_depth n ok zero e d _ ltac:(lia) l). unfold maxNestingDepth. simpl in *. lia.
Qed.

Lemma itoa_plain k : 0 ≤ k → forallb plainChar (chars (itoa k)) = true.
Proof.
  intros Hk. pose proof (itoa_digits k Hk) as Hd. rewrite Forall_forall in Hd. apply forallb_forall. intros x Hx.
  unfold plainChar. by rewrite Hd by by apply list_elem_of_In.
Qed.

Lemma itoa_some k : (itoa k =s "") = false.
Proof. apply String.eqb_neq. intros E. apply (itoa_nonempty k). by rewrite E. Qed.

Definition pageQuery (k : Z) : list (string * string) := [("$top", "500"); ("$skip", itoa k)].

Lemma pageURL_target path k : slashed path → 0 ≤ k → urlTarget base (pageURL c path k) = Some (path, pageQuery k).
Proof.
  intros [Hp Ht] Hk. unfold pageURL. rewrite Hhost.
  replace (base +s+ path +s+ _) with (base +s+ path +s+ "?" +s+ text (printQuery (pageQuery k))).
  - apply urlTarget_query; try done. constructor; [done|]. constructor; [|constructor]. split; [done|]. by apply itoa_plain.
  - do 2 f_equal. apply chars_inj. by rewrite !chars_app, chars_text.
Qed.

Lemma number_param q key good dflt k : queryGet q key = itoa k → 0 ≤ k < 2 ^ 63 → good k = true → Mock.numberParam q key good dflt = k.
Proof. intros Hq Hk Hg. unfold Mock.numberParam. by rewrite Hq, itoa_some, ParseInt_itoa, Hg. Qed.

Lemma slice_page {A} (l : list A) k n : 0 ≤ k < len l → len l < 2 ^ 62 → 0 ≤ n < 2 ^ 62 →
  Mock.slice l k (Z.min (int64 (k + n)) (len l)) = Some (take (Z.to_nat n) (drop (Z.to_nat k) l)).
Proof.
  intros Hk Hl Hn. rewrite int64_id by (unfold in_int64; lia). unfold Mock.slice.
  assert ((0 <=? k) && (k <=? Z.min (k + n) (len l)) && (Z.min (k + n) (len l) <=? len l) = true) as ->.
  { rewrite !andb_true_iff, !Z.leb_le. lia. }
  f_equal. unfold len in *. destruct (Z.le_gt_cases (k + n) (Z.of_nat (length l))).
  - f_equal. lia.
  - rewrite !take_ge by (rewrite length_drop; lia). done.
Qed.

Section Listing.
Context {A : Type} {n : Z} {ok : A → Prop} {zero : A} {e : A → json} {d : decoder A} `{Hc : !CodecLaw n ok zero e d}.
Context (Hn : 0 ≤ n ≤ 9998) (name op path : string) (data : Mock.Store → list A) (w : Mock.world K).
Context (Hpath : slashed path) (Hroute : ∃ p, mux (Mock.registerRoutes base) path = Some (p, Mock.listHandler e data)).
Context (Hok : Forall ok (data (Mock.W_Store w))) (Hlen : len (data (Mock.W_Store w)) < 2 ^ 62).

#[local] Notation all := (data (Mock.W_Store w)).

Lemma list_page k : 0 ≤ k < 2 ^ 62 →
  yields (doJSON c (mkTarget name zeroList (decList zero d)) "GET" (pageURL c path k) None) w w
    (Ok (mkListResponse (take 500 (drop (Z.to_nat k) all)) (Some (mkListMetadata (len all) 0)))).
Proof using Hc Hhost Hlen Hm Hn Hok Hpath Hroute.
  intros Hk. assert (0 ≤ len all) by (unfold len; lia).
  eapply served_same; [by apply pageURL_target; [|lia]| | |apply (page_written (e := e)); [done|by apply Forall_take, Forall_drop|unfold in_int64; lia]].
  2:{ simpl. lia. }
  unfold Mock.serveHTTP, arrives. cbn [SR_Path]. destruct Hroute as [p ->]. unfold Mock.listHandler, Mock.parsePagination.
  cbn [SR_Method SR_Query]. simpl negb. cbv iota. rewrite (number_param _ "$top" _ _ 500) by done.
  rewrite (number_param _ "$skip" _ _ k); [|done|lia|apply Z.leb_le; lia].
  destruct (Z.leb_spec (len all) k).
  - rewrite drop_ge by (unfold len in *; lia). done.
  - rewrite slice_page by lia. done.
Qed.

Lemma list_all fuel : ∀ k, (length all < k + 500 * fuel)%nat → (0 < fuel)%nat → (k = 0 ∨ k < length all)%nat →
  yields (listPages fuel c (mkTarget name zeroList (decList zero d)) op path (take k all) (Z.of_nat k)) w w (Ok all).
Proof using Hc Hhost Hlen Hm Hn Hok Hpath Hroute.
  induction fuel as [|fuel IH]; intros k Hfuel Hpos Hk; [lia|]. cbn [listPages].
  eapply yields_bind; [apply list_page; unfold len in *; lia|]. cbn [List_Data List_Metadata Meta_TotalAvailableResults].
  rewrite Nat2Z.id, take_take_drop. assert (length (take (k + 500) all) = Nat.min (k + 500) (length all)) as Hl by apply length_take.
  unfold len at 1 2. rewrite Hl. destruct (Z.leb_spec (Z.of_nat (length all)) (Z.of_nat (Nat.min (k + 500) (length all)))).
  - rewrite take_ge by lia. apply yields_ret.
  - unfold pageSize. rewrite int64_id by (unfold in_int64, len in *; lia).
    replace (Z.of_nat k + 500) with (Z.of_nat (k + 500)) by lia. apply IH; lia.
Qed.

Lemma list_lists fuel : (length all < 500 * fuel)%nat →
  yields (listPages fuel c (mkTarget name zeroList (decList zero d)) op path [] 0) w w (Ok all).
Proof using Hc Hhost Hlen Hm Hn Hok Hpath Hroute. intros Hf. apply (list_all fuel 0); lia. Qed.

End Listing.

Section Lists.
Context (fuel : nat) (w : Mock.world K) (Hok : okInventory (inventoryOf (Mock.W_Store w))).

#[local] Notation inv := (inventoryOf (Mock.W_Store w)).

Lemma list_vms : (length (Inv_VMs inv) < 500 * fuel)%nat → yields (ClientOps.ListVMs fuel c) w w (Ok (Inv_VMs inv)).
Proof using Hhost Hm Hok.
  intros Hf. refine (list_lists (e := encVM) _ _ _ vmBasePath Mock.St_VMs w _ _ (ok_vms _ Hok) _ fuel Hf);
    [lia|done|by eexists|apply (ok_sizes _ Hok)].
Qed.

Lemma list_subnets : (length (Inv_Subnets inv) < 500 * fuel)%nat → yields (ClientOps.ListSubnets fuel c) w w (Ok (Inv_Subnets inv)).
Proof using Hhost Hm Hok.
  intros Hf. refine (list_lists (e := encSubnet) _ _ _ subnetBasePath Mock.St_Subnets w _ _ (ok_subnets _ Hok) _ fuel Hf);
    [lia|done|by eexists|apply (ok_sizes _ Hok)].
Qed.

Lemma list_clusters : (length (Inv_Clusters inv) < 500 * fuel)%nat → yields (ClientOps.ListClusters fuel c) w w (Ok (Inv_Clusters inv)).
Proof using Hhost Hm Hok.
  intros Hf. refine (list_lists (e := encCluster) _ _ _ clusterBasePath Mock.St_Clusters w _ _ (ok_clusters _ Hok) _ fuel Hf);
    [lia|done|by eexists|apply (ok_sizes _ Hok)].
Qed.

End Lists.

Lemma list_containers pe w : TrimRight pe "/" = base → okInventory (inventoryOf (Mock.W_Store w)) →
  yields (ClientOps.ListStorageContainers c pe) w w (Ok (Inv_Containers (inventoryOf (Mock.W_Store w)))).
Proof.
  intros Hpe Hok. unfold ClientOps.ListStorageContainers. rewrite Hpe. set (cs := Inv_Containers _). eapply yields_bind.
  - eapply served_same; [by apply (urlTarget_path base storageContainerV2Path)|reflexivity|simpl; lia|].
    apply (decode_encoded (e := encV2Response) (d := decV2Response)) with
      (a := mkStorageContainerV2Response cs (Some (mkV2Metadata (len cs) (len cs)))); [|done|].
    + with_strategy transparent [always] reflexivity.
    + destruct (ok_sizes _ Hok) as (_ & _ & Hl & _). fold cs in Hl. assert (in_int64 (len cs)) by (unfold in_int64, len in *; lia).
      split; [apply Hok|by split].
  - apply yields_ret.
Qed.

(** ** Changed regions *)

Context (Hbase : TrimRight base "/" = base ∧ okString base ∧ base ≠ "").

Definition clusterInfo (w : Mock.world K) : CBTClusterInfo := mkCBTClusterInfo base (Mock.cbtToken (Mock.W_Store w)).

Lemma discover toks vm w : okInventory (inventoryOf (Mock.W_Store w)) → okString vm →
  yields (ClientOps.DiscoverClusterForCBT c toks vm) w w
    (<[vm := mkCbtTokenEntry base (Mock.cbtToken (Mock.W_Store w)) (Mock.W_Clock w)]> toks, Ok (clusterInfo w)).
Proof.
  intros Hok Hvm. destruct Hbase as (_ & Hb & Hne). destruct (ok_token _ Hok) as (Ht & Htn & _). simpl in Ht, Htn.
  unfold ClientOps.DiscoverClusterForCBT. eapply yields_bind.
  - rewrite Hhost. eapply served_same; [by apply (urlTarget_path base cbtDiscoverPath)|reflexivity|simpl; lia|].
    apply (decode_encoded (e := encData encCBTClusterInfo) (d := decData decCBTClusterInfo)) with (a := clusterInfo w); [|done|by split].
    with_strategy transparent [always] reflexivity.
  - cbv beta iota. cbn [CBT_PrismElementURL CBT_JWTToken clusterInfo]. rewrite (proj2 (String.eqb_neq _ _) Hne), (proj2 (String.eqb_neq _ _) Htn).
    cbv iota. eapply yields_bind; [by apply (yields_call Now)|apply yields_ret].
Qed.

(** A page of three regions. *)
Definition regionsPage (regions : list ChangedRegion) (offset : Z) : ChangedRegions :=
  mkChangedRegions (take 3 (drop (Z.to_nat offset) regions)) (if offset + 3 <? len regions then Some (offset + 3) else None).

Lemma regionsPage_ok regions offset : Forall okChangedRegion regions → 0 ≤ offset → len regions < 2 ^ 62 →
  okChangedRegions (regionsPage regions offset).
Proof.
  intros Hr Ho Hl. split; [by apply Forall_take, Forall_drop|]. simpl. destruct (Z.ltb_spec (offset + 3) (len regions)); [|done].
  unfold okPtr, in_int64. lia.
Qed.

(** A query whose parameters are written without escapes. *)
Definition plainQuery (vm snap baseSnap : string) (offset length blockSize : Z) : Prop :=
  forallb plainChar (chars vm) = true ∧ forallb plainChar (chars snap) = true ∧ forallb plainChar (chars baseSnap) = true ∧
  0 ≤ offset < 2 ^ 62 ∧ 0 ≤ length ∧ 0 ≤ blockSize.

Definition regionsQuery (vm snap baseSnap : string) (offset length blockSize : Z) : list (string * string) :=
  [("vmExtId", vm); ("snapshotExtId", snap); ("baseSnapshotExtId", baseSnap); ("offset", itoa offset); ("length", itoa length);
   ("blockSize", itoa blockSize)].

Lemma regionsURL_target pe vm snap baseSnap offset length blockSize : TrimRight pe "/" = base →
  plainQuery vm snap baseSnap offset length blockSize →
  urlTarget base (regionsURL pe vm snap baseSnap offset length blockSize) =
    Some (cbtChangedRegionsPath, regionsQuery vm snap baseSnap offset length blockSize).
Proof.
  intros Hpe (Hv & Hs & Hb & Ho & Hl & Hbs). unfold regionsURL. rewrite Hpe.
  replace (base +s+ cbtChangedRegionsPath +s+ _) with
    (base +s+ cbtChangedRegionsPath +s+ "?" +s+ text (printQuery (regionsQuery vm snap baseSnap offset length blockSize))).
  - apply urlTarget_query; try done. repeat constructor; simpl; try done; apply itoa_plain; lia.
  - do 2 f_equal. apply chars_inj. rewrite !chars_app, chars_text. unfold printQuery, printParam. simpl.
    repeat (rewrite <- ?app_assoc; simpl). done.
Qed.

Section Regions.
Context (w : Mock.world K) (Hok : okInventory (inventoryOf (Mock.W_Store w))).
Context (vm snap baseSnap : string) (offset length blockSize : Z) (Hq : plainQuery vm snap baseSnap offset length blockSize).

#[local] Notation regions := (Inv_Regions (inventoryOf (Mock.W_Store w))).
#[local] Notation token := (Inv_Token (inventoryOf (Mock.W_Store w))).

(** What the handler answers. *)
Lemma serve_regions jwt :
  ∃ resp, Mock.serveHTTP base (Mock.W_Store w) (mkServerRequest "GET" cbtChangedRegionsPath
      (regionsQuery vm snap baseSnap offset length blockSize) [(CBTJWTCookieName, jwt)] "" "") = Some (Mock.W_Store w, resp) ∧
    if jwt =s token then resp = Mock.writeJSON 200 (encData encChangedRegions (regionsPage regions offset))
    else Resp_StatusCode resp = 401.
Proof using Hok Hq.
  unfold Mock.serveHTTP. cbn [SR_Path].
  change (mux (Mock.registerRoutes base) cbtChangedRegionsPath) with (Some (cbtChangedRegionsPath, Mock.handleCBTChangedRegions)).
  unfold Mock.handleCBTChangedRegions. cbn [SR_Method SR_Query]. simpl negb. cbv iota.
  change (Mock.cookie _ CBTJWTCookieName) with (Some jwt). cbv iota. change (Mock.cbtToken (Mock.W_Store w)) with token.
  destruct (ok_token _ Hok) as (_ & Hne & _).
  destruct (String.eqb_spec jwt token) as [->|Hjwt].
  2:{ destruct (jwt =s ""); eexists; split; reflexivity. }
  rewrite (proj2 (String.eqb_neq _ _) Hne). cbn [negb]. destruct Hq as (_ & _ & _ & Ho & _).
  rewrite (number_param _ "offset" _ _ offset); [|done|lia|apply Z.leb_le; lia].
  change (Mock.CBTC_ChangedRegions _) with regions. destruct (ok_sizes _ Hok) as (_ & _ & _ & _ & Hl).
  assert (0 ≤ len regions) as H0 by (unfold len; lia).
  destruct (Z.leb_spec (len regions) offset) as [Hge|Hlt]; eexists.
  - split; [reflexivity|]. unfold regionsPage. rewrite drop_ge by (unfold len in *; lia). simpl take.
    destruct (Z.ltb_spec (offset + 3) (len regions)); [lia|]. with_strategy transparent [always] reflexivity.
  - unfold Mock.cbtPageSize. rewrite slice_page by lia. rewrite int64_id by (unfold in_int64; lia). split; [reflexivity|].
    unfold regionsPage. change (Z.to_nat 3) with 3%nat.
    replace (Z.min (offset + 3) (len regions) <? len regions) with (offset + 3 <? len regions)
      by (destruct (Z.ltb_spec (offset + 3) (len regions)), (Z.ltb_spec (Z.min (offset + 3) (len regions)) (len regions)); lia || done).
    destruct (Z.ltb_spec (offset + 3) (len regions)).
    + replace (Z.min (offset + 3) (len regions)) with (offset + 3) by lia. with_strategy transparent [always] reflexivity.
    + with_strategy transparent [always] reflexivity.
Qed.

Lemma query_regions pe jwt : TrimRight pe "/" = base →
  ∃ a, yields (queryRegions c (regionsURL pe vm snap baseSnap offset length blockSize) jwt) w w a ∧
    meets (if cookieValue jwt =s token then Some (regionsPage regions offset) else None) a.
Proof using Hok Hq.
  intros Hpe. pose proof (regionsURL_target pe vm snap baseSnap offset length blockSize Hpe Hq) as Hurl.
  destruct (serve_regions (cookieValue jwt)) as (resp & Hs & Hr).
  set (url := regionsURL _ _ _ _ _ _ _) in *.
  assert (∃ rep, Reply_Result rep = Ok resp ∧ handle (Http (Do (HC_client c) (mkRequest "GET" url (Cookie CBTJWTCookieName jwt)
    "application/json" None None))) w = (w, rep)) as (rep & Hrep & Hdo).
  { eexists (mkReply 0 (Ok resp)). split; [done|]. unfold handle, mockEnv, Mock.server, received. cbn [Req_URL]. rewrite Hurl. simpl.
    unfold Mock.roundTrip. rewrite Hs. by rewrite setStore_same. }
  assert (∀ a, (let status := Resp_StatusCode resp in
      if (status <? 200) || (300 <=? status) then a = Err (NutanixAPIError status (Resp_Body resp) url)
      else ∃ r, decode changedRegionsResponse resp = Some r ∧ a = Ok r) → yields (queryRegions c url jwt) w w a) as Hrun.
  { intros a Ha. unfold queryRegions. eapply yields_bind; [by eapply (yields_call (Http (NewRequest "GET" url))), mock_accepts|].
    cbv beta iota. eapply yields_bind; [by eapply (yields_call (Http (Do _ _)))|]. rewrite Hrep. cbv beta iota zeta in *.
    destruct ((_ <? 200) || _); [subst a; apply yields_ret|]. destruct Ha as (r & -> & ->). apply yields_ret. }
  destruct (cookieValue jwt =s token).
  - exists (Ok (regionsPage regions offset)). split; [|done]. apply Hrun. subst resp. eexists. split; [|done].
    apply (decode_encoded (e := encData encChangedRegions) (d := decData decChangedRegions)); [done|done|].
    destruct (ok_sizes _ Hok) as (_ & _ & _ & _ & Hl). destruct Hq as (_ & _ & _ & Ho & _). apply regionsPage_ok; [apply Hok|lia|done].
  - eexists (Err _). split; [|done]. apply Hrun. by rewrite Hr.
Qed.

(** The query goes out with a fresh token when the one in the cache is too old, and otherwise with
    the caller's. *)
Definition refreshes (toks : tokens) (now : Z) (vm : string) : bool :=
  match toks !! vm with Some entry => CBTTokenMaxAge <? now - Token_discoveredAt entry | None => false end.

Lemma get_regions toks pe jwt : TrimRight pe "/" = base → okString vm →
  ∃ toks' a, yields (ClientOps.GetChangedRegions c toks pe jwt vm snap baseSnap offset length blockSize) w w (toks', a) ∧
    meets (if refreshes toks (Mock.W_Clock w) vm || (cookieValue jwt =s token) then Some (regionsPage regions offset) else None) a.
Proof using Hbase Hhost Hm Hok Hq.
  intros Hpe Hvm. set (refresh := refreshes toks (Mock.W_Clock w) vm).
  assert (yields (tokenExpired toks vm) w w refresh) as Hrefresh.
  { unfold tokenExpired, refresh, refreshes. destruct (toks !! vm); [|apply yields_ret]. eapply yields_bind; [by apply (yields_call Now)|apply yields_ret]. }
  assert (∃ toks' info, yields (if refresh : bool then ClientOps.DiscoverClusterForCBT c toks vm
      else ret (toks, Ok (mkCBTClusterInfo pe jwt))) w w (toks', Ok info) ∧ TrimRight (CBT_PrismElementURL info) "/" = base ∧
      CBT_JWTToken info = if refresh then token else jwt) as (toks' & info & Hinfo & Hurl & Htok).
  { destruct refresh.
    - eexists _, _. split; [by apply discover|]. split; [apply Hbase|done].
    - eexists _, _. split; [apply yields_ret|done]. }
  destruct (query_regions (CBT_PrismElementURL info) (CBT_JWTToken info) Hurl) as (a & Ha & Hmeets).
  exists toks', a. split.
  { eapply yields_bind; [exact Hrefresh|]. eapply yields_bind; [exact Hinfo|]. cbv beta iota. eapply yields_bind; [exact Ha|apply yields_ret]. }
  rewrite Htok in Hmeets. destruct refresh; [|done]. destruct (ok_token _ Hok) as (_ & _ & Hval%cookieValue_id).
  by rewrite Hval, String.eqb_refl in Hmeets.
Qed.

End Regions.

End Client.
