(* ===== verification/Sanitize.v ===== *)
(** * VM name sanitisation (internal/builder/sanitize.go)

    [SanitizeName] turns a Nutanix VM name into a Kubernetes DNS-1123 label,
    away from the names already taken. *)

From S2P Require Import Prelude GoLib.
From Stdlib Require Import DecimalString DecimalPos.

Definition maxNameLength : nat := 63.

Definition hyphen : ascii := "-".

(** ** The transformation *)

(** The [strings.NewReplacer] pass: space, underscore and parentheses. *)
Definition replaceSeparator (c : ascii) : ascii :=
  if Ascii.eqb c " " || Ascii.eqb c "_" || Ascii.eqb c "(" || Ascii.eqb c ")" then hyphen else c.

Definition isNameChar (c : ascii) : bool := is_lower c || is_digit c || Ascii.eqb c hyphen.

(** The [[^a-z0-9-]] pass. A multi-byte rune gives one hyphen in Go and one per
    byte here; the next pass collapses both to the same text. *)
Definition replaceNonAlphanum (c : ascii) : ascii := if isNameChar c then c else hyphen.

(** The [-{2,}] pass. *)
Fixpoint collapseHyphens (l : list ascii) : list ascii :=
  match l with
  | c :: r =>
      match r with
      | d :: _ => if Ascii.eqb c hyphen && Ascii.eqb d hyphen then collapseHyphens r
                  else c :: collapseHyphens r
      | [] => [c]
      end
  | [] => []
  end.

(** Everything before collision handling. *)
Definition baseName (l : list ascii) : list ascii :=
  let l := toLowerL l in
  let l := replaceSeparator <$> l in
  let l := replaceNonAlphanum <$> l in
  let l := collapseHyphens l in
  let l := trimL hyphen l in
  let l := if (maxNameLength <? length l)%nat then trimRightL hyphen (take maxNameLength l) else l in
  match l with [] => ["v"; "m"]%char | _ => l end.

(** The name tried in round [i] of the collision loop. *)
Definition candidate (s : list ascii) (i : Z) : list ascii :=
  let suffix := hyphen :: chars (itoa i) in
  let s := if (maxNameLength <? length s + length suffix)%nat
           then trimRightL hyphen (take (maxNameLength - length suffix) s) else s in
  s ++ suffix.

(** The unbounded loop [for i := 2; ; i++]; [None] when the fuel runs out. *)
Fixpoint resolveCollision (fuel : nat) (i : Z) (s : list ascii) (existing : gset string) : option string :=
  match fuel with
  | O => None
  | S fuel =>
      let c := text (candidate s i) in
      if bool_decide (c ∈ existing) then resolveCollision fuel (i + 1) s existing else Some c
  end.

(** [existingNames == nil] is [None]; a map is the set of its true keys. *)
Definition sanitizeFuel (fuel : nat) (name : string) (existingNames : option (gset string)) : option string :=
  let s := baseName (chars name) in
  match existingNames with
  | None => Some (text s)
  | Some existing =>
      if bool_decide (text s ∈ existing) then resolveCollision fuel 2 s existing else Some (text s)
  end.

(** One round more than there are names taken is always enough
    ([sanitize_terminates]). *)
Definition SanitizeName (name : string) (existingNames : option (gset string)) : string :=
  default "" (sanitizeFuel (S (size (default ∅ existingNames))) name existingNames).

(** ** DNS-1123 labels *)

Definition alnum (c : ascii) : bool := is_lower c || is_digit c.

(** [[a-z0-9]([-a-z0-9]*[a-z0-9])?], at most 63 characters. *)
Definition dns1123Label (l : list ascii) : Prop :=
  (1 ≤ length l ≤ 63)%nat ∧
  Forall (λ c, isNameChar c = true) l ∧
  (∃ c, head l = Some c ∧ alnum c = true) ∧
  (∃ c, last l = Some c ∧ alnum c = true).

(** No two hyphens in a row. *)
Fixpoint noDoubleHyphen (l : list ascii) : bool :=
  match l with
  | c :: r =>
      match r with
      | d :: _ => negb (Ascii.eqb c hyphen && Ascii.eqb d hyphen) && noDoubleHyphen r
      | [] => true
      end
  | [] => true
  end.

(** ** Characters *)

Lemma name_alnum c : isNameChar c = true → c ≠ hyphen → alnum c = true.
Proof.
  unfold isNameChar, alnum. intros H Hne. apply Ascii.eqb_neq in Hne.
  rewrite Hne, orb_false_r in H. done.
Qed.

Lemma alnum_not_hyphen c : alnum c = true → c ≠ hyphen.
Proof. intros H ->. done. Qed.

Lemma alnum_name c : alnum c = true → isNameChar c = true.
Proof. unfold alnum, isNameChar. by intros ->. Qed.

Lemma digit_alnum c : is_digit c = true → alnum c = true.
Proof. unfold alnum. intros ->. apply orb_true_r. Qed.

Lemma replaceNonAlphanum_name c : isNameChar (replaceNonAlphanum c) = true.
Proof. unfold replaceNonAlphanum. by destruct (isNameChar c) eqn:E. Qed.

Lemma replaceNonAlphanum_id c : isNameChar c = true → replaceNonAlphanum c = c.
Proof. unfold replaceNonAlphanum. by intros ->. Qed.

(** On a character that is already allowed the first two passes are the identity. *)
Lemma name_char_fixed c : isNameChar c = true →
  lower_byte c = c ∧ replaceSeparator c = c ∧ c ≠ "196"%char ∧ c ≠ "226"%char.
Proof.
  destruct c as [[] [] [] [] [] [] [] []]; vm_compute; intros H; repeat split; congruence.
Qed.

(** ** Trimming and collapsing *)

Section Lists.
Implicit Types l : list ascii.

Lemma trimLeft_suffix c l : ∃ k, l = k ++ trimLeftL c l.
Proof.
  induction l as [|x l [k IH]]; [by exists []|]. simpl.
  destruct (Ascii.eqb x c); [exists (x :: k); simpl; by rewrite <- IH | by exists []].
Qed.

Lemma trimLeft_head c l x : head (trimLeftL c l) = Some x → x ≠ c.
Proof.
  induction l as [|y l IH]; [done|]. simpl. destruct (Ascii.eqb y c) eqn:E; [done|].
  apply Ascii.eqb_neq in E. simpl. congruence.
Qed.

Lemma trimLeft_id c l : head l ≠ Some c → trimLeftL c l = l.
Proof. destruct l as [|x l]; [done|]. simpl. intros H. rewrite (proj2 (Ascii.eqb_neq x c)); [done|congruence]. Qed.

Lemma trimRight_prefix c l : ∃ k, l = trimRightL c l ++ k.
Proof.
  unfold trimRightL. destruct (trimLeft_suffix c (reverse l)) as [k Hk]. exists (reverse k).
  rewrite <- reverse_app, <- Hk. by rewrite reverse_involutive.
Qed.

Lemma trimRight_last c l x : last (trimRightL c l) = Some x → x ≠ c.
Proof. unfold trimRightL. rewrite last_reverse. apply trimLeft_head. Qed.

Lemma trimRight_id c l : last l ≠ Some c → trimRightL c l = l.
Proof.
  intros H. unfold trimRightL. rewrite trimLeft_id; [apply reverse_involutive|].
  by rewrite head_reverse.
Qed.

(** A prefix keeps the head unless it is empty. *)
Lemma prefix_head {A} (l k m : list A) x y : l = k ++ m → head l = Some x → head k = Some y → x = y.
Proof. intros ->. destruct k; simpl; congruence. Qed.

Lemma trimRight_nonempty c l x : head l = Some x → x ≠ c → trimRightL c l ≠ [].
Proof.
  destruct l as [|y l]; [done|]. simpl. intros [= ->] Hne Hnil.
  assert (x ∈ trimRightL c (x :: l)) as Hin; [|rewrite Hnil in Hin; set_solver].
  unfold trimRightL. rewrite elem_of_reverse, reverse_cons.
  generalize (reverse l) as k. induction k as [|z k IH]; simpl.
  - apply Ascii.eqb_neq in Hne. rewrite Hne. set_solver.
  - destruct (Ascii.eqb z c); set_solver.
Qed.

Lemma Forall_trimL (P : ascii → Prop) c l : Forall P l → Forall P (trimL c l).
Proof.
  intros H. unfold trimL. destruct (trimLeft_suffix c l) as [k Hk].
  destruct (trimRight_prefix c (trimLeftL c l)) as [k' Hk'].
  rewrite Hk in H. apply Forall_app in H as [_ H]. rewrite Hk' in H. by apply Forall_app in H as [H _].
Qed.

Lemma Forall_trimRight (P : ascii → Prop) c l : Forall P l → Forall P (trimRightL c l).
Proof.
  intros H. destruct (trimRight_prefix c l) as [k Hk]. rewrite Hk in H. by apply Forall_app in H as [H _].
Qed.

Lemma Forall_collapse (P : ascii → Prop) l : Forall P l → Forall P (collapseHyphens l).
Proof.
  induction 1 as [|c l Hc Hl IH]; [constructor|]. simpl. destruct l as [|d l]; [by constructor|].
  destruct (Ascii.eqb c hyphen && Ascii.eqb d hyphen); [exact IH|by constructor].
Qed.

Lemma collapse_head l : head (collapseHyphens l) = head l.
Proof.
  induction l as [|c l IH]; [done|]. simpl. destruct l as [|d l]; [done|].
  destruct (Ascii.eqb c hyphen && Ascii.eqb d hyphen) eqn:E; [|done].
  rewrite IH. simpl. breflect. by apply Ascii.eqb_eq in H, H0; subst.
Qed.

Lemma collapse_clean l : noDoubleHyphen (collapseHyphens l) = true.
Proof.
  induction l as [|c l IH]; [done|]. simpl. destruct l as [|d l]; [done|].
  destruct (Ascii.eqb c hyphen && Ascii.eqb d hyphen) eqn:E; [exact IH|].
  pose proof (collapse_head (d :: l)) as Hh.
  cbn [noDoubleHyphen]. destruct (collapseHyphens (d :: l)) as [|x r]; [done|].
  simpl in Hh. injection Hh as ->. rewrite E. exact IH.
Qed.

Lemma collapse_id l : noDoubleHyphen l = true → collapseHyphens l = l.
Proof.
  induction l as [|c l IH]; [done|]. simpl. destruct l as [|d l]; [done|].
  intros H. breflect. rewrite H, IH; done.
Qed.

Lemma clean_app_l l k : noDoubleHyphen (l ++ k) = true → noDoubleHyphen l = true.
Proof.
  induction l as [|c l IH]; [done|]. destruct l as [|d l]; [done|].
  cbn [noDoubleHyphen app]. intros H. breflect. apply andb_true_iff. split; [by rewrite H|]. by apply IH.
Qed.

Lemma clean_app_r l k : noDoubleHyphen (l ++ k) = true → noDoubleHyphen k = true.
Proof.
  induction l as [|c l IH]; [done|]. intros H. apply IH. revert H. simpl.
  destruct (l ++ k) as [|d r]; [done|]. intros H. by breflect.
Qed.

Lemma clean_trimL c l : noDoubleHyphen l = true → noDoubleHyphen (trimL c l) = true.
Proof.
  intros H. unfold trimL. destruct (trimLeft_suffix c l) as [k Hk].
  destruct (trimRight_prefix c (trimLeftL c l)) as [k' Hk'].
  rewrite Hk in H. apply clean_app_r in H. rewrite Hk' in H. by apply clean_app_l in H.
Qed.

Lemma clean_trimRight c l : noDoubleHyphen l = true → noDoubleHyphen (trimRightL c l) = true.
Proof. intros H. destruct (trimRight_prefix c l) as [k Hk]. rewrite Hk in H. by apply clean_app_l in H. Qed.

Lemma clean_take n l : noDoubleHyphen l = true → noDoubleHyphen (take n l) = true.
Proof. intros H. rewrite <- (take_drop n l) in H. by apply clean_app_l in H. Qed.

End Lists.

(** ** Neat names: allowed characters, no double hyphen, no hyphen at an end *)

Definition neat (l : list ascii) : Prop :=
  Forall (λ c, isNameChar c = true) l ∧ noDoubleHyphen l = true ∧
  head l ≠ Some hyphen ∧ last l ≠ Some hyphen.

Lemma neat_label l : neat l → (1 ≤ length l ≤ 63)%nat → dns1123Label l.
Proof.
  intros (Hc & _ & Hh & Hl) Hlen. repeat split; try lia; [done| |].
  - destruct l as [|c l]; [simpl in Hlen; lia|]. exists c. split; [done|].
    apply Forall_cons in Hc as [Hc _]. apply name_alnum; [done|]. simpl in Hh. congruence.
  - destruct (last l) as [c|] eqn:El; [|apply last_None in El; subst; simpl in Hlen; lia].
    exists c. split; [done|]. apply name_alnum; [|congruence].
    rewrite Forall_forall in Hc. apply Hc. by apply last_Some_elem_of.
Qed.

Lemma neat_trim l :
  Forall (λ c, isNameChar c = true) l → noDoubleHyphen l = true → neat (trimL hyphen l).
Proof.
  intros Hc Hd. split; [|split; [|split]].
  - by apply Forall_trimL.
  - by apply clean_trimL.
  - intros H. unfold trimL in H.
    destruct (trimRight_prefix hyphen (trimLeftL hyphen l)) as [k Hk].
    destruct (head (trimLeftL hyphen l)) as [x|] eqn:Hx.
    + pose proof (prefix_head _ _ _ _ _ Hk Hx H) as ->. by apply (trimLeft_head _ _ _ Hx).
    + apply head_None in Hx. rewrite Hx in H. done.
  - intros H. by apply trimRight_last in H.
Qed.

Lemma neat_truncate n l : neat l → neat (trimRightL hyphen (take n l)).
Proof.
  intros (Hc & Hd & Hh & Hl). split; [|split; [|split]].
  - by apply Forall_trimRight, Forall_take.
  - by apply clean_trimRight, clean_take.
  - intros H. destruct (trimRight_prefix hyphen (take n l)) as [k Hk].
    destruct (trimRightL hyphen (take n l)) as [|x r]; [done|]. simpl in H. injection H as ->.
    destruct l as [|y l]; [by rewrite take_nil in Hk|].
    destruct n; [done|]. simpl in Hk. injection Hk as -> _. done.
  - intros H. by apply trimRight_last in H.
Qed.

Lemma truncate_length n l : (length (trimRightL hyphen (take n l)) ≤ n)%nat.
Proof.
  destruct (trimRight_prefix hyphen (take n l)) as [k Hk].
  apply (f_equal length) in Hk. rewrite length_app, length_take in Hk. lia.
Qed.

Lemma baseName_neat l : neat (baseName l) ∧ (1 ≤ length (baseName l) ≤ 63)%nat.
Proof.
  unfold baseName.
  set (l5 := trimL hyphen _).
  assert (neat l5) as H5.
  { apply neat_trim; [apply Forall_collapse|apply collapse_clean].
    apply Forall_fmap, Forall_true. intros c. apply replaceNonAlphanum_name. }
  set (l6 := if (maxNameLength <? length l5)%nat then _ else l5).
  assert (neat l6 ∧ (length l6 ≤ 63)%nat) as [H6 Hlen].
  { unfold l6. destruct (Nat.ltb_spec maxNameLength (length l5)).
    - split; [by apply neat_truncate|apply truncate_length].
    - by split; [|unfold maxNameLength in *]. }
  destruct l6 as [|x r] eqn:E; [|split; [done|simpl in *; lia]].
  split; [|simpl; lia]. split; [repeat constructor|by repeat split].
Qed.

(** A neat short name is left alone. *)
Lemma baseName_id l : neat l → (1 ≤ length l ≤ 63)%nat → baseName l = l.
Proof.
  intros (Hc & Hd & Hh & Hl) Hlen. unfold baseName.
  assert (toLowerL l = l) as ->.
  { clear -Hc. induction Hc as [|c l Hc _ IH]; [done|].
    destruct (name_char_fixed c Hc) as (H1 & _ & H3 & H4). cbn [toLowerL]. rewrite H1, IH.
    destruct c as [[] [] [] [] [] [] [] []]; try reflexivity; done. }
  assert (replaceSeparator <$> l = l) as ->.
  { clear -Hc. induction Hc as [|c l Hc _ IH]; [done|]. csimpl. rewrite IH.
    f_equal. apply name_char_fixed, Hc. }
  assert (replaceNonAlphanum <$> l = l) as ->.
  { clear -Hc. induction Hc as [|c l Hc _ IH]; [done|]. csimpl. by rewrite IH, replaceNonAlphanum_id. }
  rewrite collapse_id by done. unfold trimL. rewrite trimLeft_id, trimRight_id by done.
  destruct (Nat.ltb_spec maxNameLength (length l)); [unfold maxNameLength in *; lia|].
  destruct l; [simpl in Hlen; lia|done].
Qed.

(** ** Collisions *)

(** The decimal digits of a number of [n] bits are at most [n]. *)
Lemma little_double_digits d : (Decimal.nb_digits (Decimal.Little.double d) ≤ S (Decimal.nb_digits d))%nat
  ∧ (Decimal.nb_digits (Decimal.Little.succ_double d) ≤ S (Decimal.nb_digits d))%nat.
Proof. induction d as [|d IH|d IH|d IH|d IH|d IH|d IH|d IH|d IH|d IH|d IH]; simpl; lia. Qed.

Lemma little_digits p : (Decimal.nb_digits (Pos.to_little_uint p) ≤ Pos.size_nat p)%nat.
Proof.
  induction p as [p IH|p IH|]; simpl; [| |lia].
  - pose proof (proj2 (little_double_digits (Pos.to_little_uint p))). lia.
  - pose proof (proj1 (little_double_digits (Pos.to_little_uint p))). lia.
Qed.

Lemma chars_uint_length d : length (chars (NilEmpty.string_of_uint d)) = Decimal.nb_digits d.
Proof. induction d; simpl; auto. Qed.

Lemma nb_digits_revapp d e : Decimal.nb_digits (Decimal.revapp d e) = (Decimal.nb_digits d + Decimal.nb_digits e)%nat.
Proof. revert e. induction d as [|d IH|d IH|d IH|d IH|d IH|d IH|d IH|d IH|d IH|d IH]; intros e; simpl; [done|..]; rewrite IH; simpl; lia. Qed.

Lemma itoa_length z : 0 < z → (length (chars (itoa z)) ≤ Pos.size_nat (Z.to_pos z))%nat.
Proof.
  destruct z as [|p|p]; try lia. intros _. cbn [Z.to_pos].
  pose proof (DecimalPos.Unsigned.to_uint_nonnil p) as Hnn.
  replace (itoa (Z.pos p)) with (NilEmpty.string_of_uint (Pos.to_uint p))
    by (unfold itoa; simpl; by destruct (Pos.to_uint p)).
  rewrite chars_uint_length. unfold Pos.to_uint, Decimal.rev. rewrite nb_digits_revapp. simpl.
  pose proof (little_digits p). lia.
Qed.

Lemma size_nat_bound p n : Z.pos p < 2 ^ Z.of_nat n → (Pos.size_nat p ≤ n)%nat.
Proof.
  revert n. induction p as [p IH|p IH|]; intros n H; simpl.
  - destruct n; [simpl in H; lia|]. rewrite Nat2Z.inj_succ, Z.pow_succ_r in H by lia. specialize (IH n). lia.
  - destruct n; [simpl in H; lia|]. rewrite Nat2Z.inj_succ, Z.pow_succ_r in H by lia. specialize (IH n). lia.
  - destruct n; [simpl in H; lia|]. lia.
Qed.

Lemma suffix_length i : 2 ≤ i < 2 ^ 61 → (length (hyphen :: chars (itoa i)) ≤ 62)%nat.
Proof.
  intros Hi. simpl. pose proof (itoa_length i ltac:(lia)).
  pose proof (size_nat_bound (Z.to_pos i) 61). rewrite Z2Pos.id in * by lia. lia.
Qed.

Lemma candidate_shape s i : ∃ p, candidate s i = p ++ hyphen :: chars (itoa i).
Proof. unfold candidate. eauto. Qed.

Lemma takeDigits_stop l k c : Forall (λ c, is_digit c = true) l → is_digit c = false →
  Scan.takeDigits (l ++ c :: k) = l.
Proof. intros Hl Hc. induction Hl as [|x l Hx _ IH]; simpl; [by rewrite Hc|by rewrite Hx, IH]. Qed.

(** Different rounds try different names. *)
Lemma candidate_inj s i j : 0 ≤ i → 0 ≤ j → candidate s i = candidate s j → i = j.
Proof.
  intros Hi Hj H. destruct (candidate_shape s i) as [p Hp], (candidate_shape s j) as [q Hq].
  assert (∀ z r, 0 ≤ z → Scan.takeDigits (reverse (r ++ hyphen :: chars (itoa z))) = reverse (chars (itoa z))) as Hrev.
  { intros z r Hz. rewrite reverse_app, reverse_cons, <- app_assoc.
    apply takeDigits_stop; [by apply Forall_reverse, itoa_digits|done]. }
  apply itoa_inj, chars_inj. change (chars (itoa i) = chars (itoa j)). apply (inj reverse).
  rewrite <- (Hrev i p), <- (Hrev j q) by done. by rewrite <- Hp, <- Hq, H.
Qed.

(** The loop gives up its fuel only when every name it tried is taken. *)
Lemma resolve_None fuel i s existing :
  resolveCollision fuel i s existing = None →
  ∀ k, (k < fuel)%nat → text (candidate s (i + Z.of_nat k)) ∈ existing.
Proof.
  revert i. induction fuel as [|fuel IH]; intros i H k Hk; [lia|]. simpl in H.
  case_bool_decide as Hin; [|done]. destruct k; [by rewrite Z.add_0_r|].
  replace (i + Z.of_nat (S k)) with (i + 1 + Z.of_nat k) by lia. apply IH; [done|lia].
Qed.

Lemma resolve_Some fuel i s existing r :
  resolveCollision fuel i s existing = Some r →
  r ∉ existing ∧ ∃ k, (k < fuel)%nat ∧ r = text (candidate s (i + Z.of_nat k)).
Proof.
  revert i. induction fuel as [|fuel IH]; intros i H; [done|]. simpl in H.
  case_bool_decide as Hin.
  - destruct (IH _ H) as (H1 & k & Hk & ->). split; [done|]. exists (S k). split; [lia|]. do 2 f_equal. lia.
  - injection H as <-. split; [done|]. exists 0%nat. split; [lia|]. by rewrite Z.add_0_r.
Qed.

(** Pigeonhole: one round more than there are names taken finds a free one. *)
Lemma resolve_enough s existing : ∃ r, resolveCollision (S (size existing)) 2 s existing = Some r.
Proof.
  destruct (resolveCollision _ _ _ _) as [r|] eqn:E; [eauto|]. exfalso.
  pose proof (resolve_None _ _ _ _ E) as Hall.
  set (names := (λ k, text (candidate s (2 + Z.of_nat k))) <$> seq 0 (S (size existing))).
  assert (NoDup names) as Hnd.
  { apply NoDup_fmap_2_strong; [|apply NoDup_seq]. intros a b _ _ H.
    apply (f_equal chars) in H. rewrite !chars_text in H. apply candidate_inj in H; lia. }
  assert (list_to_set names ⊆ existing) as Hsub.
  { intros x Hx. apply elem_of_list_to_set, list_elem_of_fmap in Hx as (k & -> & Hk).
    apply elem_of_seq in Hk. apply Hall. lia. }
  apply subseteq_size in Hsub. rewrite size_list_to_set in Hsub by done.
  unfold names in Hsub. rewrite length_fmap, length_seq in Hsub. lia.
Qed.

Lemma candidate_label s i : neat s → (1 ≤ length s ≤ 63)%nat → 2 ≤ i < 2 ^ 61 → dns1123Label (candidate s i).
Proof.
  intros Hs Hlen Hi. pose proof (suffix_length i Hi) as Hsl.
  pose proof (itoa_digits i ltac:(lia)) as Hd. pose proof (itoa_nonempty i) as Hne.
  unfold candidate. set (suffix := hyphen :: chars (itoa i)) in *.
  set (p := if (maxNameLength <? length s + length suffix)%nat then _ else s).
  assert (neat p ∧ p ≠ [] ∧ (length p + length suffix ≤ 63)%nat) as (Hp & Hpn & Hpl).
  { unfold p. destruct (Nat.ltb_spec maxNameLength (length s + length suffix)); unfold maxNameLength in *.
    - split; [by apply neat_truncate|]. split.
      + destruct Hs as (Hc & _ & Hh & _). destruct s as [|x s]; [simpl in Hlen; lia|].
        apply (trimRight_nonempty _ _ x); [|simpl in Hh; congruence].
        destruct (63 - length suffix)%nat eqn:E; [lia|done].
      + pose proof (truncate_length (63 - length suffix) s). lia.
    - split; [done|]. split; [by destruct s; simpl in *; [lia|]|lia]. }
  destruct Hp as (Hc & _ & Hh & _). repeat split.
  - rewrite length_app. simpl. lia.
  - rewrite length_app. lia.
  - apply Forall_app. split; [done|]. constructor; [done|].
    eapply Forall_impl; [exact Hd|]. intros c Hcd. by apply alnum_name, digit_alnum.
  - destruct p as [|x p']; [done|]. exists x. split; [done|].
    apply Forall_cons in Hc as [Hc _]. apply name_alnum; [done|]. simpl in Hh. congruence.
  - destruct (last (chars (itoa i))) as [c|] eqn:El; [|by apply last_None in El].
    exists c. split.
    + unfold suffix. rewrite last_app. simpl. rewrite last_cons, El. done.
    + apply digit_alnum. rewrite Forall_forall in Hd. apply Hd. by apply last_Some_elem_of.
Qed.

(** ** Properties *)

(** More fuel does not change a result. *)
Lemma resolve_mono fuel fuel' i s ex r : (fuel ≤ fuel')%nat →
  resolveCollision fuel i s ex = Some r → resolveCollision fuel' i s ex = Some r.
Proof.
  revert fuel' i. induction fuel as [|fuel IH]; intros fuel' i Hle H; [done|].
  destruct fuel'; [lia|]. simpl in *. case_bool_decide; [|done]. apply IH; [lia|done].
Qed.

Arguments resolveCollision : simpl never.

(** The collision loop stops within its fuel. *)
Lemma sanitize_Some name existing :
  sanitizeFuel (S (size (default ∅ existing))) name existing = Some (SanitizeName name existing).
Proof.
  unfold SanitizeName, sanitizeFuel. destruct existing as [ex|]; [|done]. simpl.
  case_bool_decide; [|done]. destruct (resolve_enough (baseName (chars name)) ex) as [r Hr].
  by rewrite Hr.
Qed.

(** The collision loop of SanitizeName terminates: for every name and every
    set of taken names, any number of rounds above the number of taken names
    ends with the same result. *)
Lemma sanitize_terminates name existing fuel :
  (size (default ∅ existing) < fuel)%nat →
  sanitizeFuel fuel name existing = Some (SanitizeName name existing).
Proof.
  intros Hf. pose proof (sanitize_Some name existing) as H. unfold sanitizeFuel in *.
  destruct existing as [ex|]; [|done]. simpl in *. case_bool_decide; [|done].
  eapply resolve_mono; [|exact H]. lia.
Qed.

Lemma sanitize_label_fresh name existing :
  Z.of_nat (size (default ∅ existing)) < 2 ^ 60 →
  dns1123Label (chars (SanitizeName name existing)) ∧
  SanitizeName name existing ∉ default ∅ existing.
Proof.
  intros Hsz. pose proof (sanitize_Some name existing) as H.
  destruct (baseName_neat (chars name)) as [Hn Hl]. unfold sanitizeFuel in H.
  destruct existing as [ex|]; simpl in *.
  2:{ change (SanitizeName name None) with (text (baseName (chars name))). rewrite chars_text. split; [by apply neat_label|set_solver]. }
  case_bool_decide as Hin.
  - apply resolve_Some in H as (Hfresh & k & Hk & Heq). split; [|done].
    rewrite Heq, chars_text. apply candidate_label; [done|done|lia].
  - injection H as <-. rewrite chars_text. split; [by apply neat_label|done].
Qed.

(** Sanitising is idempotent: the name of a sanitised name is itself, so the
    name computed by StartVM from a VM already renamed is the one CreateVM used. *)
Lemma sanitize_idempotent name :
  SanitizeName (SanitizeName name None) None = SanitizeName name None.
Proof.
  unfold SanitizeName, sanitizeFuel. simpl. rewrite chars_text.
  destruct (baseName_neat (chars name)) as [Hn Hl]. by rewrite baseName_id.
Qed.

(** C37: SanitizeName always returns a valid DNS-1123 label (1 to 63 characters of
    [a-z0-9-] starting and ending with a letter or digit), and never one of the names
    already taken. Its collision loop ends: any number of rounds above the number of taken
    names gives the same result. A sanitised name is its own name, so that StartVM finds the
    VM that CreateVM made. *)
Theorem sanitize_correct name existing :
  Z.of_nat (size (default ∅ existing)) < 2 ^ 60 →
  dns1123Label (chars (SanitizeName name existing)) ∧
  SanitizeName name existing ∉ default ∅ existing ∧
  (∀ fuel, (size (default ∅ existing) < fuel)%nat → sanitizeFuel fuel name existing = Some (SanitizeName name existing)) ∧
  SanitizeName (SanitizeName name None) None = SanitizeName name None.
Proof.
  intros Hsz. destruct (sanitize_label_fresh name existing Hsz) as [Hl Hf]. split; [done|]. split; [done|].
  split; [apply sanitize_terminates|apply sanitize_idempotent].
Qed.

Lemma sanitize_correct_witness :
  SanitizeName "Win (prod)_01" (Some {["win-prod-01"; "win-prod-01-2"]}) = "win-prod-01-3" ∧
  dns1123Label (chars (SanitizeName "Win (prod)_01" (Some {["win-prod-01"; "win-prod-01-2"]}))).
Proof. split; [vm_compute; reflexivity|]. apply sanitize_correct. vm_compute. reflexivity. Defined.

Example sanitize_examples :
  SanitizeName "My VM (Prod)_01" None = "my-vm-prod-01" ∧ SanitizeName "---" None = "vm" ∧
  SanitizeName "" None = "vm".
Proof. vm_compute. repeat split. Qed.
