(* ===== verification/Disks.v ===== *)
(** * Disk helpers of the migration controller

    The pure helpers of internal/controller/migration_controller.go on VM disks
    and names, shared by the pipeline's phases and the VM builder. *)

From S2P Require Import Prelude GoLib NutanixTypes.

(** Is the device a CDROM, whatever the case it is written in? *)
Definition isCDROM (d : Disk) : bool := ToUpper (Disk_DeviceType d) =s "CDROM".

(** Only the data disks, in order. *)
Fixpoint filterDataDisks (disks : list Disk) : list Disk :=
  match disks with
  | [] => []
  | d :: r => if isCDROM d then filterDataDisks r else d :: filterDataDisks r
  end.

(** The first 8 characters of an identifier. *)
Definition shortID (id : string) : string :=
  if (8 <? String.length id)%nat then prefixS 8 id else id.

(** The vDisk UUID of the backing, or the disk's own identifier. *)
Definition getDiskUUID (d : Disk) : string :=
  match Disk_BackingInfo d with
  | Some b => if Backing_VMDiskUUID b <>s "" then Backing_VMDiskUUID b else Disk_ExtID d
  | None => Disk_ExtID d
  end.

(** The disk's size, from the backing when the disk does not give it. *)
Definition getDiskSize (d : Disk) : Z :=
  if 0 <? Disk_DiskSizeBytes d then Disk_DiskSizeBytes d
  else match Disk_BackingInfo d with
       | Some b => Backing_DiskSizeBytes b
       | None => 0
       end.

(** ExportDisks spells the UUID choice out; ... *)
Definition exportDiskUUID (d : Disk) : string :=
  let diskUUID := match Disk_BackingInfo d with Some b => Backing_VMDiskUUID b | None => "" end in
  if diskUUID =s "" then Disk_ExtID d else diskUUID.

(** ... and ImportDisks the size choice. *)
Definition importDiskSize (d : Disk) : Z :=
  let diskSize := Disk_DiskSizeBytes d in
  if diskSize =? 0 then
    match Disk_BackingInfo d with Some b => Backing_DiskSizeBytes b | None => diskSize end
  else diskSize.

(** [clusterRef]: the cluster of the VM, or the empty string. *)
Definition clusterRef (vm : VM) : string :=
  match VM_Cluster vm with Some c => Reference_ExtID c | None => "" end.

Lemma filterDataDisks_filter l : filterDataDisks l = List.filter (λ d, negb (isCDROM d)) l.
Proof. induction l as [|d l IH]; simpl; [done|]. destruct (isCDROM d); simpl; by rewrite IH. Qed.

Lemma filterDataDisks_app l k : filterDataDisks (l ++ k) = filterDataDisks l ++ filterDataDisks k.
Proof. rewrite !filterDataDisks_filter. apply List.filter_app. Qed.

Lemma elem_of_filterDataDisks d l : d ∈ filterDataDisks l ↔ d ∈ l ∧ isCDROM d = false.
Proof. rewrite filterDataDisks_filter, !list_elem_of_In, List.filter_In, negb_true_iff. done. Qed.

(** The cold and the warm pipeline choose the same source of a disk: ExportDisks'
    inlined choice and getDiskUUID agree on every disk, and ImportDisks' size and
    getDiskSize agree on every disk whose size is not negative. *)
Theorem cold_warm_disk_choice_agree d :
  exportDiskUUID d = getDiskUUID d ∧
  (0 ≤ Disk_DiskSizeBytes d → importDiskSize d = getDiskSize d).
Proof.
  unfold exportDiskUUID, getDiskUUID, importDiskSize, getDiskSize. split.
  - destruct (Disk_BackingInfo d) as [b|]; simpl; [|done]. by destruct (Backing_VMDiskUUID b =s "").
  - intros H. destruct (Z.eqb_spec (Disk_DiskSizeBytes d) 0), (Z.ltb_spec 0 (Disk_DiskSizeBytes d)); try lia; try done.
    destruct (Disk_BackingInfo d); congruence.
Qed.

Lemma cold_warm_disk_choice_agree_witness :
  0 ≤ Disk_DiskSizeBytes (mkDisk "d" None (Some (mkDiskBackingInfo "v" None 7)) 0 "DISK") ∧
  importDiskSize (mkDisk "d" None (Some (mkDiskBackingInfo "v" None 7)) 0 "DISK") =
  getDiskSize (mkDisk "d" None (Some (mkDiskBackingInfo "v" None 7)) 0 "DISK").
Proof. split; [simpl; lia|apply cold_warm_disk_choice_agree; simpl; lia]. Defined.
