(* ===== verification/Builder.v ===== *)
(** * Building the KubeVirt VM (internal/builder/vm.go) *)

From S2P Require Import Prelude GoLib NutanixTypes ApiTypes Sanitize Disks.

Definition labelSourceUUID : string := "vma.nutanix.io/source-vm-uuid".
Definition labelSourceName : string := "vma.nutanix.io/source-vm-name".

Record BuildOptions := mkBuildOptions {
  Opt_Namespace : string;
  Opt_PVCNames : list string;
  Opt_ExistingNames : option (gset string)
}.

(** ** CPU, memory, machine, firmware *)

Definition buildCPU (vm : VM) : KvCPU :=
  let threads := uint32 (VM_NumThreadsPerCore vm) in
  let threads := if threads =? 0 then 1 else threads in
  mkKvCPU (uint32 (VM_NumSockets vm)) (uint32 (VM_NumCoresPerSocket vm)) threads.

(** The bytes of the guest memory: whole MiB. *)
Definition guestBytes (vm : VM) : Z :=
  let mib := Z.quot (VM_MemorySizeBytes vm) (1024 * 1024) in
  int64 (int64 (mib * 1024) * 1024).

Definition buildMemory (vm : VM) : Quantity := NewQuantityBinarySI (guestBytes vm).

Definition buildMachine (vm : VM) : string :=
  if ToUpper (VM_MachineType vm) =s "PC" then "pc" else "q35".

Definition buildFirmware (vm : VM) : Bootloader :=
  match VM_BootConfig vm with
  | None => BIOS
  | Some b =>
      let t := ToUpper (Boot_BootType b) in
      if t =s "UEFI" then EFI false
      else if t =s "SECURE_BOOT" then EFI true
      else BIOS
  end.

Definition buildFeatures (vm : VM) : option bool :=
  match VM_BootConfig vm with
  | Some b => if ToUpper (Boot_BootType b) =s "SECURE_BOOT" then Some true else None
  | None => None
  end.

(** ** Disks and volumes *)

Definition mapDiskBus (busType : string) : DiskBus :=
  let b := ToUpper busType in
  if (b =s "SCSI") || (b =s "PCI") then DiskBusSCSI
  else if (b =s "IDE") || (b =s "SATA") then DiskBusSATA
  else DiskBusVirtio.

Definition isBootDisk (vm : VM) : bool :=
  match VM_BootConfig vm with
  | None => false
  | Some b => existsb (λ e, ToUpper e =s "DISK") (Boot_BootOrder b)
  end.

Definition diskBus (d : Disk) : DiskBus :=
  match Disk_DiskAddress d with
  | Some a => mapDiskBus (DiskAddress_BusType a)
  | None => DiskBusVirtio
  end.

(** The loop over [vm.Disks]: index, whether the boot order is assigned, and the
    next PVC. *)
Fixpoint disksLoop (bootDisk : bool) (pvcNames : list string)
    (i : nat) (bootOrderAssigned : bool) (pvcIdx : nat) (ds : list Disk) : list KvDisk * list KvVolume :=
  match ds with
  | [] => ([], [])
  | d :: r =>
      if isCDROM d then disksLoop bootDisk pvcNames (S i) bootOrderAssigned pvcIdx r
      else
        let volName := "disk-" +s+ itoa (Z.of_nat i) in
        let first := bootDisk && negb bootOrderAssigned in
        let disk := mkKvDisk volName (diskBus d) (if first then Some 1 else None) in
        let vol := mkKvVolume volName
          (if (pvcIdx <? length pvcNames)%nat then pvcNames !! pvcIdx else None) in
        let '(disks, volumes) :=
          disksLoop bootDisk pvcNames (S i) (bootOrderAssigned || first) (S pvcIdx) r in
        (disk :: disks, vol :: volumes)
  end.

Definition buildDisksAndVolumes (vm : VM) (pvcNames : list string) : list KvDisk * list KvVolume :=
  disksLoop (isBootDisk vm) pvcNames 0 false 0 (VM_Disks vm).

(** ** Interfaces and networks *)

(** Does a map entry's source select the reference, by ID or else by name? *)
Definition networkMatches (p : NetworkPair) (ref : Reference) : bool :=
  let s := NetworkPair_Source p in
  ((NetworkSource_ID s <>s "") && (NetworkSource_ID s =s Reference_ExtID ref)) ||
  ((NetworkSource_Name s <>s "") && (NetworkSource_Name s =s Reference_Name ref)).

Fixpoint findNetworkPair (ref : Reference) (m : list NetworkPair) : option NetworkDestination :=
  match m with
  | [] => None
  | p :: r => if networkMatches p ref then Some (NetworkPair_Destination p) else findNetworkPair ref r
  end.

(** The first matching destination; nothing for a nil reference or map. *)
Definition findNetworkMapping (subnetRef : option Reference) (networkMap : option NetworkMap)
  : option NetworkDestination :=
  match subnetRef, networkMap with
  | Some ref, Some m => findNetworkPair ref (NetworkMap_Map m)
  | _, _ => None
  end.

Definition buildNic (networkMap : option NetworkMap) (i : nat) (nic : NIC) : KvInterface * KvNetwork :=
  let netName := "net-" +s+ itoa (Z.of_nat i) in
  match findNetworkMapping (NIC_NetworkRef nic) networkMap with
  | Some dest =>
      match NetworkDest_Type dest with
      | NetworkDestinationMultus =>
          let nadName := if NetworkDest_Namespace dest <>s ""
                         then NetworkDest_Namespace dest +s+ "/" +s+ NetworkDest_Name dest
                         else NetworkDest_Name dest in
          (mkKvInterface netName BindingBridge (NIC_MacAddress nic), mkKvNetwork netName (KvMultus nadName))
      | NetworkDestinationPod => (mkKvInterface netName BindingMasquerade "", mkKvNetwork netName KvPod)
      end
  | None => (mkKvInterface netName BindingMasquerade "", mkKvNetwork netName KvPod)
  end.

Fixpoint nicsLoop (networkMap : option NetworkMap) (i : nat) (nics : list NIC)
  : list KvInterface * list KvNetwork :=
  match nics with
  | [] => ([], [])
  | nic :: r =>
      let '(iface, net) := buildNic networkMap i nic in
      let '(interfaces, networks) := nicsLoop networkMap (S i) r in
      (iface :: interfaces, net :: networks)
  end.

Definition buildInterfacesAndNetworks (vm : VM) (networkMap : option NetworkMap)
  : list KvInterface * list KvNetwork := nicsLoop networkMap 0 (VM_Nics vm).

(** ** Build *)

Definition Build (vm : VM) (networkMap : option NetworkMap) (storageMap : option StorageMap)
    (opts : BuildOptions) : VirtualMachine :=
  let name := SanitizeName (VM_Name vm) (Opt_ExistingNames opts) in
  let labels : gmap string string :=
    <[labelSourceUUID := VM_ExtID vm]> (<[labelSourceName := SanitizeName (VM_Name vm) None]> ∅) in
  let '(disks, volumes) := buildDisksAndVolumes vm (Opt_PVCNames opts) in
  let '(interfaces, networks) := buildInterfacesAndNetworks vm networkMap in
  mkVirtualMachine
    (mkObjectMeta name (Opt_Namespace opts) "" 0 labels ∅ [] [] None)
    (Some RunStrategyHalted)
    labels
    (buildCPU vm)
    (buildMemory vm)
    (buildMachine vm)
    (buildFirmware vm)
    (buildFeatures vm)
    (NewQuantityBinarySI (VM_MemorySizeBytes vm))
    disks interfaces volumes networks.

(** ** The loops *)

Lemma disksLoop_names boot pvcs i a p ds :
  KvDisk_Name <$> (disksLoop boot pvcs i a p ds).1 = KvVolume_Name <$> (disksLoop boot pvcs i a p ds).2.
Proof.
  revert i a p. induction ds as [|d ds IH]; intros i a p; [done|]. simpl. destruct (isCDROM d); [apply IH|].
  specialize (IH (S i) (a || boot && negb a) (S p)).
  destruct (disksLoop _ _ _ _ _ ds). csimpl in *. by rewrite IH.
Qed.

Lemma disksLoop_bus boot pvcs i a p ds :
  KvDisk_Bus <$> (disksLoop boot pvcs i a p ds).1 = diskBus <$> filterDataDisks ds.
Proof.
  revert i a p. induction ds as [|d ds IH]; intros i a p; [done|]. simpl. destruct (isCDROM d); [apply IH|].
  specialize (IH (S i) (a || boot && negb a) (S p)).
  destruct (disksLoop _ _ _ _ _ ds). csimpl in *. by rewrite IH.
Qed.

Lemma disksLoop_pvc boot pvcs i a p ds :
  KvVolume_PVC <$> (disksLoop boot pvcs i a p ds).2 =
  (λ j, pvcs !! j) <$> seq p (length (filterDataDisks ds)).
Proof.
  revert i a p. induction ds as [|d ds IH]; intros i a p; [done|]. simpl. destruct (isCDROM d); [apply IH|].
  specialize (IH (S i) (a || boot && negb a) (S p)).
  destruct (disksLoop _ _ _ _ _ ds). csimpl in *. rewrite IH. f_equal.
  destruct (Nat.ltb_spec p (length pvcs)); [done|]. by rewrite lookup_ge_None_2.
Qed.

Lemma disksLoop_boot boot pvcs i a p ds :
  KvDisk_BootOrder <$> (disksLoop boot pvcs i a p ds).1 =
  match length (filterDataDisks ds) with
  | O => []
  | S n => (if boot && negb a then Some 1 else None) :: replicate n None
  end.
Proof.
  revert i a p. induction ds as [|d ds IH]; intros i a p; [done|]. simpl. destruct (isCDROM d); [apply IH|].
  specialize (IH (S i) (a || boot && negb a) (S p)).
  destruct (disksLoop _ _ _ _ _ ds) as [disks vols]. csimpl in *. rewrite IH. f_equal.
  destruct (length (filterDataDisks ds)); [done|]. simpl. by destruct boot, a.
Qed.

(** The names carry the disk's index, so they are distinct. *)
Lemma disksLoop_name_index boot pvcs i a p ds n :
  n ∈ KvVolume_Name <$> (disksLoop boot pvcs i a p ds).2 →
  ∃ j, (i ≤ j)%nat ∧ n = "disk-" +s+ itoa (Z.of_nat j).
Proof.
  revert i a p. induction ds as [|d ds IH]; intros i a p; [set_solver|]. simpl. destruct (isCDROM d).
  - intros H. destruct (IH _ _ _ H) as (j & Hj & ->). exists j. split; [lia|done].
  - specialize (IH (S i) (a || boot && negb a) (S p)).
    destruct (disksLoop _ _ _ _ _ ds). csimpl in *. rewrite elem_of_cons. intros [->|H]; [by exists i|].
    destruct (IH H) as (j & Hj & ->). exists j. split; [lia|done].
Qed.

Lemma disksLoop_nodup boot pvcs i a p ds : NoDup (KvVolume_Name <$> (disksLoop boot pvcs i a p ds).2).
Proof.
  revert i a p. induction ds as [|d ds IH]; intros i a p; [constructor|]. simpl. destruct (isCDROM d); [apply IH|].
  specialize (IH (S i) (a || boot && negb a) (S p)).
  pose proof (disksLoop_name_index boot pvcs (S i) (a || boot && negb a) (S p) ds) as Hn.
  destruct (disksLoop _ _ _ _ _ ds). csimpl in *. constructor; [|done]. intros Hin.
  destruct (Hn _ Hin) as (j & Hj & Heq). apply append_inj_l, itoa_inj in Heq. lia.
Qed.

Lemma lookup_seq_fmap (pvcs : list string) :
  (λ j, pvcs !! j) <$> seq 0 (length pvcs) = Some <$> pvcs.
Proof.
  induction pvcs as [|x pvcs IH]; [done|]. csimpl. f_equal. rewrite <- IH, <- seq_shift.
  rewrite <- list_fmap_compose. done.
Qed.

Lemma nicsLoop_lookup m i nics j :
  ((nicsLoop m i nics).1 !! j, (nicsLoop m i nics).2 !! j) =
  match nics !! j with
  | Some nic => (Some (buildNic m (i + j) nic).1, Some (buildNic m (i + j) nic).2)
  | None => (None, None)
  end.
Proof.
  revert i j. induction nics as [|nic nics IH]; intros i j; [done|]. simpl.
  destruct (buildNic m i nic) as [ifc net] eqn:Eb.
  specialize (IH (S i)). destruct (nicsLoop m (S i) nics). destruct j; csimpl.
  - by rewrite Nat.add_0_r, Eb.
  - rewrite IH. by rewrite Nat.add_succ_r.
Qed.

(** ** Properties *)

(** Disks and volumes have the same, pairwise distinct names, one per disk that is not a
    CDROM, in order; the j-th volume claims the j-th PVC, and only the first disk can carry
    boot order 1. *)
Definition disksLineUp (vm : VM) (opts : BuildOptions) (kv : VirtualMachine) : Prop :=
  KvDisk_Name <$> KvVM_Disks kv = KvVolume_Name <$> KvVM_Volumes kv ∧
  NoDup (KvVolume_Name <$> KvVM_Volumes kv) ∧
  KvDisk_Bus <$> KvVM_Disks kv = diskBus <$> filterDataDisks (VM_Disks vm) ∧
  KvVolume_PVC <$> KvVM_Volumes kv = Some <$> Opt_PVCNames opts ∧
  KvDisk_BootOrder <$> KvVM_Disks kv =
    match length (Opt_PVCNames opts) with
    | O => []
    | S n => (if isBootDisk vm then Some 1 else None) :: replicate n None
    end.

Lemma build_disks_line_up vm nm sm opts :
  length (Opt_PVCNames opts) = length (filterDataDisks (VM_Disks vm)) → disksLineUp vm opts (Build vm nm sm opts).
Proof.
  intros Hlen. unfold disksLineUp, Build, buildDisksAndVolumes.
  pose proof (disksLoop_names (isBootDisk vm) (Opt_PVCNames opts) 0 false 0 (VM_Disks vm)) as H1.
  pose proof (disksLoop_nodup (isBootDisk vm) (Opt_PVCNames opts) 0 false 0 (VM_Disks vm)) as H2.
  pose proof (disksLoop_bus (isBootDisk vm) (Opt_PVCNames opts) 0 false 0 (VM_Disks vm)) as H3.
  pose proof (disksLoop_pvc (isBootDisk vm) (Opt_PVCNames opts) 0 false 0 (VM_Disks vm)) as H4.
  pose proof (disksLoop_boot (isBootDisk vm) (Opt_PVCNames opts) 0 false 0 (VM_Disks vm)) as H5.
  destruct (disksLoop _ _ _ _ _ _), (buildInterfacesAndNetworks vm nm). simpl in *.
  rewrite <- Hlen in *. rewrite lookup_seq_fmap in H4.
  destruct (length (Opt_PVCNames opts)); rewrite ?andb_true_r in H5; auto.
Qed.

Definition sampleVM : VM :=
  mkVM "vm-uuid-002" "test-vm-windows" "" "ON" 4 2 0 17179869184 "Q35"
    (Some (mkBootConfig "UEFI" ["CDROM"; "DISK"]))
    [mkDisk "disk-003" (Some (mkDiskAddress "IDE" 0)) None 0 "cdrom";
     mkDisk "disk-002" (Some (mkDiskAddress "SCSI" 0))
       (Some (mkDiskBackingInfo "vdisk-002" (Some (mkReference "sc-1" "default")) 107374182400)) 107374182400 "DISK"]
    [mkNIC "nic-002" (Some (mkReference "subnet-1" "vm-network")) "NORMAL_NIC" "50:6b:8d:aa:bb:02" []]
    [] (Some (mkReference "cluster-1" "c")).

(** One interface and one network per NIC, under the same name; a NIC is bridged to a Multus
    network, with its MAC address kept, exactly when its subnet maps to a Multus destination,
    and otherwise goes to the pod network without a MAC. *)
Definition networksLineUp (vm : VM) (nm : option NetworkMap) (kv : VirtualMachine) : Prop :=
  ∀ j nic, VM_Nics vm !! j = Some nic →
  ∃ iface net,
    KvVM_Interfaces kv !! j = Some iface ∧
    KvVM_Networks kv !! j = Some net ∧
    KvInterface_Name iface = KvNetwork_Name net ∧
    match findNetworkMapping (NIC_NetworkRef nic) nm with
    | Some (mkNetworkDestination NetworkDestinationMultus n ns) =>
        KvInterface_Binding iface = BindingBridge ∧ KvInterface_MacAddress iface = NIC_MacAddress nic ∧
        KvNetwork_Source net = KvMultus (if ns =s "" then n else ns +s+ "/" +s+ n)
    | _ =>
        KvInterface_Binding iface = BindingMasquerade ∧ KvInterface_MacAddress iface = "" ∧
        KvNetwork_Source net = KvPod
    end.

Lemma build_networks_line_up vm nm sm opts : networksLineUp vm nm (Build vm nm sm opts).
Proof.
  intros j nic Hj. unfold Build, buildInterfacesAndNetworks.
  destruct (buildDisksAndVolumes vm _) as [ds vs].
  pose proof (nicsLoop_lookup nm 0 (VM_Nics vm) j) as H. rewrite Hj in H.
  destruct (nicsLoop nm 0 (VM_Nics vm)) as [ifs nets]. simpl in *. injection H as H1 H2.
  do 2 eexists. split; [exact H1|]. split; [exact H2|]. unfold buildNic.
  destruct (findNetworkMapping _ _) as [[[] n ns]|]; simpl; repeat split.
  by destruct (ns =s "").
Qed.

Definition sampleNetworkMap : NetworkMap :=
  mkNetworkMap (newMeta "nm" "default" []) "prov"
    [mkNetworkPair (mkNetworkSource "subnet-1" "") (mkNetworkDestination NetworkDestinationMultus "br0" "")].

(** Guest memory is the source memory rounded down to whole MiB (never above it, less than
    1 MiB below it), the memory request is exactly the source memory, and the CPU topology is
    that of the source: sockets, cores per socket, and threads per core, one when the source has none. *)
Definition resourcesFit (vm : VM) (kv : VirtualMachine) : Prop :=
  (∃ g, KvVM_MemoryGuest kv = NewQuantityBinarySI g ∧
        g ≤ VM_MemorySizeBytes vm < g + 2 ^ 20 ∧ g mod 2 ^ 20 = 0) ∧
  KvVM_MemoryRequest kv = NewQuantityBinarySI (VM_MemorySizeBytes vm) ∧
  (0 ≤ VM_NumSockets vm < 2 ^ 32 → CPU_Sockets (KvVM_CPU kv) = VM_NumSockets vm) ∧
  (0 ≤ VM_NumCoresPerSocket vm < 2 ^ 32 → CPU_Cores (KvVM_CPU kv) = VM_NumCoresPerSocket vm) ∧
  (0 < VM_NumThreadsPerCore vm < 2 ^ 32 → CPU_Threads (KvVM_CPU kv) = VM_NumThreadsPerCore vm) ∧
  (VM_NumThreadsPerCore vm = 0 → CPU_Threads (KvVM_CPU kv) = 1) ∧
  1 ≤ CPU_Threads (KvVM_CPU kv).

Lemma build_resources vm nm sm opts :
  0 ≤ VM_MemorySizeBytes vm < 2 ^ 63 → resourcesFit vm (Build vm nm sm opts).
Proof.
  intros Hm. unfold resourcesFit, Build.
  destruct (buildDisksAndVolumes vm _), (buildInterfacesAndNetworks vm nm). simpl. split; [|split; [done|]].
  - exists (guestBytes vm). split; [done|]. unfold guestBytes.
    rewrite Z.quot_div_nonneg by lia.
    pose proof (Z.div_mod (VM_MemorySizeBytes vm) 1048576 ltac:(lia)) as Hd.
    pose proof (Z.mod_pos_bound (VM_MemorySizeBytes vm) 1048576 ltac:(lia)) as Hb.
    change (1024 * 1024) with 1048576.
    set (q := VM_MemorySizeBytes vm / 1048576) in *.
    assert (0 ≤ q) by (apply Z.div_pos; lia).
    rewrite (int64_id (q * 1024)) by (unfold in_int64; lia).
    rewrite int64_id by (unfold in_int64; lia).
    split; [lia|]. replace (q * 1024 * 1024) with (q * 2 ^ 20) by lia. apply Z.mod_mul. lia.
  - unfold buildCPU, uint32. cbn [CPU_Sockets CPU_Cores CPU_Threads]. do 2 (split; [intros; by rewrite Z.mod_small|]).
    pose proof (Z.mod_pos_bound (VM_NumThreadsPerCore vm) (2 ^ 32) ltac:(lia)). split; [|split].
    + intros Ht. rewrite Z.mod_small by lia. destruct (Z.eqb_spec (VM_NumThreadsPerCore vm) 0); lia.
    + by intros ->.
    + destruct (Z.eqb_spec (VM_NumThreadsPerCore vm mod 2 ^ 32) 0); lia.
Qed.

(** C38: The built VM matches its source. With one PVC per data disk, disks and volumes line up with
    the imported disks under distinct names, and only the first can boot; every NIC gets an
    interface and a network as its subnet is mapped; memory is that of the source, guest memory rounded
    down to whole MiB; and the sockets, cores per socket and threads per core are those of the source
    (when they fit in 32 bits), with one thread per core when the source gives none. *)
Theorem build_exact vm nm sm opts :
  length (Opt_PVCNames opts) = length (filterDataDisks (VM_Disks vm)) → 0 ≤ VM_MemorySizeBytes vm < 2 ^ 63 →
  let kv := Build vm nm sm opts in disksLineUp vm opts kv ∧ networksLineUp vm nm kv ∧ resourcesFit vm kv.
Proof.
  intros Hp Hm. split; [by apply build_disks_line_up|]. split; [apply build_networks_line_up|by apply build_resources].
Qed.

Lemma build_exact_witness :
  let kv := Build sampleVM (Some sampleNetworkMap) None (mkBuildOptions "ns" ["dv-0"] None) in
  KvVolume_PVC <$> KvVM_Volumes kv = [Some "dv-0"] ∧ CPU_Sockets (KvVM_CPU kv) = VM_NumSockets sampleVM ∧ 1 ≤ CPU_Threads (KvVM_CPU kv).
Proof.
  destruct (build_exact sampleVM (Some sampleNetworkMap) None (mkBuildOptions "ns" ["dv-0"] None))
    as ((_ & _ & _ & H1 & _) & _ & _ & _ & Hs & _ & _ & _ & H2);
    [vm_compute; reflexivity|vm_compute; split; [discriminate|reflexivity]|].
  split; [exact H1|]. split; [apply Hs; vm_compute; split; [discriminate|reflexivity]|exact H2].
Defined.
