(* ===== verification/Transfer.v ===== *)
(** * Disk transfer (internal/transfer)

    The transfer manager's operations on credential secrets, CA ConfigMaps and
    DataVolumes (manager.go), the DataVolume builder (datavolume.go) and the delta
    transfer pod with the shell script it runs (delta.go). *)

From S2P Require Import Prelude GoLib NutanixTypes ApiTypes Env.

(** ** DataVolumes *)

Definition gib : Z := 1024 * 1024 * 1024.

(** The GiB of a PVC request: rounded up, at least one. *)
Definition gibsOf (bytes : Z) : Z := Z.max (Z.quot (int64 (int64 (bytes + gib) - 1)) gib) 1.

Definition bytesToGiQuantity (bytes : Z) : Quantity := MustParse (itoa (gibsOf bytes) +s+ "Gi").

Record DataVolumeOptions := mkDataVolumeOptions {
  DVOpt_Name : string;
  DVOpt_Namespace : string;
  DVOpt_ImageURL : string;
  DVOpt_DiskSizeBytes : Z;
  DVOpt_StorageClass : string;
  DVOpt_VolumeMode : PersistentVolumeMode;
  DVOpt_AccessMode : AccessMode;
  DVOpt_SecretName : string;
  DVOpt_CertConfigMap : string;
  DVOpt_OwnerRef : OwnerReference
}.

Definition BuildDataVolume (opts : DataVolumeOptions) : DataVolume :=
  mkDataVolume
    (newMeta (DVOpt_Name opts) (DVOpt_Namespace opts) [DVOpt_OwnerRef opts])
    (DVOpt_ImageURL opts)
    (DVOpt_SecretName opts)
    (DVOpt_CertConfigMap opts)
    [DVOpt_AccessMode opts]
    (DVOpt_StorageClass opts)
    (DVOpt_VolumeMode opts)
    (bytesToGiQuantity (DVOpt_DiskSizeBytes opts))
    (DVOther "") "".

(** ** Storage mapping *)

(** Does a map entry's source select the reference, by ID or else by name? *)
Definition storageMatches (p : StoragePair) (ref : Reference) : bool :=
  let s := StoragePair_Source p in
  ((StorageSource_ID s <>s "") && (StorageSource_ID s =s Reference_ExtID ref)) ||
  ((StorageSource_Name s <>s "") && (StorageSource_Name s =s Reference_Name ref)).

Fixpoint findStoragePair (ref : Reference) (m : list StoragePair) : option StorageDestination :=
  match m with
  | [] => None
  | p :: r => if storageMatches p ref then Some (StoragePair_Destination p) else findStoragePair ref r
  end.

(** The storage container a disk is on, if its backing names one. *)
Definition containerRef (d : Disk) : option Reference :=
  match Disk_BackingInfo d with Some b => Backing_StorageContainerRef b | None => None end.

Definition FindStorageMapping (disk : Disk) (storageMap : StorageMap) : option StorageDestination :=
  match containerRef disk with
  | None => None
  | Some ref => findStoragePair ref (StorageMap_Map storageMap)
  end.

(** ** The manager *)

Definition SecretKeyAccessKeyID : string := "accessKeyId".
Definition SecretKeySecretKey : string := "secretKey".
Definition ConfigMapKeyCA : string := "ca.pem".

Record Manager := mkManager {
  Mgr_PrismURL : string;
  Mgr_Username : string;
  Mgr_Password : string;
  Mgr_CACert : string;
  Mgr_Insecure : bool
}.

Definition ImageDownloadURL (m : Manager) (imageUUID : string) : string :=
  TrimRight (Mgr_PrismURL m) "/" +s+ "/api/vmm/v4.0/images/" +s+ imageUUID +s+ "/file".

Record DataVolumeProgress := mkDVProgress { Progress_Phase : DataVolumePhase; Progress_Progress : string }.

(** [if apierrors.IsAlreadyExists(err) { return nil }; return err] *)
Definition ignoreAlreadyExists (r : result unit) : result unit :=
  match r with Err e => if IsAlreadyExists e then Ok tt else Err e | Ok _ => Ok tt end.

(** [if apierrors.IsNotFound(err) { return nil }; return err] *)
Definition ignoreNotFound (r : result unit) : result unit :=
  match r with Err e => if IsNotFound e then Ok tt else Err e | Ok _ => Ok tt end.

Section Manager.
Context {W : Type} `{E : Env W}.

Definition credentialSecret (m : Manager) (name ns : string) (owner : OwnerReference) : Secret :=
  mkSecret (newMeta name ns [owner])
    (<[SecretKeyAccessKeyID := Mgr_Username m]> (<[SecretKeySecretKey := Mgr_Password m]> ∅)).

Definition CreateCredentialSecret (m : Manager) (name ns : string) (owner : OwnerReference)
  : M W (result unit) :=
  err <- k8s (Create KSecret (credentialSecret m name ns owner)) ;;
  ret (ignoreAlreadyExists err).

Definition CreateCAConfigMap (m : Manager) (name ns : string) (owner : OwnerReference)
  : M W (result unit) :=
  if Mgr_CACert m =s "" then ret (Ok tt)
  else
    err <- k8s (Create KConfigMap (mkConfigMap (newMeta name ns [owner]) {[ConfigMapKeyCA := Mgr_CACert m]})) ;;
    ret (ignoreAlreadyExists err).

Definition CreateDataVolume (opts : DataVolumeOptions) : M W (result unit) :=
  err <- k8s (Create KDataVolume (BuildDataVolume opts)) ;;
  ret (ignoreAlreadyExists err).

Definition GetDataVolumeProgress (name ns : string) : M W (result DataVolumeProgress) :=
  r <- k8s (Get KDataVolume (mkNN ns name)) ;;
  match r with
  | Err e => ret (Err e)
  | Ok dv => ret (Ok (mkDVProgress (DV_Phase dv) (DV_Progress dv)))
  end.

Definition DeleteCredentialSecret (name ns : string) : M W (result unit) :=
  err <- k8s (Delete KSecret (mkNN ns name)) ;;
  ret (ignoreNotFound err).

Definition DeleteCAConfigMap (name ns : string) : M W (result unit) :=
  err <- k8s (Delete KConfigMap (mkNN ns name)) ;;
  ret (ignoreNotFound err).

End Manager.

(** ** Delta transfer *)

Definition CBTBlockSize : Z := 65536.
Definition deltaContainerName : string := "delta-transfer".
Definition deltaImage : string := "busybox:1.37".
Definition deltaVolumeName : string := "disk-data".
Definition deltaConfigVolume : string := "delta-config".
Definition deltaMountPath : string := "/data/disk".
Definition deltaConfigMount : string := "/config".

Definition newline : ascii := "010".
Definition colon : ascii := ":".
(** A double quote. *)
Definition dq : string := text [ascii_of_N 34].

(** The script of the pod, line by line. *)
Definition deltaScriptLines : list string := [
  "#!/bin/sh";
  "set -e";
  "AUTH=$(printf '%s:%s' " +s+ dq +s+ "${PRISM_USERNAME}" +s+ dq +s+ " " +s+ dq +s+ "${PRISM_PASSWORD}" +s+ dq +s+ " | base64)";
  "while IFS=: read -r offset length; do";
  "  [ -z " +s+ dq +s+ "$offset" +s+ dq +s+ " ] && continue";
  "  end=$((offset + length - 1))";
  "  wget --header=" +s+ dq +s+ "Authorization: Basic ${AUTH}" +s+ dq +s+ " \";
  "       --header=" +s+ dq +s+ "Range: bytes=${offset}-${end}" +s+ dq +s+ " \";
  "       -q -O /tmp/chunk " +s+ dq +s+ "${IMAGE_URL}" +s+ dq +s+ " || exit 1";
  "  dd if=/tmp/chunk of=/data/disk bs=1 seek=" +s+ dq +s+ "${offset}" +s+ dq +s+ " conv=notrunc 2>/dev/null || exit 1";
  "  rm -f /tmp/chunk";
  "done < /config/regions.txt";
  "echo " +s+ dq +s+ "Delta transfer complete" +s+ dq;
  "" ].
Definition deltaScript : string := Join deltaScriptLines (text [newline]).

Record DeltaPodOptions := mkDeltaPodOptions {
  Delta_Name : string;
  Delta_Namespace : string;
  Delta_PVCName : string;
  Delta_ImageURL : string;
  Delta_SecretName : string;
  Delta_Regions : list ChangedRegion;
  Delta_OwnerRef : OwnerReference
}.

Definition regionLine (r : ChangedRegion) : string :=
  itoa (Region_Offset r) +s+ ":" +s+ itoa (Region_Length r).

Definition RegionsToText (regions : list ChangedRegion) : string :=
  Join (regionLine <$> regions) (text [newline]).

(** [transfer.DeltaBytes]: the total, in 64-bit arithmetic. *)
Definition totalDeltaBytes (regions : list ChangedRegion) : Z :=
  fold_left (λ total r, int64 (total + Region_Length r)) regions 0.

Definition BuildDeltaPod (opts : DeltaPodOptions) : Pod * ConfigMap :=
  let cm := mkConfigMap
    (newMeta (Delta_Name opts +s+ "-regions") (Delta_Namespace opts) [Delta_OwnerRef opts])
    {["regions.txt" := RegionsToText (Delta_Regions opts)]} in
  let pod := mkPod
    (newMeta (Delta_Name opts) (Delta_Namespace opts) [Delta_OwnerRef opts])
    (mkPodSpec "" RestartPolicyNever
      [mkContainer deltaContainerName deltaImage ["/bin/sh"; "-c"; deltaScript]
        [EnvFromSecret "PRISM_USERNAME" (Delta_SecretName opts) SecretKeyAccessKeyID;
         EnvFromSecret "PRISM_PASSWORD" (Delta_SecretName opts) SecretKeySecretKey;
         EnvValue "IMAGE_URL" (Delta_ImageURL opts)]
        [mkVolumeMount deltaVolumeName deltaMountPath false;
         mkVolumeMount deltaConfigVolume deltaConfigMount true]]
      [mkVolume deltaVolumeName (VolumePVC (Delta_PVCName opts));
       mkVolume deltaConfigVolume (VolumeConfigMap (Meta_Name (ConfigMap_Meta cm)))])
    PodPhaseNone in
  (pod, cm).

(** *** What the script reads

    [while IFS=: read -r offset length; do ...; done < regions.txt]: the shell's
    [read] fails when it meets the end of the file before a newline, so the body
    runs for the newline-terminated lines only. The first colon separates the two
    variables, and a line with an empty [offset] is skipped. *)

Fixpoint terminatedLines (cur : list ascii) (l : list ascii) : list (list ascii) :=
  match l with
  | [] => []
  | c :: r => if Ascii.eqb c newline then cur :: terminatedLines [] r else terminatedLines (cur ++ [c]) r
  end.

Fixpoint splitColon (l : list ascii) : list ascii * list ascii :=
  match l with
  | [] => ([], [])
  | c :: r => if Ascii.eqb c colon then ([], r) else let '(a, b) := splitColon r in (c :: a, b)
  end.

(** The (offset, length) pairs the loop body runs for, in order. *)
Definition scriptReads (file : string) : list (string * string) :=
  List.filter (λ p, p.1 <>s "")
    ((λ l, let '(a, b) := splitColon l in (text a, text b)) <$> terminatedLines [] (chars file)).

(** All lines of the file, the unterminated last one included. *)
Definition allLines (file : string) : list (string * string) :=
  match chars file with [] => [] | _ => scriptReads (file +s+ text [newline]) end.

(** ** Lines *)

Lemma itoa_chars z c : c ∈ chars (itoa z) → is_digit c = true ∨ c = "-"%char.
Proof.
  destruct (Z.leb_spec 0 z) as [Hz|Hz].
  - pose proof (itoa_digits z Hz) as H. rewrite Forall_forall in H. auto.
  - destruct z as [|p|p]; try lia.
    assert (itoa (Z.neg p) = String "-" (itoa (Z.pos p))) as -> by done.
    cbn [chars String.list_ascii_of_string]. rewrite elem_of_cons. intros [->|H]; [by right|].
    pose proof (itoa_digits (Z.pos p) ltac:(lia)) as Hd. rewrite Forall_forall in Hd. auto.
Qed.

Lemma itoa_no_sep z : Forall (λ c, c ≠ newline ∧ c ≠ colon) (chars (itoa z)).
Proof.
  apply Forall_forall. intros c Hc. destruct (itoa_chars z c Hc) as [H| ->]; [|done].
  split; intros ->; done.
Qed.

Lemma terminatedLines_line cur l r : Forall (λ c, c ≠ newline) l →
  terminatedLines cur (l ++ newline :: r) = (cur ++ l) :: terminatedLines [] r.
Proof.
  intros H. revert cur. induction H as [|c l Hc _ IH]; intros cur; simpl; [by rewrite app_nil_r|].
  apply Ascii.eqb_neq in Hc. rewrite Hc, IH, <- app_assoc. done.
Qed.

Lemma terminatedLines_open cur l : Forall (λ c, c ≠ newline) l → terminatedLines cur l = [].
Proof.
  intros H. revert cur. induction H as [|c l Hc _ IH]; intros cur; simpl; [done|].
  apply Ascii.eqb_neq in Hc. by rewrite Hc, IH.
Qed.

Lemma splitColon_at a b : Forall (λ c, c ≠ colon) a → splitColon (a ++ colon :: b) = (a, b).
Proof.
  induction 1 as [|c a Hc _ IH]; simpl; [done|]. apply Ascii.eqb_neq in Hc. by rewrite Hc, IH.
Qed.

Lemma regionLine_no_newline r : Forall (λ c, c ≠ newline) (chars (regionLine r)).
Proof.
  unfold regionLine. rewrite !chars_app, !Forall_app. repeat split.
  - eapply Forall_impl; [apply itoa_no_sep|by intros c [? ?]].
  - by constructor.
  - eapply Forall_impl; [apply itoa_no_sep|by intros c [? ?]].
Qed.

(** The pair of texts a region is written as. *)
Definition regionPair (r : ChangedRegion) : string * string :=
  (itoa (Region_Offset r), itoa (Region_Length r)).

Lemma split_regionLine r :
  (let '(a, b) := splitColon (chars (regionLine r)) in (text a, text b)) = regionPair r.
Proof.
  unfold regionLine. rewrite !chars_app. simpl. rewrite splitColon_at.
  - by rewrite !text_chars.
  - eapply Forall_impl; [apply itoa_no_sep|by intros c [? ?]].
Qed.

Lemma Join_cons2 a b l sep : Join (a :: b :: l) sep = a +s+ sep +s+ Join (b :: l) sep.
Proof. done. Qed.

(** The terminated lines of the joined text are all but the last. *)
Lemma regions_terminated rs tail : rs ≠ [] → Forall (λ c, c ≠ newline) tail →
  terminatedLines [] (chars (RegionsToText rs) ++ newline :: tail) = chars ∘ regionLine <$> rs.
Proof.
  intros Hne Htail. induction rs as [|r rs IH]; [done|]. unfold RegionsToText in *.
  destruct rs as [|r' rs].
  - simpl. rewrite terminatedLines_line by apply regionLine_no_newline. simpl.
    by rewrite terminatedLines_open.
  - rewrite !fmap_cons, Join_cons2, !chars_app, chars_text, <- !app_assoc.
    simpl. rewrite terminatedLines_line by apply regionLine_no_newline. simpl. f_equal.
    apply (IH ltac:(done)).
Qed.

Lemma regions_terminated_raw rs :
  terminatedLines [] (chars (RegionsToText rs)) = chars ∘ regionLine <$> removelast rs.
Proof.
  destruct rs as [|r rs]; [done|]. revert r. induction rs as [|r' rs IH]; intros r.
  - simpl. apply terminatedLines_open, regionLine_no_newline.
  - unfold RegionsToText in *. rewrite !fmap_cons, Join_cons2, !chars_app, chars_text.
    change ([newline] ++ ?x) with (newline :: x).
    rewrite terminatedLines_line by apply regionLine_no_newline. simpl.
    f_equal. apply (IH r').
Qed.

Lemma keep_regionPairs (rs : list ChangedRegion) : List.filter (λ p, p.1 <>s "") (regionPair <$> rs) = regionPair <$> rs.
Proof.
  induction rs as [|r rs IH]; [done|]. csimpl. rewrite IH.
  destruct (itoa (Region_Offset r) =s "") eqn:H; [|done].
  apply String.eqb_eq in H. pose proof (itoa_nonempty (Region_Offset r)) as Hne. by rewrite H in Hne.
Qed.

Lemma pairs_of_lines (rs : list ChangedRegion) :
  (λ l, let '(a, b) := splitColon l in (text a, text b)) <$> (chars ∘ regionLine <$> rs) = regionPair <$> rs.
Proof. induction rs as [|r rs IH]; [done|]. csimpl. rewrite IH. f_equal. apply split_regionLine. Qed.

(** ** Properties *)

(** Regions.txt is a faithful encoding: reading every line back gives the offset
    and length of every changed region, in order. *)
Theorem regions_text_roundtrip rs :
  (λ p, (atoi p.1, atoi p.2)) <$> allLines (RegionsToText rs) =
  (λ r, (Some (Region_Offset r), Some (Region_Length r))) <$> rs.
Proof.
  assert (allLines (RegionsToText rs) = regionPair <$> rs) as ->.
  { unfold allLines, scriptReads. destruct rs as [|r rs]; [done|].
    destruct (chars (RegionsToText (r :: rs))) eqn:E.
    { pose proof (regions_terminated (r :: rs) [] ltac:(done) ltac:(constructor)) as H.
      rewrite E in H. simpl in H. injection H as H _. symmetry in H.
      unfold regionLine in H. rewrite !chars_app in H. by destruct (chars (itoa (Region_Offset r))). }
    rewrite chars_app, chars_text, regions_terminated by (done || constructor).
    rewrite pairs_of_lines. apply keep_regionPairs. }
  rewrite <- list_fmap_compose. apply list_fmap_ext. intros i r _. simpl. by rewrite !atoi_itoa.
Qed.

(** C39: the delta script never transfers the last changed region of a round: the
    regions are joined without a final newline, the shell's read fails on the
    unterminated last line, and so the loop body runs for all regions but the last;
    with one changed region it transfers nothing. *)
Theorem delta_script_skips_last_region rs :
  scriptReads (RegionsToText rs) = regionPair <$> removelast rs.
Proof.
  unfold scriptReads. rewrite regions_terminated_raw, pairs_of_lines. apply keep_regionPairs.
Qed.

Lemma gibsOf_eq b : gibsOf b = Z.max (Z.quot (int64 (b + 1073741823)) 1073741824) 1.
Proof.
  unfold gibsOf. replace (int64 (int64 (b + gib) - 1)) with (int64 (b + 1073741823)); [done|].
  unfold Z.sub. rewrite int64_add_l. f_equal. unfold gib. lia.
Qed.

(** A PVC request is large enough and at most one GiB too large: for every disk
    size up to 2^63 - 1 GiB the request covers the disk, wastes less than a GiB (a
    single GiB being the minimum), and above that the 64-bit sum overflows and the
    request collapses to 1Gi. *)
Theorem pvc_request_bounds b :
  0 ≤ b < 2 ^ 63 →
  (b ≤ 2 ^ 63 - gib → b ≤ gibsOf b * gib ∧ (gibsOf b = 1 ∨ gibsOf b * gib < b + gib)) ∧
  (2 ^ 63 - gib < b → gibsOf b = 1).
Proof.
  intros Hb. rewrite gibsOf_eq. unfold gib. change (1024 * 1024 * 1024) with 1073741824. split; intros H.
  - rewrite int64_id by (unfold in_int64; lia). rewrite Z.quot_div_nonneg by lia.
    pose proof (Z.div_mod (b + 1073741823) 1073741824 ltac:(lia)).
    pose proof (Z.mod_pos_bound (b + 1073741823) 1073741824 ltac:(lia)). lia.
  - assert (int64 (b + 1073741823) < 0) as Hneg.
    { unfold int64. replace (b + 1073741823 + 2 ^ 63) with (b + 1073741823 - 2 ^ 63 + 1 * 2 ^ 64) by lia.
      rewrite Z.mod_add by lia. rewrite Z.mod_small; lia. }
    assert (Z.quot (int64 (b + 1073741823)) 1073741824 ≤ 0); [|lia].
    rewrite <- (Z.opp_involutive (int64 _)), Z.quot_opp_l by lia.
    pose proof (Z.quot_pos (- int64 (b + 1073741823)) 1073741824). lia.
Qed.

Lemma pvc_request_bounds_witness :
  gibsOf 53687091200 = 50 ∧ 53687091200 ≤ gibsOf 53687091200 * gib ∧ gibsOf (2 ^ 63 - 1) = 1.
Proof.
  split; [vm_compute; reflexivity|]. split.
  - apply (pvc_request_bounds 53687091200); vm_compute; intuition discriminate.
  - apply (pvc_request_bounds (2 ^ 63 - 1)); vm_compute; intuition discriminate.
Defined.
