(* ===== verification/Validation.v ===== *)
(** * Plan validation (internal/validation/validator.go)

    The source-side rules are pure; the target-side rules read the cluster. *)

From S2P Require Import Prelude GoLib NutanixTypes ApiTypes Env Disks Builder Transfer.

Definition deviceTypeCDROM : string := "CDROM".
Definition busTypeIDE : string := "IDE".
Definition nicTypeNetFunc : string := "NETWORK_FUNCTION_NIC".
Definition nicTypeDirect : string := "DIRECT_NIC".
Definition cdiCRDName : string := "datavolumes.cdi.kubevirt.io".
Definition kubevirtCRDName : string := "virtualmachines.kubevirt.io".

(** [Opt_HasClient]: is the Kubernetes client non-nil? *)
Record ValidationOptions := mkValidationOptions {
  VOpt_NetworkMap : option NetworkMap;
  VOpt_StorageMap : option StorageMap;
  VOpt_ExistingMACs : gmap string string;
  VOpt_TargetNamespace : string;
  VOpt_HasClient : bool
}.

Fixpoint HasErrors (concerns : list Concern) : bool :=
  match concerns with
  | [] => false
  | c :: r => if bool_decide (Concern_Category c = ConcernCategoryError) then true else HasErrors r
  end.

Definition errorConcern (m : string) : Concern := mkConcern ConcernCategoryError m.
Definition warningConcern (m : string) : Concern := mkConcern ConcernCategoryWarning m.
Definition infoConcern (m : string) : Concern := mkConcern ConcernCategoryInfo m.

(** ** Source-side rules *)

Fixpoint storagePairMatches (ref : Reference) (m : list StoragePair) : bool :=
  match m with
  | [] => false
  | p :: r => if storageMatches p ref then true else storagePairMatches ref r
  end.

Definition isStorageMapped (ref : option Reference) (storageMap : option StorageMap) : bool :=
  match ref, storageMap with
  | Some ref, Some m => storagePairMatches ref (StorageMap_Map m)
  | _, _ => false
  end.

(** The key under which a reference is remembered. *)
Definition refKey (ref : Reference) : string := Reference_ExtID ref +s+ "/" +s+ Reference_Name ref.

Fixpoint unmappedStorageLoop (seen : gset string) (disks : list Disk) (sm : option StorageMap) : list Concern :=
  match disks with
  | [] => []
  | d :: r =>
      if isCDROM d then unmappedStorageLoop seen r sm
      else match containerRef d with
      | None => unmappedStorageLoop seen r sm
      | Some ref =>
          if bool_decide (refKey ref ∈ seen) then unmappedStorageLoop seen r sm
          else
            let seen := {[refKey ref]} ∪ seen in
            if isStorageMapped (Some ref) sm then unmappedStorageLoop seen r sm
            else errorConcern ("storage container " +s+ quoted (Reference_Name ref) +s+ " (ID: " +s+
                   Reference_ExtID ref +s+ ") is not mapped in StorageMap")
                 :: unmappedStorageLoop seen r sm
      end
  end.

Definition checkUnmappedStorage (vm : VM) (sm : option StorageMap) : list Concern :=
  unmappedStorageLoop ∅ (VM_Disks vm) sm.

Fixpoint networkPairMatches (ref : Reference) (m : list NetworkPair) : bool :=
  match m with
  | [] => false
  | p :: r => if networkMatches p ref then true else networkPairMatches ref r
  end.

Definition isNetworkMapped (ref : option Reference) (networkMap : option NetworkMap) : bool :=
  match ref, networkMap with
  | Some ref, Some m => networkPairMatches ref (NetworkMap_Map m)
  | _, _ => false
  end.

Fixpoint unmappedNetworkLoop (seen : gset string) (nics : list NIC) (nm : option NetworkMap) : list Concern :=
  match nics with
  | [] => []
  | nic :: r =>
      match NIC_NetworkRef nic with
      | None => unmappedNetworkLoop seen r nm
      | Some ref =>
          if bool_decide (refKey ref ∈ seen) then unmappedNetworkLoop seen r nm
          else
            let seen := {[refKey ref]} ∪ seen in
            if isNetworkMapped (Some ref) nm then unmappedNetworkLoop seen r nm
            else errorConcern ("subnet " +s+ quoted (Reference_Name ref) +s+ " (ID: " +s+
                   Reference_ExtID ref +s+ ") is not mapped in NetworkMap")
                 :: unmappedNetworkLoop seen r nm
      end
  end.

Definition checkUnmappedNetwork (vm : VM) (nm : option NetworkMap) : list Concern :=
  unmappedNetworkLoop ∅ (VM_Nics vm) nm.

Definition checkGPU (vm : VM) : list Concern :=
  match VM_Gpus vm with
  | [] => []
  | gpus => [warningConcern ("VM has " +s+ itoa (len gpus) +s+
      " GPU(s) attached; GPU passthrough requires manual configuration on target")]
  end.

Definition checkVolumeGroupDisks (vm : VM) : list Concern :=
  (λ d, errorConcern ("disk " +s+ Disk_ExtID d +s+
     " has no storage container reference (possible Volume Group); Volume Groups cannot be migrated"))
  <$> List.filter (λ d, negb (isCDROM d) && match containerRef d with None => true | Some _ => false end) (VM_Disks vm).

Definition nicTypeConcern (nic : NIC) : option Concern :=
  let t := ToUpper (NIC_NicType nic) in
  if t =s nicTypeNetFunc then
    Some (errorConcern ("NIC " +s+ NIC_ExtID nic +s+ " is a " +s+ nicTypeNetFunc +s+ " which cannot be migrated"))
  else if t =s nicTypeDirect then
    Some (warningConcern ("NIC " +s+ NIC_ExtID nic +s+ " is a " +s+ nicTypeDirect +s+
      " (passthrough); requires SR-IOV on target cluster"))
  else None.

Definition checkNICTypes (vm : VM) : list Concern := omap nicTypeConcern (VM_Nics vm).

Definition macConcern (existingMACs : gmap string string) (nic : NIC) : option Concern :=
  if NIC_MacAddress nic =s "" then None
  else match existingMACs !! ToLower (NIC_MacAddress nic) with
  | Some owner => Some (warningConcern ("MAC address " +s+ NIC_MacAddress nic +s+ " on NIC " +s+ NIC_ExtID nic +s+
      " conflicts with VM " +s+ quoted owner))
  | None => None
  end.

Definition checkMACConflicts (vm : VM) (existingMACs : gmap string string) : list Concern :=
  if bool_decide (size existingMACs = 0%nat) then [] else omap (macConcern existingMACs) (VM_Nics vm).

Definition ideConcern (d : Disk) : option Concern :=
  if isCDROM d then None
  else match Disk_DiskAddress d with
  | Some a =>
      if ToUpper (DiskAddress_BusType a) =s busTypeIDE
      then Some (infoConcern ("disk " +s+ Disk_ExtID d +s+ " uses IDE bus; will be mapped to SATA on KubeVirt"))
      else None
  | None => None
  end.

Definition checkIDEDisks (vm : VM) : list Concern := omap ideConcern (VM_Disks vm).

(** The rules that always run, in order. *)
Definition sourceConcerns (vm : VM) (opts : ValidationOptions) : list Concern :=
  checkUnmappedStorage vm (VOpt_StorageMap opts) ++
  checkUnmappedNetwork vm (VOpt_NetworkMap opts) ++
  checkGPU vm ++
  checkVolumeGroupDisks vm ++
  checkNICTypes vm ++
  checkMACConflicts vm (VOpt_ExistingMACs opts) ++
  checkIDEDisks vm.

(** ** Target-side rules *)

(** [for sc := range needed]: Go visits the keys of a map in some order. *)
Class RangeOrder := rangeOrder : gset string → list string.
Class RangeOrderLaw `{RangeOrder} : Prop := range_order_perm s : rangeOrder s ≡ₚ elements s.

(** The StorageClasses every matching entry of the map names, for one disk. *)
Definition neededBy (m : list StoragePair) (d : Disk) : list string :=
  if isCDROM d then []
  else match containerRef d with
  | None => []
  | Some ref => (λ p, StorageDest_StorageClass (StoragePair_Destination p)) <$>
                  List.filter (λ p, storageMatches p ref) m
  end.

Definition neededClasses (vm : VM) (m : StorageMap) : gset string :=
  list_to_set (concat (neededBy (StorageMap_Map m) <$> VM_Disks vm)).

Definition findNetworkDestination (ref : option Reference) (networkMap : option NetworkMap)
  : option NetworkDestination :=
  match ref, networkMap with
  | Some ref, Some m =>
      (fix go (l : list NetworkPair) : option NetworkDestination :=
         match l with
         | [] => None
         | p :: r => if networkMatches p ref then Some (NetworkPair_Destination p) else go r
         end) (NetworkMap_Map m)
  | _, _ => None
  end.

Section Target.
Context {W : Type} `{E : Env W} `{RO : RangeOrder}.

Definition checkNamespace (namespace : string) : M W (list Concern) :=
  r <- k8s (Get KNamespace (mkNN "" namespace)) ;;
  match r with
  | Err e => if IsNotFound e
             then ret [errorConcern ("target namespace " +s+ quoted namespace +s+ " does not exist")]
             else ret []
  | Ok _ => ret []
  end.

Fixpoint storageClassLoop (classes : list string) : M W (list Concern) :=
  match classes with
  | [] => ret []
  | sc :: rest =>
      r <- k8s (Get KStorageClass (mkNN "" sc)) ;;
      cs <- storageClassLoop rest ;;
      match r with
      | Err e => if IsNotFound e
                 then ret (errorConcern ("StorageClass " +s+ quoted sc +s+ " not found in cluster") :: cs)
                 else ret cs
      | Ok _ => ret cs
      end
  end.

Definition checkStorageClasses (vm : VM) (sm : option StorageMap) : M W (list Concern) :=
  match sm with
  | None => ret []
  | Some m => storageClassLoop (rangeOrder (neededClasses vm m))
  end.

Fixpoint multusLoop (checked : gset string) (nics : list NIC) (nm : NetworkMap) (targetNS : string)
  : M W (list Concern) :=
  match nics with
  | [] => ret []
  | nic :: rest =>
      match findNetworkDestination (NIC_NetworkRef nic) (Some nm) with
      | None => multusLoop checked rest nm targetNS
      | Some dest =>
          match NetworkDest_Type dest with
          | NetworkDestinationPod => multusLoop checked rest nm targetNS
          | NetworkDestinationMultus =>
              let ns := if NetworkDest_Namespace dest =s "" then targetNS else NetworkDest_Namespace dest in
              let key := ns +s+ "/" +s+ NetworkDest_Name dest in
              if bool_decide (key ∈ checked) then multusLoop checked rest nm targetNS
              else
                r <- k8s (Get KNetAttachDef (mkNN ns (NetworkDest_Name dest))) ;;
                cs <- multusLoop ({[key]} ∪ checked) rest nm targetNS ;;
                match r with
                | Err _ => ret (errorConcern ("Multus NetworkAttachmentDefinition " +s+ quoted (NetworkDest_Name dest) +s+
                             " not found in namespace " +s+ quoted ns) :: cs)
                | Ok _ => ret cs
                end
          end
      end
  end.

Definition checkMultusNADs (vm : VM) (nm : option NetworkMap) (targetNS : string) : M W (list Concern) :=
  match nm with
  | None => ret []
  | Some m => multusLoop ∅ (VM_Nics vm) m targetNS
  end.

Definition checkCDIInstalled : M W (list Concern) :=
  r <- k8s (Get KCustomResourceDefinition (mkNN "" cdiCRDName)) ;;
  match r with
  | Err _ => ret [errorConcern "CDI (Containerized Data Importer) is not installed in the target cluster"]
  | Ok _ => ret []
  end.

Definition checkKubeVirtInstalled : M W (list Concern) :=
  r <- k8s (Get KCustomResourceDefinition (mkNN "" kubevirtCRDName)) ;;
  match r with
  | Err _ => ret [errorConcern "KubeVirt is not installed in the target cluster"]
  | Ok _ => ret []
  end.

Definition Validate (vm : VM) (opts : ValidationOptions) : M W (list Concern) :=
  let concerns := sourceConcerns vm opts in
  if VOpt_HasClient opts then
    c1 <- checkNamespace (VOpt_TargetNamespace opts) ;;
    c2 <- checkStorageClasses vm (VOpt_StorageMap opts) ;;
    c3 <- checkMultusNADs vm (VOpt_NetworkMap opts) (VOpt_TargetNamespace opts) ;;
    c4 <- checkCDIInstalled ;;
    c5 <- checkKubeVirtInstalled ;;
    ret (concerns ++ c1 ++ c2 ++ c3 ++ c4 ++ c5)
  else ret concerns.

End Target.

(** ** Lemmas *)

Lemma HasErrors_app cs ds : HasErrors (cs ++ ds) = HasErrors cs || HasErrors ds.
Proof. induction cs as [|c cs IH]; [done|]. simpl. by case_bool_decide. Qed.

Lemma HasErrors_none cs : HasErrors cs = false ↔ Forall (λ c, Concern_Category c ≠ ConcernCategoryError) cs.
Proof.
  induction cs as [|c cs IH]; [by split|]. simpl. rewrite Forall_cons, <- IH. case_bool_decide; intuition congruence.
Qed.

Lemma omap_no_errors {A} (f : A → option Concern) (l : list A) :
  (∀ x c, x ∈ l → f x = Some c → Concern_Category c ≠ ConcernCategoryError) → HasErrors (omap f l) = false.
Proof.
  intros H. apply HasErrors_none, Forall_forall. intros c Hc.
  apply list_elem_of_omap in Hc as (x & Hx & Hf). eauto.
Qed.

(** The yes/no lookups agree with the lookups that return the destination. *)
Lemma storagePairMatches_find ref m : storagePairMatches ref m = true ↔ is_Some (findStoragePair ref m).
Proof.
  induction m as [|p m IH]; simpl; [by split; [|intros [? ?]]|]. destruct (storageMatches p ref); [|done].
  split; [by eexists|done].
Qed.

Lemma networkPairMatches_find ref m : networkPairMatches ref m = true ↔ is_Some (findNetworkPair ref m).
Proof.
  induction m as [|p m IH]; simpl; [by split; [|intros [? ?]]|]. destruct (networkMatches p ref); [|done].
  split; [by eexists|done].
Qed.

Lemma findNetworkDestination_mapping ref nm : findNetworkDestination ref nm = findNetworkMapping ref nm.
Proof.
  destruct ref as [ref|], nm as [nm|]; try done. simpl. induction (NetworkMap_Map nm) as [|p l IH]; simpl; [done|].
  by destruct (networkMatches p ref).
Qed.

(** An identifier without a slash; Nutanix extIds are UUIDs. *)
Definition noSlash (ref : Reference) : Prop := "/"%char ∉ chars (Reference_ExtID ref).

Lemma refKey_inj r r' : noSlash r → noSlash r' → refKey r = refKey r' → r = r'.
Proof.
  intros H H' Heq. apply (f_equal chars) in Heq. unfold refKey in Heq. rewrite !chars_app in Heq.
  apply app_sep_inj in Heq as [H1 H2]; [|done|done]. apply chars_inj in H1, H2.
  destruct r, r'; simpl in *; congruence.
Qed.

Lemma storage_loop_sound seen disks sm :
  HasErrors (unmappedStorageLoop seen disks sm) = false →
  ∀ d ref, d ∈ disks → isCDROM d = false → containerRef d = Some ref →
    refKey ref ∈ seen ∨
    ∃ d' ref', d' ∈ disks ∧ containerRef d' = Some ref' ∧ refKey ref' = refKey ref ∧ isStorageMapped (Some ref') sm = true.
Proof.
  revert seen. induction disks as [|d0 ds IH]; intros seen H d ref Hd Hcd Href; [set_solver|].
  cbn [unmappedStorageLoop] in H. apply elem_of_cons in Hd.
  destruct (isCDROM d0) eqn:E0.
  { destruct Hd as [->|Hd]; [congruence|]. destruct (IH _ H d ref Hd Hcd Href) as [?|(d' & r' & ? & ?)]; [by left|].
    right. exists d', r'. set_solver. }
  destruct (containerRef d0) as [r0|] eqn:Er0.
  2:{ destruct Hd as [->|Hd]; [congruence|]. destruct (IH _ H d ref Hd Hcd Href) as [?|(d' & r' & ? & ?)]; [by left|].
      right. exists d', r'. set_solver. }
  case_bool_decide as Hseen.
  { destruct Hd as [->|Hd]; [left; congruence|]. destruct (IH _ H d ref Hd Hcd Href) as [?|(d' & r' & ? & ?)]; [by left|].
    right. exists d', r'. set_solver. }
  destruct (isStorageMapped (Some r0) sm) eqn:Em; [|discriminate H].
  destruct Hd as [->|Hd].
  - right. exists d0, r0. rewrite Er0 in Href. injection Href as ->. set_solver.
  - destruct (IH _ H d ref Hd Hcd Href) as [Hin|(d' & r' & ? & ?)].
    + apply elem_of_union in Hin as [Hin|Hin]; [|by left]. apply elem_of_singleton in Hin.
      right. exists d0, r0. rewrite Hin. set_solver.
    + right. exists d', r'. set_solver.
Qed.

Lemma storage_loop_complete seen disks sm :
  (∀ d ref, d ∈ disks → isCDROM d = false → containerRef d = Some ref → isStorageMapped (Some ref) sm = true) →
  unmappedStorageLoop seen disks sm = [].
Proof.
  revert seen. induction disks as [|d ds IH]; intros seen H; [done|]. cbn [unmappedStorageLoop].
  assert (∀ s, unmappedStorageLoop s ds sm = []) as IH' by (intros s; apply IH; set_solver).
  destruct (isCDROM d) eqn:E; [done|]. destruct (containerRef d) as [ref|] eqn:Er; [|done].
  case_bool_decide; [done|]. rewrite (H d ref); set_solver.
Qed.

Lemma network_loop_sound seen nics nm :
  HasErrors (unmappedNetworkLoop seen nics nm) = false →
  ∀ n ref, n ∈ nics → NIC_NetworkRef n = Some ref →
    refKey ref ∈ seen ∨
    ∃ n' ref', n' ∈ nics ∧ NIC_NetworkRef n' = Some ref' ∧ refKey ref' = refKey ref ∧ isNetworkMapped (Some ref') nm = true.
Proof.
  revert seen. induction nics as [|n0 ns IH]; intros seen H n ref Hn Href; [set_solver|].
  cbn [unmappedNetworkLoop] in H. apply elem_of_cons in Hn.
  destruct (NIC_NetworkRef n0) as [r0|] eqn:Er0.
  2:{ destruct Hn as [->|Hn]; [congruence|]. destruct (IH _ H n ref Hn Href) as [?|(n' & r' & ? & ?)]; [by left|].
      right. exists n', r'. set_solver. }
  case_bool_decide as Hseen.
  { destruct Hn as [->|Hn]; [left; congruence|]. destruct (IH _ H n ref Hn Href) as [?|(n' & r' & ? & ?)]; [by left|].
    right. exists n', r'. set_solver. }
  destruct (isNetworkMapped (Some r0) nm) eqn:Em; [|discriminate H].
  destruct Hn as [->|Hn].
  - right. exists n0, r0. rewrite Er0 in Href. injection Href as ->. set_solver.
  - destruct (IH _ H n ref Hn Href) as [Hin|(n' & r' & ? & ?)].
    + apply elem_of_union in Hin as [Hin|Hin]; [|by left]. apply elem_of_singleton in Hin.
      right. exists n0, r0. rewrite Hin. set_solver.
    + right. exists n', r'. set_solver.
Qed.

Lemma network_loop_complete seen nics nm :
  (∀ n ref, n ∈ nics → NIC_NetworkRef n = Some ref → isNetworkMapped (Some ref) nm = true) →
  unmappedNetworkLoop seen nics nm = [].
Proof.
  revert seen. induction nics as [|n ns IH]; intros seen H; [done|]. cbn [unmappedNetworkLoop].
  assert (∀ s, unmappedNetworkLoop s ns nm = []) as IH' by (intros s; apply IH; set_solver).
  destruct (NIC_NetworkRef n) as [ref|] eqn:Er; [|done].
  case_bool_decide; [done|]. rewrite (H n ref); set_solver.
Qed.

(** Rules that only warn. *)
Lemma checkGPU_no_errors vm : HasErrors (checkGPU vm) = false.
Proof. unfold checkGPU. by destruct (VM_Gpus vm). Qed.

Lemma checkMACConflicts_no_errors vm macs : HasErrors (checkMACConflicts vm macs) = false.
Proof.
  unfold checkMACConflicts. case_bool_decide; [done|]. apply omap_no_errors. intros n c _ Hc.
  unfold macConcern in Hc. destruct (NIC_MacAddress n =s ""); [done|].
  destruct (macs !! _); [|done]. by injection Hc as <-.
Qed.

Lemma checkIDEDisks_no_errors vm : HasErrors (checkIDEDisks vm) = false.
Proof.
  apply omap_no_errors. intros d c _ H. unfold ideConcern in H. destruct (isCDROM d); [done|].
  destruct (Disk_DiskAddress d); [|done]. destruct (_ =s _); [|done]. by injection H as <-.
Qed.

Lemma checkVolumeGroupDisks_exact vm :
  HasErrors (checkVolumeGroupDisks vm) = false ↔
  ∀ d, d ∈ VM_Disks vm → isCDROM d = false → is_Some (containerRef d).
Proof.
  unfold checkVolumeGroupDisks. induction (VM_Disks vm) as [|d ds IH]; [set_solver|].
  simpl. rewrite elem_of_cons_forall. destruct (isCDROM d) eqn:Ec; simpl.
  - rewrite IH. split; [|tauto]. intros H. split; [congruence|done].
  - destruct (containerRef d) as [r|]; simpl.
    + rewrite IH. split; [|tauto]. intros H. split; [by eexists|done].
    + split; [done|]. intros [H _]. by destruct (H eq_refl).
Qed.

Lemma checkNICTypes_exact vm :
  HasErrors (checkNICTypes vm) = false ↔
  ∀ n, n ∈ VM_Nics vm → ToUpper (NIC_NicType n) ≠ nicTypeNetFunc.
Proof.
  unfold checkNICTypes. induction (VM_Nics vm) as [|n ns IH]; [set_solver|].
  rewrite elem_of_cons_forall. csimpl. unfold nicTypeConcern at 1.
  destruct (String.eqb_spec (ToUpper (NIC_NicType n)) nicTypeNetFunc) as [E|E]; simpl.
  - split; [done|]. by intros [? _].
  - destruct (_ =s nicTypeDirect); simpl; rewrite IH; tauto.
Qed.

Lemma checkUnmappedStorage_exact vm sm :
  (∀ d ref, d ∈ VM_Disks vm → containerRef d = Some ref → noSlash ref) →
  HasErrors (checkUnmappedStorage vm (Some sm)) = false ↔
  ∀ d ref, d ∈ VM_Disks vm → isCDROM d = false → containerRef d = Some ref → is_Some (FindStorageMapping d sm).
Proof.
  intros Hns. unfold checkUnmappedStorage, FindStorageMapping. split.
  - intros H d ref Hd Hc Hr. rewrite Hr.
    destruct (storage_loop_sound _ _ _ H d ref Hd Hc Hr) as [?|(d' & r' & Hd' & Hr' & Hk & Hm)]; [set_solver|].
    apply refKey_inj in Hk as ->; eauto. by apply storagePairMatches_find.
  - intros H. rewrite storage_loop_complete; [done|]. intros d ref Hd Hc Hr.
    apply storagePairMatches_find. specialize (H d ref Hd Hc Hr). by rewrite Hr in H.
Qed.

Lemma checkUnmappedNetwork_exact vm nm :
  (∀ n ref, n ∈ VM_Nics vm → NIC_NetworkRef n = Some ref → noSlash ref) →
  HasErrors (checkUnmappedNetwork vm (Some nm)) = false ↔
  ∀ n ref, n ∈ VM_Nics vm → NIC_NetworkRef n = Some ref → is_Some (findNetworkMapping (Some ref) (Some nm)).
Proof.
  intros Hns. unfold checkUnmappedNetwork. split.
  - intros H n ref Hn Hr.
    destruct (network_loop_sound _ _ _ H n ref Hn Hr) as [?|(n' & r' & Hn' & Hr' & Hk & Hm)]; [set_solver|].
    apply refKey_inj in Hk as ->; eauto. by apply networkPairMatches_find.
  - intros H. rewrite network_loop_complete; [done|]. intros n ref Hn Hr. apply networkPairMatches_find. eauto.
Qed.

(** ** Properties *)

(** What the rest of the operator needs of a VM: every data disk has a mapped storage
    container, every attached NIC a mapped subnet, and no NIC is a network function. *)
Definition migratable (vm : VM) (nm : NetworkMap) (sm : StorageMap) : Prop :=
  (∀ d, d ∈ VM_Disks vm → isCDROM d = false → is_Some (FindStorageMapping d sm)) ∧
  (∀ n ref, n ∈ VM_Nics vm → NIC_NetworkRef n = Some ref →
     is_Some (findNetworkMapping (Some ref) (Some nm))) ∧
  (∀ n, n ∈ VM_Nics vm → ToUpper (NIC_NicType n) ≠ nicTypeNetFunc).

(** The identifiers of the references of a VM contain no slash, as UUIDs do not. *)
Definition plainRefs (vm : VM) : Prop :=
  (∀ d ref, d ∈ VM_Disks vm → containerRef d = Some ref → noSlash ref) ∧
  (∀ n ref, n ∈ VM_Nics vm → NIC_NetworkRef n = Some ref → noSlash ref).

Lemma source_no_errors vm opts nm sm :
  VOpt_NetworkMap opts = Some nm → VOpt_StorageMap opts = Some sm → plainRefs vm →
  HasErrors (sourceConcerns vm opts) = false ↔ migratable vm nm sm.
Proof.
  intros Hnm Hsm [Hd Hn]. unfold sourceConcerns, migratable.
  rewrite Hnm, Hsm, !HasErrors_app, !orb_false_iff.
  rewrite checkUnmappedStorage_exact, checkUnmappedNetwork_exact, checkVolumeGroupDisks_exact, checkNICTypes_exact
    by done.
  rewrite checkGPU_no_errors, checkMACConflicts_no_errors, checkIDEDisks_no_errors.
  split.
  - intros (Hs & Hnet & _ & Hvg & Hnt & _). split; [|done]. intros d Hin Hc. destruct (Hvg d Hin Hc). eauto.
  - intros (Hs & Hnet & Hnt). repeat split; eauto. intros d Hin Hc. specialize (Hs d Hin Hc).
    unfold FindStorageMapping in Hs. destruct (containerRef d); [by eexists|by destruct Hs].
Qed.

(** C35: the source-side rules report an error exactly when the VM cannot be migrated:
    no error concern iff every data disk resolves in the StorageMap with the lookup
    the transfer uses, every NIC reference resolves in the NetworkMap with the lookup
    the builder uses, and no NIC is a NETWORK_FUNCTION_NIC. GPUs, MAC conflicts, IDE
    disks and direct NICs never block. *)
Theorem source_rules_exact vm opts nm sm :
  VOpt_NetworkMap opts = Some nm → VOpt_StorageMap opts = Some sm → plainRefs vm →
  HasErrors (sourceConcerns vm opts) = false ↔ migratable vm nm sm.
Proof. apply source_no_errors. Qed.

Definition sampleStorageMap : StorageMap :=
  mkStorageMap (newMeta "sm" "default" []) "prov"
    [mkStoragePair (mkStorageSource "sc-1" "") (mkStorageDestination "fast" VolumeModeUnset AccessModeUnset)].

Definition sampleOptions : ValidationOptions :=
  mkValidationOptions (Some sampleNetworkMap) (Some sampleStorageMap) ∅ "ns" true.

Lemma sample_plainRefs : plainRefs sampleVM.
Proof.
  split; intros x ref Hx Hr; unfold sampleVM in Hx; simpl in Hx;
    repeat (apply elem_of_cons in Hx as [->|Hx]; [simpl in Hr; try discriminate Hr; injection Hr as <-;
      unfold noSlash; vm_compute; set_solver|]); set_solver.
Qed.

Lemma source_rules_exact_witness : migratable sampleVM sampleNetworkMap sampleStorageMap.
Proof.
  apply (source_rules_exact sampleVM sampleOptions sampleNetworkMap sampleStorageMap eq_refl eq_refl sample_plainRefs).
  vm_compute. reflexivity.
Defined.

(** Did the cluster refute what the call asked? The namespace and StorageClass rules
    only count a NotFound; the others any error. *)
Definition refutes (e : event) : bool :=
  match e with
  | Ev (K8s (Get k _)) (Err err) =>
      match k with KNamespace | KStorageClass => IsNotFound err | _ => true end
  | _ => false
  end.

Definition isGet (e : event) : bool :=
  match ev_call e with K8s (Get _ _) => true | _ => false end.

(** A read of the object with that kind and key. *)
Definition asks (k : kind) (key : NamespacedName) (e : event) : Prop := ev_call e = K8s (Get k key).

Section TargetProofs.
Context {W : Type} `{E : Env W} `{RO : RangeOrder}.

(** A rule whose error concerns are the refuted reads it made, and which makes the
    reads [Q]. *)
Definition readsRule (Q : trace → Prop) (m : M W (list Concern)) : Prop :=
  spec m (total (λ t cs, HasErrors cs = existsb refutes t ∧ Forall (λ e, isGet e = true) t ∧ Q t)).

Lemma readsRule_bind Q m (R : trace → list Concern → Prop) (k : list Concern → M W (list Concern)) :
  readsRule Q m →
  (∀ t cs, HasErrors cs = existsb refutes t → Forall (λ e, isGet e = true) t → Q t →
     spec (k cs) (total (λ t', R (t ++ t')))) →
  spec (bind m k) (total R).
Proof. intros Hm Hk. eapply spec_bind; [exact Hm|]. intros t cs (?&?&?). eauto. Qed.

Lemma checkNamespace_reads ns :
  readsRule (λ t, Exists (asks KNamespace (mkNN "" ns)) t) (checkNamespace ns).
Proof.
  unfold readsRule, checkNamespace. spec_step. repeat spec_step; simplify_eq; (split; [|split]); simpl;
    rewrite ?orb_false_r; try (by repeat constructor); by rewrite ?Heqb.
Qed.

Lemma checkCDIInstalled_reads :
  readsRule (λ t, Exists (asks KCustomResourceDefinition (mkNN "" cdiCRDName)) t) checkCDIInstalled.
Proof.
  unfold readsRule, checkCDIInstalled. repeat spec_step; simplify_eq; (split; [|split]); by repeat constructor.
Qed.

Lemma checkKubeVirtInstalled_reads :
  readsRule (λ t, Exists (asks KCustomResourceDefinition (mkNN "" kubevirtCRDName)) t) checkKubeVirtInstalled.
Proof.
  unfold readsRule, checkKubeVirtInstalled. repeat spec_step; simplify_eq; (split; [|split]); by repeat constructor.
Qed.

Lemma storageClassLoop_reads classes :
  readsRule (λ t, ∀ sc, sc ∈ classes → Exists (asks KStorageClass (mkNN "" sc)) t) (storageClassLoop classes).
Proof.
  unfold readsRule. induction classes as [|c cs IH]; simpl.
  { spec_step. split; [done|]. split; [constructor|set_solver]. }
  spec_step. eapply readsRule_bind; [exact IH|]. intros t l Hl Hg Hq.
  repeat spec_step; simplify_eq; rewrite app_nil_r, ?elem_of_cons_forall; (split; [|split; [by constructor|split; [by constructor|]]]);
    try (intros; by constructor; apply Hq); simpl; by rewrite ?Heqb, <- Hl.
Qed.

(** The network attachment definition that the NIC is attached to, by the lookup the builder uses. *)
Definition attachesTo (nm : NetworkMap) (targetNS : string) (nic : NIC) (key : NamespacedName) : Prop :=
  ∃ name ns, findNetworkMapping (NIC_NetworkRef nic) (Some nm) = Some (mkNetworkDestination NetworkDestinationMultus name ns) ∧
    key = mkNN (if ns =s "" then targetNS else ns) name.

(** An object's namespace and name with a slash, which neither contains. *)
Definition path (key : NamespacedName) : string := NN_Namespace key +s+ "/" +s+ NN_Name key.

Definition asksPath (k : kind) (key : NamespacedName) (e : event) : Prop := ∃ key', asks k key' e ∧ path key' = path key.

Lemma findNetworkDestination_builder ref nm : findNetworkDestination ref (Some nm) = findNetworkMapping ref (Some nm).
Proof. destruct ref as [ref|]; [|done]. simpl. induction (NetworkMap_Map nm) as [|p l IH]; [done|]. simpl. by destruct (networkMatches p ref). Qed.

(** A NIC that needs no read. *)
Lemma multus_skip (checked : gset string) n nics nm ns m :
  (∀ key, attachesTo nm ns n key → path key ∈ checked) →
  readsRule (λ t, ∀ nic key, nic ∈ nics → attachesTo nm ns nic key → path key ∈ checked ∨ Exists (asksPath KNetAttachDef key) t) m →
  readsRule (λ t, ∀ nic key, nic ∈ n :: nics → attachesTo nm ns nic key → path key ∈ checked ∨ Exists (asksPath KNetAttachDef key) t) m.
Proof.
  intros Hn Hm. unfold readsRule. eapply spec_total_weaken; [exact Hm|]. intros t cs (H1 & H2 & H3). do 2 (split; [done|]).
  intros nic key [->|Hin]%elem_of_cons Ha; eauto.
Qed.

Lemma multusLoop_reads checked nics nm ns :
  readsRule (λ t, ∀ nic key, nic ∈ nics → attachesTo nm ns nic key → path key ∈ checked ∨ Exists (asksPath KNetAttachDef key) t)
    (multusLoop checked nics nm ns).
Proof.
  revert checked. induction nics as [|n nics IH]; intros checked; cbn [multusLoop].
  { unfold readsRule. spec_step. split; [done|]. split; [done|]. intros nic key Hn. by apply elem_of_nil in Hn. }
  rewrite findNetworkDestination_builder.
  assert (∀ key, attachesTo nm ns n key → ∃ name dns, findNetworkMapping (NIC_NetworkRef n) (Some nm) =
    Some (mkNetworkDestination NetworkDestinationMultus name dns) ∧ key = mkNN (if dns =s "" then ns else dns) name) as Hn by done.
  destruct (findNetworkMapping _ _) as [[[] name dns]|]; cbn [NetworkDest_Type NetworkDest_Namespace NetworkDest_Name].
  1,3: apply multus_skip; [by intros key (? & ? & ? & _)%Hn|apply IH].
  assert (∀ key, attachesTo nm ns n key → key = mkNN (if dns =s "" then ns else dns) name) as Hkey by (by intros key (? & ? & [= <- <-] & ->)%Hn).
  case_bool_decide as Hin; [apply multus_skip; [by intros key ->%Hkey|apply IH]|].
  unfold readsRule. spec_step. eapply readsRule_bind; [apply IH|]. intros t l Hl Hg Hq.
  repeat spec_step; simplify_eq; rewrite app_nil_r; (split; [simpl; by rewrite <- ?Hl|split; [by constructor|]]);
    (intros nic key [->|Hin']%elem_of_cons Ha;
      [right; left; apply Hkey in Ha as ->; by eexists
      |destruct (Hq nic key Hin' Ha) as [[Hp|Hp]%elem_of_union|Hp]; [|by left|right; by right]; right; left;
         apply elem_of_singleton in Hp; eexists; split; [reflexivity|by rewrite Hp]]).
Qed.


End TargetProofs.

#[local] Instance sampleOrder : RangeOrder := elements.

