(* ===== verification/Pipeline.v ===== *)
(** * The phase pipeline (internal/controller/migration_controller.go)

    The phase orders of cold and warm migrations and the pure functions on phases;
    the data every phase handler takes and returns; and the life cycle a VM is
    promised to follow, as a table of successors. *)

From S2P Require Import Prelude GoLib NutanixTypes ApiTypes Env Transfer.

(** ** Phase orders *)

Definition phaseOrder : list VMMigrationPhase := [
  VMPhasePending; VMPhasePreHook; VMPhaseStorePowerState; VMPhasePowerOff; VMPhaseWaitForPowerOff;
  VMPhaseCreateSnapshot; VMPhaseExportDisks; VMPhaseImportDisks; VMPhaseCreateVM; VMPhaseStartVM;
  VMPhasePostHook; VMPhaseCleanup; VMPhaseCompleted ].

Definition warmPhaseOrder : list VMMigrationPhase := [
  VMPhasePending; VMPhasePreHook; VMPhaseStorePowerState; VMPhaseBulkCopy; VMPhaseWaitBulkCopy;
  VMPhasePrecopy; VMPhasePowerOff; VMPhaseWaitForPowerOff; VMPhaseFinalSync; VMPhaseCreateVM;
  VMPhaseStartVM; VMPhasePostHook; VMPhaseCleanup; VMPhaseCompleted ].

(** The loop [for i, p := range order]: the successor of the first occurrence that has one. *)
Fixpoint nextPhaseInOrder (current : VMMigrationPhase) (order : list VMMigrationPhase) : VMMigrationPhase :=
  match order with
  | p :: ((q :: _) as rest) => if bool_decide (p = current) then q else nextPhaseInOrder current rest
  | _ => current
  end.

Definition nextPhase (current : VMMigrationPhase) : VMMigrationPhase := nextPhaseInOrder current phaseOrder.

Definition isTerminalVMPhase (phase : VMMigrationPhase) : bool :=
  bool_decide (phase = VMPhaseCompleted) || bool_decide (phase = VMPhaseFailed) ||
  bool_decide (phase = VMPhaseCancelled).

Definition isTerminalMigrationPhase (phase : MigrationPhase) : bool :=
  bool_decide (phase = MigrationPhaseCompleted) || bool_decide (phase = MigrationPhaseFailed) ||
  bool_decide (phase = MigrationPhaseCancelled).

Definition isActiveVMPhase (phase : VMMigrationPhase) : bool :=
  negb (bool_decide (phase = VMPhasePending)) && negb (isTerminalVMPhase phase).

(** [order := phaseOrder; if Type == warm { order = warmPhaseOrder }] *)
Definition orderOf (t : MigrationType) : list VMMigrationPhase :=
  if bool_decide (t = MigrationTypeWarm) then warmPhaseOrder else phaseOrder.

(** ** What a phase handler takes and returns *)

Record PhaseResult := mkPhaseResult { Result_Completed : bool; Result_Error : option error }.

(** [PhaseResult{Completed: true}], [PhaseResult{Completed: false}], [PhaseResult{Error: e}] *)
Definition completed : PhaseResult := mkPhaseResult true None.
Definition notYet : PhaseResult := mkPhaseResult false None.
Definition failed (e : error) : PhaseResult := mkPhaseResult false (Some e).

Record migrationContext := mkMigrationContext {
  Ctx_Client : NutanixClient;
  Ctx_Plan : MigrationPlan;
  Ctx_NetworkMap : NetworkMap;
  Ctx_StorageMap : StorageMap;
  Ctx_Provider : NutanixProvider;
  Ctx_Migration : Migration;
  Ctx_Secret : Secret;
  Ctx_TransferMgr : Manager
}.

(** [MigrationReconciler]: its API client is the environment; the client factory and
    whether an event recorder is set are its own. *)
Record MigrationReconciler := mkMigrationReconciler {
  ClientFactory : ClientConfig → result NutanixClient;
  HasRecorder : bool
}.

Definition migName (mctx : migrationContext) : string := Meta_Name (Mig_Meta (Ctx_Migration mctx)).
Definition targetNS (mctx : migrationContext) : string := Plan_TargetNamespace (Plan_Spec (Ctx_Plan mctx)).

(** A phase handler: it mutates the VM's status and returns a result. *)
Definition handler (W : Type) : Type := VMMigrationStatus → M W (VMMigrationStatus * PhaseResult).

(** ** Time *)

(** [time.Time{}] in nanoseconds since the Unix epoch. *)
Definition zeroTime : Z := -62135596800 * 1000000000.

(** [!obj.DeletionTimestamp.IsZero()] *)
Definition deleting (m : ObjectMeta) : bool :=
  match Meta_DeletionTimestamp m with Some t => negb (t =? zeroTime) | None => false end.

(** [Time.Sub] saturates at the bounds of a Duration. *)
Definition timeSub (a b : Z) : Z := Z.max (- 2 ^ 63) (Z.min (2 ^ 63 - 1) (a - b)).

Section Effects.
Context {W : Type} `{E : Env W}.

Definition isCutoverTime (m : Migration) : M W bool :=
  match Mig_Cutover (Mig_Spec m) with
  | None => ret false
  | Some t => if t =? zeroTime then ret false else n <- now ;; ret (t <? n)
  end.

Definition recordEvent (r : MigrationReconciler) (type : EventType) (reason message : string) : M W unit :=
  if HasRecorder r then obs (Eventf type reason message) else ret tt.

Definition recordVMDuration (v : VMMigrationStatus) : M W unit :=
  match Started v, Completed v with
  | Some s, Some c => obs (MigrationDurationObserve (Name v) (timeSub c s))
  | _, _ => ret tt
  end.

(** A loop of best-effort deletions: errors are logged only. *)
Fixpoint deleteImages (cl : NutanixClient) (uuids : list string) : M W unit :=
  match uuids with
  | [] => ret tt
  | u :: r => _ <- nx cl (DeleteImage u) ;; deleteImages cl r
  end.

(** [if uuid != "" { DeleteRecoveryPoint(uuid) }], errors logged only. *)
Definition deleteSnapshot (cl : NutanixClient) (uuid : string) : M W unit :=
  if uuid <>s "" then _ <- nx cl (DeleteRecoveryPoint uuid) ;; ret tt else ret tt.

Definition getPodPhase (name ns : string) : M W PodPhase :=
  r <- k8s (Get KPod (mkNN ns name)) ;;
  match r with Err _ => ret PodUnknown | Ok pod => ret (Pod_Phase pod) end.

Definition deletePod (name ns : string) : M W unit := _ <- k8s (Delete KPod (mkNN ns name)) ;; ret tt.

Definition deleteConfigMap (name ns : string) : M W unit := _ <- k8s (Delete KConfigMap (mkNN ns name)) ;; ret tt.

End Effects.

(** ** The promised life cycle *)

(** The phase that follows, in a warm and in any other migration; [None] at the end and for a phase that
    the migration does not have. *)
Definition successor (t : MigrationType) (p : VMMigrationPhase) : option VMMigrationPhase :=
  match t, p with
  | _, VMPhasePending => Some VMPhasePreHook
  | _, VMPhasePreHook => Some VMPhaseStorePowerState
  | MigrationTypeWarm, VMPhaseStorePowerState => Some VMPhaseBulkCopy
  | MigrationTypeWarm, VMPhaseBulkCopy => Some VMPhaseWaitBulkCopy
  | MigrationTypeWarm, VMPhaseWaitBulkCopy => Some VMPhasePrecopy
  | MigrationTypeWarm, VMPhasePrecopy => Some VMPhasePowerOff
  | MigrationTypeWarm, VMPhaseWaitForPowerOff => Some VMPhaseFinalSync
  | MigrationTypeWarm, VMPhaseFinalSync => Some VMPhaseCreateVM
  | MigrationTypeWarm, (VMPhaseCreateSnapshot | VMPhaseExportDisks | VMPhaseImportDisks) => None
  | _, VMPhaseStorePowerState => Some VMPhasePowerOff
  | _, VMPhasePowerOff => Some VMPhaseWaitForPowerOff
  | _, VMPhaseWaitForPowerOff => Some VMPhaseCreateSnapshot
  | _, VMPhaseCreateSnapshot => Some VMPhaseExportDisks
  | _, VMPhaseExportDisks => Some VMPhaseImportDisks
  | _, VMPhaseImportDisks => Some VMPhaseCreateVM
  | _, VMPhaseCreateVM => Some VMPhaseStartVM
  | _, VMPhaseStartVM => Some VMPhasePostHook
  | _, VMPhasePostHook => Some VMPhaseCleanup
  | _, VMPhaseCleanup => Some VMPhaseCompleted
  | _, (VMPhaseBulkCopy | VMPhaseWaitBulkCopy | VMPhasePrecopy | VMPhaseFinalSync) => None
  | _, (VMPhaseNone | VMPhaseCompleted | VMPhaseFailed | VMPhaseCancelled) => None
  end.

(** ** Lemmas *)

(** The phases after the first occurrence of [p]. *)
Fixpoint remaining (p : VMMigrationPhase) (order : list VMMigrationPhase) : nat :=
  match order with
  | [] => 0
  | q :: r => if bool_decide (q = p) then length r else remaining p r
  end.

(** In both orders the successor of a non-terminal member is a member, closer to the end,
    and never Pending, Failed or Cancelled. *)
Lemma next_in_order t p :
  isTerminalVMPhase p = false → p ∈ orderOf t →
  nextPhaseInOrder p (orderOf t) ∈ orderOf t ∧
  (remaining (nextPhaseInOrder p (orderOf t)) (orderOf t) < remaining p (orderOf t))%nat ∧
  (isTerminalVMPhase (nextPhaseInOrder p (orderOf t)) = true →
     nextPhaseInOrder p (orderOf t) = VMPhaseCompleted) ∧
  nextPhaseInOrder p (orderOf t) ≠ VMPhasePending.
Proof.
  unfold orderOf. intros Hp Hin. destruct t; cbn [bool_decide decide_rel]; repeat (apply elem_of_cons in Hin as [->|Hin];
    [try discriminate Hp; vm_compute; (split; [repeat constructor|]; split; [lia|]; split; congruence)|]); by apply elem_of_nil in Hin.
Qed.

(** The loop over the order finds the successor. *)
Lemma successor_next t p :
  isTerminalVMPhase p = false → p ∈ orderOf t → successor t p = Some (nextPhaseInOrder p (orderOf t)).
Proof.
  unfold orderOf. intros Hp Hin. destruct t; cbn [bool_decide decide_rel]; repeat (apply elem_of_cons in Hin as [->|Hin];
    [try discriminate Hp; reflexivity|]); by apply elem_of_nil in Hin.
Qed.

Lemma remaining_bound t p : (remaining p (orderOf t) ≤ 13)%nat.
Proof. destruct t, p; vm_compute; lia. Qed.
