(* ===== verification/Samples.v ===== *)
(** * Concrete data for runs of the model

    A plan with one VM, its references, and an environment in which every request
    succeeds: Prism serves one VM that is powered off, the cluster's DataVolumes and
    pods are done, and there are no hooks. *)

From S2P Require Import Prelude GoLib NutanixTypes ApiTypes Env Disks Builder Transfer Validation Pipeline.

Definition samplePlan (t : MigrationType) : MigrationPlan :=
  mkMigrationPlan (newMeta "plan" "default" [])
    (mkMigrationPlanSpec "prov" "ns" t "nm" "sm" [mkPlanVM "vm-uuid-002" "win" []] 1 TargetPowerStateRunning None)
    (mkMigrationPlanStatus PlanPhaseReady [] []).

Definition sampleMigration : Migration :=
  mkMigration (newMeta "mig" "default" []) (mkMigrationSpec "plan" None [])
    (mkMigrationStatus MigrationPhaseNone None None [] []).

Definition sampleProvider : NutanixProvider :=
  mkNutanixProvider (newMeta "prov" "default" []) (mkNutanixProviderSpec "https://prism:9440" "creds" "" false)
    (mkNutanixProviderStatus ProviderPhaseConnected 1 []).

Definition sampleSecret : Secret :=
  mkSecret (newMeta "creds" "default" []) (<["username" := "admin"]> {["password" := "secret"]}).

Definition sampleClient : NutanixClient := mkNutanixClient (providerConfig "https://prism:9440" "admin" "secret" false).

Definition sampleContext (t : MigrationType) : migrationContext :=
  mkMigrationContext sampleClient (samplePlan t) sampleNetworkMap sampleStorageMap sampleProvider sampleMigration sampleSecret
    (mkManager "https://prism:9440" "admin" "secret" "" false).

Definition sampleReconciler : MigrationReconciler := mkMigrationReconciler (λ c, Ok (mkNutanixClient c)) true.

Definition nxServe (c : nxcall) : nxanswer c :=
  match c with
  | ListVMs => Ok [sampleVM]
  | GetVM _ => Ok sampleVM
  | PowerOffVM _ | PowerOnVM _ => Ok tt
  | GetVMPowerState _ => Ok PowerStateOff
  | CreateRecoveryPoint _ name => Ok ("rp-" +s+ name)
  | DeleteRecoveryPoint _ => Ok tt
  | CreateImageFromDisk name _ _ => Ok ("img-" +s+ name)
  | GetRecoveryPoint uuid => Ok (mkRecoveryPoint uuid "" "COMPLETE" "" "" "")
  | GetImage uuid => Ok (mkImage uuid "" "DISK_IMAGE" 0 "")
  | DownloadImage _ | DeleteImage _ => Ok tt
  | CloneVMFromRecoveryPoint _ name => Ok ("clone-" +s+ name)
  | DeleteVM _ => Ok tt
  | DiscoverClusterForCBT _ => Ok (mkCBTClusterInfo "https://pe:9440" "token")
  | GetChangedRegions _ _ _ _ _ _ _ _ => Ok (mkChangedRegions [mkChangedRegion 0 65536] None)
  | ListSubnets => Ok []
  | ListStorageContainers _ => Ok []
  | ListClusters => Ok []
  end.

Definition readyVolume (key : NamespacedName) : DataVolume :=
  mkDataVolume (newMeta (NN_Name key) (NN_Namespace key) []) "" "" "" [] "" Filesystem (MustParse "1Gi") DVSucceeded "100%".

Definition k8sServe (k : kind) (key : NamespacedName) : result (obj k) :=
  match k return result (obj k) with
  | KMigration => Ok sampleMigration
  | KPlan => Ok (samplePlan MigrationTypeCold)
  | KProvider => Ok sampleProvider
  | KNetworkMap => Ok sampleNetworkMap
  | KStorageMap => Ok sampleStorageMap
  | KSecret => Ok sampleSecret
  | KDataVolume => Ok (readyVolume key)
  | KPod => Ok (mkPod (newMeta (NN_Name key) (NN_Namespace key) []) (mkPodSpec "" RestartPolicyNever [] []) PodSucceeded)
  | KVirtualMachine => Ok (Build sampleVM None None (mkBuildOptions (NN_Namespace key) [] None))
  | KNamespace | KStorageClass | KNetAttachDef | KCustomResourceDefinition => Ok tt
  | KHook | KConfigMap | KJob => Err RefEnv.notFound
  end.

(** Every request succeeds. *)
Definition serving : Env unit := RefEnv.fixed nxServe k8sServe (Ok tt).

(** The cluster works, but Prism refuses every request. *)
Definition prismDown : Env unit := RefEnv.fixed RefEnv.nxRefuse k8sServe (Ok tt).

(** A VM at the start of a phase, with nothing recorded. *)
Definition sampleStatus (p : VMMigrationPhase) : VMMigrationStatus :=
  mkVMStatus "vm-uuid-002" "win" p None None "" "" [] "" [] "" None.
