(* ===== verification/Hooks.v ===== *)
(** * Hook jobs (internal/controller/hook_runner.go)

    PreHook and PostHook phases run a user-supplied Job, with the migration context
    in a ConfigMap, and retry it; the attempt number is an annotation of the Job. *)

From S2P Require Import Prelude GoLib NutanixTypes ApiTypes Env Disks Transfer Pipeline.

Definition hookMaxRetries : Z := 3.
Definition hookConfigMapPath : string := "/tmp/hook".
Definition hookAnnotationKey : string := "vma.nutanix.io/hook-attempt".
Definition hookDefaultSvcAccount : string := "default".
Definition hookDefaultDeadlineSecs : Z := 600.

Definition hookStepSuffix (step : string) : string := if step =s "PreHook" then "pre" else "post".

Definition parseDeadline (s : string) : Z :=
  if s =s "" then hookDefaultDeadlineSecs
  else match Duration.ParseDuration s with
  | None => hookDefaultDeadlineSecs
  | Some d => Duration.secondsInt64 d
  end.

(** Looking an annotation up in a nil map finds nothing. *)
Definition getHookAttempt (job : Job) : Z :=
  match Meta_Annotations (Job_Meta job) !! hookAnnotationKey with
  | None => 1
  | Some val => match Scan.Sscanf_d val with None => 1 | Some attempt => attempt end
  end.

(** ** The migration context given to the job *)

Definition vmJSON (v : VMMigrationStatus) : string :=
  Json.object ([("id", ID v); ("name", Name v); ("phase", phaseText (Phase v))]
    ++ (if OriginalPowerState v =s "" then [] else [("originalPowerState", OriginalPowerState v)])).

Definition planJSON (p : MigrationPlan) : string :=
  Json.object [("name", Meta_Name (Plan_Meta p));
    ("type", migrationTypeText (Plan_Type (Plan_Spec p)));
    ("targetNamespace", Plan_TargetNamespace (Plan_Spec p))].

Definition hookConfigMap (name ns : string) (v : VMMigrationStatus) (mctx : migrationContext) : ConfigMap :=
  mkConfigMap (newMeta name ns [ownerRef (Ctx_Migration mctx)])
    (<["vm.json" := vmJSON v]> {["plan.json" := planJSON (Ctx_Plan mctx)]}).

(** ** The job *)

Definition hookVolumes (hook : Hook) (configMapName : string) : list Volume :=
  mkVolume "hook-context" (VolumeConfigMap configMapName) ::
  (if Hook_Playbook (Hook_Spec hook) <>s "" then [mkVolume "hook-playbook" (VolumeConfigMap configMapName)] else []).

Definition hookVolumeMounts : list VolumeMount := [mkVolumeMount "hook-context" hookConfigMapPath true].

Definition hookJob (name ns : string) (hook : Hook) (configMapName : string) (mctx : migrationContext) (attempt : Z)
  : Job :=
  let serviceAccount := if Hook_ServiceAccount (Hook_Spec hook) =s "" then hookDefaultSvcAccount
                        else Hook_ServiceAccount (Hook_Spec hook) in
  mkJob
    (mkObjectMeta name ns "" 0
      (<["vma.nutanix.io/migration" := migName mctx]> {["vma.nutanix.io/hook" := Meta_Name (Hook_Meta hook)]})
      {[hookAnnotationKey := itoa attempt]} [] [ownerRef (Ctx_Migration mctx)] None)
    0 (parseDeadline (Hook_Deadline (Hook_Spec hook)))
    (mkPodSpec serviceAccount RestartPolicyNever
      [mkContainer "hook" (Hook_Image (Hook_Spec hook)) [] [] hookVolumeMounts]
      (hookVolumes hook configMapName))
    0 0.

Fixpoint findPlanVM (id : string) (vms : list PlanVM) : option PlanVM :=
  match vms with
  | [] => None
  | p :: r => if PlanVM_ID p =s id then Some p else findPlanVM id r
  end.

(** The first reference for the step. *)
Fixpoint findHookRef (step : string) (hooks : list PlanHookRef) : option PlanHookRef :=
  match hooks with
  | [] => None
  | h :: r => if HookRef_Step h <>s step then findHookRef step r else Some h
  end.

Section Hooks.
Context {W : Type} `{E : Env W}.

Definition findHook (v : VMMigrationStatus) (mctx : migrationContext) (step : string) : M W (option Hook) :=
  match findPlanVM (ID v) (Plan_VMs (Plan_Spec (Ctx_Plan mctx))) with
  | None => ret None
  | Some planVM =>
      match findHookRef step (PlanVM_Hooks planVM) with
      | None => ret None
      | Some h =>
          r <- k8s (Get KHook (mkNN (Meta_Namespace (Mig_Meta (Ctx_Migration mctx))) (HookRef_Name h))) ;;
          match r with Err _ => ret None | Ok hook => ret (Some hook) end
      end
  end.

Definition createHookConfigMap (name ns : string) (v : VMMigrationStatus) (mctx : migrationContext)
  : M W (result unit) :=
  err <- k8s (Create KConfigMap (hookConfigMap name ns v mctx)) ;;
  ret (ignoreAlreadyExists err).

Definition createHookJobWithAttempt (name ns : string) (hook : Hook) (configMapName : string)
  (mctx : migrationContext) (attempt : Z) : M W (result unit) :=
  err <- k8s (Create KJob (hookJob name ns hook configMapName mctx attempt)) ;;
  ret (ignoreAlreadyExists err).

Definition createHookJob (name ns : string) (hook : Hook) (configMapName : string) (mctx : migrationContext)
  : M W (result unit) :=
  createHookJobWithAttempt name ns hook configMapName mctx 1.

(** Best effort: errors are logged only. *)
Definition cleanupHookResources (jobName ns : string) : M W unit :=
  _ <- k8s (Delete KJob (mkNN ns jobName)) ;;
  _ <- k8s (Delete KConfigMap (mkNN ns (jobName +s+ "-ctx"))) ;;
  ret tt.

Definition checkHookJob (job : Job) (hook : Hook) (v : VMMigrationStatus) (mctx : migrationContext)
  (step jobName ns : string) : M W PhaseResult :=
  if 0 <? Job_Succeeded job then
    cleanupHookResources jobName ns ;;;
    ret completed
  else if 0 <? Job_Failed job then
    let attempt := getHookAttempt job in
    if hookMaxRetries <=? attempt then
      cleanupHookResources jobName ns ;;;
      ret (failed (newErr (step +s+ ": Job " +s+ jobName +s+ " failed after " +s+ itoa hookMaxRetries +s+ " attempts")))
    else
      err <- k8s (Delete KJob (mkNN (Meta_Namespace (Job_Meta job)) (Meta_Name (Job_Meta job)))) ;;
      match ignoreNotFound err with
      | Err e => ret (failed (wrapErr (step +s+ ": delete failed Job") e))
      | Ok _ =>
          err <- createHookJobWithAttempt jobName ns hook (jobName +s+ "-ctx") mctx (int64 (attempt + 1)) ;;
          match err with
          | Err e => ret (failed (wrapErr (step +s+ ": retry Job") e))
          | Ok _ => ret notYet
          end
      end
  else ret notYet.

Definition hookJobName (v : VMMigrationStatus) (mctx : migrationContext) (step : string) : string :=
  "vma-" +s+ shortID (migName mctx) +s+ "-" +s+ shortID (ID v) +s+ "-" +s+ hookStepSuffix step.

Definition runHook (mctx : migrationContext) (step : string) : handler W := λ v,
  found <- findHook v mctx step ;;
  match found with
  | None => ret (v, completed)
  | Some hook =>
      let jobName := hookJobName v mctx step in
      let ns := targetNS mctx in
      existing <- k8s (Get KJob (mkNN ns jobName)) ;;
      match existing with
      | Ok job => r <- checkHookJob job hook v mctx step jobName ns ;; ret (v, r)
      | Err e =>
          if negb (IsNotFound e) then ret (v, failed (wrapErr (step +s+ ": get Job") e))
          else
            let cmName := jobName +s+ "-ctx" in
            err <- createHookConfigMap cmName ns v mctx ;;
            match err with
            | Err e => ret (v, failed (wrapErr (step +s+ ": create ConfigMap") e))
            | Ok _ =>
                err <- createHookJob jobName ns hook cmName mctx ;;
                match err with
                | Err e => ret (v, failed (wrapErr (step +s+ ": create Job") e))
                | Ok _ => ret (v, notYet)
                end
            end
      end
  end.

End Hooks.

(** ** Lemmas *)

(** The jobs a trace created successfully or not. *)
Definition jobCreated (e : event) : option Job :=
  match e with Ev (K8s (Create k o)) _ => match k return obj k → option Job with KJob => Some | _ => λ _, None end o | _ => None end.
Definition jobsCreated (t : trace) : list Job := omap jobCreated t.

(** The job the API server answered with. *)
Definition jobRead (e : event) : option Job :=
  match e with
  | Ev (K8s (Get k _)) a =>
      match k return result (obj k) → option Job with KJob => λ a, match a with Ok j => Some j | Err _ => None end | _ => λ _, None end a
  | _ => None
  end.
Definition jobsRead (t : trace) : list Job := omap jobRead t.

(** The hook resolved by a trace. *)
Definition hookRead (e : event) : option Hook :=
  match e with
  | Ev (K8s (Get k _)) a =>
      match k return result (obj k) → option Hook with KHook => λ a, match a with Ok h => Some h | Err _ => None end | _ => λ _, None end a
  | _ => None
  end.
Definition hooksRead (t : trace) : list Hook := omap hookRead t.

Definition attemptText (j : Job) : option string := Meta_Annotations (Job_Meta j) !! hookAnnotationKey.

Lemma hookJob_attempt name ns hook cm mctx n : attemptText (hookJob name ns hook cm mctx n) = Some (itoa n).
Proof. unfold attemptText. simpl. apply lookup_singleton_eq. Qed.

Lemma getHookAttempt_hookJob name ns hook cm mctx n :
  0 ≤ n < 2 ^ 63 → getHookAttempt (hookJob name ns hook cm mctx n) = n.
Proof.
  intros Hn. pose proof (hookJob_attempt name ns hook cm mctx n) as H. unfold attemptText in H.
  unfold getHookAttempt. by rewrite H, Scan.Sscanf_itoa.
Qed.

Lemma getHookAttempt_range j : in_int64 (getHookAttempt j).
Proof.
  unfold getHookAttempt. destruct (_ !! _) as [val|]; [|done].
  destruct (Scan.Sscanf_d val) eqn:Es; [by eapply Scan.Sscanf_range|done].
Qed.

Lemma next_attempt j : getHookAttempt j < hookMaxRetries → int64 (getHookAttempt j + 1) = getHookAttempt j + 1.
Proof. pose proof (getHookAttempt_range j). unfold in_int64, hookMaxRetries in *. intros. apply int64_id. unfold in_int64. lia. Qed.

(** The plan names the hook [name] for the step of the VM [id]: the first entry for the VM, and in it the
    first reference for the step. *)
Definition hookFor (plan : MigrationPlan) (id step name : string) : Prop :=
  ∃ before p after refs h rest,
    Plan_VMs (Plan_Spec plan) = before ++ p :: after ∧ Forall (λ q, PlanVM_ID q ≠ id) before ∧ PlanVM_ID p = id ∧
    PlanVM_Hooks p = refs ++ h :: rest ∧ Forall (λ r, HookRef_Step r ≠ step) refs ∧ HookRef_Step h = step ∧ HookRef_Name h = name.

Lemma findPlanVM_first id before p after : Forall (λ q, PlanVM_ID q ≠ id) before → PlanVM_ID p = id → findPlanVM id (before ++ p :: after) = Some p.
Proof.
  intros Hb Hp. induction Hb as [|q before Hq _ IH]; simpl; [by rewrite Hp, String.eqb_refl|]. apply String.eqb_neq in Hq. by rewrite Hq.
Qed.

Lemma findPlanVM_split id vms p : findPlanVM id vms = Some p →
  ∃ before after, vms = before ++ p :: after ∧ Forall (λ q, PlanVM_ID q ≠ id) before ∧ PlanVM_ID p = id.
Proof.
  induction vms as [|q vms IH]; simpl; [done|]. destruct (String.eqb_spec (PlanVM_ID q) id) as [Hq|Hq].
  - intros [= ->]. by exists [], vms.
  - intros (before & after & -> & Hb & Hp)%IH. exists (q :: before), after. by repeat constructor.
Qed.

Lemma findHookRef_first step refs h rest : Forall (λ r, HookRef_Step r ≠ step) refs → HookRef_Step h = step →
  findHookRef step (refs ++ h :: rest) = Some h.
Proof.
  intros Hb Hp. induction Hb as [|q refs Hq _ IH]; simpl; [by rewrite Hp, String.eqb_refl|]. apply String.eqb_neq in Hq. by rewrite Hq.
Qed.

Lemma findHookRef_split step hooks h : findHookRef step hooks = Some h →
  ∃ refs rest, hooks = refs ++ h :: rest ∧ Forall (λ r, HookRef_Step r ≠ step) refs ∧ HookRef_Step h = step.
Proof.
  induction hooks as [|q hooks IH]; simpl; [done|]. destruct (String.eqb_spec (HookRef_Step q) step) as [Hq|Hq]; simpl.
  - intros [= ->]. by exists [], hooks.
  - intros (refs & rest & -> & Hb & Hp)%IH. exists (q :: refs), rest. by repeat constructor.
Qed.

(** The lookups of [findHook] find exactly the hook the plan names. *)
Lemma hookFor_find plan id step name :
  hookFor plan id step name ↔ ∃ p h, findPlanVM id (Plan_VMs (Plan_Spec plan)) = Some p ∧ findHookRef step (PlanVM_Hooks p) = Some h ∧ HookRef_Name h = name.
Proof.
  split.
  - intros (before & p & after & refs & h & rest & -> & Hb & Hp & Hh & Hr & Hs & Hn). exists p, h. rewrite Hh.
    split; [by apply findPlanVM_first|]. by split; [apply findHookRef_first|].
  - intros (p & h & (before & after & Hp & Hb & Hid)%findPlanVM_split & (refs & rest & Hh & Hr & Hs)%findHookRef_split & Hn).
    exists before, p, after, refs, h, rest. done.
Qed.

(** The two parts of [hookAttempts] below, at the end of a path through [runHook]. *)
Ltac hook_created :=
  first [ by left
        | right; do 2 eexists; split; [reflexivity|]; split; [apply hookJob_attempt|];
          rewrite ?next_attempt by done; unfold hookMaxRetries in *;
          split; [intros; apply getHookAttempt_hookJob; lia|]; split; [lia|]; split; [reflexivity|];
          first [by left | right; eexists; split; [reflexivity|]; split; [lia|reflexivity]] ].
Ltac hook_exhausted :=
  intros j0 Hj0; simpl in Hj0; unfold jobsRead in Hj0; simpl in Hj0;
  first [ by apply elem_of_nil in Hj0
        | apply list_elem_of_singleton in Hj0; subst j0; intros; simpl; first [lia | split; [reflexivity|by eexists]] ].

(** ** Properties *)

Section HookProofs.
Context {W : Type} `{E : Env W}.

(** The reads of the hook and of its Job. *)
Definition hookGet (mctx : migrationContext) (name : string) : k8scall := Get KHook (mkNN (Meta_Namespace (Mig_Meta (Ctx_Migration mctx))) name).
Definition jobGet (mctx : migrationContext) (v : VMMigrationStatus) (step : string) : k8scall :=
  Get KJob (mkNN (targetNS mctx) (hookJobName v mctx step)).

(** The Job runs the hook's image, under the name that is read. *)
Definition runsHook (mctx : migrationContext) (v : VMMigrationStatus) (step : string) (hook : Hook) (j : Job) : Prop :=
  Meta_Name (Job_Meta j) = hookJobName v mctx step ∧ Meta_Namespace (Job_Meta j) = targetNS mctx ∧
  Container_Image <$> PodSpec_Containers (Job_PodSpec j) = [Hook_Image (Hook_Spec hook)].

(** What [runHook] does with a Job. *)
Definition hookAttempts (t : trace) (r : PhaseResult) : Prop :=
  (jobsCreated t = [] ∨
   ∃ j n, jobsCreated t = [j] ∧ attemptText j = Some (itoa n) ∧ (0 ≤ n → getHookAttempt j = n) ∧ n ≤ hookMaxRetries ∧
     Result_Completed r = false ∧
     ((jobsRead t = [] ∧ n = 1) ∨
      ∃ j0, jobsRead t = [j0] ∧ Job_Succeeded j0 ≤ 0 < Job_Failed j0 ∧ n = getHookAttempt j0 + 1)) ∧
  (∀ j0, j0 ∈ jobsRead t → Job_Succeeded j0 ≤ 0 < Job_Failed j0 → hookMaxRetries ≤ getHookAttempt j0 →
     jobsCreated t = [] ∧ is_Some (Result_Error r)).

(** The three ways through a hook phase. *)
Inductive hookPhase (mctx : migrationContext) (step : string) (v : VMMigrationStatus) : trace → PhaseResult → Prop :=
| hook_none : (∀ name, ¬ hookFor (Ctx_Plan mctx) (ID v) step name) → hookPhase mctx step v [] completed
| hook_unread name e : hookFor (Ctx_Plan mctx) (ID v) step name → hookPhase mctx step v [Ev (K8s (hookGet mctx name)) (Err e)] completed
| hook_job name hook a t r : hookFor (Ctx_Plan mctx) (ID v) step name →
    (Result_Completed r = true → ∃ j, a = Ok j ∧ 0 < Job_Succeeded j) →
    Forall (runsHook mctx v step hook) (jobsCreated t) →
    hookPhase mctx step v (Ev (K8s (hookGet mctx name)) (Ok hook) :: Ev (K8s (jobGet mctx v step)) a :: t) r.

Lemma runHook_phase mctx step v :
  spec (runHook mctx step v) (total (λ t vr, vr.1 = v ∧ hookPhase mctx step v t vr.2)).
Proof.
  unfold runHook, findHook. destruct (findPlanVM _ _) as [p|] eqn:Hp.
  2:{ repeat spec_step. split; [done|]. constructor. intros name (p & h & Hp' & _)%hookFor_find. congruence. }
  destruct (findHookRef _ _) as [h|] eqn:Hh.
  2:{ repeat spec_step. split; [done|]. constructor. intros name (p' & h & Hp' & Hh' & _)%hookFor_find. congruence. }
  assert (hookFor (Ctx_Plan mctx) (ID v) step (HookRef_Name h)) as Hfor by (apply hookFor_find; eauto).
  spec_step. spec_step. destruct a as [hook|e]; spec_step; [|spec_step; split; [done|by apply hook_unread]].
  unfold checkHookJob, createHookJob, createHookJobWithAttempt, createHookConfigMap, cleanupHookResources.
  repeat spec_step; simplify_eq; breflect; (split; [done|]);
    (apply hook_job; [done|intros; first [discriminate|eexists; split; [reflexivity|lia]]|]); by repeat constructor.
Qed.

Lemma runHook_attempts mctx step v : spec (runHook mctx step v) (total (λ t vr, hookAttempts t vr.2)).
Proof.
  unfold runHook, findHook, checkHookJob, createHookJob, createHookJobWithAttempt, createHookConfigMap, cleanupHookResources.
  repeat spec_step; simplify_eq; breflect; (split; [hook_created|hook_exhausted]).
Qed.


End HookProofs.
