(* ===== verification/ColdPhases.v ===== *)
(** * Phases of a cold migration (internal/controller/migration_controller.go)

    Each phase handler as written: the VM's status goes in, and comes out updated next
    to the phase's result. Loops over disks are recursive functions over the list with
    the index; log output is left out. *)

From S2P Require Import Prelude GoLib NutanixTypes ApiTypes Env Sanitize Disks Builder Transfer Pipeline.

(** [fmt.Sprintf("vma-%s-%s", migName, shortID(id))] and its variants. *)
Definition snapshotName (mctx : migrationContext) (v : VMMigrationStatus) : string :=
  "vma-" +s+ migName mctx +s+ "-" +s+ shortID (ID v).
Definition diskName (mctx : migrationContext) (v : VMMigrationStatus) (i : nat) : string :=
  snapshotName mctx v +s+ "-disk-" +s+ itoa (Z.of_nat i).
Definition credSecretName (mctx : migrationContext) : string := "vma-" +s+ shortID (migName mctx) +s+ "-creds".
Definition caName (mctx : migrationContext) : string := "vma-" +s+ shortID (migName mctx) +s+ "-ca".

(** The DataVolume for the i-th image: storage mapping and size from the i-th data disk, or
    the defaults when there is none. [sizeOf] is how the caller spells the size choice. *)
Definition dataVolumeOptions (sizeOf : Disk → Z) (mctx : migrationContext) (v : VMMigrationStatus)
  (dataDisks : list Disk) (certConfigMapName : string) (i : nat) (imageUUID : string) : DataVolumeOptions :=
  let storageDest := match dataDisks !! i with
                     | Some d => FindStorageMapping d (Ctx_StorageMap mctx)
                     | None => None
                     end in
  let '(storageClass, volumeMode, accessMode) :=
    match storageDest with
    | Some d => (StorageDest_StorageClass d, StorageDest_VolumeMode d, StorageDest_AccessMode d)
    | None => ("default", Filesystem, ReadWriteOnce)
    end in
  let diskSize := match dataDisks !! i with Some d => sizeOf d | None => 0 end in
  mkDataVolumeOptions (diskName mctx v i) (targetNS mctx) (ImageDownloadURL (Ctx_TransferMgr mctx) imageUUID)
    diskSize storageClass volumeMode accessMode (credSecretName mctx) certConfigMapName
    (ownerRef (Ctx_Migration mctx)).

Section Cold.
Context {W : Type} `{E : Env W}.
Context (mctx : migrationContext).

Let cl := Ctx_Client mctx.

Definition phaseStorePowerState : handler W := λ v,
  if OriginalPowerState v <>s "" then ret (v, completed)
  else
    r <- nx cl (GetVMPowerState (ID v)) ;;
    match r with
    | Err e => ret (v, failed (wrapErr "StorePowerState" e))
    | Ok state => ret (setOriginalPowerState state v, completed)
    end.

Definition phasePowerOff : handler W := λ v,
  if OriginalPowerState v =s PowerStateOff then ret (v, completed)
  else
    r <- nx cl (PowerOffVM (ID v)) ;;
    match r with
    | Err e => ret (v, failed (wrapErr "PowerOff" e))
    | Ok _ => ret (v, completed)
    end.

Definition phaseWaitForPowerOff : handler W := λ v,
  r <- nx cl (GetVMPowerState (ID v)) ;;
  match r with
  | Err e => ret (v, failed (wrapErr "WaitForPowerOff" e))
  | Ok state => if state <>s PowerStateOff then ret (v, notYet) else ret (v, completed)
  end.

Definition phaseCreateSnapshot : handler W := λ v,
  if SnapshotUUID v <>s "" then ret (v, completed)
  else
    r <- nx cl (CreateRecoveryPoint (ID v) (snapshotName mctx v)) ;;
    match r with
    | Err e => ret (v, failed (wrapErr "CreateSnapshot" e))
    | Ok uuid => ret (setSnapshotUUID uuid v, completed)
    end.

(** The loop [for i, disk := range dataDisks] that ExportDisks, BulkCopy and the delta rounds
    write out: disks that have an image are skipped, and an image is recorded as soon as it
    is created. [name] and [uuid] are the caller's; an error comes with the disk's index. *)
Fixpoint exportImages (name : nat → string) (uuid : Disk → string) (cluster : string) (i : nat)
  (dataDisks : list Disk) (images : list string) : M W (list string * option (nat * error)) :=
  match dataDisks with
  | [] => ret (images, None)
  | disk :: rest =>
      if (i <? length images)%nat then exportImages name uuid cluster (S i) rest images
      else
        r <- nx cl (CreateImageFromDisk (name i) (uuid disk) cluster) ;;
        match r with
        | Err e => ret (images, Some (i, e))
        | Ok imageUUID => exportImages name uuid cluster (S i) rest (images ++ [imageUUID])
        end
  end.

Definition phaseExportDisks : handler W := λ v,
  r <- nx cl (GetVM (ID v)) ;;
  match r with
  | Err e => ret (v, failed (wrapErr "ExportDisks: failed to get VM" e))
  | Ok vm =>
      let dataDisks := filterDataDisks (VM_Disks vm) in
      if (length dataDisks <=? length (ImageUUIDs v))%nat then ret (v, completed)
      else
        let* (images, err) := exportImages (diskName mctx v) exportDiskUUID (clusterRef vm) 0 dataDisks (ImageUUIDs v) in
        let v := setImageUUIDs images v in
        match err with
        | Some (i, e) => ret (v, failed (wrapErr ("ExportDisks: disk " +s+ itoa (Z.of_nat i)) e))
        | None => ret (v, completed)
        end
  end.

(** The loop [for i, imageUUID := range vmStatus.ImageUUIDs] that ImportDisks and
    createDataVolumes write out: images that have a DataVolume are skipped, and a name is
    recorded as soon as its DataVolume exists. *)
Fixpoint createVolumes (opts : nat → string → DataVolumeOptions) (i : nat) (images names : list string)
  : M W (list string * option (string * error)) :=
  match images with
  | [] => ret (names, None)
  | imageUUID :: rest =>
      if (i <? length names)%nat then createVolumes opts (S i) rest names
      else
        r <- CreateDataVolume (opts i imageUUID) ;;
        match r with
        | Err e => ret (names, Some (DVOpt_Name (opts i imageUUID), e))
        | Ok _ => createVolumes opts (S i) rest (names ++ [DVOpt_Name (opts i imageUUID)])
        end
  end.

(** The loop [for _, dvName := range vmStatus.DataVolumeNames] that ImportDisks and
    pollDataVolumes write out: [Ok allSucceeded], or the error under the caller's texts. *)
Fixpoint pollVolumes (pollText failText : string) (names : list string) (allSucceeded : bool) : M W (result bool) :=
  match names with
  | [] => ret (Ok allSucceeded)
  | dvName :: rest =>
      r <- GetDataVolumeProgress dvName (targetNS mctx) ;;
      match r with
      | Err e =>
          if IsNotFound e then pollVolumes pollText failText rest false
          else ret (Err (wrapErr (pollText +s+ dvName) e))
      | Ok progress =>
          match Progress_Phase progress with
          | DVSucceeded => pollVolumes pollText failText rest allSucceeded
          | DVFailed => ret (Err (newErr (failText +s+ dvName +s+ " failed")))
          | DVOther _ => pollVolumes pollText failText rest false
          end
      end
  end.

Fixpoint recordTransferred (name : string) (dataDisks : list Disk) : M W unit :=
  match dataDisks with
  | [] => ret tt
  | d :: rest =>
      if 0 <? importDiskSize d
      then obs (DiskTransferBytesAdd name (importDiskSize d)) ;;; recordTransferred name rest
      else recordTransferred name rest
  end.

(** The credential secret and, with a custom CA, its ConfigMap; returns the ConfigMap's name. *)
Definition ensureCredentials (secretText caText : string) : M W (result string) :=
  r <- CreateCredentialSecret (Ctx_TransferMgr mctx) (credSecretName mctx) (targetNS mctx) (ownerRef (Ctx_Migration mctx)) ;;
  match r with
  | Err e => ret (Err (wrapErr secretText e))
  | Ok _ =>
      if Mgr_CACert (Ctx_TransferMgr mctx) =s "" then ret (Ok "")
      else
        r <- CreateCAConfigMap (Ctx_TransferMgr mctx) (caName mctx) (targetNS mctx) (ownerRef (Ctx_Migration mctx)) ;;
        match r with
        | Err e => ret (Err (wrapErr caText e))
        | Ok _ => ret (Ok (caName mctx))
        end
  end.

Definition phaseImportDisks : handler W := λ v,
  r <- nx cl (GetVM (ID v)) ;;
  match r with
  | Err e => ret (v, failed (wrapErr "ImportDisks: failed to get VM" e))
  | Ok vm =>
      let dataDisks := filterDataDisks (VM_Disks vm) in
      c <- ensureCredentials "ImportDisks: credential secret" "ImportDisks: CA ConfigMap" ;;
      match c with
      | Err e => ret (v, failed e)
      | Ok cert =>
          let* (names, err) :=
            (if (length (DataVolumeNames v) <? length (ImageUUIDs v))%nat
             then createVolumes (dataVolumeOptions importDiskSize mctx v dataDisks cert) 0 (ImageUUIDs v) (DataVolumeNames v)
             else ret (DataVolumeNames v, None)) in
          let v := setDataVolumeNames names v in
          match err with
          | Some (dvName, e) => ret (v, failed (wrapErr ("ImportDisks: DataVolume " +s+ dvName) e))
          | None =>
              p <- pollVolumes "ImportDisks: poll " "ImportDisks: DataVolume " (DataVolumeNames v) true ;;
              match p with
              | Err e => ret (v, failed e)
              | Ok false => ret (v, notYet)
              | Ok true => recordTransferred (Name v) dataDisks ;;; ret (v, completed)
              end
          end
      end
  end.

Definition phaseCreateVM : handler W := λ v,
  r <- nx cl (GetVM (ID v)) ;;
  match r with
  | Err e => ret (v, failed (wrapErr "CreateVM: get source VM" e))
  | Ok vm =>
      let kvVM := Build vm (Some (Ctx_NetworkMap mctx)) (Some (Ctx_StorageMap mctx))
                    (mkBuildOptions (targetNS mctx) (DataVolumeNames v) None) in
      r <- k8s (Create KVirtualMachine kvVM) ;;
      match r with
      | Err e => if IsAlreadyExists e then ret (v, completed) else ret (v, failed (wrapErr "CreateVM" e))
      | Ok _ => ret (v, completed)
      end
  end.

Definition phaseStartVM : handler W := λ v,
  if bool_decide (Plan_TargetPowerState (Plan_Spec (Ctx_Plan mctx)) = TargetPowerStateStopped) then ret (v, completed)
  else
    r <- nx cl (GetVM (ID v)) ;;
    match r with
    | Err e => ret (v, failed (wrapErr "StartVM: get source VM" e))
    | Ok vm =>
        r <- k8s (Get KVirtualMachine (mkNN (targetNS mctx) (SanitizeName (VM_Name vm) None))) ;;
        match r with
        | Err e => ret (v, failed (wrapErr "StartVM: get KubeVirt VM" e))
        | Ok kvVM =>
            r <- k8s (Update KVirtualMachine (setRunStrategy (Some RunStrategyAlways) kvVM)) ;;
            match r with
            | Err e => ret (v, failed (wrapErr "StartVM: update RunStrategy" e))
            | Ok _ => ret (v, completed)
            end
        end
    end.

Definition phaseCleanup : handler W := λ v,
  deleteImages cl (ImageUUIDs v) ;;;
  deleteSnapshot cl (SnapshotUUID v) ;;;
  DeleteCredentialSecret (credSecretName mctx) (targetNS mctx) ;;;
  DeleteCAConfigMap (caName mctx) (targetNS mctx) ;;;
  ret (v, completed).

Fixpoint deleteDataVolumes (names : list string) : M W unit :=
  match names with
  | [] => ret tt
  | n :: r => _ <- k8s (Delete KDataVolume (mkNN (targetNS mctx) n)) ;; deleteDataVolumes r
  end.

(** The part of [cleanupFailedVM] under [if vmStatus.Warm != nil]. *)
Definition cleanupWarm (warm : WarmMigrationStatus) : M W unit :=
  (if DeltaPodName warm <>s "" then
     deletePod (DeltaPodName warm) (targetNS mctx) ;;;
     deleteConfigMap (DeltaPodName warm +s+ "-regions") (targetNS mctx)
   else ret tt) ;;;
  deleteImages cl (DeltaImageUUIDs warm) ;;;
  deleteSnapshot cl (DeltaSnapshotUUID warm) ;;;
  deleteImages cl (BaseImageUUIDs warm) ;;;
  deleteSnapshot cl (BaseSnapshotUUID warm).

Definition cleanupFailedVM (v : VMMigrationStatus) : M W unit :=
  deleteDataVolumes (DataVolumeNames v) ;;;
  deleteImages cl (ImageUUIDs v) ;;;
  deleteSnapshot cl (SnapshotUUID v) ;;;
  (if OriginalPowerState v =s PowerStateOn then _ <- nx cl (PowerOnVM (ID v)) ;; ret tt else ret tt) ;;;
  match Warm v with None => ret tt | Some warm => cleanupWarm warm end.

End Cold.
