(* ===== verification/WarmPhases.v ===== *)
(** * Phases of a warm migration (internal/controller/migration_controller.go)

    Bulk copy, the precopy rounds and the final sync. The handlers share the pointer
    [warm := vmStatus.Warm]; here the updated [WarmMigrationStatus] is written back into the
    VM's status. Indexing out of range is a panic. [cbtFuel] bounds the requests of one
    changed-region query, a loop the server's answers drive. *)

From S2P Require Import Prelude GoLib NutanixTypes ApiTypes Env Disks Transfer Pipeline ColdPhases.

Section Warm.
Context {W : Type} `{E : Env W}.
Context (cbtFuel : nat) (mctx : migrationContext).

Let cl := Ctx_Client mctx.

(** ** DataVolumes *)

Definition createDataVolumes (dataDisks : list Disk) : handler W := λ v,
  c <- ensureCredentials mctx "create credential secret" "create CA ConfigMap" ;;
  match c with
  | Err e => ret (v, failed e)
  | Ok cert =>
      let* (names, err) :=
        (if (length (DataVolumeNames v) <? length (ImageUUIDs v))%nat
         then createVolumes (dataVolumeOptions getDiskSize mctx v dataDisks cert) 0 (ImageUUIDs v) (DataVolumeNames v)
         else ret (DataVolumeNames v, None)) in
      let v := setDataVolumeNames names v in
      match err with
      | Some (dvName, e) => ret (v, failed (wrapErr ("DataVolume " +s+ dvName) e))
      | None => ret (v, completed)
      end
  end.

Definition pollDataVolumes : handler W := λ v,
  p <- pollVolumes mctx "poll DV " "DataVolume " (DataVolumeNames v) true ;;
  match p with
  | Err e => ret (v, failed e)
  | Ok false => ret (v, notYet)
  | Ok true => ret (v, completed)
  end.

(** ** Bulk copy *)

(** [if vmStatus.SnapshotUUID == "" { ... }] *)
Definition bulkSnapshot (v : VMMigrationStatus) : M W (VMMigrationStatus * option error) :=
  if SnapshotUUID v =s "" then
    r <- nx cl (CreateRecoveryPoint (ID v) (snapshotName mctx v)) ;;
    match r with
    | Err e => ret (v, Some (wrapErr "BulkCopy: create snapshot" e))
    | Ok uuid => ret (setSnapshotUUID uuid v, None)
    end
  else ret (v, None).

(** [Warm] is allocated when nil; the snapshot and images become the base. *)
Definition initWarm (v : VMMigrationStatus) : VMMigrationStatus :=
  setWarm (Some (setBase (SnapshotUUID v) (ImageUUIDs v) (default emptyWarm (Warm v)))) v.

Definition phaseBulkCopy : handler W := λ v,
  let* (v, err) := bulkSnapshot v in
  match err with
  | Some e => ret (v, failed e)
  | None =>
      r <- nx cl (GetVM (ID v)) ;;
      match r with
      | Err e => ret (v, failed (wrapErr "BulkCopy: get VM" e))
      | Ok vm =>
          let dataDisks := filterDataDisks (VM_Disks vm) in
          let* (images, err) :=
            (if (length (ImageUUIDs v) <? length dataDisks)%nat
             then exportImages mctx (diskName mctx v) getDiskUUID (clusterRef vm) 0 dataDisks (ImageUUIDs v)
             else ret (ImageUUIDs v, None)) in
          let v := setImageUUIDs images v in
          match err with
          | Some (i, e) => ret (v, failed (wrapErr ("BulkCopy: export disk " +s+ itoa (Z.of_nat i)) e))
          | None =>
              let* (v, r) := createDataVolumes dataDisks v in
              match Result_Error r with
              | Some _ => ret (v, r)
              | None => ret (initWarm v, completed)
              end
          end
      end
  end.

Definition phaseWaitBulkCopy : handler W := pollDataVolumes.

(** ** Delta rounds *)

Definition deltaName (label : string) (v : VMMigrationStatus) : string :=
  snapshotName mctx v +s+ "-" +s+ label.

Definition deltaSnapshot (label : string) (v : VMMigrationStatus) (warm : WarmMigrationStatus)
  : M W (WarmMigrationStatus * option error) :=
  if DeltaSnapshotUUID warm =s "" then
    r <- nx cl (CreateRecoveryPoint (ID v) (deltaName label v)) ;;
    match r with
    | Err e => ret (warm, Some (wrapErr (label +s+ ": create snapshot") e))
    | Ok uuid => ret (setDeltaSnapshot uuid warm, None)
    end
  else ret (warm, None).

(** [for { GetChangedRegions(cbtOffset); if NextOffset == nil { break }; ... }] *)
Fixpoint cbtLoop (fuel : nat) (info : CBTClusterInfo) (v : VMMigrationStatus) (warm : WarmMigrationStatus)
  (diskSize cbtOffset : Z) (allRegions : list ChangedRegion) : M W (result (list ChangedRegion)) :=
  match fuel with
  | O => outOfFuel
  | S n =>
      r <- nx cl (GetChangedRegions (CBT_PrismElementURL info) (CBT_JWTToken info) (ID v)
                    (DeltaSnapshotUUID warm) (BaseSnapshotUUID warm) cbtOffset diskSize CBTBlockSize) ;;
      match r with
      | Err e => ret (Err e)
      | Ok regions =>
          let allRegions := allRegions ++ Regions_Regions regions in
          match Regions_NextOffset regions with
          | None => ret (Ok allRegions)
          | Some next => cbtLoop n info v warm diskSize next allRegions
          end
      end
  end.

Definition deltaPodName (label : string) (v : VMMigrationStatus) (diskIdx : Z) : string :=
  "vma-" +s+ shortID (migName mctx) +s+ "-" +s+ shortID (ID v) +s+ "-" +s+ label +s+ "-d" +s+ itoa diskIdx.

(** The pod that applies the changed regions of one disk, and its ConfigMap. *)
Definition startDeltaPod (label : string) (v : VMMigrationStatus) (warm : WarmMigrationStatus) (diskIdx : Z)
  (allRegions : list ChangedRegion) : M W (VMMigrationStatus * PhaseResult) :=
  match index (DeltaImageUUIDs warm) diskIdx, index (DataVolumeNames v) diskIdx with
  | Some image, Some pvc =>
      let podName := deltaPodName label v diskIdx in
      let '(pod, regionsCM) := BuildDeltaPod (mkDeltaPodOptions podName (targetNS mctx) pvc
        (ImageDownloadURL (Ctx_TransferMgr mctx) image) (credSecretName mctx) allRegions
        (ownerRef (Ctx_Migration mctx))) in
      let v := setWarm (Some warm) v in
      r <- k8s (Create KConfigMap regionsCM) ;;
      match ignoreAlreadyExists r with
      | Err e => ret (v, failed (wrapErr (label +s+ ": create regions ConfigMap") e))
      | Ok _ =>
          r <- k8s (Create KPod pod) ;;
          match ignoreAlreadyExists r with
          | Err e => ret (v, failed (wrapErr (label +s+ ": create delta pod") e))
          | Ok _ => ret (setWarm (Some (setDeltaPodName podName warm)) v, notYet)
          end
      end
  | _, _ => panic
  end.

(** The second half of the round: the changed regions of the current disk. *)
Definition deltaDisk (label : string) (onComplete : handler W) (v : VMMigrationStatus) (warm : WarmMigrationStatus)
  (dataDisks : list Disk) : M W (VMMigrationStatus * PhaseResult) :=
  let diskIdx := DeltaDiskIndex warm in
  if len dataDisks <=? diskIdx then onComplete (setWarm (Some warm) v)
  else
    c <- nx cl (DiscoverClusterForCBT (ID v)) ;;
    match c with
    | Err e => ret (setWarm (Some warm) v, failed (wrapErr (label +s+ ": CBT discover") e))
    | Ok cbtInfo =>
        match index dataDisks diskIdx with
        | None => panic
        | Some disk =>
            r <- cbtLoop cbtFuel cbtInfo v warm (getDiskSize disk) 0 [] ;;
            match r with
            | Err e => ret (setWarm (Some warm) v, failed (wrapErr (label +s+ ": CBT regions") e))
            | Ok allRegions =>
                let warm := setDeltaBytes (int64 (DeltaBytes warm + totalDeltaBytes allRegions)) warm in
                match allRegions with
                | [] =>
                    let warm := setDeltaDiskIndex (int64 (DeltaDiskIndex warm + 1)) warm in
                    if len dataDisks <=? DeltaDiskIndex warm then onComplete (setWarm (Some warm) v)
                    else ret (setWarm (Some warm) v, notYet)
                | _ => startDeltaPod label v warm diskIdx allRegions
                end
            end
        end
    end.

Definition runDeltaRound (label : string) (onComplete : handler W) : handler W := λ v,
  match Warm v with
  | None => panic
  | Some warm =>
      let* (warm, err) := deltaSnapshot label v warm in
      match err with
      | Some e => ret (setWarm (Some warm) v, failed e)
      | None =>
          r <- nx cl (GetVM (ID v)) ;;
          match r with
          | Err e => ret (setWarm (Some warm) v, failed (wrapErr (label +s+ ": get VM") e))
          | Ok vm =>
              let dataDisks := filterDataDisks (VM_Disks vm) in
              let* (images, err) :=
                (if (length (DeltaImageUUIDs warm) <? length dataDisks)%nat
                 then exportImages mctx (λ i, deltaName label v +s+ "-disk-" +s+ itoa (Z.of_nat i)) getDiskUUID
                        (clusterRef vm) 0 dataDisks (DeltaImageUUIDs warm)
                 else ret (DeltaImageUUIDs warm, None)) in
              let warm := setDeltaImages images warm in
              match err with
              | Some (i, e) =>
                  ret (setWarm (Some warm) v, failed (wrapErr (label +s+ ": export disk " +s+ itoa (Z.of_nat i)) e))
              | None => deltaDisk label onComplete v warm dataDisks
              end
          end
      end
  end.

Definition checkDeltaPod : handler W := λ v,
  match Warm v with
  | None => panic
  | Some warm =>
      phase <- getPodPhase (DeltaPodName warm) (targetNS mctx) ;;
      match phase with
      | PodSucceeded =>
          deletePod (DeltaPodName warm) (targetNS mctx) ;;;
          deleteConfigMap (DeltaPodName warm +s+ "-regions") (targetNS mctx) ;;;
          let warm := setDeltaPodName "" warm in
          r <- nx cl (GetVM (ID v)) ;;
          match r with
          | Err e => ret (setWarm (Some warm) v, failed (wrapErr "delta pod: get VM" e))
          | Ok _ => ret (setWarm (Some (setDeltaDiskIndex (int64 (DeltaDiskIndex warm + 1)) warm)) v, notYet)
          end
      | PodFailed => ret (v, failed (newErr ("delta pod " +s+ DeltaPodName warm +s+ " failed")))
      | _ => ret (v, notYet)
      end
  end.

Definition finalizePrecopyRound : handler W := λ v,
  match Warm v with
  | None => panic
  | Some warm =>
      deleteSnapshot cl (BaseSnapshotUUID warm) ;;;
      deleteImages cl (BaseImageUUIDs warm) ;;;
      n <- now ;;
      let warm := mkWarm (int64 (PrecopyRounds warm + 1)) (int64 (CumulativeBytes warm + DeltaBytes warm))
        (DeltaBytes warm) (DeltaSnapshotUUID warm) (DeltaImageUUIDs warm) (Some n) "" [] "" 0 0 in
      ret (setWarm (Some warm) v, notYet)
  end.

Definition finalizeFinalSync : handler W := λ v,
  match Warm v with
  | None => panic
  | Some warm =>
      deleteSnapshot cl (BaseSnapshotUUID warm) ;;;
      deleteImages cl (BaseImageUUIDs warm) ;;;
      deleteImages cl (DeltaImageUUIDs warm) ;;;
      deleteSnapshot cl (DeltaSnapshotUUID warm) ;;;
      let warm := mkWarm (PrecopyRounds warm) (int64 (CumulativeBytes warm + DeltaBytes warm)) (DeltaBytes warm)
        (BaseSnapshotUUID warm) (BaseImageUUIDs warm) (LastPrecopyTime warm) "" [] (DeltaPodName warm) 0 0 in
      ret (setWarm (Some warm) v, completed)
  end.

(** ** Precopy and final sync *)

Definition maxRounds : Z :=
  match Plan_WarmConfig (Plan_Spec (Ctx_Plan mctx)) with Some c => Warm_MaxPrecopyRounds c | None => 10 end.

Definition precopyInterval : Z :=
  match Plan_WarmConfig (Plan_Spec (Ctx_Plan mctx)) with
  | Some c =>
      if Warm_PrecopyInterval c =s "" then 30 * Duration.Minute
      else match Duration.ParseDuration (Warm_PrecopyInterval c) with
      | Some d => d
      | None => 30 * Duration.Minute
      end
  | None => 30 * Duration.Minute
  end.

(** [warm.LastPrecopyTime != nil && time.Since(...) < interval] *)
Definition tooEarly (warm : WarmMigrationStatus) : M W bool :=
  match LastPrecopyTime warm with
  | None => ret false
  | Some t => n <- now ;; ret (timeSub n t <? precopyInterval)
  end.

Definition phasePrecopy : handler W := λ v,
  match Warm v with
  | None => ret (v, failed (newErr "precopy: warm status not initialized"))
  | Some warm =>
      cut <- isCutoverTime (Ctx_Migration mctx) ;;
      if cut then
        if DeltaPodName warm <>s "" then
          phase <- getPodPhase (DeltaPodName warm) (targetNS mctx) ;;
          match phase with
          | PodRunning | PodPending => ret (v, notYet)
          | _ => ret (v, completed)
          end
        else ret (v, completed)
      else if DeltaPodName warm <>s "" then checkDeltaPod v
      else if maxRounds <=? PrecopyRounds warm then ret (v, notYet)
      else
        early <- tooEarly warm ;;
        if early then ret (v, notYet)
        else runDeltaRound ("pc" +s+ itoa (int64 (PrecopyRounds warm + 1))) finalizePrecopyRound v
  end.

Definition phaseFinalSync : handler W := λ v,
  match Warm v with
  | None => ret (v, failed (newErr "finalSync: warm status not initialized"))
  | Some warm =>
      if DeltaPodName warm <>s "" then checkDeltaPod v
      else runDeltaRound "final" finalizeFinalSync v
  end.

End Warm.
