(* ===== verification/Resources.v ===== *)
(** * What the phases do to a VM's resources

    The promise of every phase handler to the loop that runs it ([PhaseHandler]): it leaves
    the VM's identity and phase alone, and it never loses an image or a recovery point:
    whatever was recorded in the status or is created is recorded afterwards or has been
    asked to be deleted. Cold handlers ([ColdHandler]) also always return. The exact
    behaviour of the loops over disks is here too. *)

From S2P Require Import Prelude GoLib NutanixTypes ApiTypes Env Disks Transfer Pipeline Hooks ColdPhases WarmPhases.

(** ** The ledger *)

(** A temporary resource on the Nutanix side. *)
Inductive resource := Image (uuid : string) | Snapshot (uuid : string).

#[global] Instance resource_eq_dec : EqDecision resource.
Proof. solve_decision. Defined.

(** A recovery point that has an identifier. *)
Definition snapshotRes (u : string) : list resource := if u =s "" then [] else [Snapshot u].

Definition createdBy (e : event) : list resource :=
  match e with
  | Ev (Nx _ (CreateImageFromDisk _ _ _)) (Ok u) => [Image u]
  | Ev (Nx _ (CreateRecoveryPoint _ _)) (Ok u) => snapshotRes u
  | _ => []
  end.

(** The deletion was requested, whatever Prism answered. *)
Definition deletedBy (e : event) : list resource :=
  match e with
  | Ev (Nx _ (DeleteImage u)) _ => [Image u]
  | Ev (Nx _ (DeleteRecoveryPoint u)) _ => [Snapshot u]
  | _ => []
  end.

Definition created (t : trace) : list resource := concat (createdBy <$> t).
Definition deleted (t : trace) : list resource := concat (deletedBy <$> t).

Definition warmTracked (w : option WarmMigrationStatus) : list resource :=
  match w with
  | Some w => (Image <$> DeltaImageUUIDs w) ++ snapshotRes (DeltaSnapshotUUID w) ++
              (Image <$> BaseImageUUIDs w) ++ snapshotRes (BaseSnapshotUUID w)
  | None => []
  end.

(** The resources a status records. *)
Definition tracked (v : VMMigrationStatus) : list resource :=
  (Image <$> ImageUUIDs v) ++ snapshotRes (SnapshotUUID v) ++ warmTracked (Warm v).

(** What a trace created and did not ask to be deleted afterwards. *)
Fixpoint outstanding (t : trace) : list resource :=
  match t with
  | [] => []
  | e :: t => filter (λ x, x ∉ deleted t) (createdBy e) ++ outstanding t
  end.

(** The trace asked for the deletion of [x], and did not create it afterwards. *)
Definition retired (t : trace) (x : resource) : Prop := x ∈ deleted t ∧ x ∉ outstanding t.

(** What a trace asked to be deleted without having created it before. *)
Fixpoint foreign (t : trace) : list resource :=
  match t with
  | [] => []
  | e :: t => deletedBy e ++ filter (λ x, x ∉ createdBy e) (foreign t)
  end.

(** From [v] by [t] to [v']: nothing is lost, and nothing that belongs to others is touched. *)
Record keeps (v : VMMigrationStatus) (t : trace) (v' : VMMigrationStatus) : Prop := {
  keeps_old x : x ∈ tracked v → x ∈ tracked v' ∨ x ∈ deleted t;
  keeps_new x : x ∈ outstanding t → x ∈ tracked v';
  keeps_own x : x ∈ foreign t → x ∈ tracked v;
  keeps_made x : x ∈ tracked v' → x ∈ tracked v ∨ x ∈ created t
}.

(** Identity, phase and times are the caller's. *)
Definition sameVM (v v' : VMMigrationStatus) : Prop :=
  ID v' = ID v ∧ Name v' = Name v ∧ Phase v' = Phase v ∧ Started v' = Started v ∧
  Completed v' = Completed v ∧ Error v' = Error v.

Lemma created_app t t' : created (t ++ t') = created t ++ created t'.
Proof. unfold created. by rewrite fmap_app, concat_app. Qed.
Lemma deleted_app t t' : deleted (t ++ t') = deleted t ++ deleted t'.
Proof. unfold deleted. by rewrite fmap_app, concat_app. Qed.
Lemma created_cons e t : created (e :: t) = createdBy e ++ created t.
Proof. done. Qed.
Lemma deleted_cons e t : deleted (e :: t) = deletedBy e ++ deleted t.
Proof. done. Qed.

Lemma outstanding_app t t' x :
  x ∈ outstanding (t ++ t') ↔ (x ∈ outstanding t ∧ x ∉ deleted t') ∨ x ∈ outstanding t'.
Proof.
  induction t as [|e t IH]; simpl; [set_solver|]. rewrite !elem_of_app, IH, !list_elem_of_filter, deleted_app, elem_of_app. tauto.
Qed.

Lemma outstanding_created t x : x ∈ outstanding t → x ∈ created t.
Proof.
  induction t as [|e t IH]; [done|]. rewrite created_cons. simpl. rewrite !elem_of_app, list_elem_of_filter. tauto.
Qed.

Lemma outstanding_none t : created t = [] → outstanding t = [].
Proof.
  intros Hc. destruct (outstanding t) as [|x l] eqn:Ho; [done|]. exfalso. assert (x ∈ created t) as Hx by (apply outstanding_created; rewrite Ho; left).
  rewrite Hc in Hx. by apply elem_of_nil in Hx.
Qed.

(** In full: an event created it, and no later event asks for its deletion. *)
Lemma outstanding_iff t x :
  x ∈ outstanding t ↔ ∃ t1 e t2, t = t1 ++ e :: t2 ∧ x ∈ createdBy e ∧ x ∉ deleted t2.
Proof.
  split.
  - induction t as [|e t IH]; [by intros ?%elem_of_nil|]. simpl. rewrite elem_of_app, list_elem_of_filter. intros [[Hd Hc]|Hx].
    + by exists [], e, t.
    + destruct (IH Hx) as (t1 & e' & t2 & -> & Hrest). by exists (e :: t1), e', t2.
  - intros (t1 & e & t2 & -> & Hc & Hd). apply outstanding_app. right. simpl. rewrite elem_of_app, list_elem_of_filter. by left.
Qed.

Lemma deleted_iff t x : x ∈ deleted t ↔ ∃ t1 e t2, t = t1 ++ e :: t2 ∧ x ∈ deletedBy e.
Proof.
  induction t as [|e t IH].
  - split; [by intros ?%elem_of_nil|]. by intros ([|] & ? & ? & ? & _).
  - rewrite deleted_cons, elem_of_app, IH. split.
    + intros [He|(t1 & e' & t2 & -> & He)]; [by exists [], e, t|by exists (e :: t1), e', t2].
    + intros ([|e1 t1] & e' & t2 & [= -> ->] & He); [by left|right; by exists t1, e', t2].
Qed.

Lemma foreign_app t t' x : x ∈ foreign (t ++ t') ↔ x ∈ foreign t ∨ (x ∈ foreign t' ∧ x ∉ created t).
Proof.
  induction t as [|e t IH]; simpl.
  - rewrite elem_of_nil. assert (x ∉ created []) by apply not_elem_of_nil. tauto.
  - rewrite created_cons, !elem_of_app, !list_elem_of_filter, IH. tauto.
Qed.

Lemma foreign_deleted t x : x ∈ foreign t → x ∈ deleted t.
Proof. induction t as [|e t IH]; [done|]. rewrite deleted_cons. simpl. rewrite !elem_of_app, list_elem_of_filter. tauto. Qed.

(** In full: an event asks for its deletion, and no earlier event created it. *)
Lemma foreign_iff t x :
  x ∈ foreign t ↔ ∃ t1 e t2, t = t1 ++ e :: t2 ∧ x ∈ deletedBy e ∧ x ∉ created t1.
Proof.
  split.
  - induction t as [|e t IH]; [by intros ?%elem_of_nil|]. simpl. rewrite elem_of_app, list_elem_of_filter. intros [Hd|[Hc Hx]].
    + exists [], e, t. split; [done|]. split; [done|]. apply not_elem_of_nil.
    + destruct (IH Hx) as (t1 & e' & t2 & -> & Hd & Hn). exists (e :: t1), e', t2. rewrite created_cons, elem_of_app. tauto.
  - intros (t1 & e & t2 & -> & Hd & Hc). apply foreign_app. right. simpl. rewrite elem_of_app. tauto.
Qed.

(** Nothing created, nothing deleted. *)
Definition silent (t : trace) : Prop := created t = [] ∧ deleted t = [].

Lemma silent_app t t' : silent t → silent t' → silent (t ++ t').
Proof. intros [H1 H2] [H3 H4]. split; [by rewrite created_app, H1, H3|by rewrite deleted_app, H2, H4]. Qed.

Lemma retired_quiet t x : created t = [] → x ∈ deleted t → retired t x.
Proof. intros Hc Hx. split; [done|]. rewrite outstanding_none by done. apply not_elem_of_nil. Qed.

Lemma retired_after t t' x : retired t' x → retired (t ++ t') x.
Proof. intros [Hd Ho]. split; [rewrite deleted_app, elem_of_app; by right|]. rewrite outstanding_app. tauto. Qed.

Lemma keeps_trans v t v' t' v'' : keeps v t v' → keeps v' t' v'' → keeps v (t ++ t') v''.
Proof.
  intros [Ht Ho Hf Hm] [Ht' Ho' Hf' Hm'].
  split; intros x; specialize (Ht x); specialize (Ho x); specialize (Hf x); specialize (Hm x); specialize (Ht' x); specialize (Ho' x);
    specialize (Hf' x); specialize (Hm' x); rewrite ?deleted_app, ?created_app, ?elem_of_app, ?outstanding_app, ?foreign_app; tauto.
Qed.

(** Nothing is deleted and everything is recorded. *)
Lemma keeps_recorded v t v' : deleted t = [] → (∀ x, x ∈ tracked v' ↔ x ∈ tracked v ∨ x ∈ created t) → keeps v t v'.
Proof.
  intros Hd H. split; intros x Hx.
  - left. apply H. by left.
  - apply H. right. by apply outstanding_created.
  - apply foreign_deleted in Hx. rewrite Hd in Hx. by apply elem_of_nil in Hx.
  - by apply H.
Qed.

(** Nothing is created; what is no longer recorded was deleted, and only what was recorded. *)
Lemma keeps_quiet v t v' : created t = [] → (∀ x, x ∈ tracked v ↔ x ∈ tracked v' ∨ x ∈ deleted t) → keeps v t v'.
Proof.
  intros Hc Ht. split; intros x Hx; [by apply Ht| | |left; apply Ht; by left].
  - rewrite outstanding_none in Hx by done. by apply elem_of_nil in Hx.
  - apply Ht. right. by apply foreign_deleted.
Qed.

(** The same resources, recorded elsewhere. *)
Lemma keeps_rename v t v' v'' : keeps v t v' → (∀ x, x ∈ tracked v'' ↔ x ∈ tracked v') → keeps v t v''.
Proof. intros [H1 H2 H3 H4] H. split; intros x; rewrite ?H; auto. Qed.

Lemma keeps_same v t v' : silent t → tracked v' = tracked v → keeps v t v'.
Proof. intros [Hc Hd] Ht. apply keeps_quiet; [done|]. intros x. rewrite Ht, Hd, elem_of_nil. tauto. Qed.

Lemma keeps_refl v t : silent t → keeps v t v.
Proof. intros H. by apply keeps_same. Qed.

Lemma sameVM_refl v : sameVM v v.
Proof. by repeat split. Qed.

Lemma sameVM_trans v v' v'' : sameVM v v' → sameVM v' v'' → sameVM v v''.
Proof. unfold sameVM. intros (?&?&?&?&?&?) (?&?&?&?&?&?). repeat split; congruence. Qed.

#[export] Hint Resolve keeps_refl sameVM_refl : vma.
#[export] Hint Extern 1 (silent _) => split; reflexivity : vma.

(** A trace of calls that create nothing. *)
Definition creates (c : call) : bool :=
  match c with Nx _ (CreateImageFromDisk _ _ _) | Nx _ (CreateRecoveryPoint _ _) => true | _ => false end.

Definition calls (t : trace) : list call := ev_call <$> t.

Definition deletes (c : call) : list resource :=
  match c with
  | Nx _ (DeleteImage u) => [Image u]
  | Nx _ (DeleteRecoveryPoint u) => [Snapshot u]
  | _ => []
  end.

Lemma createdBy_none e : creates (ev_call e) = false → createdBy e = [].
Proof. destruct e as [[? []| | | |] ?]; by simpl. Qed.

Lemma created_none t : Forall (λ c, creates c = false) (calls t) → created t = [].
Proof.
  unfold calls, created. rewrite Forall_fmap. induction 1 as [|e t He _ IH]; [done|]. csimpl.
  rewrite createdBy_none by done. exact IH.
Qed.

Lemma deleted_calls t : deleted t = concat (deletes <$> calls t).
Proof.
  unfold deleted, calls. rewrite <- list_fmap_compose. f_equal. apply list_fmap_ext.
  intros i e _. by destruct e as [[? []| | | |] ?].
Qed.

Lemma calls_app t t' : calls (t ++ t') = calls t ++ calls t'.
Proof. apply fmap_app. Qed.

(** ** The interface of the handlers *)

Section Interface.
Context {W : Type}.

(** [pre] is what the handler relies on. *)
Class PhaseHandler (pre : VMMigrationStatus → Prop) (h : handler W) : Prop :=
  handler_ok v : pre v → spec (h v) (partial (λ t vr, sameVM v vr.1 ∧ keeps v t vr.1)).

(** A handler that always returns and does not touch the warm state. *)
Class ColdHandler (h : handler W) : Prop :=
  cold_ok v : spec (h v) (total (λ t vr, sameVM v vr.1 ∧ Warm vr.1 = Warm v ∧ keeps v t vr.1)).

(** The end of a delta round: when it completes the phase, the warm resources are gone. *)
Class RoundHandler (h : handler W) : Prop :=
  round_ok v : spec (h v) (partial (λ t vr, sameVM v vr.1 ∧ keeps v t vr.1 ∧
    (Result_Completed vr.2 = true → ∀ x, x ∈ warmTracked (Warm vr.1) → retired t x))).

#[global] Instance cold_phase pre h : ColdHandler h → PhaseHandler pre h.
Proof.
  intros H v _. apply total_partial. eapply spec_total_weaken; [apply H|]. intros t vr (?&_&?). done.
Qed.

#[global] Instance round_phase pre h : RoundHandler h → PhaseHandler pre h.
Proof. intros H v _. eapply spec_partial_weaken; [apply H|]. intros t vr (?&?&_). done. Qed.

End Interface.

(** ** Best-effort deletions, exactly *)

Section Deletions.
Context {W : Type} `{E : Env W}.

Lemma deleteImages_calls cl us :
  spec (deleteImages cl us) (total (λ t _, calls t = (λ u, Nx cl (DeleteImage u)) <$> us)).
Proof.
  induction us as [|u us IH]; simpl; [by spec_step|]. spec_step.
  eapply spec_total_weaken; [exact IH|]. intros t [] H. unfold calls in *. csimpl. by rewrite H.
Qed.

Lemma deleteSnapshot_calls cl u :
  spec (deleteSnapshot cl u) (total (λ t _, calls t = if u =s "" then [] else [Nx cl (DeleteRecoveryPoint u)])).
Proof. unfold deleteSnapshot. destruct (u =s ""); simpl; by repeat spec_step. Qed.

Lemma deleteDataVolumes_calls mctx ns :
  spec (deleteDataVolumes mctx ns)
    (total (λ t _, calls t = (λ n, K8s (Delete KDataVolume (mkNN (targetNS mctx) n))) <$> ns)).
Proof.
  induction ns as [|n ns IH]; simpl; [by spec_step|]. spec_step.
  eapply spec_total_weaken; [exact IH|]. intros t [] H. unfold calls in *. csimpl. by rewrite H.
Qed.

(** A block whose calls are known, followed by the rest. *)
Lemma spec_bind_calls {A B} (m : M W A) (k : A → M W B) cs (Q : trace → B → Prop) :
  spec m (total (λ t _, calls t = cs)) →
  (∀ t a, calls t = cs → spec (k a) (total (λ t', Q (t ++ t')))) →
  spec (bind m k) (total Q).
Proof. intros Hm Hk. eapply spec_bind; [exact Hm|]. simpl. intros t a Ht. by apply Hk. Qed.

End Deletions.

(** ** The loops over disks, exactly *)

Section Loops.
Context {W : Type} `{E : Env W} (mctx : migrationContext).

(** The requests for the disks [ds], numbered from [j]. *)
Definition imageAsks (name : nat → string) (uuid : Disk → string) (cluster : string) (j : nat) (ds : list Disk)
  : list call :=
  imap (λ k d, Nx (Ctx_Client mctx) (CreateImageFromDisk (name (j + k)%nat) (uuid d) cluster)) ds.

(** 1 when there is an error. *)
Definition errs {A} (o : option A) : nat := match o with Some _ => 1 | None => 0 end.

Lemma exportImages_skip name uuid cluster i ds images w :
  (i ≤ length images)%nat →
  exportImages mctx name uuid cluster i ds images w =
  exportImages mctx name uuid cluster (length images) (drop (length images - i) ds) images w.
Proof.
  revert i. induction ds as [|d ds IH]; intros i Hi; simpl; [by rewrite drop_nil|].
  destruct (Nat.ltb_spec i (length images)).
  - rewrite IH by lia. f_equal. by replace (length images - i)%nat with (S (length images - S i)) by lia.
  - replace i with (length images) by lia. rewrite Nat.sub_diag, drop_0. simpl. by rewrite Nat.ltb_irrefl.
Qed.

Lemma imageAsks_cons name uuid cluster j d ds :
  imageAsks name uuid cluster j (d :: ds) =
  Nx (Ctx_Client mctx) (CreateImageFromDisk (name j) (uuid d) cluster) :: imageAsks name uuid cluster (S j) ds.
Proof.
  unfold imageAsks. rewrite imap_cons. rewrite Nat.add_0_r. f_equal. apply imap_ext. intros k x _. simpl.
  by rewrite Nat.add_succ_r.
Qed.

Lemma exportImages_exact name uuid cluster ds images :
  spec (exportImages mctx name uuid cluster (length images) ds images) (total (λ t ie, ∃ new,
    ie.1 = images ++ new ∧ created t = Image <$> new ∧
    calls t = take (length new + errs ie.2) (imageAsks name uuid cluster (length images) ds) ∧
    match ie.2 with
    | None => length new = length ds
    | Some (k, _) => k = (length images + length new)%nat ∧ (length new < length ds)%nat
    end)).
Proof.
  revert images. induction ds as [|d ds IH]; intros images; simpl.
  { spec_step. exists []. by rewrite app_nil_r. }
  rewrite Nat.ltb_irrefl, imageAsks_cons. spec_step. destruct a as [u|e].
  - specialize (IH (images ++ [u])). rewrite length_app, Nat.add_1_r in IH.
    eapply spec_total_weaken; [exact IH|]. intros t [imgs err] (new & H1 & H2 & H3 & H4). simpl in *.
    exists (u :: new). rewrite H1, <- app_assoc. split; [done|]. rewrite created_cons, H2. split; [done|].
    split; [by rewrite H3|]. destruct err as [[k e]|]; simpl; [split|]; lia.
  - spec_step. exists []. rewrite app_nil_r. repeat split; simpl; lia.
Qed.

(** Asking for images deletes nothing. *)
Lemma imageAsks_keep t n name uuid cluster j ds : calls t = take n (imageAsks name uuid cluster j ds) → deleted t = [].
Proof.
  intros H. rewrite deleted_calls, H. clear H. revert n j. induction ds as [|d ds IH]; intros n j.
  - by destruct n.
  - rewrite imageAsks_cons. destruct n as [|n]; [done|]. simpl. apply IH.
Qed.

(** From the start: the images recorded so far are kept, the disks after them exported. *)
Lemma exportImages_resume name uuid cluster ds images :
  spec (exportImages mctx name uuid cluster 0 ds images) (total (λ t ie, ∃ new,
    ie.1 = images ++ new ∧ created t = Image <$> new ∧
    calls t = take (length new + errs ie.2) (imageAsks name uuid cluster (length images) (drop (length images) ds)) ∧
    match ie.2 with
    | None => length new = (length ds - length images)%nat
    | Some (k, _) => k = (length images + length new)%nat ∧ (length new < length ds - length images)%nat
    end)).
Proof.
  intros w. rewrite exportImages_skip by lia. rewrite Nat.sub_0_r.
  pose proof (exportImages_exact name uuid cluster (drop (length images) ds) images w) as H.
  by rewrite length_drop in H.
Qed.

(** The DataVolumes for [images], numbered from [j]. *)
Definition volumeAsks (opts : nat → string → DataVolumeOptions) (j : nat) (images : list string) : list call :=
  imap (λ k u, K8s (Create KDataVolume (BuildDataVolume (opts (j + k)%nat u)))) images.

Lemma volumeAsks_cons opts j u us :
  volumeAsks opts j (u :: us) = K8s (Create KDataVolume (BuildDataVolume (opts j u))) :: volumeAsks opts (S j) us.
Proof.
  unfold volumeAsks. rewrite imap_cons. rewrite Nat.add_0_r. f_equal. apply imap_ext. intros k x _. simpl.
  by rewrite Nat.add_succ_r.
Qed.

Lemma createVolumes_skip opts i images names w :
  (i ≤ length names)%nat →
  createVolumes opts i images names w = createVolumes opts (length names) (drop (length names - i) images) names w.
Proof.
  revert i. induction images as [|u us IH]; intros i Hi; simpl; [by rewrite drop_nil|].
  destruct (Nat.ltb_spec i (length names)).
  - rewrite IH by lia. f_equal. by replace (length names - i)%nat with (S (length names - S i)) by lia.
  - replace i with (length names) by lia. rewrite Nat.sub_diag, drop_0. simpl. by rewrite Nat.ltb_irrefl.
Qed.

Lemma createVolumes_exact opts images names :
  spec (createVolumes opts (length names) images names) (total (λ t ne, ∃ n,
    ne.1 = names ++ take n (imap (λ k u, DVOpt_Name (opts (length names + k)%nat u)) images) ∧
    calls t = take (n + errs ne.2) (volumeAsks opts (length names) images) ∧
    match ne.2 with None => n = length images | Some _ => (n < length images)%nat end)).
Proof.
  revert names. induction images as [|u us IH]; intros names; cbn [createVolumes].
  { spec_step. exists 0%nat. simpl. by rewrite app_nil_r. }
  rewrite Nat.ltb_irrefl. unfold CreateDataVolume. repeat spec_step.
  - specialize (IH (names ++ [DVOpt_Name (opts (length names) u)])). rewrite length_app, Nat.add_1_r in IH.
    eapply spec_total_weaken; [exact IH|]. intros t [ns err] (n & H1 & H2 & H3). cbn [fst snd] in *.
    exists (S n). rewrite imap_cons, Nat.add_0_r, volumeAsks_cons. simpl. rewrite H1, <- app_assoc. simpl. split.
    { do 3 f_equal. apply imap_ext. intros k x _. simpl. by rewrite Nat.add_succ_r. }
    split; [by rewrite H2|]. destruct err; simpl; lia.
  - exists 0%nat. rewrite volumeAsks_cons, app_nil_r. simpl. repeat split; lia.
Qed.
End Loops.

(** ** Programs that create nothing *)

Section Quiet.
Context {W : Type} `{E : Env W}.

Definition quiet {A} (m : M W A) : Prop := spec m (total (λ t _, created t = [])).

Lemma quiet_calls {A} (m : M W A) cs :
  spec m (total (λ t _, calls t = cs)) → Forall (λ c, creates c = false) cs → quiet m.
Proof. intros H Hc. eapply spec_total_weaken; [exact H|]. intros t a Ht. apply created_none. by rewrite Ht. Qed.

Lemma quiet_bind {A B} (m : M W A) (k : A → M W B) : quiet m → (∀ a, quiet (k a)) → quiet (bind m k).
Proof.
  intros Hm Hk. eapply spec_bind; [exact Hm|]. simpl. intros t a Ht.
  eapply spec_total_weaken; [apply Hk|]. intros t' b Hb. by rewrite created_app, Ht, Hb.
Qed.

Lemma quiet_call c : creates c = false → quiet (perform c).
Proof. intros H. apply spec_perform. intros a. apply created_none. by repeat constructor. Qed.

Lemma quiet_ret {A} (a : A) : quiet (ret a).
Proof. by apply spec_ret. Qed.

(** Programs that delete nothing either. *)
Definition still {A} (m : M W A) : Prop := spec m (total (λ t _, silent t)).

Lemma spec_bind_still {A B} (m : M W A) (k : A → M W B) (Q : trace → B → Prop) :
  still m → (∀ t a, silent t → spec (k a) (total (λ t', Q (t ++ t')))) → spec (bind m k) (total Q).
Proof. intros Hm Hk. eapply spec_bind; [exact Hm|]. simpl. eauto. Qed.

Lemma spec_bind_still_p {A B} (m : M W A) (k : A → M W B) (Q : trace → B → Prop) :
  still m → (∀ t a, silent t → spec (k a) (partial (λ t', Q (t ++ t')))) → spec (bind m k) (partial Q).
Proof. intros Hm Hk. eapply spec_bind_p; [apply total_partial, Hm|]. simpl. eauto. Qed.

Lemma still_bind {A B} (m : M W A) (k : A → M W B) : still m → (∀ a, still (k a)) → still (bind m k).
Proof.
  intros Hm Hk. eapply spec_bind; [exact Hm|]. simpl. intros t a Ht.
  eapply spec_total_weaken; [apply Hk|]. intros t' b Hb. by apply silent_app.
Qed.

Lemma still_call c : creates c = false → deletes c = [] → still (perform c).
Proof.
  intros Hc Hd. apply spec_perform. intros a. split; [apply created_none; by repeat constructor|].
  rewrite deleted_calls. simpl. by rewrite Hd.
Qed.

Lemma still_ret {A} (a : A) : still (ret a).
Proof. by apply spec_ret. Qed.

Lemma still_quiet {A} (m : M W A) : still m → quiet m.
Proof. intros H. eapply spec_total_weaken; [exact H|]. by intros t a []. Qed.

Lemma quiet_deleteImages cl us : quiet (deleteImages cl us).
Proof. eapply quiet_calls; [apply deleteImages_calls|]. apply Forall_fmap, Forall_forall. done. Qed.

Lemma quiet_deleteSnapshot cl u : quiet (deleteSnapshot cl u).
Proof. eapply quiet_calls; [apply deleteSnapshot_calls|]. destruct (u =s ""); by repeat constructor. Qed.

Lemma quiet_deleteDataVolumes mctx ns : quiet (deleteDataVolumes mctx ns).
Proof. eapply quiet_calls; [apply deleteDataVolumes_calls|]. apply Forall_fmap, Forall_forall. done. Qed.

End Quiet.

(** Discharge [quiet]: by the block's lemma, or call by call. *)
Ltac quiet_step :=
  first
  [ apply quiet_ret
  | apply quiet_deleteImages
  | apply quiet_deleteSnapshot
  | apply quiet_deleteDataVolumes
  | match goal with
    | |- quiet (bind _ _) => apply quiet_bind; [|intros ?]
    | |- quiet (nx ?cl ?c) => apply (quiet_call (Nx cl c)); reflexivity
    | |- quiet (k8s ?c) => apply (quiet_call (K8s c)); reflexivity
    | |- quiet (obs ?c) => apply (quiet_call (Obs c)); reflexivity
    | |- quiet now => apply (quiet_call Now); reflexivity
    | |- quiet (if ?b then _ else _) => destruct b
    | |- quiet (match ?x with _ => _ end) => destruct x
    | H : context [quiet] |- _ => apply H
    end ].
Ltac quiet_solve := repeat quiet_step.

(** Discharge [still], call by call. *)
Ltac still_step :=
  first
  [ apply still_ret
  | match goal with
    | |- still (bind _ _) => apply still_bind; [|intros ?]
    | |- still (nx ?cl ?c) => apply (still_call (Nx cl c)); reflexivity
    | |- still (k8s ?c) => apply (still_call (K8s c)); reflexivity
    | |- still (obs ?c) => apply (still_call (Obs c)); reflexivity
    | |- still now => apply (still_call Now); reflexivity
    | |- still (if ?b then _ else _) => destruct b
    | |- still (match ?x with _ => _ end) => destruct x
    | H : context [still] |- _ => apply H
    end ].
Ltac still_solve := repeat still_step.

Section QuietPrograms.
Context {W : Type} `{E : Env W} (mctx : migrationContext).

Lemma still_pollVolumes a b names ok : still (pollVolumes mctx a b names ok).
Proof.
  revert ok. induction names as [|n ns IH]; intros ok; simpl; unfold GetDataVolumeProgress; still_solve.
Qed.

Lemma still_createVolumes opts i images names : still (createVolumes opts i images names).
Proof.
  revert i names. induction images as [|u us IH]; intros i names; simpl; unfold CreateDataVolume; still_solve.
Qed.

Lemma still_recordTransferred name ds : still (recordTransferred name ds).
Proof. induction ds as [|d ds IH]; simpl; still_solve. Qed.

Lemma still_ensureCredentials a b : still (ensureCredentials mctx a b).
Proof. unfold ensureCredentials, CreateCredentialSecret, CreateCAConfigMap. still_solve. Qed.

Lemma quiet_cleanupFailedVM v : quiet (cleanupFailedVM mctx v).
Proof. unfold cleanupFailedVM, cleanupWarm, deletePod, deleteConfigMap. quiet_solve. Qed.

Lemma still_runHook step v : still (runHook mctx step v).
Proof.
  unfold runHook, findHook, checkHookJob, createHookJob, createHookJobWithAttempt, createHookConfigMap,
    cleanupHookResources. still_solve.
Qed.

End QuietPrograms.

(** Deletions, with what they deleted. *)
Section Deleted.
Context {W : Type} `{E : Env W}.

Lemma concat_singletons {A B} (f : A → B) (l : list A) : concat ((λ x, [f x]) <$> l) = f <$> l.
Proof. induction l as [|x l IH]; [done|]. csimpl. by rewrite IH. Qed.

Lemma deleteImages_deleted cl us :
  spec (deleteImages cl us) (total (λ t _, created t = [] ∧ deleted t = Image <$> us)).
Proof.
  eapply spec_total_weaken; [apply deleteImages_calls|]. intros t [] H. split.
  - apply created_none. rewrite H. apply Forall_fmap, Forall_forall. done.
  - rewrite deleted_calls, H, <- list_fmap_compose. apply concat_singletons.
Qed.

Lemma deleteSnapshot_deleted cl u :
  spec (deleteSnapshot cl u) (total (λ t _, created t = [] ∧ deleted t = snapshotRes u)).
Proof.
  eapply spec_total_weaken; [apply deleteSnapshot_calls|]. intros t [] H. unfold snapshotRes. split.
  - apply created_none. rewrite H. destruct (u =s ""); by repeat constructor.
  - rewrite deleted_calls, H. by destruct (u =s "").
Qed.

End Deleted.

(** ** The cold handlers keep the promise *)

(** Nothing created and the same resources recorded. *)
Ltac silently :=
  repeat match goal with H : silent _ |- _ => destruct H end; split;
  repeat (rewrite created_app || rewrite created_cons || rewrite deleted_app || rewrite deleted_cons);
  repeat match goal with H : created _ = _ |- _ => rewrite H | H : deleted _ = _ |- _ => rewrite H end; reflexivity.
Ltac unchanged := repeat first [apply keeps_same; [|reflexivity] | split; [done|]]; silently.

Section ColdLaws.
Context {W : Type} `{E : Env W} (mctx : migrationContext).

#[global] Instance runHook_cold step : ColdHandler (runHook mctx step).
Proof.
  intros v w. pose proof (still_runHook mctx step v w) as Hq.
  assert (spec (runHook mctx step v) (total (λ _ vr, vr.1 = v))) as Hs.
  { unfold runHook, findHook, checkHookJob, createHookJob, createHookJobWithAttempt, createHookConfigMap,
      cleanupHookResources. repeat spec_step; done. }
  specialize (Hs w). destruct (r_out _) as [vr| |]; simpl in *; try done. subst v. auto with vma.
Qed.

#[global] Instance storePowerState_cold : ColdHandler (phaseStorePowerState mctx).
Proof. intros v. unfold phaseStorePowerState. repeat spec_step; unchanged. Qed.

#[global] Instance powerOff_cold : ColdHandler (phasePowerOff mctx).
Proof. intros v. unfold phasePowerOff. repeat spec_step; unchanged. Qed.

#[global] Instance waitForPowerOff_cold : ColdHandler (phaseWaitForPowerOff mctx).
Proof. intros v. unfold phaseWaitForPowerOff. repeat spec_step; unchanged. Qed.

#[global] Instance createSnapshot_cold : ColdHandler (phaseCreateSnapshot mctx).
Proof.
  intros v. unfold phaseCreateSnapshot. repeat spec_step; try unchanged. simplify_eq. breflect.
  (split; [done|]); (split; [done|]). apply keeps_recorded; [done|]. unfold tracked. simpl. rewrite Heqb, created_cons, app_nil_r. set_solver.
Qed.

#[global] Instance exportDisks_cold : ColdHandler (phaseExportDisks mctx).
Proof.
  intros v. unfold phaseExportDisks. repeat (spec_step; try unchanged).
  eapply spec_bind; [apply exportImages_resume|]. intros t [images err] (new & Hi & Hc & Ha & _). simpl in Hi. subst images.
  apply imageAsks_keep in Ha. repeat spec_step; (split; [done|]); (split; [done|]);
    (apply keeps_recorded; [by rewrite deleted_cons, deleted_app, Ha|]); unfold tracked; simpl;
    rewrite created_cons, created_app, app_nil_r, Hc, fmap_app; set_solver.
Qed.

#[global] Instance importDisks_cold : ColdHandler (phaseImportDisks mctx).
Proof.
  intros v. unfold phaseImportDisks. repeat (spec_step; try unchanged).
  eapply spec_bind_still; [apply still_ensureCredentials|]. intros t1 c H1. destruct c as [cert|e]; [|spec_step; unchanged].
  eapply spec_bind_still; [destruct (_ <? _)%nat; [apply still_createVolumes|apply still_ret]|].
  intros t2 [names err] H2. destruct err as [[n e]|]; [spec_step; unchanged|].
  eapply spec_bind_still; [apply still_pollVolumes|]. intros t3 p H3.
  destruct p as [[]|e]; [|spec_step; unchanged|spec_step; unchanged].
  eapply spec_bind_still; [apply still_recordTransferred|]. intros t4 [] H4. spec_step. unchanged.
Qed.

#[global] Instance createVM_cold : ColdHandler (phaseCreateVM mctx).
Proof. intros v. unfold phaseCreateVM. repeat spec_step; unchanged. Qed.

#[global] Instance startVM_cold : ColdHandler (phaseStartVM mctx).
Proof. intros v. unfold phaseStartVM. repeat spec_step; unchanged. Qed.

#[global] Instance cleanup_cold : ColdHandler (phaseCleanup mctx).
Proof.
  intros v. unfold phaseCleanup.
  eapply spec_bind; [apply deleteImages_deleted|]. intros t1 [] [H1 D1].
  eapply spec_bind; [apply deleteSnapshot_deleted|]. intros t2 [] [H2 D2].
  unfold DeleteCredentialSecret, DeleteCAConfigMap. repeat spec_step; do 2 (split; [done|]); (apply keeps_quiet; [by rewrite !created_app, H1, H2|]);
    intros x; unfold tracked; rewrite !deleted_app, D1, D2; set_solver.
Qed.

End ColdLaws.

(** ** The warm handlers keep the promise *)

Section WarmLaws.
Context {W : Type} `{E : Env W} (cbtFuel : nat) (mctx : migrationContext).

Lemma cbtLoop_quiet n info v warm size off acc :
  spec (cbtLoop mctx n info v warm size off acc) (partial (λ t _, silent t)).
Proof.
  revert off acc. induction n as [|n IH]; intros off acc; simpl; repeat spec_step; done.
Qed.

(** Deletions in sequence, with what they deleted. *)
Ltac delete_step :=
  first [ eapply spec_bind_p; [apply total_partial, deleteImages_deleted|]
        | eapply spec_bind_p; [apply total_partial, deleteSnapshot_deleted|] ];
  let Hc := fresh "Hc" in let Hd := fresh "Hd" in intros ? [] [Hc Hd].

(** The ledger of a trace made of known blocks. *)
Ltac ledger_blocks :=
  repeat (rewrite created_app || rewrite created_cons || rewrite deleted_app || rewrite deleted_cons);
  repeat match goal with H : created _ = _ |- _ => rewrite H | H : deleted _ = _ |- _ => rewrite H end;
  simpl; set_solver.

Ltac ledger_quiet :=
  repeat (rewrite created_app || rewrite created_cons);
  repeat match goal with H : created _ = _ |- _ => rewrite H end; reflexivity.

#[global] Instance finalizePrecopyRound_round : RoundHandler (finalizePrecopyRound mctx).
Proof.
  intros v. unfold finalizePrecopyRound. repeat spec_step. do 2 delete_step. repeat spec_step.
  split; [done|]. split; [|done]. apply keeps_quiet; [ledger_quiet|]. intros x. unfold tracked. rewrite Heqo. simpl. ledger_blocks.
Qed.

#[global] Instance finalizeFinalSync_round : RoundHandler (finalizeFinalSync mctx).
Proof.
  intros v. unfold finalizeFinalSync. repeat spec_step. do 4 delete_step. repeat spec_step. split; [done|]. split.
  - apply keeps_quiet; [ledger_quiet|]. intros x. unfold tracked. rewrite Heqo. simpl. ledger_blocks.
  - intros _ x Hx. apply retired_quiet; [ledger_quiet|]. simpl in Hx. revert Hx. ledger_blocks.
Qed.

(** The result of a part of a round: what a [RoundHandler] promises. *)
Definition roundPost (v : VMMigrationStatus) (t : trace) (vr : VMMigrationStatus * PhaseResult) : Prop :=
  sameVM v vr.1 ∧ keeps v t vr.1 ∧
  (Result_Completed vr.2 = true → ∀ x, x ∈ warmTracked (Warm vr.1) → retired t x).

(** A round that goes on from a status in which nothing was lost so far. *)
Lemma roundPost_after v t v' t' vr : sameVM v v' → keeps v t v' → roundPost v' t' vr → roundPost v (t ++ t') vr.
Proof.
  intros Hs Hk (Hs' & Hk' & Hd). split; [by eapply sameVM_trans|]. split; [by eapply keeps_trans|].
  intros Hc x Hx. by apply retired_after, Hd.
Qed.

Lemma roundPost_stay v t v' r : sameVM v v' → keeps v t v' → Result_Completed r = false → roundPost v t (v', r).
Proof. intros Hs Hk Hr. split; [done|]. split; [done|]. simpl. congruence. Qed.

(** What a round records in [warm] for the resources it created. *)
Definition warmKeeps (v : VMMigrationStatus) (t : trace) (warm : WarmMigrationStatus) : Prop :=
  keeps v t (setWarm (Some warm) v).

Lemma startDeltaPod_round label v warm i regions :
  spec (startDeltaPod mctx label v warm i regions) (partial (roundPost (setWarm (Some warm) v))).
Proof.
  unfold startDeltaPod. destruct (index _ _), (index (DataVolumeNames v) i); try (intros w; exact I).
  repeat spec_step; (apply roundPost_stay; [done| |done]); by apply keeps_same.
Qed.

Lemma deltaDisk_round label h v warm ds :
  RoundHandler h → spec (deltaDisk cbtFuel mctx label h v warm ds) (partial (roundPost (setWarm (Some warm) v))).
Proof.
  intros Hh. unfold deltaDisk.
  assert (∀ t warm', silent t → warmTracked (Some warm') = warmTracked (Some warm) →
    keeps (setWarm (Some warm) v) t (setWarm (Some warm') v)) as Hsame.
  { intros t warm' Hc Hw. apply keeps_same; [done|]. unfold tracked.
    cbn [Warm setWarm ImageUUIDs SnapshotUUID]. by rewrite Hw. }
  destruct (_ <=? _); [apply Hh|]. repeat spec_step.
  2:{ apply roundPost_stay; [done|by apply Hsame|done]. }
  eapply spec_bind_p; [apply cbtLoop_quiet|]. simpl. intros t r Hc.
  destruct r as [regions|e]; [|spec_step; rewrite app_nil_r; apply roundPost_stay; [done|by apply Hsame|done]].
  destruct regions as [|reg regions].
  - destruct (_ <=? _); [|spec_step; rewrite app_nil_r; apply roundPost_stay; [done|by apply Hsame|done]].
    eapply spec_partial_weaken; [apply Hh|]. intros t' vr Hr.
    eapply (roundPost_after _ (_ :: t)); [| |exact Hr]; [done|by apply Hsame].
  - eapply spec_partial_weaken; [apply startDeltaPod_round|]. intros t' vr Hr.
    eapply (roundPost_after _ (_ :: t)); [| |exact Hr]; [done|by apply Hsame].
Qed.

Lemma deltaSnapshot_keeps label v warm :
  Warm v = Some warm →
  spec (deltaSnapshot mctx label v warm) (partial (λ t we, warmKeeps v t we.1 ∧ DeltaImageUUIDs we.1 = DeltaImageUUIDs warm)).
Proof.
  intros Hw. unfold deltaSnapshot, warmKeeps. repeat spec_step; (split; [|done]); (apply keeps_recorded; [done|]); unfold tracked; rewrite Hw; simpl; simplify_eq;
    breflect; rewrite ?created_cons; simpl; rewrite ?app_nil_r; try rewrite Heqb; set_solver.
Qed.

#[global] Instance runDeltaRound_round label h : RoundHandler h → RoundHandler (runDeltaRound cbtFuel mctx label h).
Proof.
  intros Hh v. unfold runDeltaRound. destruct (Warm v) as [warm|] eqn:Hw; [|intros w; exact I].
  eapply spec_bind_p; [by apply deltaSnapshot_keeps|]. intros t1 [warm1 err] [H1 _]. unfold warmKeeps in H1. simpl in H1.
  destruct err as [e|]; [spec_step; rewrite app_nil_r; by apply roundPost_stay|].
  spec_step. destruct a as [vm|e].
  2:{ spec_step. apply roundPost_stay; [done| |done]. eapply keeps_trans; [exact H1|]. by apply keeps_same. }
  assert (∀ m, m = exportImages mctx (λ i, deltaName mctx label v +s+ "-disk-" +s+ itoa (Z.of_nat i)) getDiskUUID
    (clusterRef vm) 0 (filterDataDisks (VM_Disks vm)) (DeltaImageUUIDs warm1) ∨ m = ret (DeltaImageUUIDs warm1, None) →
    spec m (partial (λ t ie, ∃ new, ie.1 = DeltaImageUUIDs warm1 ++ new ∧ created t = Image <$> new ∧ deleted t = []))) as Hexp.
  { intros m [-> | ->]; [|spec_step; exists []; by rewrite app_nil_r].
    apply total_partial. eapply spec_total_weaken; [apply exportImages_resume|]. intros t ie (new & ? & ? & ?%imageAsks_keep & _). eauto. }
  eapply spec_bind_p; [apply Hexp; destruct (_ <? _)%nat; [by left|by right]|].
  intros t2 [images err] (new & Hi & Hc & Hdel). simpl in Hi. subst images.
  set (warm2 := setDeltaImages _ _).
  assert (keeps v (t1 ++ Ev (Nx (Ctx_Client mctx) (GetVM (ID v))) (Ok vm) :: t2) (setWarm (Some warm2) v)) as H2.
  { eapply keeps_trans; [exact H1|]. apply keeps_recorded; [done|]. intros x. unfold tracked. rewrite created_cons, Hc. simpl. rewrite fmap_app. set_solver. }
  destruct err as [[k e]|]; [spec_step; rewrite app_nil_r; by apply roundPost_stay|].
  eapply spec_partial_weaken; [by apply deltaDisk_round|]. intros t3 vr Hr.
  rewrite (app_comm_cons t2 t3), app_assoc. by eapply roundPost_after; [|exact H2|exact Hr].
Qed.

#[global] Instance checkDeltaPod_round : RoundHandler (checkDeltaPod mctx).
Proof.
  intros v. unfold checkDeltaPod, getPodPhase, deletePod, deleteConfigMap. destruct (Warm v) as [warm|] eqn:Hw; [|intros w; exact I].
  repeat spec_step; (apply roundPost_stay; [done| |done]); (apply keeps_same; [done|]); unfold tracked; simpl; by rewrite ?Hw.
Qed.

#[global] Instance finalSync_round : RoundHandler (phaseFinalSync cbtFuel mctx).
Proof.
  intros v. unfold phaseFinalSync. destruct (Warm v) as [warm|] eqn:Hw.
  - destruct (_ <>s _); [apply checkDeltaPod_round|]. apply runDeltaRound_round. apply _.
  - spec_step. by apply roundPost_stay; [| apply keeps_refl |].
Qed.

#[global] Instance precopy_phase pre : PhaseHandler pre (phasePrecopy cbtFuel mctx).
Proof.
  intros v _. unfold phasePrecopy, isCutoverTime, tooEarly, getPodPhase.
  destruct (Warm v) as [warm|] eqn:Hw; [|spec_step; auto with vma].
  repeat (spec_step; simpl; auto with vma);
    match goal with
    | |- spec (checkDeltaPod _ _) _ => eapply spec_partial_weaken; [apply checkDeltaPod_round|]
    | |- spec (runDeltaRound _ _ _ _ _) _ => eapply spec_partial_weaken; [apply runDeltaRound_round; apply _|]
    end; intros t vr (Hs & Hk & _); (split; [exact Hs|]);
    repeat match goal with |- keeps ?v (?e :: ?t) _ => apply (keeps_trans v [e] v t); [by auto with vma|] end; exact Hk.
Qed.

#[global] Instance waitBulkCopy_cold : ColdHandler (phaseWaitBulkCopy mctx).
Proof.
  intros v. unfold phaseWaitBulkCopy, pollDataVolumes.
  eapply spec_bind_still; [apply still_pollVolumes|]. intros t p Ht. repeat spec_step; unchanged.
Qed.

Lemma createDataVolumes_cold ds : ColdHandler (createDataVolumes mctx ds).
Proof.
  intros v. unfold createDataVolumes.
  eapply spec_bind_still; [apply still_ensureCredentials|]. intros t1 c H1. destruct c as [cert|e]; [|spec_step; unchanged].
  eapply spec_bind_still; [destruct (_ <? _)%nat; [apply still_createVolumes|apply still_ret]|].
  intros t2 [names err] H2. destruct err as [[n e]|]; spec_step; unchanged.
Qed.

(** BulkCopy makes what it created the base, so it relies on there being no base yet. It
    never asks to be run again: it completes or fails. *)
Lemma bulkCopy_once v :
  spec (phaseBulkCopy mctx v) (total (λ t vr, sameVM v vr.1 ∧ (Warm v = None → keeps v t vr.1) ∧
    (Result_Completed vr.2 = true ∨ is_Some (Result_Error vr.2)))).
Proof.
  unfold phaseBulkCopy.
  assert (spec (bulkSnapshot mctx v) (total (λ t ve, sameVM v ve.1 ∧ Warm ve.1 = Warm v ∧ keeps v t ve.1))) as Hsnap.
  { unfold bulkSnapshot. repeat spec_step; simplify_eq; breflect; (split; [done|]); (split; [done|]); try by apply keeps_refl.
    apply keeps_recorded; [done|]. unfold tracked. simpl. rewrite Heqb, created_cons, app_nil_r. set_solver. }
  eapply spec_bind; [exact Hsnap|]. intros t1 [v1 err] (Hs1 & Hw1 & H1). simpl in *.
  destruct err as [e|]; [spec_step; rewrite app_nil_r; eauto|].
  spec_step. destruct a as [vm|e].
  2:{ spec_step. split; [done|]. split; [intros _|eauto]. eapply keeps_trans; [exact H1|]. by apply keeps_refl. }
  assert (spec (if (length (ImageUUIDs v1) <? length (filterDataDisks (VM_Disks vm)))%nat
     then exportImages mctx (diskName mctx v1) getDiskUUID (clusterRef vm) 0 (filterDataDisks (VM_Disks vm)) (ImageUUIDs v1)
     else ret (ImageUUIDs v1, None)) (total (λ t ie, ∃ new, ie.1 = ImageUUIDs v1 ++ new ∧ created t = Image <$> new ∧ deleted t = []))) as Hexp.
  { destruct (_ <? _)%nat; [|spec_step; exists []; by rewrite app_nil_r].
    eapply spec_total_weaken; [apply exportImages_resume|]. intros t ie (new & ? & ? & ?%imageAsks_keep & _). eauto. }
  eapply spec_bind; [exact Hexp|]. intros t2 [images err] (new & Hi & Hc & Hdel). simpl in Hi. subst images.
  set (v2 := setImageUUIDs _ _).
  assert (keeps v (t1 ++ Ev (Nx (Ctx_Client mctx) (GetVM (ID v1))) (Ok vm) :: t2) v2) as H2.
  { eapply keeps_trans; [exact H1|]. apply keeps_recorded; [done|]. intros x. unfold tracked. rewrite created_cons, Hc. simpl. rewrite fmap_app. set_solver. }
  destruct err as [[k e]|]; [spec_step; rewrite app_nil_r; eauto|].
  eapply spec_bind; [apply createDataVolumes_cold|]. intros t3 [v3 r] (Hs3 & Hw3 & H3). cbn [fst snd] in *.
  assert (keeps v ((t1 ++ Ev (Nx (Ctx_Client mctx) (GetVM (ID v1))) (Ok vm) :: t2) ++ t3) v3) as H4 by by eapply keeps_trans.
  assert (sameVM v v3) as Hs4 by (eapply sameVM_trans; [exact Hs1|]; exact Hs3).
  destruct (Result_Error r) as [e|] eqn:Er; spec_step; rewrite app_nil_r, app_comm_cons, app_assoc;
    (split; [done|]); (split; [intros Hw|simpl; rewrite ?Er; eauto]); [exact H4|].
  apply (keeps_rename _ _ _ _ H4). intros x. unfold tracked. simpl. rewrite Hw3. simpl. rewrite Hw1, Hw. set_solver.
Qed.

#[global] Instance bulkCopy_phase : PhaseHandler (λ v, Warm v = None) (phaseBulkCopy mctx).
Proof. intros v Hw. apply total_partial. eapply spec_total_weaken; [apply bulkCopy_once|]. intros t vr (?&?&_). auto. Qed.

End WarmLaws.
