(* ===== verification/PhaseProperties.v ===== *)
(** * Properties of single phases

    Exporting and importing disks, the cleanup after a failure, and the delta rounds. *)

From S2P Require Import Prelude GoLib NutanixTypes ApiTypes Env Disks Builder Transfer Pipeline Hooks ColdPhases WarmPhases.
From S2P Require Import Resources Validation Samples.

(** The VM a call read. *)
Definition vmRead (e : event) : option VM :=
  match e with Ev (Nx _ (GetVM _)) (Ok vm) => Some vm | _ => None end.

Section Phases.
Context {W : Type} `{E : Env W} (mctx : migrationContext).

(** ** Lemmas *)

Lemma images_eta v : setImageUUIDs (ImageUUIDs v ++ []) v = v.
Proof. rewrite app_nil_r. by destruct v. Qed.

Lemma volumes_eta v : setDataVolumeNames (DataVolumeNames v ++ []) v = v.
Proof. rewrite app_nil_r. by destruct v. Qed.

Lemma volumeAsks_elem opts n images j u :
  (n ≤ j)%nat → images !! j = Some u →
  K8s (Create KDataVolume (BuildDataVolume (opts j u))) ∈ volumeAsks opts n (drop n images).
Proof.
  intros Hj Hu. unfold volumeAsks. apply (list_elem_of_lookup_2 _ (j - n)).
  rewrite list_lookup_imap, lookup_drop. replace (n + (j - n))%nat with j by lia. by rewrite Hu.
Qed.

(** The API server said the DataVolume had succeeded. *)
Definition volumeSucceeded (t : trace) (name : string) : Prop :=
  ∃ dv, Ev (K8s (Get KDataVolume (mkNN (targetNS mctx) name))) (Ok dv) ∈ t ∧ DV_Phase dv = DVSucceeded.

Lemma volumeSucceeded_mono t t' t'' name : volumeSucceeded t name → volumeSucceeded (t' ++ t ++ t'') name.
Proof. intros (dv & Hin & Hp). exists dv. split; [set_solver|done]. Qed.

Lemma pollVolumes_sound a b names ok :
  spec (pollVolumes mctx a b names ok) (total (λ t r, r = Ok true → ok = true ∧ Forall (volumeSucceeded t) names)).
Proof.
  revert ok. induction names as [|n ns IH]; intros ok; simpl; [spec_step; intros [= ->]; by split|].
  assert (∀ e, spec (pollVolumes mctx a b ns false)
    (total (λ t r, r = Ok true → ok = true ∧ Forall (volumeSucceeded (e :: t)) (n :: ns)))) as Hfalse.
  { intros e. eapply spec_total_weaken; [apply IH|]. intros t r Hr Heq. by destruct (Hr Heq). }
  unfold GetDataVolumeProgress. do 2 spec_step. destruct a0 as [dv|e]; spec_step.
  2:{ destruct (IsNotFound e); [apply Hfalse|by spec_step]. }
  cbn [Progress_Phase]. destruct (DV_Phase dv) eqn:Ep; [|by spec_step|apply Hfalse].
  eapply spec_total_weaken; [apply IH|]. intros t r Hr Heq. destruct (Hr Heq) as [-> Hall].
  split; [done|]. constructor; [eexists; split; [constructor|done]|].
  eapply Forall_impl; [exact Hall|]. intros m (dv' & Hin & Hp). exists dv'. split; [by right|done].
Qed.

Lemma createVolumes_resume opts images names :
  (length names ≤ length images)%nat →
  spec (createVolumes opts 0 images names) (total (λ t ne,
    (ne.2 = None → length ne.1 = length images ∧
       (∀ j u, (length names ≤ j)%nat → images !! j = Some u → ne.1 !! j = Some (DVOpt_Name (opts j u))) ∧
       calls t = volumeAsks opts (length names) (drop (length names) images)) ∧
    ∃ new, ne.1 = names ++ new)).
Proof.
  intros Hlen w. rewrite createVolumes_skip by lia. rewrite Nat.sub_0_r.
  pose proof (createVolumes_exact opts (drop (length names) images) names w) as H.
  destruct (r_out _) as [[ns err]| |]; simpl in *; try done. destruct H as (n & H1 & H2 & H3).
  split; [|by eexists]. intros ->. subst n. simpl in *. rewrite H1, H2.
  rewrite !take_ge; rewrite ?length_app, ?length_imap, ?length_drop; [|unfold volumeAsks; rewrite ?length_imap, ?length_drop; lia..].
  split; [lia|]. split; [|done]. intros j u Hj Hu. rewrite lookup_app_r by lia. rewrite list_lookup_imap, lookup_drop.
  replace (length names + (j - length names))%nat with j by lia. by rewrite Hu.
Qed.

(** The entry of a StorageMap selects the container, by its identifier or its name. *)
Definition selects (p : StoragePair) (ref : Reference) : Prop :=
  let s := StoragePair_Source p in
  (StorageSource_ID s ≠ "" ∧ StorageSource_ID s = Reference_ExtID ref) ∨
  (StorageSource_Name s ≠ "" ∧ StorageSource_Name s = Reference_Name ref).

(** The size of a disk: its own, or that of its backing when it has none. *)
Definition hasSize (d : Disk) (n : Z) : Prop :=
  (Disk_DiskSizeBytes d ≠ 0 ∧ n = Disk_DiskSizeBytes d) ∨
  (Disk_DiskSizeBytes d = 0 ∧ n = match Disk_BackingInfo d with Some b => Backing_DiskSizeBytes b | None => 0 end).

(** [dv] imports the image [u] as the disk [d]: it downloads that image with the migration's credentials,
    is large enough and less than 1 GiB too large, and has the destination of the first entry of
    the StorageMap that selects the disk's container. *)
Record importsDisk (u : string) (d : Disk) (dv : DataVolume) : Prop := {
  imports_url : DV_URL dv = TrimRight (Mgr_PrismURL (Ctx_TransferMgr mctx)) "/" +s+ "/api/vmm/v4.0/images/" +s+ u +s+ "/file";
  imports_secret : DV_SecretRef dv = "vma-" +s+ shortID (Meta_Name (Mig_Meta (Ctx_Migration mctx))) +s+ "-creds";
  imports_namespace : Meta_Namespace (DV_Meta dv) = Plan_TargetNamespace (Plan_Spec (Ctx_Plan mctx));
  imports_size n : hasSize d n → 0 ≤ n ≤ 2 ^ 63 - gib → ∃ gibs,
    DV_StorageRequest dv = MustParse (itoa gibs +s+ "Gi") ∧ n ≤ gibs * gib ∧ (gibs = 1 ∨ gibs * gib < n + gib);
  imports_mapping ref before p after : containerRef d = Some ref → StorageMap_Map (Ctx_StorageMap mctx) = before ++ p :: after →
    Forall (λ q, ¬ selects q ref) before → selects p ref →
    DV_StorageClassName dv = StorageDest_StorageClass (StoragePair_Destination p) ∧
    DV_VolumeMode dv = StorageDest_VolumeMode (StoragePair_Destination p) ∧
    DV_AccessModes dv = [StorageDest_AccessMode (StoragePair_Destination p)]
}.

Lemma storageMatches_selects p ref : storageMatches p ref = true ↔ selects p ref.
Proof.
  unfold storageMatches, selects. rewrite orb_true_iff, !andb_true_iff, !negb_true_iff, !String.eqb_neq, !String.eqb_eq. done.
Qed.

Lemma findStoragePair_first ref before p after :
  Forall (λ q, ¬ selects q ref) before → selects p ref → findStoragePair ref (before ++ p :: after) = Some (StoragePair_Destination p).
Proof.
  intros Hb Hp. induction Hb as [|q before Hq _ IH]; simpl.
  - apply storageMatches_selects in Hp. by rewrite Hp.
  - destruct (storageMatches q ref) eqn:Hm; [by apply storageMatches_selects in Hm|done].
Qed.

Lemma importDiskSize_has d n : hasSize d n → importDiskSize d = n.
Proof. unfold importDiskSize. intros [[Hd ->]|[Hd ->]]; destruct (Z.eqb_spec (Disk_DiskSizeBytes d) 0); try done. by destruct (Disk_BackingInfo d). Qed.

Lemma built_imports v ds cert j u d : ds !! j = Some d →
  importsDisk u d (BuildDataVolume (dataVolumeOptions importDiskSize mctx v ds cert j u)).
Proof.
  intros Hd. unfold dataVolumeOptions. rewrite Hd. split.
  1-3: by destruct (FindStorageMapping _ _) as [[]|].
  - intros n Hn Hb. apply importDiskSize_has in Hn. exists (gibsOf n).
    split; [destruct (FindStorageMapping _ _) as [[]|]; simpl; unfold bytesToGiQuantity; by rewrite Hn|].
    apply pvc_request_bounds; unfold gib in *; lia.
  - intros ref before p after Href Hm Hb Hp. unfold FindStorageMapping. rewrite Href, Hm, (findStoragePair_first ref before p after Hb Hp). done.
Qed.

(** ** Properties *)

(** C12: exporting disks resumes where it stopped, whatever Prism answers. ExportDisks always
    returns; the images recorded before are kept and the new ones appended are exactly the
    images it created. Once the VM has been read it asks, in order, for the image of each
    data disk that has none yet, under the disk's own name and number, stopping at the
    first refusal; and it completes exactly when every data disk has an image. *)
Theorem export_disks_resumes v w :
  ∃ v' r t new, run (phaseExportDisks mctx v) w = Done (v', r) ∧ traceOf (phaseExportDisks mctx v) w = t ∧
    v' = setImageUUIDs (ImageUUIDs v ++ new) v ∧ created t = Image <$> new ∧
    (∀ e vm t', t = e :: t' → vmRead e = Some vm →
       let ds := filterDataDisks (VM_Disks vm) in
       calls t' = take (length new + errs (Result_Error r))
         (imageAsks mctx (diskName mctx v) exportDiskUUID (clusterRef vm) (length (ImageUUIDs v))
            (drop (length (ImageUUIDs v)) ds)) ∧
       (Result_Completed r = true ↔ (length ds ≤ length (ImageUUIDs v'))%nat)).
Proof.
  assert (spec (phaseExportDisks mctx v) (total (λ t vr, ∃ new,
    vr.1 = setImageUUIDs (ImageUUIDs v ++ new) v ∧ created t = Image <$> new ∧
    (∀ e vm t', t = e :: t' → vmRead e = Some vm →
       let ds := filterDataDisks (VM_Disks vm) in
       calls t' = take (length new + errs (Result_Error vr.2))
         (imageAsks mctx (diskName mctx v) exportDiskUUID (clusterRef vm) (length (ImageUUIDs v))
            (drop (length (ImageUUIDs v)) ds)) ∧
       (Result_Completed vr.2 = true ↔ (length ds ≤ length (ImageUUIDs vr.1))%nat))))) as H.
  { unfold phaseExportDisks. spec_step. destruct a as [vm|e].
    2:{ spec_step. exists []. rewrite images_eta. split; [done|]. split; [done|]. intros e' vm t' Heq Hvm. simplify_eq. }
    destruct (Nat.leb_spec (length (filterDataDisks (VM_Disks vm))) (length (ImageUUIDs v))) as [Hle|Hlt].
    { spec_step. exists []. rewrite images_eta. split; [done|]. split; [done|]. intros e' vm' t' Heq Hvm. simplify_eq. by injection Hvm as <-. }
    eapply spec_bind; [apply exportImages_resume|]. intros t [images err] (new & Hi & Hc & Hcalls & Hn). cbn [fst snd] in *. subst images.
    destruct err as [[k e]|]; spec_step; exists new; (split; [done|]); rewrite app_nil_r; (split; [done|]);
      intros e' vm' t' Heq Hvm; simplify_eq; injection Hvm as <-; (split; [exact Hcalls|]); simpl; rewrite length_app; split; try done; lia. }
  destruct (spec_returns _ _ w H) as ([v' r] & Hr & new & Hv & Hc & Hrest). eauto 10.
Qed.


(** The calls of the cleanup, block by block. *)
Definition warmCleanupCalls (warm : WarmMigrationStatus) : list call :=
  (if DeltaPodName warm =s "" then []
   else [K8s (Delete KPod (mkNN (targetNS mctx) (DeltaPodName warm)));
         K8s (Delete KConfigMap (mkNN (targetNS mctx) (DeltaPodName warm +s+ "-regions")))]) ++
  ((λ u, Nx (Ctx_Client mctx) (DeleteImage u)) <$> DeltaImageUUIDs warm) ++
  (if DeltaSnapshotUUID warm =s "" then [] else [Nx (Ctx_Client mctx) (DeleteRecoveryPoint (DeltaSnapshotUUID warm))]) ++
  ((λ u, Nx (Ctx_Client mctx) (DeleteImage u)) <$> BaseImageUUIDs warm) ++
  (if BaseSnapshotUUID warm =s "" then [] else [Nx (Ctx_Client mctx) (DeleteRecoveryPoint (BaseSnapshotUUID warm))]).

Definition cleanupCalls (v : VMMigrationStatus) : list call :=
  ((λ n, K8s (Delete KDataVolume (mkNN (targetNS mctx) n))) <$> DataVolumeNames v) ++
  ((λ u, Nx (Ctx_Client mctx) (DeleteImage u)) <$> ImageUUIDs v) ++
  (if SnapshotUUID v =s "" then [] else [Nx (Ctx_Client mctx) (DeleteRecoveryPoint (SnapshotUUID v))]) ++
  (if OriginalPowerState v =s PowerStateOn then [Nx (Ctx_Client mctx) (PowerOnVM (ID v))] else []) ++
  match Warm v with None => [] | Some warm => warmCleanupCalls warm end.

Lemma cleanupWarm_calls warm : spec (cleanupWarm mctx warm) (total (λ t _, calls t = warmCleanupCalls warm)).
Proof.
  unfold cleanupWarm, warmCleanupCalls.
  eapply (spec_bind_calls _ _ (if DeltaPodName warm =s "" then [] else [_; _])).
  { unfold deletePod, deleteConfigMap. destruct (DeltaPodName warm =s ""); simpl; repeat spec_step; unfold calls; simpl; reflexivity. }
  intros t1 [] H1. eapply spec_bind_calls; [apply deleteImages_calls|]. intros t2 [] H2.
  eapply spec_bind_calls; [apply deleteSnapshot_calls|]. intros t3 [] H3.
  eapply spec_bind_calls; [apply deleteImages_calls|]. intros t4 [] H4.
  eapply spec_total_weaken; [apply deleteSnapshot_calls|]. intros t5 [] H5.
  by rewrite !calls_app, H1, H2, H3, H4, H5.
Qed.

Lemma cleanupFailedVM_calls v : spec (cleanupFailedVM mctx v) (total (λ t _, calls t = cleanupCalls v)).
Proof.
  unfold cleanupFailedVM, cleanupCalls.
  eapply spec_bind_calls; [apply deleteDataVolumes_calls|]. intros t1 [] H1.
  eapply spec_bind_calls; [apply deleteImages_calls|]. intros t2 [] H2.
  eapply spec_bind_calls; [apply deleteSnapshot_calls|]. intros t3 [] H3.
  eapply (spec_bind_calls _ _ (if OriginalPowerState v =s PowerStateOn then [_] else [])).
  { destruct (_ =s _); repeat spec_step; unfold calls; simpl; reflexivity. }
  intros t4 [] H4. eapply (spec_total_weaken _ (λ t _, calls t = match Warm v with None => [] | Some warm => warmCleanupCalls warm end)).
  { destruct (Warm v); [apply cleanupWarm_calls|by spec_step]. }
  intros t5 [] H5. by rewrite !calls_app, H1, H2, H3, H4, H5.
Qed.

Lemma deletes_cleanupCalls v x : x ∈ concat (deletes <$> cleanupCalls v) ↔ x ∈ tracked v.
Proof.
  assert (∀ cl us, concat (deletes <$> ((λ u, Nx cl (DeleteImage u)) <$> us)) = Image <$> us) as Himg.
  { intros cl us. rewrite <- list_fmap_compose. apply concat_singletons. }
  assert (∀ cl u, concat (deletes <$> (if u =s "" then [] else [Nx cl (DeleteRecoveryPoint u)])) = snapshotRes u) as Hsnap.
  { intros cl u. unfold snapshotRes. by destruct (u =s ""). }
  assert (concat (deletes <$> ((λ n, K8s (Delete KDataVolume (mkNN (targetNS mctx) n))) <$> DataVolumeNames v)) = []) as Hdv.
  { induction (DataVolumeNames v) as [|n ns IH]; [done|]. exact IH. }
  assert (concat (deletes <$> (if OriginalPowerState v =s PowerStateOn then [Nx (Ctx_Client mctx) (PowerOnVM (ID v))] else [])) = []) as Hp
    by by destruct (_ =s _).
  unfold cleanupCalls, tracked. rewrite !fmap_app, !concat_app, Hdv, Himg, Hsnap, Hp.
  destruct (Warm v) as [warm|]; [|done]. unfold warmCleanupCalls. rewrite !fmap_app, !concat_app, !Himg, !Hsnap.
  by destruct (DeltaPodName warm =s "").
Qed.

(** What the cleanup of a failed VM is to ask for. *)
Inductive cleanupCall (v : VMMigrationStatus) : call → Prop :=
| cleanup_volume n : n ∈ DataVolumeNames v → cleanupCall v (K8s (Delete KDataVolume (mkNN (targetNS mctx) n)))
| cleanup_image u : Image u ∈ tracked v → cleanupCall v (Nx (Ctx_Client mctx) (DeleteImage u))
| cleanup_snapshot u : Snapshot u ∈ tracked v → cleanupCall v (Nx (Ctx_Client mctx) (DeleteRecoveryPoint u))
| cleanup_power : OriginalPowerState v = PowerStateOn → cleanupCall v (Nx (Ctx_Client mctx) (PowerOnVM (ID v)))
| cleanup_pod warm : Warm v = Some warm → DeltaPodName warm ≠ "" →
    cleanupCall v (K8s (Delete KPod (mkNN (targetNS mctx) (DeltaPodName warm))))
| cleanup_regions warm : Warm v = Some warm → DeltaPodName warm ≠ "" →
    cleanupCall v (K8s (Delete KConfigMap (mkNN (targetNS mctx) (DeltaPodName warm +s+ "-regions")))).

(** The blocks of the list. *)
Lemma elem_images (us : list string) c : c ∈ ((λ u, Nx (Ctx_Client mctx) (DeleteImage u)) <$> us) ↔
  ∃ u, c = Nx (Ctx_Client mctx) (DeleteImage u) ∧ Image u ∈ Image <$> us.
Proof. rewrite list_elem_of_fmap. split; intros (u & -> & Hu); exists u; (split; [done|]); revert Hu; rewrite list_elem_of_fmap; [eauto|by intros (? & [= <-] & ?)]. Qed.

Lemma elem_snapshot u c : c ∈ (if u =s "" then [] else [Nx (Ctx_Client mctx) (DeleteRecoveryPoint u)]) ↔
  ∃ x, c = Nx (Ctx_Client mctx) (DeleteRecoveryPoint x) ∧ Snapshot x ∈ snapshotRes u.
Proof.
  unfold snapshotRes. destruct (u =s ""); [split; [by intros ?%elem_of_nil|by intros (? & _ & ?%elem_of_nil)]|].
  rewrite list_elem_of_singleton. split; [intros ->; exists u; split; [done|by left]|by intros (x & -> & [= ->]%list_elem_of_singleton)].
Qed.

Lemma cleanupCalls_iff v c : c ∈ cleanupCalls v ↔ cleanupCall v c.
Proof.
  unfold cleanupCalls. rewrite !elem_of_app, elem_images, elem_snapshot, list_elem_of_fmap. split.
  - intros [(n & -> & Hn)|[(u & -> & Hu)|[(u & -> & Hu)|[Hp|Hw]]]].
    + by constructor.
    + constructor. unfold tracked. rewrite !elem_of_app. auto.
    + constructor. unfold tracked. rewrite !elem_of_app. auto.
    + destruct (String.eqb_spec (OriginalPowerState v) PowerStateOn); [|by apply elem_of_nil in Hp]. apply list_elem_of_singleton in Hp as ->. by constructor.
    + destruct (Warm v) as [warm|] eqn:Ew; [|by apply elem_of_nil in Hw]. revert Hw. unfold warmCleanupCalls.
      rewrite !elem_of_app, !elem_images, !elem_snapshot. intros [Hpod|Hw].
      * destruct (String.eqb_spec (DeltaPodName warm) ""); [by apply elem_of_nil in Hpod|].
        apply elem_of_cons in Hpod as [->|[->|?%elem_of_nil]%elem_of_cons]; [by eapply cleanup_pod|by eapply cleanup_regions|done].
      * destruct Hw as [(u & -> & Hu)|[(u & -> & Hu)|[(u & -> & Hu)|(u & -> & Hu)]]]; constructor;
          unfold tracked, warmTracked; rewrite Ew, !elem_of_app; auto 10.
  - assert (∀ us x, Image x ∈ snapshotRes us → False) as Hsi
      by (intros us x; unfold snapshotRes; destruct (us =s ""); [by intros ?%elem_of_nil|by intros [=]%list_elem_of_singleton]).
    assert (∀ us x, Snapshot x ∈ Image <$> us → False) as His by (intros us x; rewrite list_elem_of_fmap; by intros (? & ? & _)).
    intros [n Hn|u Hu|u Hu|Hp|warm Hw Hne|warm Hw Hne].
    + left. eauto.
    + unfold tracked, warmTracked in Hu. destruct (Warm v) as [warm|]; rewrite !elem_of_app in Hu; unfold warmCleanupCalls; rewrite ?elem_of_app, ?elem_images.
      * destruct Hu as [Hu|[Hu|[Hu|[Hu|[Hu|Hu]]]]]; try (by destruct (Hsi _ _ Hu)); eauto 12.
      * destruct Hu as [Hu|[Hu|Hu]]; [eauto 10|by destruct (Hsi _ _ Hu)|by apply elem_of_nil in Hu].
    + unfold tracked, warmTracked in Hu. destruct (Warm v) as [warm|]; rewrite !elem_of_app in Hu; unfold warmCleanupCalls; rewrite ?elem_of_app, ?elem_snapshot.
      * destruct Hu as [Hu|[Hu|[Hu|[Hu|[Hu|Hu]]]]]; try (by destruct (His _ _ Hu)); eauto 14.
      * destruct Hu as [Hu|[Hu|Hu]]; [by destruct (His _ _ Hu)|eauto 10|by apply elem_of_nil in Hu].
    + right. right. right. left. rewrite Hp. simpl. by left.
    + do 4 right. rewrite Hw. unfold warmCleanupCalls. apply String.eqb_neq in Hne. rewrite Hne. by left.
    + do 4 right. rewrite Hw. unfold warmCleanupCalls. apply String.eqb_neq in Hne. rewrite Hne. right. by left.
Qed.

(** C11: the cleanup of a failed VM asks for exactly what the status records. It always returns,
    whatever fails on the way, and its calls are these and no others: the deletion of every image and
    recovery point the status records, including the base and delta resources of a warm
    migration, of every recorded DataVolume, and, when a delta pod is active, of the
    pod and the ConfigMap of its regions; and the source VM is powered on exactly when it was on
    originally. In particular no secret is deleted, the credential secret of the migration included. *)
Theorem failure_cleanup_exact v w :
  run (cleanupFailedVM mctx v) w = Done tt ∧
  (∀ c, c ∈ calls (traceOf (cleanupFailedVM mctx v) w) ↔ cleanupCall v c) ∧
  (∀ key, K8s (Delete KSecret key) ∉ calls (traceOf (cleanupFailedVM mctx v) w)).
Proof.
  destruct (spec_returns _ _ w (cleanupFailedVM_calls v)) as ([] & Hr & Hc). split; [done|]. rewrite Hc.
  split; [intros c; apply cleanupCalls_iff|]. intros key Hin%cleanupCalls_iff. by inversion Hin.
Qed.

End Phases.

