(* ===== verification/Migration.v ===== *)
(** * The migration reconciler (internal/controller/migration_controller.go)

    One reconcile of a Migration: resolve its references, initialise the per-VM statuses,
    apply cancellations, advance the VMs through the pipeline under MaxInFlight, derive the
    overall status and store it. *)

From S2P Require Import Prelude GoLib NutanixTypes ApiTypes Env Disks Transfer Pipeline Hooks ColdPhases WarmPhases.

Definition migrationFinalizer : string := "vma.nutanix.io/migration-protection".
Definition conditionTypeMigrationDone : string := "Ready".
Definition migrationRequeueInterval : Z := 5 * Duration.Second.

(** [ctrl.Result] *)
Record ctrlResult := mkCtrlResult { Requeue : bool; RequeueAfter : Z }.
Definition noRequeue : ctrlResult := mkCtrlResult false 0.

(** ** Status initialisation *)

Definition newVMStatus (p : PlanVM) : VMMigrationStatus :=
  mkVMStatus (PlanVM_ID p) (PlanVM_Name p) VMPhasePending None None "" "" [] "" [] "" None.

(** The identifiers that already have an entry when the loop starts. *)
Definition initializeVMStatuses (vms : list VMMigrationStatus) (planVMs : list PlanVM) : list VMMigrationStatus :=
  let existing : gset string := list_to_set (ID <$> vms) in
  vms ++ (newVMStatus <$> List.filter (λ p, negb (bool_decide (PlanVM_ID p ∈ existing))) planVMs).

(** [for _, vm := range VMs] of updateOverallStatus: completed, failed, cancelled. *)
Fixpoint countPhases (vms : list VMMigrationStatus) (c f x : Z) : Z * Z * Z :=
  match vms with
  | [] => (c, f, x)
  | v :: r =>
      match Phase v with
      | VMPhaseCompleted => countPhases r (c + 1) f x
      | VMPhaseFailed => countPhases r c (f + 1) x
      | VMPhaseCancelled => countPhases r c f (x + 1)
      | _ => countPhases r c f x
      end
  end.

Definition countActive (vms : list VMMigrationStatus) : Z := Z.of_nat (countb (λ v, isActiveVMPhase (Phase v)) vms).

Section Reconciler.
Context {W : Type} `{E : Env W} `{AM : ApiMachinery}.
(** Bounds on the phases one advance may run and on the requests of one CBT query. *)
Context (fuel cbtFuel : nat) (rec : MigrationReconciler).

(** ** Cancellation *)

Fixpoint cancelLoop (cancelSet : gset string) (vms : list VMMigrationStatus) : M W (list VMMigrationStatus) :=
  match vms with
  | [] => ret []
  | v :: rest =>
      if bool_decide (ID v ∈ cancelSet) && negb (isTerminalVMPhase (Phase v)) then
        n <- now ;;
        rest <- cancelLoop cancelSet rest ;;
        ret (setCompleted (Some n) (setPhase VMPhaseCancelled v) :: rest)
      else
        rest <- cancelLoop cancelSet rest ;;
        ret (v :: rest)
  end.

Definition processCancellations (spec : MigrationSpec) (vms : list VMMigrationStatus) : M W (list VMMigrationStatus) :=
  match Mig_Cancel spec with
  | [] => ret vms
  | ids => cancelLoop (list_to_set ids) vms
  end.

(** ** Advancing one VM *)

Definition executePhase (mctx : migrationContext) : handler W := λ v,
  match Phase v with
  | VMPhaseStorePowerState => phaseStorePowerState mctx v
  | VMPhasePowerOff => phasePowerOff mctx v
  | VMPhaseWaitForPowerOff => phaseWaitForPowerOff mctx v
  | VMPhaseCreateSnapshot => phaseCreateSnapshot mctx v
  | VMPhaseExportDisks => phaseExportDisks mctx v
  | VMPhaseImportDisks => phaseImportDisks mctx v
  | VMPhaseCreateVM => phaseCreateVM mctx v
  | VMPhaseStartVM => phaseStartVM mctx v
  | VMPhaseCleanup => phaseCleanup mctx v
  | VMPhaseBulkCopy => phaseBulkCopy mctx v
  | VMPhaseWaitBulkCopy => phaseWaitBulkCopy mctx v
  | VMPhasePrecopy => phasePrecopy cbtFuel mctx v
  | VMPhaseFinalSync => phaseFinalSync cbtFuel mctx v
  | VMPhasePreHook => runHook mctx "PreHook" v
  | VMPhasePostHook => runHook mctx "PostHook" v
  | _ => ret (v, completed)
  end.

(** The failure branch: event, cleanup, and the terminal status. *)
Definition failVM (mctx : migrationContext) (v : VMMigrationStatus) (e : error) : M W VMMigrationStatus :=
  recordEvent rec EventTypeWarning "MigrationFailed"
    ("VM " +s+ Name v +s+ " failed in phase " +s+ phaseText (Phase v) +s+ ": " +s+ errText e) ;;;
  cleanupFailedVM mctx v ;;;
  n <- now ;;
  ret (setCompleted (Some n) (setError (errText e) (setPhase VMPhaseFailed v))).

(** The transition to the next phase. *)
Definition enterNext (mctx : migrationContext) (v : VMMigrationStatus) : M W VMMigrationStatus :=
  let prev := Phase v in
  let next := nextPhaseInOrder prev (orderOf (Plan_Type (Plan_Spec (Ctx_Plan mctx)))) in
  recordEvent rec EventTypeNormal "PhaseTransition"
    ("VM " +s+ Name v +s+ ": " +s+ phaseText prev +s+ " -> " +s+ phaseText next) ;;;
  ret (setPhase next v).

(** [for { ... }]; the boolean asks for a requeue. *)
Fixpoint advanceLoop (n : nat) (mctx : migrationContext) (v : VMMigrationStatus) : M W (VMMigrationStatus * bool) :=
  match n with
  | O => outOfFuel
  | S n =>
      if isTerminalVMPhase (Phase v) then ret (v, false)
      else
        let* (v, result) := executePhase mctx v in
        match Result_Error result with
        | Some e => v <- failVM mctx v e ;; ret (v, false)
        | None =>
            if negb (Result_Completed result) then ret (v, true)
            else
              v <- enterNext mctx v ;;
              if bool_decide (Phase v = VMPhaseCompleted) then
                t <- now ;;
                let v := setCompleted (Some t) v in
                recordVMDuration v ;;;
                ret (v, false)
              else advanceLoop n mctx v
        end
  end.

Definition advanceSingleVM (mctx : migrationContext) (v : VMMigrationStatus) : M W (VMMigrationStatus * bool) :=
  advanceLoop fuel mctx v.

(** ** Advancing all VMs *)

Fixpoint advanceVMsLoop (mctx : migrationContext) (maxInFlight activeCount : Z) (needsRequeue : bool)
  (vms : list VMMigrationStatus) : M W (list VMMigrationStatus * bool) :=
  match vms with
  | [] => ret ([], needsRequeue)
  | v :: rest =>
      if isTerminalVMPhase (Phase v) then
        let* (rest, b) := advanceVMsLoop mctx maxInFlight activeCount needsRequeue rest in
        ret (v :: rest, b)
      else if bool_decide (Phase v = VMPhasePending) then
        if maxInFlight <=? activeCount then
          let* (rest, b) := advanceVMsLoop mctx maxInFlight activeCount true rest in
          ret (v :: rest, b)
        else
          n <- now ;;
          let* (v, again) := advanceSingleVM mctx (setPhase VMPhasePreHook (setStarted (Some n) v)) in
          let* (rest, b) := advanceVMsLoop mctx maxInFlight (activeCount + 1) (needsRequeue || again) rest in
          ret (v :: rest, b)
      else
        let* (v, again) := advanceSingleVM mctx v in
        let* (rest, b) := advanceVMsLoop mctx maxInFlight activeCount (needsRequeue || again) rest in
        ret (v :: rest, b)
  end.

Definition advanceVMs (mctx : migrationContext) (maxInFlight : Z) (vms : list VMMigrationStatus)
  : M W (list VMMigrationStatus * bool) :=
  advanceVMsLoop mctx maxInFlight (countActive vms) false vms.

(** ** Overall status *)

Definition doneCondition (m : Migration) (status : ConditionStatus) (reason message : string) : Condition :=
  mkCondition conditionTypeMigrationDone status reason message (Meta_Generation (Mig_Meta m)).

(** A terminal overall phase: condition, event, metrics. *)
Definition finish (m : Migration) (p : MigrationPhase) (cond : ConditionStatus) (ty : EventType)
  (condReason evReason message label : string) : M W Migration :=
  let st := Mig_Status m in
  let st := setMigPhase p (setMigConditions
    (SetStatusCondition (Mig_Conditions st) (doneCondition m cond condReason message)) st) in
  recordEvent rec ty evReason message ;;;
  obs (MigrationsTotalInc label) ;;;
  obs ActiveMigrationsDec ;;;
  ret (setMigStatus st m).

Definition updateOverallStatus (m : Migration) : M W Migration :=
  let st := Mig_Status m in
  let total := len (Mig_VMs st) in
  let '(completed, failed, cancelled) := countPhases (Mig_VMs st) 0 0 0 in
  if negb (completed + failed + cancelled =? total) then
    ret (setMigStatus (setMigPhase MigrationPhaseRunning st) m)
  else
    n <- now ;;
    let m := setMigStatus (setMigCompleted (Some n) st) m in
    if cancelled =? total then
      finish m MigrationPhaseCancelled ConditionFalse EventTypeNormal "Cancelled" "MigrationCancelled"
        "All VMs were cancelled" "cancelled"
    else if 0 <? failed then
      finish m MigrationPhaseFailed ConditionFalse EventTypeWarning "Failed" "MigrationFailed"
        (itoa failed +s+ " of " +s+ itoa total +s+ " VMs failed") "failed"
    else
      finish m MigrationPhaseCompleted ConditionTrue EventTypeNormal "Completed" "MigrationCompleted"
        ("All " +s+ itoa total +s+ " VMs migrated successfully") "completed".

(** ** Deletion and failure *)

Definition handleDeletion (m : Migration) : M W (result ctrlResult) :=
  if negb (ContainsFinalizer (Meta_Finalizers (Mig_Meta m)) migrationFinalizer) then ret (Ok noRequeue)
  else if bool_decide (Mig_Phase (Mig_Status m) = MigrationPhaseRunning) then
    ret (Ok (mkCtrlResult false (10 * Duration.Second)))
  else
    let meta := Mig_Meta m in
    r <- k8s (Update KMigration
      (setMigMeta (setFinalizers (RemoveFinalizer (Meta_Finalizers meta) migrationFinalizer) meta) m)) ;;
    match r with Err e => ret (Err e) | Ok _ => ret (Ok noRequeue) end.

Definition setMigrationFailed (m : Migration) (message : string) : M W (result ctrlResult) :=
  n <- now ;;
  let st := setMigCompleted (Some n) (setMigPhase MigrationPhaseFailed (Mig_Status m)) in
  let st := setMigConditions
    (SetStatusCondition (Mig_Conditions st) (doneCondition m ConditionFalse "Error" message)) st in
  recordEvent rec EventTypeWarning "MigrationFailed" message ;;;
  obs (MigrationsTotalInc "failed") ;;;
  r <- k8s (StatusUpdate KMigration (setMigStatus st m)) ;;
  match r with Err e => ret (Err e) | Ok _ => ret (Ok noRequeue) end.

(** ** References *)

Definition resolveMigrationContext (m : Migration) (plan : MigrationPlan) : M W (result migrationContext) :=
  let ns := Meta_Namespace (Mig_Meta m) in
  let ps := Plan_Spec plan in
  r <- k8s (Get KProvider (mkNN ns (Plan_ProviderRef ps))) ;;
  match r with
  | Err e => ret (Err (wrapErr ("provider " +s+ quoted (Plan_ProviderRef ps) +s+ " not found") e))
  | Ok provider =>
  let secretRef := Provider_SecretRef (Provider_Spec provider) in
  r <- k8s (Get KSecret (mkNN (Meta_Namespace (Provider_Meta provider)) secretRef)) ;;
  match r with
  | Err e => ret (Err (wrapErr ("provider secret " +s+ quoted secretRef +s+ " not found") e))
  | Ok secret =>
  let username := default "" (Secret_Data secret !! "username") in
  let password := default "" (Secret_Data secret !! "password") in
  if (username =s "") || (password =s "") then
    ret (Err (newErr "provider secret must contain non-empty 'username' and 'password' keys"))
  else
  match ClientFactory rec (providerConfig (Provider_URL (Provider_Spec provider)) username password
          (Provider_InsecureSkipVerify (Provider_Spec provider))) with
  | Err e => ret (Err (wrapErr "failed to create Nutanix client" e))
  | Ok nxClient =>
  r <- k8s (Get KNetworkMap (mkNN ns (Plan_NetworkMapRef ps))) ;;
  match r with
  | Err e => ret (Err (wrapErr ("NetworkMap " +s+ quoted (Plan_NetworkMapRef ps) +s+ " not found") e))
  | Ok networkMap =>
  r <- k8s (Get KStorageMap (mkNN ns (Plan_StorageMapRef ps))) ;;
  match r with
  | Err e => ret (Err (wrapErr ("StorageMap " +s+ quoted (Plan_StorageMapRef ps) +s+ " not found") e))
  | Ok storageMap =>
  ret (Ok (mkMigrationContext nxClient plan networkMap storageMap provider m secret
    (mkManager (Provider_URL (Provider_Spec provider)) username password ""
       (Provider_InsecureSkipVerify (Provider_Spec provider)))))
  end end end end end.

(** ** Reconcile *)

(** First reconcile: entries for the plan's VMs, phase Running. *)
Definition startMigration (m : Migration) (plan : MigrationPlan) : M W Migration :=
  let st := Mig_Status m in
  let st := setMigPhase MigrationPhaseRunning (setMigVMs (initializeVMStatuses (Mig_VMs st) (Plan_VMs (Plan_Spec plan))) st) in
  n <- now ;;
  let st := setMigStarted (Some n) st in
  let st := setMigConditions
    (SetStatusCondition (Mig_Conditions st) (doneCondition m ConditionFalse "Running" "Migration is in progress")) st in
  recordEvent rec EventTypeNormal "MigrationStarted"
    ("Migration started with " +s+ itoa (len (Mig_VMs st)) +s+ " VMs") ;;;
  obs ActiveMigrationsInc ;;;
  ret (setMigStatus st m).

(** From the resolved context to the stored status. *)
Definition reconcileRunning (m : Migration) (plan : MigrationPlan) (mctx : migrationContext) : M W (result ctrlResult) :=
  m <- (if bool_decide (Mig_Phase (Mig_Status m) = MigrationPhaseNone) ||
           bool_decide (Mig_Phase (Mig_Status m) = MigrationPhasePending)
        then startMigration m plan else ret m) ;;
  vms <- processCancellations (Mig_Spec m) (Mig_VMs (Mig_Status m)) ;;
  let* (vms, needsRequeue) := advanceVMs mctx (Z.max (Plan_MaxInFlight (Plan_Spec plan)) 1) vms in
  m <- updateOverallStatus (setMigStatus (setMigVMs vms (Mig_Status m)) m) ;;
  r <- k8s (StatusUpdate KMigration m) ;;
  match r with
  | Err e => ret (Err e)
  | Ok _ => ret (Ok (if needsRequeue then mkCtrlResult false migrationRequeueInterval else noRequeue))
  end.

Definition Reconcile (req : NamespacedName) : M W (result ctrlResult) :=
  r <- k8s (Get KMigration req) ;;
  match r with
  | Err e => if IsNotFound e then ret (Ok noRequeue) else ret (Err e)
  | Ok m =>
      if deleting (Mig_Meta m) then handleDeletion m
      else if negb (ContainsFinalizer (Meta_Finalizers (Mig_Meta m)) migrationFinalizer) then
        let meta := Mig_Meta m in
        r <- k8s (Update KMigration
          (setMigMeta (setFinalizers (AddFinalizer (Meta_Finalizers meta) migrationFinalizer) meta) m)) ;;
        match r with Err e => ret (Err e) | Ok _ => ret (Ok (mkCtrlResult true 0)) end
      else if isTerminalMigrationPhase (Mig_Phase (Mig_Status m)) then ret (Ok noRequeue)
      else
        r <- k8s (Get KPlan (mkNN (Meta_Namespace (Mig_Meta m)) (Mig_PlanRef (Mig_Spec m)))) ;;
        match r with
        | Err e => setMigrationFailed m
            ("MigrationPlan " +s+ quoted (Mig_PlanRef (Mig_Spec m)) +s+ " not found: " +s+ errText e)
        | Ok plan =>
            c <- resolveMigrationContext m plan ;;
            match c with
            | Err e => setMigrationFailed m ("Failed to resolve references: " +s+ errText e)
            | Ok mctx => reconcileRunning m plan mctx
            end
        end
  end.

End Reconciler.
