(* ===== verification/Lifecycle.v ===== *)
(** * Advancing VMs: life cycle, termination, resources

    What [advanceSingleVM] and [advanceVMs] of Migration.v guarantee, proved against the
    interface of the phase handlers (Resources.v). *)

From S2P Require Import Prelude GoLib NutanixTypes ApiTypes Env Disks Builder Transfer Pipeline Hooks ColdPhases WarmPhases.
From S2P Require Import Resources PhaseProperties Migration Samples.

(** The phases before a warm migration has a base. *)
Definition early (p : VMMigrationPhase) : bool :=
  match p with VMPhasePending | VMPhasePreHook | VMPhaseStorePowerState | VMPhaseBulkCopy => true | _ => false end.

(** The warm state is set up by BulkCopy and not before. *)
Definition warmFresh (v : VMMigrationStatus) : Prop := early (Phase v) = true → Warm v = None.

Section Single.
Context {W : Type} `{E : Env W} (fuel cbtFuel : nat) (rec : MigrationReconciler).

(** ** The dispatcher *)

Definition isColdPhase (p : VMMigrationPhase) : bool :=
  match p with VMPhaseBulkCopy | VMPhasePrecopy | VMPhaseFinalSync => false | _ => true end.

Lemma executePhase_cold mctx v :
  isColdPhase (Phase v) = true →
  spec (executePhase cbtFuel mctx v) (total (λ t vr, sameVM v vr.1 ∧ Warm vr.1 = Warm v ∧ keeps v t vr.1)).
Proof.
  intros Hc. unfold executePhase.
  destruct (Phase v); try discriminate Hc; try exact (cold_ok v); apply spec_ret; auto with vma.
Qed.

(** What one phase promises, whatever the phase. *)
Lemma executePhase_ok mctx v :
  spec (executePhase cbtFuel mctx v) (partial (λ t vr, sameVM v vr.1 ∧ (warmFresh v → keeps v t vr.1) ∧
    (early (Phase v) = true → (Phase v ≠ VMPhaseBulkCopy → Warm vr.1 = Warm v) ∧
       (Phase v = VMPhaseBulkCopy → Result_Completed vr.2 = true ∨ is_Some (Result_Error vr.2))))).
Proof.
  destruct (isColdPhase (Phase v)) eqn:Hc.
  - apply total_partial. eapply spec_total_weaken; [by apply executePhase_cold|]. intros t vr (Hs & Hw & Hk).
    split; [done|]. split; [done|]. intros He. split; [done|]. intros Hb. by rewrite Hb in Hc.
  - unfold executePhase, warmFresh. destruct (Phase v) eqn:Hp; try discriminate Hc.
    + apply total_partial. eapply spec_total_weaken; [apply bulkCopy_once|]. intros t vr (Hs & Hk & Hr).
      split; [done|]. split; [intros Hf; by apply Hk, Hf|done].
    + eapply spec_partial_weaken; [apply (precopy_phase cbtFuel mctx (λ _, True)); done|]. intros t vr [Hs Hk]. done.
    + eapply spec_partial_weaken; [apply finalSync_round|]. intros t vr (Hs & Hk & _). done.
Qed.

(** The failure branch ends in Failed with everything recorded asked to be deleted. *)
Definition failPost (v : VMMigrationStatus) (e : error) (t : trace) (v' : VMMigrationStatus) : Prop :=
  Phase v' = VMPhaseFailed ∧ Error v' = errText e ∧ is_Some (Completed v') ∧ ID v' = ID v ∧
  tracked v' = tracked v ∧ Warm v' = Warm v ∧ created t = [] ∧ (∀ x, x ∈ tracked v ↔ x ∈ deleted t).

Lemma failVM_ok mctx v e : spec (failVM rec mctx v e) (total (failPost v e)).
Proof.
  unfold failVM, recordEvent. eapply spec_bind_still; [destruct (HasRecorder rec); still_solve|]. intros t1 [] [H1 D1].
  eapply spec_bind; [apply cleanupFailedVM_calls|]. simpl. intros t2 [] H2. repeat spec_step.
  do 3 (split; [by try eexists|]). do 3 (split; [done|]). split.
  - rewrite !created_app, H1. simpl. apply app_nil. split; [|done]. apply created_none. rewrite H2.
    unfold cleanupCalls, warmCleanupCalls. rewrite !Forall_app, !Forall_fmap.
    destruct (SnapshotUUID v =s ""), (OriginalPowerState v =s PowerStateOn), (Warm v) as [wm|];
      try destruct (DeltaPodName wm =s ""), (DeltaSnapshotUUID wm =s ""), (BaseSnapshotUUID wm =s "");
      rewrite ?Forall_app, ?Forall_fmap; repeat split; repeat constructor; apply Forall_forall; done.
  - intros x. rewrite !deleted_app, D1, (deleted_calls t2), H2, app_nil_r. symmetry. apply deletes_cleanupCalls.
Qed.

Lemma enterNext_ok mctx v :
  spec (enterNext rec mctx v) (total (λ t v', silent t ∧
    v' = setPhase (nextPhaseInOrder (Phase v) (orderOf (Plan_Type (Plan_Spec (Ctx_Plan mctx))))) v)).
Proof.
  unfold enterNext, recordEvent. eapply spec_bind_still; [destruct (HasRecorder rec); still_solve|]. intros t1 [] H1.
  spec_step. by rewrite app_nil_r.
Qed.

Notation order mctx := (orderOf (Plan_Type (Plan_Spec (Ctx_Plan mctx)))).

(** ** A rule for the loop

    [I] holds of the trace so far and the status whenever the loop is entered. *)
Lemma advanceLoop_rule mctx (I : trace → VMMigrationStatus → Prop) (Q : trace → VMMigrationStatus → bool → Prop) :
  (∀ T v, I T v → isTerminalVMPhase (Phase v) = true → Q T v false) →
  (∀ T v, I T v → isTerminalVMPhase (Phase v) = false →
     spec (executePhase cbtFuel mctx v) (partial (λ t vr,
       match Result_Error vr.2 with
       | Some e => ∀ t' v', failPost vr.1 e t' v' → Q ((T ++ t) ++ t') v' false
       | None =>
           if Result_Completed vr.2 then
             let v' := setPhase (nextPhaseInOrder (Phase vr.1) (order mctx)) vr.1 in
             ∀ t', silent t' →
               if bool_decide (Phase v' = VMPhaseCompleted)
               then ∀ ts, Q ((T ++ t) ++ t') (setCompleted (Some ts) v') false
               else I ((T ++ t) ++ t') v'
           else Q (T ++ t) vr.1 true
       end))) →
  ∀ n T v, I T v → spec (advanceLoop cbtFuel rec n mctx v) (partial (λ t vb, Q (T ++ t) vb.1 vb.2)).
Proof.
  intros Hterm Hstep n. induction n as [|n IH]; intros T v HI; simpl; [by spec_step|].
  destruct (isTerminalVMPhase (Phase v)) eqn:Hp; [spec_step; rewrite app_nil_r; by apply Hterm|].
  eapply spec_bind_p; [by apply (Hstep T)|]. intros t [v1 r] Hr. cbn [fst snd] in *.
  destruct (Result_Error r) as [e|].
  { eapply spec_bind_p; [apply total_partial, failVM_ok|]. intros t' v' Hf. spec_step. rewrite app_nil_r, app_assoc. by apply Hr. }
  destruct (Result_Completed r); simpl; [|spec_step; by rewrite app_nil_r].
  eapply spec_bind_p; [apply total_partial, enterNext_ok|]. intros t2 v2 [Hc ->].
  specialize (Hr (t2)) as Hr2. destruct (bool_decide _) eqn:Hb.
  - spec_step. eapply spec_bind_still_p; [unfold recordVMDuration; still_solve|]. intros t3 [] H3. spec_step.
    specialize (Hr (t2 ++ Ev Now a :: t3)).
    rewrite app_nil_r, !app_assoc. rewrite !app_assoc in Hr. apply Hr. by apply silent_app.
  - eapply spec_partial_weaken; [apply (IH ((T ++ t) ++ t2)); by apply Hr2|]. intros t3 vb HQ. by rewrite !app_assoc in *.
Qed.

(** ** Life cycle *)

(** Events and readings of the clock. *)
Definition notice (c : call) : bool := match c with Obs _ | Now => true | _ => false end.

(** In some world the program makes the calls [t], gets their answers, and returns [a]. *)
Definition does {A} (m : M W A) (t : trace) (a : A) : Prop := ∃ w, traceOf m w = t ∧ run m w = Done a.

(** The life cycle: from a status, the calls of an advance, the status it ends in and whether it asks to
    be called again. A phase is left for its successor exactly when its handler completed it in these
    calls, and for Failed exactly when the handler gave an error; otherwise the VM stays where it is. *)
Inductive lifeRun (mctx : migrationContext) : VMMigrationStatus → trace → VMMigrationStatus → bool → Prop :=
| life_end v : isTerminalVMPhase (Phase v) = true → lifeRun mctx v [] v false
| life_wait v t v' r :
    isTerminalVMPhase (Phase v) = false → does (executePhase cbtFuel mctx v) t (v', r) →
    Result_Error r = None → Result_Completed r = false → Phase v' = Phase v → lifeRun mctx v t v' true
| life_fail v t v1 r e t' v' :
    isTerminalVMPhase (Phase v) = false → does (executePhase cbtFuel mctx v) t (v1, r) →
    Result_Error r = Some e → failPost v1 e t' v' → lifeRun mctx v (t ++ t') v' false
| life_next v t v1 r q t' T v' b :
    isTerminalVMPhase (Phase v) = false → does (executePhase cbtFuel mctx v) t (v1, r) →
    Result_Error r = None → Result_Completed r = true →
    successor (Plan_Type (Plan_Spec (Ctx_Plan mctx))) (Phase v) = Some q → q ≠ VMPhaseCompleted →
    Forall (λ c, notice c = true) (calls t') → lifeRun mctx (setPhase q v1) T v' b → lifeRun mctx v (t ++ t' ++ T) v' b
| life_complete v t v1 r t' ts :
    isTerminalVMPhase (Phase v) = false → does (executePhase cbtFuel mctx v) t (v1, r) →
    Result_Error r = None → Result_Completed r = true →
    successor (Plan_Type (Plan_Spec (Ctx_Plan mctx))) (Phase v) = Some VMPhaseCompleted →
    Forall (λ c, notice c = true) (calls t') →
    lifeRun mctx v (t ++ t') (setCompleted (Some ts) (setPhase VMPhaseCompleted v1)) false.

Definition lifePost mctx (v : VMMigrationStatus) (t : trace) (v' : VMMigrationStatus) (b : bool) : Prop :=
  lifeRun mctx v t v' b ∧ ID v' = ID v ∧ b = negb (isTerminalVMPhase (Phase v')) ∧
  (Phase v' ∈ order mctx ∨ Phase v' = VMPhaseFailed) ∧
  (isTerminalVMPhase (Phase v) = false → isTerminalVMPhase (Phase v') = true → is_Some (Completed v')).

(** A program does what it does. *)
Lemma spec_does {A} (m : M W A) (P : trace → A → Prop) : spec m (partial P) → spec m (partial (λ t a, does m t a ∧ P t a)).
Proof. intros H w. specialize (H w). destruct (r_out (m w)) eqn:Ho; simpl; [|done..]. split; [|exact H]. by exists w. Qed.

Lemma enterNext_notices mctx v :
  spec (enterNext rec mctx v) (total (λ t v', Forall (λ c, notice c = true) (calls t) ∧
    v' = setPhase (nextPhaseInOrder (Phase v) (order mctx)) v)).
Proof. unfold enterNext, recordEvent. destruct (HasRecorder rec); repeat spec_step; split; try done; by repeat constructor. Qed.

Lemma advanceLoop_life n mctx v :
  Phase v ∈ order mctx → spec (advanceLoop cbtFuel rec n mctx v) (partial (λ t vb, lifePost mctx v t vb.1 vb.2)).
Proof.
  revert v. induction n as [|n IH]; intros v Hin; simpl; [by spec_step|].
  destruct (isTerminalVMPhase (Phase v)) eqn:Hp.
  { spec_step. unfold lifePost. simpl. rewrite Hp. repeat split; auto; [by constructor|discriminate]. }
  eapply spec_bind_p; [apply spec_does, executePhase_ok|]. intros t [v1 r] [Hdo ((Hid & _ & Hph & _) & _)]. cbn [fst snd] in *.
  destruct (Result_Error r) as [e|] eqn:He.
  { eapply spec_bind_p; [apply total_partial, failVM_ok|]. intros t' v' Hf. spec_step. simpl. rewrite app_nil_r.
    pose proof Hf as (Hf1 & _ & Hc & Hidv & _). unfold lifePost. rewrite Hf1. split; [by eapply life_fail|].
    split; [congruence|]. by auto. }
  destruct (Result_Completed r) eqn:Hr; simpl.
  2:{ spec_step. simpl. rewrite app_nil_r. unfold lifePost. rewrite Hph, Hp, Hid. split; [by eapply life_wait|]. repeat split; auto; discriminate. }
  eapply spec_bind_p; [apply total_partial, enterNext_notices|]. intros t2 v2 [Hn ->]. rewrite Hph.
  destruct (next_in_order _ _ Hp Hin) as (Hn1 & _ & Hnt & _). pose proof (successor_next _ _ Hp Hin) as Hsuc.
  case_bool_decide as Hb; cbn [Phase setPhase] in Hb.
  - spec_step. unfold recordVMDuration. assert (∀ T, Forall (λ c, notice c = true) (calls T) → lifePost mctx v (t ++ t2 ++ Ev Now a :: T)
        (setCompleted (Some a) (setPhase (nextPhaseInOrder (Phase v) (order mctx)) v1)) false) as Hdone.
    { intros T HT. rewrite Hb in *. split; [eapply life_complete; try done; rewrite calls_app; apply Forall_app; by repeat constructor|].
      cbn [ID Phase Completed setCompleted setPhase]. repeat split; auto; congruence. }
    repeat spec_step; simpl; rewrite ?app_assoc_reverse; apply Hdone; by repeat constructor.
  - eapply spec_partial_weaken; [apply IH; exact Hn1|]. intros T [v' b] (Hrun & Hid' & Hb' & Ho & Hc). cbn [fst snd] in *.
    split; [eapply life_next; done|]. split; [by rewrite Hid'|]. do 2 (split; [done|]). intros _. apply Hc.
    cbn [Phase setPhase]. apply not_true_iff_false. intros E'. by apply Hb, Hnt.
Qed.


(** ** Termination *)

Lemma cold_order_cold t p : t ≠ MigrationTypeWarm → p ∈ orderOf t → isColdPhase p = true.
Proof.
  intros Ht Hin. unfold orderOf in Hin. rewrite bool_decide_eq_false_2 in Hin by done.
  repeat (apply elem_of_cons in Hin as [->|Hin]; [done|]). by apply elem_of_nil in Hin.
Qed.

Lemma advanceLoop_total n mctx v :
  Plan_Type (Plan_Spec (Ctx_Plan mctx)) ≠ MigrationTypeWarm → Phase v ∈ order mctx →
  (remaining (Phase v) (order mctx) < n)%nat →
  spec (advanceLoop cbtFuel rec n mctx v) (total (λ _ _, True)).
Proof.
  intros Hty. revert v. induction n as [|n IH]; intros v Hin Hn; [lia|]. cbn [advanceLoop].
  destruct (isTerminalVMPhase (Phase v)) eqn:Hp; [by spec_step|].
  eapply spec_bind; [apply executePhase_cold; by eapply cold_order_cold|]. intros t [v1 r] ((_ & _ & Hph & _) & _). cbn [fst snd] in *.
  destruct (Result_Error r) as [e|].
  { eapply spec_bind; [apply failVM_ok|]. intros. by spec_step. }
  destruct (Result_Completed r); simpl; [|by spec_step].
  eapply spec_bind; [apply enterNext_ok|]. intros t2 v2 [_ ->]. cbn [Phase setPhase]. rewrite Hph.
  destruct (next_in_order _ _ Hp Hin) as (Hn1 & Hn2 & _).
  destruct (bool_decide _); [unfold recordVMDuration; by repeat spec_step|].
  apply IH; [done|]. cbn [Phase setPhase]. lia.
Qed.

(** C10: advancing a VM of a cold plan terminates and returns a status in every environment,
    from any phase of the cold order: the loop runs at most the 13 phases of the order, so
    14 units of fuel are enough, and no phase panics. *)
Theorem cold_advance_terminates mctx v w :
  Plan_Type (Plan_Spec (Ctx_Plan mctx)) ≠ MigrationTypeWarm → Phase v ∈ phaseOrder → (14 ≤ fuel)%nat →
  ∃ v' b, run (advanceSingleVM fuel cbtFuel rec mctx v) w = Done (v', b).
Proof.
  intros Hty Hin Hf.
  assert (order mctx = phaseOrder) as Ho by (unfold orderOf; by rewrite bool_decide_eq_false_2).
  pose proof (remaining_bound (Plan_Type (Plan_Spec (Ctx_Plan mctx))) (Phase v)) as Hb.
  edestruct (spec_returns _ _ w (advanceLoop_total fuel mctx v Hty ltac:(by rewrite Ho) ltac:(lia))) as ([v' b] & Hr & _).
  eauto.
Qed.

(** The API server reports every DataVolume as succeeded. *)
Definition volumesReady : Prop :=
  ∀ key w, ∃ w' dv, handle (K8s (Get KDataVolume key)) w = (w', Ok dv) ∧ DV_Phase dv = DVSucceeded.

Lemma pollVolumes_ready mctx a b names w :
  volumesReady → ∃ w' t, pollVolumes mctx a b names true w = mkRes t w' (Done (Ok true)).
Proof.
  intros Hr. revert w. induction names as [|n ns IH]; intros w; [by do 2 eexists|]. simpl.
  destruct (Hr (mkNN (targetNS mctx) n) w) as (w1 & dv & Hh & Hp).
  destruct (IH w1) as (w2 & t & IH'). exists w2. eexists.
  unfold GetDataVolumeProgress, k8s, bind, perform, ret. rewrite Hh. simpl. rewrite Hp, IH'. simpl. reflexivity.
Qed.

(** A VM whose phase is not in its plan's order makes the reconciler spin. In a cluster
    where the DataVolumes are ready, a VM left in WaitBulkCopy by a warm plan whose type is
    then changed to cold is polled for ever: the phase completes, its successor in the cold
    order is the phase itself, and no amount of fuel lets [advanceSingleVM] return. *)
Theorem plan_type_change_diverges mctx v w :
  volumesReady → Plan_Type (Plan_Spec (Ctx_Plan mctx)) ≠ MigrationTypeWarm → Phase v = VMPhaseWaitBulkCopy →
  run (advanceSingleVM fuel cbtFuel rec mctx v) w = OutOfFuel.
Proof.
  intros Hr Hty Hp. unfold advanceSingleVM, run. revert w. induction fuel as [|n IH]; intros w; [done|]. cbn [advanceLoop].
  rewrite Hp. change (isTerminalVMPhase VMPhaseWaitBulkCopy) with false. cbv iota.
  unfold executePhase. rewrite Hp. unfold phaseWaitBulkCopy, pollDataVolumes. rewrite bind_assoc_run.
  destruct (pollVolumes_ready mctx "poll DV " "DataVolume " (DataVolumeNames v) w Hr) as (w1 & t & Hpoll).
  unfold bind at 1. rewrite Hpoll. simpl.
  assert (enterNext rec mctx v = (recordEvent rec EventTypeNormal "PhaseTransition" ("VM " +s+ Name v +s+ ": " +s+
    "WaitBulkCopy" +s+ " -> " +s+ "WaitBulkCopy") ;;; ret v)) as ->.
  { unfold enterNext, orderOf. rewrite bool_decide_eq_false_2, Hp by done.
    replace (setPhase (nextPhaseInOrder VMPhaseWaitBulkCopy phaseOrder) v) with v; [done|]. destruct v. simpl in *. by subst. }
  rewrite bind_assoc_run. unfold recordEvent. destruct (HasRecorder rec); unfold bind at 1, obs, perform.
  - destruct (handle _ w1) as [w2 []]. simpl. rewrite Hp. simpl. apply IH.
  - simpl. rewrite Hp. simpl. apply IH.
Qed.

(** ** Resources *)

(** The phases after the disks are there. *)
Definition late (p : VMMigrationPhase) : bool :=
  match p with
  | VMPhaseCreateVM | VMPhaseStartVM | VMPhasePostHook | VMPhaseCleanup | VMPhaseCompleted => true
  | _ => false
  end.

(** The phases in which the warm resources are already gone. *)
Definition settled (t : MigrationType) (p : VMMigrationPhase) : bool := negb (bool_decide (t = MigrationTypeWarm)) || late p.

(** The trace deleted nothing but what it had created, and only that is recorded. *)
Definition owned (T : trace) (v : VMMigrationStatus) : Prop :=
  (∀ x, x ∉ foreign T) ∧ (∀ x, x ∈ tracked v → x ∈ created T).

Lemma owned_keeps T v t v' : owned T v → keeps v t v' → owned (T ++ t) v'.
Proof.
  intros [Hf Ht] [_ _ Ho Hm]. split; intros x.
  - rewrite foreign_app. specialize (Hf x). specialize (Ht x). specialize (Ho x). tauto.
  - rewrite created_app, elem_of_app. specialize (Ht x). specialize (Hm x). tauto.
Qed.

Lemma owned_silent T v t : owned T v → silent t → owned (T ++ t) v.
Proof. intros Ho Hs. eapply owned_keeps; [exact Ho|by apply keeps_refl]. Qed.

(** What the trace [T] of a VM's whole migration has created and not asked to be deleted since is
    recorded; at the end there is no such resource. *)
Record ledgerInv (t : MigrationType) (T : trace) (v : VMMigrationStatus) : Prop := {
  ledger_created x : x ∈ outstanding T → x ∈ tracked v;
  ledger_cold : t ≠ MigrationTypeWarm → Warm v = None;
  ledger_settled : settled t (Phase v) = true → ∀ x, x ∈ warmTracked (Warm v) → x ∉ outstanding T;
  ledger_done : Phase v = VMPhaseCompleted ∨ Phase v = VMPhaseFailed → ∀ x, x ∉ outstanding T;
  ledger_fresh : warmFresh v;
  ledger_phase : Phase v ∈ orderOf t ∨ isTerminalVMPhase (Phase v) = true;
  ledger_owned : owned T v
}.

Lemma cleanup_deletes mctx v :
  spec (phaseCleanup mctx v) (partial (λ t vr, ∀ x,
    x ∈ (Image <$> ImageUUIDs vr.1) ++ snapshotRes (SnapshotUUID vr.1) → retired t x)).
Proof.
  unfold phaseCleanup, DeleteCredentialSecret, DeleteCAConfigMap.
  eapply spec_bind_p; [apply total_partial, deleteImages_deleted|]. intros t1 [] [Hc1 H1].
  eapply spec_bind_p; [apply total_partial, deleteSnapshot_deleted|]. intros t2 [] [Hc2 H2].
  repeat spec_step; intros x Hx; (apply retired_quiet; [by rewrite !created_app, Hc1, Hc2|]);
    revert Hx; rewrite !deleted_app, H1, H2; set_solver.
Qed.

(** The late phases create nothing on the Nutanix side. *)
Lemma late_quiet mctx v :
  late (Phase v) = true → spec (executePhase cbtFuel mctx v) (partial (λ t _, created t = [])).
Proof.
  intros Hl. apply total_partial. change (quiet (executePhase cbtFuel mctx v)). unfold executePhase. destruct (Phase v); try discriminate Hl; [| | | |apply quiet_ret].
  - unfold phaseCreateVM. quiet_solve.
  - unfold phaseStartVM. quiet_solve.
  - apply still_quiet, still_runHook.
  - unfold phaseCleanup, DeleteCredentialSecret, DeleteCAConfigMap. quiet_solve.
Qed.

(** What one phase adds for the ledger. *)
Lemma executePhase_ledger mctx v :
  spec (executePhase cbtFuel mctx v) (partial (λ t vr,
    (isColdPhase (Phase v) = true → Warm vr.1 = Warm v) ∧
    (Phase v = VMPhaseFinalSync → Result_Completed vr.2 = true → ∀ x, x ∈ warmTracked (Warm vr.1) → retired t x) ∧
    (Phase v = VMPhaseCleanup → ∀ x,
       x ∈ (Image <$> ImageUUIDs vr.1) ++ snapshotRes (SnapshotUUID vr.1) → retired t x))).
Proof.
  destruct (isColdPhase (Phase v)) eqn:Hc.
  - eapply (spec_partial_weaken _ (λ t vr, Warm vr.1 = Warm v ∧ (Phase v = VMPhaseCleanup → ∀ x,
       x ∈ (Image <$> ImageUUIDs vr.1) ++ snapshotRes (SnapshotUUID vr.1) → retired t x))).
    2:{ intros t vr [H1 H2]. split; [done|]. split; [|done]. intros Hp. by rewrite Hp in Hc. }
    apply spec_partial_and.
    + apply total_partial. eapply spec_total_weaken; [by apply executePhase_cold|]. by intros t vr (_ & ? & _).
    + unfold executePhase. destruct (Phase v); try (intros w; destruct (r_out _); simpl; done).
      eapply spec_partial_weaken; [apply cleanup_deletes|]. auto.
  - unfold executePhase. destruct (Phase v); try discriminate Hc; try (intros w; destruct (r_out _); simpl; done).
    eapply spec_partial_weaken; [apply finalSync_round|]. intros t vr (_ & _ & H). split; [done|]. by split.
Qed.

(** Only FinalSync leads into the settled phases of the warm order. *)
Lemma settled_next t p :
  isTerminalVMPhase p = false → p ∈ orderOf t → settled t (nextPhaseInOrder p (orderOf t)) = true →
  p = VMPhaseFinalSync ∨ (settled t p = true ∧ isColdPhase p = true).
Proof.
  unfold orderOf. intros Hp Hin. destruct t; cbn [bool_decide decide_rel];
    repeat (apply elem_of_cons in Hin as [->|Hin]; [try discriminate Hp; vm_compute; auto; discriminate|]); by apply elem_of_nil in Hin.
Qed.

(** Completed is entered from Cleanup only. *)
Lemma completed_prev t p :
  isTerminalVMPhase p = false → p ∈ orderOf t → nextPhaseInOrder p (orderOf t) = VMPhaseCompleted → p = VMPhaseCleanup.
Proof.
  unfold orderOf. intros Hp Hin. destruct t; cbn [bool_decide decide_rel];
    repeat (apply elem_of_cons in Hin as [->|Hin]; [try discriminate Hp; vm_compute; done|]); by apply elem_of_nil in Hin.
Qed.

(** Early phases come from early phases other than BulkCopy. *)
Lemma early_next t p :
  isTerminalVMPhase p = false → p ∈ orderOf t → early (nextPhaseInOrder p (orderOf t)) = true →
  early p = true ∧ p ≠ VMPhaseBulkCopy.
Proof.
  unfold orderOf. intros Hp Hin. destruct t; cbn [bool_decide decide_rel];
    repeat (apply elem_of_cons in Hin as [->|Hin]; [try discriminate Hp; vm_compute; done|]); by apply elem_of_nil in Hin.
Qed.

Lemma settled_cold t p :
  isTerminalVMPhase p = false → p ∈ orderOf t → settled t p = true → isColdPhase p = true.
Proof.
  unfold orderOf. intros Hp Hin. destruct t; cbn [bool_decide decide_rel];
    repeat (apply elem_of_cons in Hin as [->|Hin]; [try discriminate Hp; vm_compute; done|]); by apply elem_of_nil in Hin.
Qed.

Lemma ledger_setCompleted t T v ts : ledgerInv t T v → ledgerInv t T (setCompleted ts v).
Proof. by intros []. Qed.

Lemma outstanding_kept T v t v' t' :
  (∀ x, x ∈ outstanding T → x ∈ tracked v) → keeps v t v' → created t' = [] →
  ∀ x, x ∈ outstanding ((T ++ t) ++ t') → x ∈ tracked v'.
Proof.
  intros HT [Hk Ho _ _] Ht' x. rewrite !outstanding_app, (outstanding_none t') by done. specialize (HT x). specialize (Hk x). specialize (Ho x).
  rewrite elem_of_nil. tauto.
Qed.

(** What the phases promise for the ledger, together. *)
Definition phaseFacts (u : VMMigrationStatus) (t : trace) (u1 : VMMigrationStatus) (r : PhaseResult) : Prop :=
  Phase u1 = Phase u ∧ keeps u t u1 ∧
  (early (Phase u) = true → Phase u ≠ VMPhaseBulkCopy → Warm u1 = Warm u) ∧
  (isColdPhase (Phase u) = true → Warm u1 = Warm u) ∧
  (Phase u = VMPhaseFinalSync → Result_Completed r = true → ∀ x, x ∈ warmTracked (Warm u1) → retired t x) ∧
  (Phase u = VMPhaseCleanup → ∀ x, x ∈ (Image <$> ImageUUIDs u1) ++ snapshotRes (SnapshotUUID u1) → retired t x) ∧
  (late (Phase u) = true → created t = []).

(** In a plan that is not warm every phase is cold. *)
Lemma cold_order t p : t ≠ MigrationTypeWarm → isTerminalVMPhase p = false → p ∈ orderOf t → isColdPhase p = true.
Proof. intros Ht Hp Hin. eapply settled_cold; [done..|]. unfold settled. by rewrite bool_decide_eq_false_2. Qed.

(** The failure branch: everything recorded is asked to be deleted. *)
Lemma ledger_fail ty T u t u1 r e t' v' :
  ledgerInv ty T u → isTerminalVMPhase (Phase u) = false → Phase u ∈ orderOf ty → phaseFacts u t u1 r →
  failPost u1 e t' v' → ledgerInv ty ((T ++ t) ++ t') v'.
Proof.
  intros [Hcr Hcold _ _ _ _ Hown] Hterm Hph (_ & Hk & _ & Hw & _) (Hf & _ & _ & _ & Htr & Hwarm & Hc & Hd).
  assert (∀ x, x ∉ outstanding ((T ++ t) ++ t')) as Hnone.
  { intros x. rewrite outstanding_app, (outstanding_none t') by done. intros [[Hx Hnd]|Hx%elem_of_nil]; [|done].
    apply Hnd, Hd. pose proof (outstanding_kept T u t u1 [] Hcr Hk eq_refl x) as Hkept. rewrite app_nil_r in Hkept. by apply Hkept. }
  constructor.
  - intros x Hx. by destruct (Hnone x).
  - intros Ht. rewrite Hwarm, Hw; [by apply Hcold|by eapply cold_order].
  - auto.
  - auto.
  - intros He. by rewrite Hf in He.
  - right. by rewrite Hf.
  - apply (owned_keeps _ u1); [by eapply owned_keeps|]. apply keeps_quiet; [done|]. intros x. rewrite Htr. specialize (Hd x). tauto.
Qed.

(** A completed phase and the move to the next one. *)
Lemma ledger_next ty T u t u1 r t' :
  ledgerInv ty T u → isTerminalVMPhase (Phase u) = false → Phase u ∈ orderOf ty → phaseFacts u t u1 r →
  Result_Completed r = true → silent t' →
  ledgerInv ty ((T ++ t) ++ t') (setPhase (nextPhaseInOrder (Phase u) (orderOf ty)) u1).
Proof.
  intros [Hcr Hco Hset _ Hfresh _ Hown] Hterm Hph (Hp1 & Hk & Hearly & Hcold & Hfinal & Hclean & Hlate) Hr Hsil. set (v' := setPhase _ _).
  pose proof (proj1 Hsil) as Hc.
  destruct (next_in_order ty (Phase u) Hterm Hph) as (Hn & _ & Hnt & _).
  assert (ty ≠ MigrationTypeWarm → Warm u1 = None) as Hco' by (intros Ht; rewrite Hcold; [by apply Hco|by eapply cold_order]).
  assert (∀ x, retired t x → x ∉ outstanding ((T ++ t) ++ t')) as Hret.
  { intros x Hx. rewrite outstanding_app, (outstanding_none t') by done. destruct (retired_after T t x Hx). set_solver. }
  assert (settled ty (Phase v') = true → ∀ x, x ∈ warmTracked (Warm v') → x ∉ outstanding ((T ++ t) ++ t')) as Hset'.
  { intros Hs x Hx. change (Warm v') with (Warm u1) in Hx. destruct (decide (ty = MigrationTypeWarm)) as [Ht|Ht].
    2:{ rewrite Hco' in Hx by done. by apply elem_of_nil in Hx. }
    destruct (settled_next ty (Phase u) Hterm Hph Hs) as [Hfs|[Hs' Hcp]]; [by apply Hret, Hfinal|].
    rewrite !outstanding_app, (outstanding_none t'), (outstanding_none t); [|apply Hlate; by subst ty|done].
    rewrite Hcold in Hx by done. specialize (Hset Hs' x Hx). set_solver. }
  constructor; [by eapply (outstanding_kept T u t u1)|exact Hco'|done| | |by left|].
  - intros [Hpc|Hpf] x Hx; [|exfalso; simpl in Hpf; rewrite Hpf in Hnt; by specialize (Hnt eq_refl)].
    assert (Phase u = VMPhaseCleanup) as Hcl by (by eapply completed_prev).
    pose proof (outstanding_kept T u t u1 t' Hcr Hk Hc x Hx) as Htr.
    unfold tracked in Htr. rewrite app_assoc, elem_of_app in Htr. destruct Htr as [Htr|Htr]; [by apply (Hret x (Hclean Hcl x Htr))|].
    apply (Hset' ltac:(rewrite Hpc; unfold settled; by rewrite orb_true_r) x); done.
  - intros He. destruct (early_next ty (Phase u) Hterm Hph He) as [He' Hnb].
    change (Warm v') with (Warm u1). rewrite Hearly by done. by apply Hfresh.
  - apply owned_silent; [|done]. change (owned (T ++ t) u1). by eapply owned_keeps.
Qed.

(** A phase that is not done yet. *)
Lemma ledger_wait ty T u t u1 r :
  ledgerInv ty T u → isTerminalVMPhase (Phase u) = false → Phase u ∈ orderOf ty → phaseFacts u t u1 r →
  Phase u ≠ VMPhaseBulkCopy → ledgerInv ty (T ++ t) u1.
Proof.
  intros [Hcr Hco Hset _ Hfresh _ Hown] Hterm Hph (Hp1 & Hk & Hearly & Hcold & _ & _ & Hlate) Hnb.
  pose proof (outstanding_kept T u t u1 [] Hcr Hk eq_refl) as Hck. rewrite app_nil_r in Hck.
  assert (ty ≠ MigrationTypeWarm → Warm u1 = None) as Hco' by (intros Ht; rewrite Hcold; [by apply Hco|by eapply cold_order]).
  constructor; [done|done| | | |left; by rewrite Hp1|by eapply owned_keeps]; rewrite ?Hp1.
  - intros Hs x Hx. destruct (decide (ty = MigrationTypeWarm)) as [Ht|Ht].
    2:{ rewrite Hco' in Hx by done. by apply elem_of_nil in Hx. }
    rewrite outstanding_app, (outstanding_none t); [|apply Hlate; by subst ty].
    rewrite Hcold in Hx by (by eapply settled_cold). specialize (Hset Hs x Hx). set_solver.
  - intros Hc. exfalso. by destruct Hc as [Hc|Hc]; rewrite Hc in Hterm.
  - intros He. rewrite Hp1 in He. rewrite Hearly by done. by apply Hfresh.
Qed.

Lemma advanceLoop_ledger n mctx T v :
  let ty := Plan_Type (Plan_Spec (Ctx_Plan mctx)) in
  ledgerInv ty T v → spec (advanceLoop cbtFuel rec n mctx v) (partial (λ t vb, ledgerInv ty (T ++ t) vb.1)).
Proof.
  intros ty. apply (advanceLoop_rule mctx (ledgerInv ty) (λ T v _, ledgerInv ty T v)); [done|]. clear T v n.
  intros T u HI Hterm. destruct (ledger_phase ty T u HI) as [Hph|Hph]; [|congruence].
  assert (spec (executePhase cbtFuel mctx u) (partial (λ t _, late (Phase u) = true → created t = []))) as Hq.
  { destruct (late (Phase u)) eqn:Hl; [|intros w; by destruct (r_out _)].
    eapply spec_partial_weaken; [by apply late_quiet|]. auto. }
  eapply spec_partial_weaken; [apply (spec_partial_and _ _ _ Hq (spec_partial_and _ _ _ (executePhase_ok mctx u) (executePhase_ledger mctx u)))|].
  intros t [u1 r] [Hlate [((_ & _ & Hp1 & _) & Hk & Hearly) (Hcold & Hfinal & Hclean)]]. cbn [fst snd] in *.
  specialize (Hk (ledger_fresh ty T u HI)).
  assert (phaseFacts u t u1 r) as Hfacts.
  { do 2 (split; [done|]). split; [intros He; by apply Hearly|]. by do 3 (split; [done|]). }
  destruct (Result_Error r) as [e|] eqn:Ee; [intros t' v' Hf; by eapply ledger_fail|].
  destruct (Result_Completed r) eqn:Er.
  - cbv zeta. intros t' Hc. rewrite Hp1. pose proof (ledger_next ty T u t u1 r t' HI Hterm Hph Hfacts Er Hc) as Hnext.
    destruct (bool_decide _); [|done]. intros ts. by apply ledger_setCompleted.
  - eapply ledger_wait; [done..|]. intros Hb. destruct Hearly as [_ Hb']; [by rewrite Hb|].
    destruct (Hb' Hb) as [?|[? ?]]; congruence.
Qed.

(** The reconciles of a VM's migration, in order: whether the status was stored, and the calls. *)
Definition reconciles : Type := list (bool * trace).

Definition whole (R : reconciles) : trace := concat (snd <$> R).
Definition stored (R : reconciles) : trace := concat ((λ s : bool * trace, if s.1 then s.2 else []) <$> R).
Definition unstored (R : reconciles) : trace := concat ((λ s : bool * trace, if s.1 then [] else s.2) <$> R).

(** The migration of one VM of a plan of type [t], reconcile by reconcile, and the status that is
    stored. Every advance starts from the stored status, under any resolved context of the same type
    and in any state of the world. The status update of a reconcile may fail: its calls were made, but
    the next reconcile starts from the old status again. *)
Inductive history (t : MigrationType) : reconciles → VMMigrationStatus → Prop :=
| history_new p : history t [] (newVMStatus p)
| history_start R v ts : history t R v → Phase v = VMPhasePending →
    history t R (setPhase VMPhasePreHook (setStarted ts v))
| history_advance R v mctx w v' b : history t R v → Plan_Type (Plan_Spec (Ctx_Plan mctx)) = t →
    run (advanceSingleVM fuel cbtFuel rec mctx v) w = Done (v', b) →
    history t (R ++ [(true, traceOf (advanceSingleVM fuel cbtFuel rec mctx v) w)]) v'
| history_unstored R v mctx w v' b : history t R v → Plan_Type (Plan_Spec (Ctx_Plan mctx)) = t →
    run (advanceSingleVM fuel cbtFuel rec mctx v) w = Done (v', b) →
    history t (R ++ [(false, traceOf (advanceSingleVM fuel cbtFuel rec mctx v) w)]) v
| history_cancel R v ts : history t R v → isTerminalVMPhase (Phase v) = false →
    history t R (setCompleted ts (setPhase VMPhaseCancelled v)).

Lemma stored_snoc R b T : stored (R ++ [(b, T)]) = stored R ++ (if b then T else []).
Proof. unfold stored. rewrite fmap_app, concat_app. simpl. by rewrite app_nil_r. Qed.

Lemma stored_whole R x : (x ∈ created (stored R) → x ∈ created (whole R)) ∧ (x ∈ deleted (stored R) → x ∈ deleted (whole R)).
Proof.
  induction R as [|[b T] R [IH1 IH2]]; [done|]. unfold stored, whole in *. simpl.
  rewrite !created_app, !deleted_app, !elem_of_app. destruct b; unfold created at 1, deleted at 1; simpl; rewrite ?elem_of_nil; tauto.
Qed.

(** Where an event of the whole trace is. *)
Lemma whole_split R before e after : whole R = before ++ e :: after →
  ∃ A b T1 T2 B, R = A ++ (b, T1 ++ e :: T2) :: B ∧ before = whole A ++ T1 ∧ after = T2 ++ whole B.
Proof.
  revert before. induction R as [|[b T] R IH]; intros before He; [by destruct before|]. change (T ++ whole R = before ++ e :: after) in He.
  apply app_eq_inv in He as [(k & HT & Hk)|(k & Hb & HR)].
  - destruct k as [|e' k]; simpl in Hk.
    + destruct (IH [] (eq_sym Hk)) as (A & b' & T1 & T2 & B & -> & Hbef & Haf). exists ((b, T) :: A), b', T1, T2, B.
      split; [done|]. split; [|done]. rewrite app_nil_r in HT. subst T. change (before = (before ++ whole A) ++ T1).
      by rewrite <- app_assoc, <- Hbef, app_nil_r.
    + injection Hk as <- ->. exists [], b, before, k, R. by subst T.
  - destruct (IH k HR) as (A & b' & T1 & T2 & B & -> & -> & ->). exists ((b, T) :: A), b', T1, T2, B.
    split; [done|]. split; [|done]. subst before. by rewrite app_assoc.
Qed.

(** The stored reconciles keep the ledger: the others leave the status alone. *)
Lemma history_ledger t R v : history t R v → ledgerInv t (stored R) v.
Proof.
  induction 1 as [p|R v ts _ IH Hp|R v mctx w v' b _ IH Ht Hrun|R v mctx w v' b _ IH Ht Hrun|R v ts _ IH Hp].
  - split; [set_solver|done|set_solver|by intros [?|?]|done|left; destruct t; vm_compute; constructor|].
    split; intros x; set_solver.
  - destruct IH as [Hc Hw Hs Hd Hf Ho Hown]. split; [done|done| |by intros [?|?]| |left; destruct t; vm_compute; repeat constructor|done].
    + intros Hset. apply Hs. rewrite Hp. simpl in Hset. unfold settled in *. destruct (negb _); [done|discriminate Hset].
    + intros _. simpl. apply Hf. by rewrite Hp.
  - subst t. rewrite stored_snoc. exact (spec_run _ _ _ _ (advanceLoop_ledger fuel mctx (stored R) v IH) Hrun).
  - by rewrite stored_snoc, app_nil_r.
  - destruct IH as [Hc Hw Hs Hd Hf Ho Hown]. split; [done|done| |by intros [?|?]|done|by right|done].
    intros Hset. apply Hs. simpl in Hset. unfold settled in *. destruct (negb _); [done|discriminate Hset].
Qed.

(** The last of a sequence of reconciles is the one meant, or an earlier one is. *)
Lemma snoc_split {X} (R A B : list X) s s' : R ++ [s] = A ++ s' :: B → (R = A ∧ s = s') ∨ ∃ B', R = A ++ s' :: B'.
Proof.
  intros He. destruct B as [|z B _] using rev_ind.
  - apply app_inj_tail in He. by left.
  - rewrite app_comm_cons, app_assoc in He. apply app_inj_tail in He as [-> _]. right. by exists B.
Qed.

(** Every reconcile, stored or not, deletes what the stored ones or itself created before. *)
Lemma reconcile_owns t R v A b T B x : history t R v → R = A ++ (b, T) :: B → x ∉ foreign (stored A ++ T).
Proof.
  intros Hh. revert B. induction Hh as [p|R v ts _ IH Hp|R v mctx w v' b' Hh IH Ht Hrun|R v mctx w v' b' Hh IH Ht Hrun|R v ts _ IH Hp];
    intros B HR; eauto; [by destruct A|..]; (apply snoc_split in HR as [[<- [= <- <-]]|[B' HR]]; [|by eauto]); subst t;
    apply (spec_run _ _ _ _ (advanceLoop_ledger fuel mctx (stored R) v (history_ledger _ _ _ Hh)) Hrun).
Qed.

(** At the end, whatever is outstanding was created by a reconcile that was not stored. *)
Lemma outstanding_unstored t R v x : history t R v → Phase v = VMPhaseCompleted ∨ Phase v = VMPhaseFailed →
  x ∈ outstanding (whole R) → x ∈ created (unstored R).
Proof.
  intros Hh Hp (before & e & after & (A & b & T1 & T2 & B & -> & -> & ->)%whole_split & Hx & Hn)%outstanding_iff.
  pose proof (ledger_done _ _ _ (history_ledger t _ v Hh) Hp x) as Hd. rewrite outstanding_iff in Hd. destruct b.
  - destruct Hd. exists (stored A ++ T1), e, (T2 ++ stored B).
    unfold stored. rewrite fmap_app, concat_app. simpl. rewrite <- !app_assoc. split; [done|]. split; [done|]. intros Hd. apply Hn.
    revert Hd. rewrite !deleted_app, !elem_of_app. pose proof (proj2 (stored_whole B x)). tauto.
  - unfold unstored. rewrite fmap_app, concat_app. simpl. rewrite !created_app, created_cons, !elem_of_app. auto.
Qed.

(** C1: no temporary resource that was recorded is forgotten. Over the migration of a VM of a plan whose
    type stays the same, cold or warm, in any environment and over any number of reconciles: when
    the VM ends as Completed or Failed, every image and recovery point the operator created
    for it was asked to be deleted after it was created, except those created by a reconcile whose
    status could not be stored. *)
Theorem no_leaks t R v :
  history t R v → Phase v = VMPhaseCompleted ∨ Phase v = VMPhaseFailed →
  ∀ before e after x, whole R = before ++ e :: after → x ∈ createdBy e → x ∈ deleted after ∨ x ∈ created (unstored R).
Proof.
  intros Hh Hp before e after x HR Hx. destruct (decide (x ∈ deleted after)) as [?|Hn]; [by left|right].
  eapply outstanding_unstored; [done..|]. apply outstanding_iff. by exists before, e, after.
Qed.

(** C4: what is not recorded stays for ever. An image or recovery point created by a reconcile whose
    status could not be stored (a conflict, or an API server that is away) is not deleted by any later
    reconcile of the VM, whether it completes, fails or is still running, unless Prism gave the
    same identifier again. *)
Theorem unstored_resources_leak t R v A T B x :
  history t R v → R = A ++ (false, T) :: B → x ∈ created T →
  x ∉ created (whole A) → x ∉ created (whole B) → x ∉ deleted (whole B).
Proof.
  intros Hh HR _ HA HB (t1 & e & t2 & Hw & Hd)%deleted_iff. apply whole_split in Hw as (A' & b & T1 & T2 & B' & -> & -> & ->).
  apply (reconcile_owns t R v (A ++ (false, T) :: A') b (T1 ++ e :: T2) B' x Hh); [by rewrite HR, <- app_assoc|].
  apply foreign_iff. exists (stored (A ++ (false, T) :: A') ++ T1), e, T2. rewrite <- app_assoc. do 2 (split; [done|]).
  unfold stored. rewrite fmap_app, concat_app. simpl. rewrite !created_app, !elem_of_app.
  pose proof (proj1 (stored_whole A x)) as H1. pose proof (proj1 (stored_whole A' x)) as H2. unfold stored in H1, H2.
  revert HB. unfold whole. rewrite fmap_app, concat_app. simpl. rewrite !created_app, !elem_of_app. unfold whole in H1, H2, HA. tauto.
Qed.

(** C8: the operator deletes nothing of others. Over the whole migration of a VM, cold or warm, at
    every moment of it and in any environment: an image or recovery point whose deletion the
    operator asks for, in a cleanup, at the end of a round or after a failure, is one that it had
    itself created before, for that VM. *)
Theorem deletes_only_own t R v :
  history t R v → ∀ before e after x, whole R = before ++ e :: after → x ∈ deletedBy e → x ∈ created before.
Proof.
  intros Hh before e after x (A & b & T1 & T2 & B & HR & -> & ->)%whole_split Hx.
  pose proof (reconcile_owns t R v A b _ B x Hh HR) as Hf. rewrite foreign_iff in Hf.
  destruct (decide (x ∈ created (whole A ++ T1))) as [?|Hn]; [done|]. destruct Hf. exists (stored A ++ T1), e, T2.
  rewrite <- app_assoc. do 2 (split; [done|]). intros Hc. apply Hn. revert Hc. rewrite !created_app, !elem_of_app.
  pose proof (proj1 (stored_whole A x)). tauto.
Qed.

End Single.

(** ** Concrete runs *)


Lemma cold_advance_terminates_witness :
  ∃ v' b, run (advanceSingleVM (E := prismDown) 14 5 sampleReconciler (sampleContext MigrationTypeCold)
                 (sampleStatus VMPhaseExportDisks)) tt = Done (v', b).
Proof.
  apply (cold_advance_terminates (E := prismDown) 14 5 sampleReconciler (sampleContext MigrationTypeCold)
    (sampleStatus VMPhaseExportDisks) tt); [discriminate|vm_compute; repeat constructor|lia].
Defined.

Lemma plan_type_change_diverges_witness :
  run (advanceSingleVM (E := serving) 1000 5 sampleReconciler (sampleContext MigrationTypeCold)
         (sampleStatus VMPhaseWaitBulkCopy)) tt = OutOfFuel.
Proof.
  apply (plan_type_change_diverges (E := serving) 1000 5 sampleReconciler (sampleContext MigrationTypeCold)
    (sampleStatus VMPhaseWaitBulkCopy) tt); [|discriminate|reflexivity].
  intros key []. do 2 eexists. split; [reflexivity|reflexivity].
Defined.

(** A Prism that gives every resource a new identifier, and a cluster whose DataVolumes are ready
    only when four resources were made. *)
#[local] Instance counting : Env Z := λ c n,
  match c return Z * answer c with
  | Nx _ (CreateImageFromDisk _ _ _) => (n + 1, Ok ("img-" +s+ itoa n))
  | Nx _ (CreateRecoveryPoint _ _) => (n + 1, Ok ("rp-" +s+ itoa n))
  | K8s (Get KDataVolume key) => (n, if n <? 4 then Err RefEnv.notFound else Ok (readyVolume key))
  | c => (n, (serving c tt).2)
  end.

(** A cold migration. The first reconcile makes a recovery point and an image, but its status could
    not be stored; the second does everything again, to the end. *)
Definition sampleRun : M Z (VMMigrationStatus * bool) :=
  advanceSingleVM 20 5 sampleReconciler (sampleContext MigrationTypeCold) (sampleStatus VMPhasePreHook).

Definition sampleReconciles : reconciles := [(false, traceOf sampleRun 0); (true, traceOf sampleRun 2)].

#[local] Notation sampleHistory := (history 20 5 sampleReconciler MigrationTypeCold).

Lemma sampleRun_history : ∃ v, sampleHistory sampleReconciles v ∧ Phase v = VMPhaseCompleted.
Proof.
  destruct (run sampleRun 0) as [[v0 b0]| |] eqn:Er0; [|vm_compute in Er0; discriminate Er0..].
  destruct (run sampleRun 2) as [[v b]| |] eqn:Er; [|vm_compute in Er; discriminate Er..]. exists v.
  split; [|vm_compute in Er; injection Er as <- _; reflexivity].
  unfold sampleReconciles, sampleRun in *. match goal with |- sampleHistory [?x; ?y] _ => change [x; y] with ([x] ++ [y]) end.
  eapply history_advance; [|reflexivity|exact Er].
  eapply (history_unstored _ _ _ _ []); [|reflexivity|exact Er0].
  apply (history_start _ _ _ _ _ (newVMStatus (mkPlanVM "vm-uuid-002" "win" [])) None); [apply history_new|reflexivity].
Qed.

Lemma deletes_only_own_witness :
  deleted (whole sampleReconciles) ≠ [] ∧
  ∀ before e after x, whole sampleReconciles = before ++ e :: after → x ∈ deletedBy e → x ∈ created before.
Proof.
  split; [vm_compute; discriminate|]. destruct sampleRun_history as (v & Hh & _).
  exact (deletes_only_own 20 5 sampleReconciler MigrationTypeCold _ v Hh).
Defined.

Lemma no_leaks_witness :
  created (stored sampleReconciles) = [Snapshot "rp-2"; Image "img-3"] ∧ created (unstored sampleReconciles) = [Snapshot "rp-0"; Image "img-1"] ∧
  ∀ before e after x, whole sampleReconciles = before ++ e :: after → x ∈ createdBy e →
    x ∈ deleted after ∨ x ∈ created (unstored sampleReconciles).
Proof.
  split; [vm_compute; reflexivity|]. split; [vm_compute; reflexivity|]. destruct sampleRun_history as (v & Hh & Hp).
  apply (no_leaks 20 5 sampleReconciler MigrationTypeCold _ v Hh). by left.
Defined.

Lemma unstored_resources_leak_witness :
  Image "img-1" ∈ created (whole sampleReconciles) ∧ Image "img-1" ∉ deleted (whole [(true, traceOf sampleRun 2)]).
Proof.
  split; [vm_compute; repeat constructor|]. destruct sampleRun_history as (v & Hh & _).
  refine (unstored_resources_leak 20 5 sampleReconciler MigrationTypeCold sampleReconciles v [] (traceOf sampleRun 0)
    [(true, traceOf sampleRun 2)] (Image "img-1") Hh eq_refl _ _ _).
  - vm_compute. repeat constructor.
  - apply not_elem_of_nil.
  - vm_compute. set_solver.
Defined.
