(* ===== verification/Footprint.v ===== *)
(** * What advancing VMs may touch

    The phases only write workload objects; the custom resources (the Migration, its plan,
    the provider, the maps) are written by the reconcilers alone. *)

From S2P Require Import Prelude GoLib NutanixTypes ApiTypes Env Disks Transfer Pipeline Hooks ColdPhases WarmPhases Resources Migration.

(** The kinds the phases create, update and delete. *)
Definition workloadKind (k : kind) : bool :=
  match k with
  | KSecret | KConfigMap | KPod | KJob | KDataVolume | KVirtualMachine => true
  | _ => false
  end.

(** A call that writes nothing but workload objects. *)
Definition workloadCall (c : call) : bool :=
  match c with
  | K8s (Create k _) | K8s (Update k _) | K8s (Delete k _) => workloadKind k
  | K8s (StatusUpdate _ _) | K8s (ListPlans _) => false
  | _ => true
  end.

(** The calls of the phases, by verb and kind. *)
Definition phaseCall (c : call) : bool :=
  match c with
  | K8s (Get k _) => match k with KHook | KConfigMap | KPod | KJob | KDataVolume | KVirtualMachine => true | _ => false end
  | K8s (Create k _) => workloadKind k
  | K8s (Update k _) => match k with KVirtualMachine => true | _ => false end
  | K8s (Delete k _) => match k with KSecret | KConfigMap | KPod | KJob | KDataVolume => true | _ => false end
  | K8s (StatusUpdate _ _) | K8s (ListPlans _) | Http _ => false
  | Obs ActiveMigrationsInc | Obs ActiveMigrationsDec => false
  | Nx _ _ | Obs _ | Now => true
  end.

Lemma phaseCall_workload c : phaseCall c = true → workloadCall c = true.
Proof. by destruct c as [|[[]| |[]| |[]|]|[]| |]. Qed.

(** ** Programs that stay within a set of calls *)

Section Within.
Context {W : Type} `{E : Env W} (P : call → bool).

(** A program made of calls that satisfy [P]. *)
Inductive within : ∀ {A}, M W A → Prop :=
| within_ret {A} (a : A) : within (ret a)
| within_panic {A} : within (panic (A := A))
| within_outOfFuel {A} : within (outOfFuel (A := A))
| within_call c : P c = true → within (perform c)
| within_bind {A B} (m : M W A) (k : A → M W B) : within m → (∀ a, within (k a)) → within (bind m k).

(** Every call such a program makes satisfies [P], also on the way to a panic or to exhausted fuel. *)
Lemma within_calls {A} (m : M W A) : within m → spec m (λ t _, Forall (λ c, P c = true) (calls t)).
Proof.
  induction 1 as [A a|A|A|c Hc|A B m k _ IHm _ IHk]; intros w; try constructor.
  - unfold perform. destruct (handle c w). by repeat constructor.
  - specialize (IHm w). unfold bind. destruct (r_out (m w)) as [a| |]; simpl; [|done..].
    rewrite calls_app. apply Forall_app. split; [done|]. apply IHk.
Qed.

Lemma within_partial {A} (m : M W A) : within m → spec m (partial (λ t _, Forall (λ c, P c = true) (calls t))).
Proof. intros H w. pose proof (within_calls m H w). by destruct (r_out (m w)). Qed.

(** The world after a trace, from the world before it. *)
Fixpoint follows (w : W) (t : trace) (w' : W) : Prop :=
  match t with
  | [] => w' = w
  | e :: t => ∃ w1, handle (ev_call e) w = (w1, ev_answer e) ∧ follows w1 t w'
  end.

Lemma follows_app t : ∀ w w1 t' w2, follows w t w1 → follows w1 t' w2 → follows w (t ++ t') w2.
Proof.
  induction t as [|e t IH]; intros w w1 t' w2; simpl; [by intros ->|]. intros (wm & He & Ht) Ht'. exists wm. split; [done|]. by eapply IH.
Qed.

(** Such a program changes the world only through its calls. *)
Lemma within_follows {A} (m : M W A) : within m → ∀ w, follows w (r_trace (m w)) (r_world (m w)).
Proof.
  induction 1 as [A a|A|A|c Hc|A B m k _ IHm _ IHk]; intros w; try reflexivity.
  - unfold perform. destruct (handle c w) as [w1 a] eqn:Hh. simpl. by exists w1.
  - specialize (IHm w). unfold bind. destruct (r_out (m w)) as [a| |]; simpl; [|done..].
    eapply follows_app; [exact IHm|]. apply IHk.
Qed.

End Within.

Lemma within_mono {W} `{E : Env W} (P Q : call → bool) {A} (m : M W A) :
  (∀ c, P c = true → Q c = true) → within P m → within Q m.
Proof. intros HPQ. induction 1; eauto using within. Qed.

(** Discharge [within] structurally. *)
Ltac within_P := first [reflexivity | auto].
Ltac within_step :=
  first
  [ apply within_ret | apply within_panic | apply within_outOfFuel
  | match goal with
    | H : context [within] |- _ => apply H
    | |- within _ (bind _ _) => apply within_bind; [|intros ?]
    | |- within _ (nx ?cl ?c) => apply (within_call _ (Nx cl c)); within_P
    | |- within _ (k8s ?c) => apply (within_call _ (K8s c)); within_P
    | |- within _ (obs ?c) => apply (within_call _ (Obs c)); within_P
    | |- within _ now => apply (within_call _ Now); within_P
    | |- within _ (if ?b then _ else _) => destruct b
    | |- within _ (match ?x with _ => _ end) => destruct x
    | |- within _ _ => solve [auto with vma]
    end ].
Ltac within_solve := repeat within_step.

Section Footprint.
Context {W : Type} `{E : Env W} (cbtFuel : nat) (mctx : migrationContext).

Notation within := (within phaseCall).

Lemma within_deleteImages cl us : within (deleteImages cl us).
Proof. induction us; simpl; within_solve. Qed.
Lemma within_deleteSnapshot cl u : within (deleteSnapshot cl u).
Proof. unfold deleteSnapshot. within_solve. Qed.
Lemma within_deleteDataVolumes ns : within (deleteDataVolumes mctx ns).
Proof. induction ns; simpl; within_solve. Qed.
Lemma within_exportImages name uuid cluster i ds images : within (exportImages mctx name uuid cluster i ds images).
Proof. revert i images. induction ds as [|d ds IH]; intros; simpl; within_solve. Qed.
Lemma within_createVolumes opts i images names : within (createVolumes opts i images names).
Proof. revert i names. induction images as [|d ds IH]; intros; simpl; unfold CreateDataVolume; within_solve. Qed.
Lemma within_pollVolumes a b names ok : within (pollVolumes mctx a b names ok).
Proof. revert ok. induction names as [|n ns IH]; intros; simpl; unfold GetDataVolumeProgress; within_solve. Qed.
Lemma within_recordTransferred n ds : within (recordTransferred n ds).
Proof. induction ds; simpl; within_solve. Qed.
Lemma within_ensureCredentials a b : within (ensureCredentials mctx a b).
Proof. unfold ensureCredentials, CreateCredentialSecret, CreateCAConfigMap. within_solve. Qed.
Lemma within_cbtLoop n info v warm size off acc : within (cbtLoop mctx n info v warm size off acc).
Proof. revert off acc. induction n as [|n IH]; intros; simpl; within_solve. Qed.

Hint Resolve within_deleteImages within_deleteSnapshot within_deleteDataVolumes within_exportImages
  within_createVolumes within_pollVolumes within_recordTransferred within_ensureCredentials within_cbtLoop : vma.

Lemma within_cleanupFailedVM v : within (cleanupFailedVM mctx v).
Proof. unfold cleanupFailedVM, cleanupWarm, deletePod, deleteConfigMap. within_solve. Qed.

Lemma within_runHook step v : within (runHook mctx step v).
Proof.
  unfold runHook, findHook, checkHookJob, createHookJob, createHookJobWithAttempt, createHookConfigMap,
    cleanupHookResources. within_solve.
Qed.

Lemma within_runDeltaRound label h v : (∀ u, within (h u)) → within (runDeltaRound cbtFuel mctx label h v).
Proof.
  intros Hh. unfold runDeltaRound, deltaSnapshot, deltaDisk, startDeltaPod, BuildDeltaPod. within_solve.
Qed.

Lemma within_executePhase v : within (executePhase cbtFuel mctx v).
Proof.
  assert (∀ u, within (finalizePrecopyRound mctx u)) by (intros u; unfold finalizePrecopyRound; within_solve).
  assert (∀ u, within (finalizeFinalSync mctx u)) by (intros u; unfold finalizeFinalSync; within_solve).
  assert (∀ u, within (checkDeltaPod mctx u)) by
    (intros u; unfold checkDeltaPod, getPodPhase, deletePod, deleteConfigMap; within_solve).
  assert (∀ label h u, (∀ x, within (h x)) → within (runDeltaRound cbtFuel mctx label h u)) by
    (intros; by apply within_runDeltaRound).
  assert (∀ step u, within (runHook mctx step u)) by (intros; apply within_runHook).
  unfold executePhase, phaseStorePowerState, phasePowerOff, phaseWaitForPowerOff, phaseCreateSnapshot, phaseExportDisks,
    phaseImportDisks, phaseCreateVM, phaseStartVM, phaseCleanup, DeleteCredentialSecret, DeleteCAConfigMap,
    phaseBulkCopy, bulkSnapshot, createDataVolumes, phaseWaitBulkCopy, pollDataVolumes, phasePrecopy, isCutoverTime,
    getPodPhase, tooEarly, phaseFinalSync.
  within_solve; eauto.
Qed.

End Footprint.

Section AdvanceFootprint.
Context {W : Type} `{E : Env W} (fuel cbtFuel : nat) (rec : MigrationReconciler).

Notation within := (within phaseCall).

Lemma within_advanceLoop n mctx v : within (advanceLoop cbtFuel rec n mctx v).
Proof.
  pose proof (within_executePhase cbtFuel mctx) as Hex. pose proof (within_cleanupFailedVM mctx) as Hcl.
  revert v. induction n as [|n IH]; intros v; cbn [advanceLoop]; unfold failVM, enterNext, recordEvent, recordVMDuration;
    within_solve.
Qed.

Lemma within_advanceVMsLoop mctx m a nr vms : within (advanceVMsLoop fuel cbtFuel rec mctx m a nr vms).
Proof.
  assert (∀ v, within (advanceSingleVM fuel cbtFuel rec mctx v)) as Hs by (intros v; apply within_advanceLoop).
  revert a nr. induction vms as [|v vms IH]; intros a nr; cbn [advanceVMsLoop]; within_solve.
Qed.

Lemma advance_workload mctx m a nr vms :
  spec (advanceVMsLoop fuel cbtFuel rec mctx m a nr vms) (partial (λ t _, Forall (λ c, workloadCall c = true) (calls t))).
Proof. apply within_partial. eapply within_mono; [exact phaseCall_workload|]. apply within_advanceVMsLoop. Qed.

(** Advancing VMs writes nothing but workload objects. Whatever the environment, and
    even if a phase panics, every call [advanceVMs] makes to the API server is a read, or a
    write of a Secret, ConfigMap, Pod, Job, DataVolume or VirtualMachine: no phase writes
    the Migration or any other custom resource, nor a status. *)
Theorem advance_footprint mctx m vms w :
  Forall (λ c, workloadCall c = true) (calls (traceOf (advanceVMs fuel cbtFuel rec mctx m vms) w)).
Proof.
  eapply within_calls. eapply within_mono; [exact phaseCall_workload|]. apply within_advanceVMsLoop.
Qed.

End AdvanceFootprint.
