(* ===== verification/Reconciler.v ===== *)
(** * Scheduling and overall status

    Properties of [initializeVMStatuses], [processCancellations], [advanceVMs],
    [updateOverallStatus] and [Reconcile] (Migration.v). *)

From S2P Require Import Prelude GoLib NutanixTypes ApiTypes Env Disks Transfer Pipeline Hooks ColdPhases WarmPhases.
From S2P Require Import Resources PhaseProperties Migration Lifecycle Footprint Samples.

(** ** Status initialisation *)

Lemma init_ids vms planVMs id :
  id ∈ ID <$> initializeVMStatuses vms planVMs ↔ id ∈ ID <$> vms ∨ id ∈ PlanVM_ID <$> planVMs.
Proof.
  unfold initializeVMStatuses. rewrite fmap_app, elem_of_app, <- list_fmap_compose, !list_elem_of_fmap. split.
  - intros [H|(p & -> & Hp)]; [by left|]. right. rewrite list_elem_of_In, List.filter_In in Hp. exists p.
    rewrite list_elem_of_In. tauto.
  - intros [H|(p & -> & Hp)]; [by left|].
    destruct (decide (PlanVM_ID p ∈ (list_to_set (ID <$> vms) : gset string))) as [Hin|Hin].
    + left. by apply elem_of_list_to_set, list_elem_of_fmap in Hin.
    + right. exists p. split; [done|]. rewrite list_elem_of_In, List.filter_In, bool_decide_eq_false_2 by done.
      by rewrite <- list_elem_of_In.
Qed.

(** Initialising the per-VM statuses keeps every existing entry in place, appends
    entries in Pending only, and afterwards every VM of the plan has an entry; doing it
    again changes nothing. *)
Theorem init_statuses vms planVMs :
  let vms' := initializeVMStatuses vms planVMs in
  (∃ new, vms' = vms ++ new ∧ Forall (λ v, Phase v = VMPhasePending ∧ ID v ∉ ID <$> vms) new) ∧
  (∀ p, p ∈ planVMs → PlanVM_ID p ∈ ID <$> vms') ∧
  initializeVMStatuses vms' planVMs = vms'.
Proof.
  cbv zeta. split; [|split].
  - eexists. split; [reflexivity|]. apply Forall_fmap, Forall_forall. intros p Hp.
    rewrite list_elem_of_In, List.filter_In in Hp. destruct Hp as [_ Hp]. split; [done|]. simpl.
    apply negb_true_iff, bool_decide_eq_false in Hp. by rewrite elem_of_list_to_set in Hp.
  - intros p Hp. apply init_ids. right. apply list_elem_of_fmap. eauto.
  - set (vms' := initializeVMStatuses vms planVMs). unfold initializeVMStatuses at 1.
    assert (List.filter (λ p, negb (bool_decide (PlanVM_ID p ∈ (list_to_set (ID <$> vms') : gset string)))) planVMs = []) as ->;
      [|by rewrite app_nil_r].
    assert (∀ p, p ∈ planVMs → negb (bool_decide (PlanVM_ID p ∈ (list_to_set (ID <$> vms') : gset string))) = false) as H.
    { intros p Hp. rewrite bool_decide_eq_true_2; [done|]. apply elem_of_list_to_set, init_ids. right.
      apply list_elem_of_fmap. eauto. }
    clearbody vms'. induction planVMs as [|p ps IH]; [done|]. simpl. rewrite H by set_solver. apply IH. set_solver.
Qed.

(** ** Cancellation *)

(** One entry under a set of cancelled identifiers. *)
Definition cancelled1 (ids : list string) (v v' : VMMigrationStatus) : Prop :=
  if bool_decide (ID v ∈ ids) && negb (isTerminalVMPhase (Phase v))
  then ∃ n, v' = setCompleted (Some n) (setPhase VMPhaseCancelled v) else v' = v.

Section Cancel.
Context {W : Type} `{E : Env W}.

Lemma cancelLoop_exact (ids : list string) vms :
  spec (cancelLoop (list_to_set ids) vms)
    (total (λ t vms', Forall2 (cancelled1 ids) vms vms' ∧ Forall (λ c, c = Now) (calls t))).
Proof.
  induction vms as [|v vms IH]; simpl; [spec_step; split; constructor|].
  assert (bool_decide (ID v ∈ (list_to_set ids : gset string)) = bool_decide (ID v ∈ ids)) as ->
    by (apply bool_decide_ext, elem_of_list_to_set).
  destruct (bool_decide (ID v ∈ ids) && _) eqn:Hc.
  - spec_step. eapply spec_bind; [exact IH|]. intros t vms' [H1 H2]. spec_step. split.
    + constructor; [|done]. unfold cancelled1. rewrite Hc. by eexists.
    + rewrite app_nil_r. by constructor.
  - eapply spec_bind; [exact IH|]. intros t vms' [H1 H2]. spec_step. rewrite app_nil_r. split; [|done].
    constructor; [|done]. unfold cancelled1. by rewrite Hc.
Qed.

Lemma processCancellations_exact spc vms :
  spec (processCancellations spc vms)
    (total (λ t vms', Forall2 (cancelled1 (Mig_Cancel spc)) vms vms' ∧ Forall (λ c, c = Now) (calls t))).
Proof.
  unfold processCancellations. destruct (Mig_Cancel spc) as [|id ids] eqn:Hc; [|apply cancelLoop_exact].
  spec_step. split; [|constructor]. clear Hc. induction vms as [|v vms IH]; constructor; [|done]. unfold cancelled1.
  by rewrite bool_decide_eq_false_2 by set_solver.
Qed.

(** C14: cancellation is exact and only marks. It always returns; a VM in the cancel list that
    is not terminal becomes Cancelled with a completion time and nothing else about it
    changes; every other VM, terminal ones included, is left as it is. Reading the clock is
    its only call: it deletes no image, recovery point or DataVolume and does not power
    the source VM on again. *)
Theorem cancellation_exact spc vms w :
  ∃ vms', run (processCancellations spc vms) w = Done vms' ∧
    Forall2 (cancelled1 (Mig_Cancel spc)) vms vms' ∧
    Forall (λ c, c = Now) (calls (traceOf (processCancellations spc vms) w)).
Proof. exact (spec_returns _ _ w (processCancellations_exact spc vms)). Qed.

End Cancel.

(** ** Scheduling *)

Definition terminalVM (v : VMMigrationStatus) : bool := isTerminalVMPhase (Phase v).

(** The same VM, and untouched when it was terminal. *)
Definition advanced1 (v v' : VMMigrationStatus) : Prop := ID v' = ID v ∧ (terminalVM v = true → v' = v).

Section Schedule.
Context {W : Type} `{E : Env W} (fuel cbtFuel : nat) (rec : MigrationReconciler).

(** Whatever the phase, a requeue is asked for exactly when the VM is not terminal. *)
Lemma advanceSingleVM_requeue mctx v :
  spec (advanceSingleVM fuel cbtFuel rec mctx v) (partial (λ _ vb, ID vb.1 = ID v ∧ vb.2 = negb (terminalVM vb.1))).
Proof.
  unfold terminalVM, advanceSingleVM.
  apply (advanceLoop_rule cbtFuel rec mctx (λ _ u, ID u = ID v)
    (λ _ u b, ID u = ID v ∧ b = negb (isTerminalVMPhase (Phase u)))) with (T := []); [| |done].
  - intros _ u Hid Ht. by rewrite Ht.
  - intros T u Hid Ht. eapply spec_partial_weaken; [apply executePhase_ok|]. intros t [u1 r] ((Hid1 & _ & Hp & _) & _).
    cbn [fst snd] in *. destruct (Result_Error r) as [e|].
    { intros t' v' (Hf & _ & _ & Hidv & _). rewrite Hf. split; [congruence|done]. }
    destruct (Result_Completed r); [|rewrite Hp, Ht; split; [congruence|done]].
    cbv zeta. intros t' _. case_bool_decide as Hb; [|simpl; congruence]. intros ts.
    cbn [ID Phase setCompleted]. rewrite Hb. simpl. split; [congruence|done].
Qed.

Lemma countActive_cons v vms : countActive (v :: vms) = (if isActiveVMPhase (Phase v) then 1 else 0) + countActive vms.
Proof. unfold countActive. rewrite countb_cons. destruct (isActiveVMPhase (Phase v)); lia. Qed.

Lemma active_iff v : isActiveVMPhase (Phase v) = negb (bool_decide (Phase v = VMPhasePending)) && negb (terminalVM v).
Proof. done. Qed.

Lemma advanceVMsLoop_ok mctx m a nr vms :
  spec (advanceVMsLoop fuel cbtFuel rec mctx m a nr vms) (partial (λ _ vb,
    Forall2 advanced1 vms vb.1 ∧ countActive vb.1 - countActive vms ≤ Z.max a m - a ∧
    vb.2 = nr || negb (forallb terminalVM vb.1))).
Proof.
  revert a nr. induction vms as [|v vms IH]; intros a nr; cbn [advanceVMsLoop].
  { spec_step. split; [constructor|]. cbn [fst snd]. split; [lia|]. simpl. by rewrite orb_false_r. }
  destruct (isTerminalVMPhase (Phase v)) eqn:Ht.
  { eapply spec_bind_p; [apply IH|]. intros t [vms' b] (H1 & H2 & H3). cbn [fst snd] in *. spec_step. split; [by constructor|].
    cbn [fst snd]. rewrite !countActive_cons. split; [lia|]. simpl. unfold terminalVM at 1. by rewrite Ht. }
  assert (∀ v' (again : bool) t' a', ID v' = ID v → again = negb (terminalVM v') → a ≤ a' →
    (if isActiveVMPhase (Phase v') then 1 else 0) - (if isActiveVMPhase (Phase v) then 1 else 0) + (Z.max a' m - a') ≤ Z.max a m - a →
    spec (let* (rest, b) := advanceVMsLoop fuel cbtFuel rec mctx m a' (nr || again) vms in ret (v' :: rest, b))
      (partial (λ t vb, (λ _ vb, Forall2 advanced1 (v :: vms) vb.1 ∧
         countActive vb.1 - countActive (v :: vms) ≤ Z.max a m - a ∧
         vb.2 = nr || negb (forallb terminalVM vb.1)) (t' ++ t) vb))) as Hrest.
  { intros v' again t' a' Hid Hag Ha Hle. eapply spec_bind_p; [apply IH|]. intros t [vms' b] (H1 & H2 & H3). cbn [fst snd] in *.
    spec_step. split; [constructor; [split; [done|]|done]; unfold terminalVM; by rewrite Ht|].
    cbn [fst snd]. rewrite !countActive_cons. split; [lia|]. simpl. rewrite H3, Hag, negb_andb, orb_assoc. done. }
  case_bool_decide as Hp.
  - destruct (Z.leb_spec m a).
    { eapply spec_bind_p; [apply IH|]. intros t [vms' b] (H1 & H2 & H3). cbn [fst snd] in *. spec_step.
      split; [constructor; [by split|done]|]. cbn [fst snd]. rewrite !countActive_cons. split; [lia|].
      simpl. unfold terminalVM at 1. rewrite Ht. simpl. by rewrite orb_true_r, H3. }
    spec_step. eapply spec_bind_p; [apply advanceSingleVM_requeue|]. intros t [v' again] [Hid Hag]. cbn [fst snd] in *.
    apply (Hrest v' again (Ev Now a0 :: t)); [done|done|lia|].
    rewrite (active_iff v), bool_decide_eq_true_2 by done. cbn [negb andb]. destruct (isActiveVMPhase (Phase v')); lia.
  - eapply spec_bind_p; [apply advanceSingleVM_requeue|]. intros t [v' again] [Hid Hag]. cbn [fst snd] in *.
    apply (Hrest v' again t); [done|done|lia|].
    rewrite (active_iff v), bool_decide_eq_false_2 by done. unfold terminalVM. rewrite Ht. cbn [negb andb].
    destruct (isActiveVMPhase (Phase v')); lia.
Qed.

Lemma advanceVMs_ok mctx m vms :
  spec (advanceVMs fuel cbtFuel rec mctx m vms) (partial (λ _ vb,
    Forall2 advanced1 vms vb.1 ∧ countActive vb.1 ≤ Z.max (countActive vms) m ∧
    vb.2 = negb (forallb terminalVM vb.1))).
Proof.
  unfold advanceVMs. eapply spec_partial_weaken; [apply advanceVMsLoop_ok|]. intros t vb (H1 & H2 & H3).
  split; [done|]. split; [lia|done].
Qed.

(** C5: MaxInFlight is respected, in every environment: when [advanceVMs] returns, no more VMs
    are in flight than the limit, or than were before if there were more already. No VM is
    lost or reordered, a terminal VM is left exactly as it was, and a requeue is asked for
    exactly when some VM is not terminal. *)
Theorem max_in_flight mctx m vms w vms' b :
  run (advanceVMs fuel cbtFuel rec mctx m vms) w = Done (vms', b) →
  countActive vms' ≤ Z.max (countActive vms) m ∧ Forall2 advanced1 vms vms' ∧
  b = negb (forallb terminalVM vms').
Proof. intros H. destruct (spec_run _ _ _ _ (advanceVMs_ok mctx m vms) H) as (?&?&?). done. Qed.

End Schedule.

(** ** Overall status *)

Definition inPhase (p : VMMigrationPhase) (v : VMMigrationStatus) : bool := bool_decide (Phase v = p).

(** The overall phase the per-VM phases call for. *)
Definition overallPhase (vms : list VMMigrationStatus) : MigrationPhase :=
  if negb (forallb terminalVM vms) then MigrationPhaseRunning
  else if forallb (inPhase VMPhaseCancelled) vms then MigrationPhaseCancelled
  else if existsb (inPhase VMPhaseFailed) vms then MigrationPhaseFailed
  else MigrationPhaseCompleted.

Definition zcount (p : VMMigrationPhase) (vms : list VMMigrationStatus) : Z := Z.of_nat (countb (inPhase p) vms).

Lemma inPhase_eq p v : inPhase p v = bool_decide (Phase v = p).
Proof. done. Qed.

Lemma countPhases_count vms c f x :
  countPhases vms c f x =
    (c + zcount VMPhaseCompleted vms, f + zcount VMPhaseFailed vms, x + zcount VMPhaseCancelled vms).
Proof.
  unfold zcount. revert c f x. induction vms as [|v vms IH]; intros c f x; simpl; [by rewrite !Z.add_0_r|].
  rewrite !countb_cons, !(inPhase_eq _ v).
  destruct (Phase v); rewrite IH; repeat case_bool_decide; try discriminate; try congruence; repeat apply (f_equal2 pair); lia.
Qed.

Lemma count_terminal vms :
  zcount VMPhaseCompleted vms + zcount VMPhaseFailed vms + zcount VMPhaseCancelled vms =
  Z.of_nat (countb terminalVM vms).
Proof.
  unfold zcount. induction vms as [|v vms IH]; [done|]. rewrite !countb_cons, !(inPhase_eq _ v).
  unfold terminalVM at 1, isTerminalVMPhase. repeat case_bool_decide; simpl; try congruence; lia.
Qed.

Lemma countb_forallb {A} (p : A → bool) l : (countb p l = length l) ↔ forallb p l = true.
Proof. rewrite countb_full, List.forallb_forall, Forall_forall. setoid_rewrite list_elem_of_In. done. Qed.

Lemma countb_existsb {A} (p : A → bool) l : (0 < countb p l)%nat ↔ existsb p l = true.
Proof.
  induction l as [|x l IH]; [unfold countb; simpl; split; [lia|done]|]. rewrite countb_cons. simpl. destruct (p x); simpl; [|done].
  split; [done|lia].
Qed.

Lemma existsb_count {A} (p : A → bool) l : existsb p l = (0 <? Z.of_nat (countb p l)).
Proof. apply eq_true_iff_eq. rewrite Z.ltb_lt, <- countb_existsb. lia. Qed.

Lemma forallb_count {A} (p : A → bool) l : forallb p l = (Z.of_nat (countb p l) =? len l).
Proof. apply eq_true_iff_eq. unfold len. rewrite Z.eqb_eq, <- countb_forallb. lia. Qed.

Section Overall.
Context {W : Type} `{E : Env W} `{AM : ApiMachinery} (rec : MigrationReconciler).

(** Was the gauge of active migrations decremented? *)
Definition gaugeDecs (t : trace) : nat :=
  length (List.filter (λ c, match c with Obs ActiveMigrationsDec => true | _ => false end) (calls t)).

Lemma updateOverallStatus_ok m :
  spec (updateOverallStatus rec m) (total (λ t m',
    Mig_Meta m' = Mig_Meta m ∧ Mig_Spec m' = Mig_Spec m ∧ Mig_VMs (Mig_Status m') = Mig_VMs (Mig_Status m) ∧
    Mig_Phase (Mig_Status m') = overallPhase (Mig_VMs (Mig_Status m)) ∧
    gaugeDecs t = (if isTerminalMigrationPhase (Mig_Phase (Mig_Status m')) then 1 else 0)%nat ∧
    Forall (λ c, match c with Obs _ | Now => True | _ => False end) (calls t) ∧
    (isTerminalMigrationPhase (Mig_Phase (Mig_Status m')) = true → is_Some (Mig_Completed (Mig_Status m'))))).
Proof.
  unfold updateOverallStatus, overallPhase. rewrite countPhases_count, !Z.add_0_l, count_terminal.
  rewrite <- forallb_count. destruct (forallb terminalVM _); simpl.
  2:{ spec_step. repeat split; [constructor|done]. }
  spec_step. rewrite existsb_count, forallb_count. unfold zcount, finish, recordEvent.
  destruct (_ =? _); [|destruct (0 <? _)]; repeat spec_step; unfold gaugeDecs, calls; simpl; repeat split;
    try (repeat constructor); by eexists.
Qed.

(** C9: the overall status is the one the VMs call for. [updateOverallStatus] always returns
    and changes nothing but the migration's own status: the phase is Running while some VM
    is not terminal, then Cancelled when all are cancelled, Failed when one failed, and
    Completed otherwise; a terminal phase comes with a completion time and exactly one
    decrement of the active-migrations gauge, a running one with none; and the API server
    and Prism are not called. *)
Theorem overall_status_exact m w :
  ∃ m' t, run (updateOverallStatus rec m) w = Done m' ∧ traceOf (updateOverallStatus rec m) w = t ∧
    Mig_Meta m' = Mig_Meta m ∧ Mig_Spec m' = Mig_Spec m ∧ Mig_VMs (Mig_Status m') = Mig_VMs (Mig_Status m) ∧
    Mig_Phase (Mig_Status m') = overallPhase (Mig_VMs (Mig_Status m)) ∧
    gaugeDecs t = (if isTerminalMigrationPhase (Mig_Phase (Mig_Status m')) then 1 else 0)%nat ∧
    Forall (λ c, match c with Obs _ | Now => True | _ => False end) (calls t) ∧
    (isTerminalMigrationPhase (Mig_Phase (Mig_Status m')) = true → is_Some (Mig_Completed (Mig_Status m'))).
Proof. destruct (spec_returns _ _ w (updateOverallStatus_ok m)) as (m' & Hr & H). eauto. Qed.

End Overall.

(** ** Reconcile *)

(** The Migration status a call asks to be stored, whatever the API server answers. *)
Definition statusSent (e : event) : option Migration :=
  match e with
  | Ev (K8s (StatusUpdate k o)) _ =>
      match k return obj k → option Migration with KMigration => Some | _ => λ _, None end o
  | _ => None
  end.
Definition statusesSent (t : trace) : list Migration := omap statusSent t.

(** The Migration status a call stored: the API server accepted it. *)
Definition statusStored (e : event) : option Migration :=
  match e with
  | Ev (K8s (StatusUpdate k o)) (Ok _) =>
      match k return obj k → option Migration with KMigration => Some | _ => λ _, None end o
  | _ => None
  end.
Definition statusesStored (t : trace) : list Migration := omap statusStored t.

Definition migrationRead (e : event) : option Migration :=
  match e with
  | Ev (K8s (Get k _)) a =>
      match k return result (obj k) → option Migration with
      | KMigration => λ a, match a with Ok m => Some m | Err _ => None end
      | _ => λ _, None
      end a
  | _ => None
  end.

Definition planRead (e : event) : option MigrationPlan :=
  match e with
  | Ev (K8s (Get k _)) a =>
      match k return result (obj k) → option MigrationPlan with
      | KPlan => λ a, match a with Ok p => Some p | Err _ => None end
      | _ => λ _, None
      end a
  | _ => None
  end.

Definition planLimit (plan : MigrationPlan) : Z := Z.max (Plan_MaxInFlight (Plan_Spec plan)) 1.

(** From the status read to the status stored: the object's metadata and spec are kept, no VM
    is lost or moved, terminal VMs are untouched, and the limit [lim] is respected. *)
Definition safeUpdate (lim : Z) (m m' : Migration) : Prop :=
  Mig_Meta m' = Mig_Meta m ∧ Mig_Spec m' = Mig_Spec m ∧
  (∀ i v, Mig_VMs (Mig_Status m) !! i = Some v →
     ∃ v', Mig_VMs (Mig_Status m') !! i = Some v' ∧ ID v' = ID v ∧ (terminalVM v = true → v' = v)) ∧
  countActive (Mig_VMs (Mig_Status m')) ≤ Z.max (countActive (Mig_VMs (Mig_Status m))) lim.

Lemma statuses_app t t' : statusesSent (t ++ t') = statusesSent t ++ statusesSent t'.
Proof. apply elem_of_omap_app. Qed.

Lemma stored_app t t' : statusesStored (t ++ t') = statusesStored t ++ statusesStored t'.
Proof. apply elem_of_omap_app. Qed.

Lemma stored_sent t m : m ∈ statusesStored t → m ∈ statusesSent t.
Proof.
  unfold statusesStored, statusesSent. rewrite !list_elem_of_omap. intros (e & He & Hs). exists e. split; [done|].
  destruct e as [[| [] | | |] a]; try done. by destruct a.
Qed.

Lemma stored_length t : (length (statusesStored t) ≤ length (statusesSent t))%nat.
Proof.
  induction t as [|e t IH]; [done|]. unfold statusesStored, statusesSent in *. csimpl.
  destruct e as [[| [] | | |] a]; try exact IH. destruct a as [[]|]; simpl; [|destruct k; simpl; lia]. destruct k; simpl; lia.
Qed.

Lemma stored_none t : statusesSent t = [] → statusesStored t = [].
Proof.
  intros H. destruct (statusesStored t) as [|m l] eqn:Hs; [done|]. exfalso.
  assert (m ∈ statusesSent t) as Hm by (apply stored_sent; rewrite Hs; left). rewrite H in Hm. by apply elem_of_nil in Hm.
Qed.

(** Calls that cannot store a status. *)
Definition noStatus (c : call) : bool := match c with K8s (StatusUpdate _ _) => false | _ => true end.

Lemma statuses_none t : Forall (λ c, noStatus c = true) (calls t) → statusesSent t = [].
Proof.
  unfold calls, statusesSent. rewrite Forall_fmap. induction 1 as [|e t He _ IH]; [done|].
  destruct e as [[| [] | | |] ?]; try discriminate He; exact IH.
Qed.

Lemma statuses_workload t : Forall (λ c, workloadCall c = true) (calls t) → statusesSent t = [].
Proof. intros H. apply statuses_none. eapply Forall_impl; [exact H|]. by intros [| [] | | |]. Qed.

Lemma countActive_app l k : countActive (l ++ k) = countActive l + countActive k.
Proof. unfold countActive. rewrite countb_app. lia. Qed.

Lemma countActive_pending l : Forall (λ v, Phase v = VMPhasePending) l → countActive l = 0.
Proof. induction 1 as [|v l Hv _ IH]; [done|]. by rewrite countActive_cons, Hv, IH. Qed.

Lemma countActive_cancelled ids vms vms' : Forall2 (cancelled1 ids) vms vms' → countActive vms' ≤ countActive vms.
Proof.
  induction 1 as [|v v' l l' Hv _ IH]; [done|]. rewrite !countActive_cons. unfold cancelled1 in Hv.
  destruct (_ && _); [destruct Hv as [n ->]|subst v']; [simpl|]; destruct (isActiveVMPhase (Phase v)); lia.
Qed.

(** From init through cancellation and advance, entry by entry. *)
Lemma pipeline_entry ids vms new vms1 vms2 :
  Forall2 (cancelled1 ids) (vms ++ new) vms1 → Forall2 advanced1 vms1 vms2 →
  ∀ i v, vms !! i = Some v → ∃ v', vms2 !! i = Some v' ∧ ID v' = ID v ∧ (terminalVM v = true → v' = v).
Proof.
  intros Hc Ha i v Hi. rewrite Forall2_lookup in Hc, Ha. specialize (Hc i). specialize (Ha i).
  rewrite lookup_app_l_Some with (x := v) in Hc by done. inversion Hc as [? v1 Hcv Heq1 Heq2|]. subst. symmetry in Heq2.
  rewrite Heq2 in Ha. inversion Ha as [? v2 [Hid Hsame] Heq3 Heq4|]. subst. exists v2. split; [done|].
  unfold cancelled1 in Hcv. destruct (bool_decide (ID v ∈ ids)), (isTerminalVMPhase (Phase v)) eqn:Ht; simpl in Hcv;
    first [subst v1 | destruct Hcv as [n ->]]; unfold terminalVM in *; rewrite ?Ht; (split; [done|]); auto; discriminate.
Qed.

Section Reconcile.
Context {W : Type} `{E : Env W} `{AM : ApiMachinery} (fuel cbtFuel : nat) (rec : MigrationReconciler).

Lemma startMigration_ok m plan :
  spec (startMigration rec m plan) (total (λ t m', statusesSent t = [] ∧
    Mig_Meta m' = Mig_Meta m ∧ Mig_Spec m' = Mig_Spec m ∧
    ∃ new, Mig_VMs (Mig_Status m') = Mig_VMs (Mig_Status m) ++ new ∧ Forall (λ v, Phase v = VMPhasePending) new)).
Proof.
  unfold startMigration, recordEvent. repeat spec_step; (do 3 (split; [done|])); eexists; (split; [reflexivity|]);
    apply Forall_fmap, Forall_forall; done.
Qed.

(** The status sent, against the one read and the result: an error exactly when it is not stored, and
    a requeue exactly when the migration goes on. *)
Definition sentOk (lim : Z) (m : Migration) (t : trace) (r : result ctrlResult) : Prop :=
  ∃ m', statusesSent t = [m'] ∧ safeUpdate lim m m' ∧
    match r with
    | Err _ => statusesStored t = []
    | Ok cr => statusesStored t = [m'] ∧
        if isTerminalMigrationPhase (Mig_Phase (Mig_Status m')) then cr = noRequeue else 0 < RequeueAfter cr
    end.

Lemma overall_running vms : isTerminalMigrationPhase (overallPhase vms) = forallb terminalVM vms.
Proof. unfold overallPhase. destruct (forallb terminalVM vms); simpl; [|done]. destruct (forallb (inPhase _) vms); [done|]. by destruct (existsb (inPhase _) vms). Qed.

Lemma reconcileRunning_ok m plan mctx :
  spec (reconcileRunning fuel cbtFuel rec m plan mctx) (partial (sentOk (planLimit plan) m)).
Proof.
  unfold reconcileRunning.
  eapply (spec_bind_p _ _ (λ t m', statusesSent t = [] ∧ Mig_Meta m' = Mig_Meta m ∧ Mig_Spec m' = Mig_Spec m ∧
    ∃ new, Mig_VMs (Mig_Status m') = Mig_VMs (Mig_Status m) ++ new ∧ Forall (λ v, Phase v = VMPhasePending) new)).
  { destruct (_ || _); [apply total_partial, startMigration_ok|]. spec_step. repeat split. exists []. by rewrite app_nil_r. }
  intros t1 m1 (H1 & Hm1 & Hs1 & new & Hv1 & Hnew).
  eapply spec_bind_p; [apply total_partial, processCancellations_exact|]. intros t2 vms2 [Hc Ht2].
  eapply spec_bind_p.
  { apply spec_partial_and; [apply advanceVMs_ok|apply advance_workload]. }
  intros t3 [vms3 b] [(Ha & Hcount & Hb) Hw3]. cbn [fst snd] in *.
  eapply spec_bind_p; [apply total_partial, updateOverallStatus_ok|]. intros t4 m4 (Hm4 & Hs4 & Hv4 & Hp4 & _ & Ht4 & _).
  cbn [Mig_Meta Mig_Spec Mig_Status setMigStatus Mig_VMs setMigVMs] in *.
  assert (statusesSent t2 = [] ∧ statusesSent t3 = [] ∧ statusesSent t4 = []) as (H2 & H3 & H4).
  { split; [apply statuses_none|split; [by apply statuses_workload|apply statuses_none]].
    - eapply Forall_impl; [exact Ht2|]. by intros c ->.
    - eapply Forall_impl; [exact Ht4|]. by intros [| | | |]. }
  assert (safeUpdate (planLimit plan) m m4) as Hsafe.
  { split; [congruence|]. split; [congruence|]. rewrite Hv4. rewrite Hv1 in Hc. split; [by eapply pipeline_entry|].
    pose proof (countActive_cancelled _ _ _ Hc) as Hle. rewrite countActive_app, (countActive_pending new) in Hle by done. unfold planLimit. lia. }
  spec_step. destruct a as [[]|e]; spec_step; exists m4; rewrite !statuses_app, ?stored_app, H1, H2, H3, H4, !stored_none by done;
    (split; [done|]); (split; [done|]); [|done]. split; [done|]. rewrite Hp4, overall_running. destruct (forallb terminalVM vms3); simpl in Hb; by subst b.
Qed.

Lemma setMigrationFailed_ok m msg : spec (setMigrationFailed rec m msg) (total (sentOk 1 m)).
Proof.
  unfold setMigrationFailed, recordEvent, sentOk, safeUpdate. repeat spec_step; eexists; (split; [reflexivity|]);
    (split; [|done]); (do 2 (split; [done|])); (split; [eauto|]); simpl; lia.
Qed.

(** Reading the references stores nothing. *)
Lemma resolve_quiet m plan :
  spec (resolveMigrationContext rec m plan) (total (λ t _, statusesSent t = [])).
Proof. unfold resolveMigrationContext. repeat spec_step; done. Qed.

(** The migration goes on: it is not being deleted, has its finalizer and has not ended. *)
Definition ongoing (m : Migration) : Prop :=
  deleting (Mig_Meta m) = false ∧ ContainsFinalizer (Meta_Finalizers (Mig_Meta m)) migrationFinalizer = true ∧
  isTerminalMigrationPhase (Mig_Phase (Mig_Status m)) = false.

(** What a reconcile does after it has read the Migration [m]. *)
Record reconcilePost (m : Migration) (t : trace) (r : result ctrlResult) : Prop := {
  post_deleted : deleting (Mig_Meta m) = true → statusesSent t = [];
  post_unprotected : deleting (Mig_Meta m) = false → ContainsFinalizer (Meta_Finalizers (Mig_Meta m)) migrationFinalizer = false →
    calls t = [K8s (Update KMigration (setMigMeta (setFinalizers (AddFinalizer (Meta_Finalizers (Mig_Meta m)) migrationFinalizer) (Mig_Meta m)) m))] ∧
    ∀ cr, r = Ok cr → Requeue cr = true;
  post_ended : deleting (Mig_Meta m) = false → ContainsFinalizer (Meta_Finalizers (Mig_Meta m)) migrationFinalizer = true →
    isTerminalMigrationPhase (Mig_Phase (Mig_Status m)) = true → t = [] ∧ r = Ok noRequeue;
  post_ongoing : ongoing m → ∃ lim, sentOk lim m t r ∧
    (lim = 1 ∨ ∃ e plan, e ∈ t ∧ planRead e = Some plan ∧ lim = Z.max (Plan_MaxInFlight (Plan_Spec plan)) 1)
}.

Lemma sentOk_app lim m t t' r : statusesSent t = [] → sentOk lim m t' r → sentOk lim m (t ++ t') r.
Proof. intros H (m' & Hs & Hrest). exists m'. by rewrite statuses_app, stored_app, H, (stored_none t). Qed.

Lemma reconcile_ok req :
  spec (Reconcile fuel cbtFuel rec req) (partial (λ t r, ∀ e t' m, t = e :: t' → migrationRead e = Some m → reconcilePost m t' r)).
Proof.
  unfold Reconcile. spec_step. destruct a as [m|e].
  2:{ destruct (IsNotFound e); spec_step; intros ? ? ? [= <- <-]; done. }
  eapply (spec_partial_weaken _ (reconcilePost m)).
  2:{ intros t r H e' t' m' [= <- <-] [= <-]. done. }
  destruct (deleting _) eqn:Hd. { unfold handleDeletion. repeat spec_step; split; unfold ongoing; try congruence; intros; destruct_and?; first [congruence|done]. }
  destruct (ContainsFinalizer _ _) eqn:Hf; cbn [negb].
  2:{ repeat spec_step; split; unfold ongoing; try congruence; intros; destruct_and?; try congruence; (split; [done|]); by intros cr [= <-]. }
  destruct (isTerminalMigrationPhase _) eqn:Ht.
  { spec_step. split; unfold ongoing; try congruence; intros; destruct_and?; try congruence; done. }
  enough (∀ t r, (∃ lim, sentOk lim m t r ∧ (lim = 1 ∨ ∃ e plan, e ∈ t ∧ planRead e = Some plan ∧
    lim = Z.max (Plan_MaxInFlight (Plan_Spec plan)) 1)) → reconcilePost m t r) as Hpost.
  2:{ intros t r Hlim. split; unfold ongoing; try congruence; done. }
  spec_step. destruct a as [plan|e].
  2:{ apply total_partial. eapply spec_total_weaken; [apply setMigrationFailed_ok|]. intros t r H. apply Hpost. exists 1.
      split; [by apply (sentOk_app _ _ [_])|by left]. }
  eapply spec_bind_p; [apply total_partial, resolve_quiet|]. intros t1 [mctx|e] H1.
  - eapply spec_partial_weaken; [apply reconcileRunning_ok|]. intros t r H. apply Hpost. eexists. split; [by apply (sentOk_app _ _ (_ :: t1))|].
    right. exists (Ev (K8s (Get KPlan (mkNN (Meta_Namespace (Mig_Meta m)) (Mig_PlanRef (Mig_Spec m))))) (Ok plan)), plan. split; [by left|done].
  - apply total_partial. eapply spec_total_weaken; [apply setMigrationFailed_ok|]. intros t r H. apply Hpost. exists 1.
    split; [by apply (sentOk_app _ _ (_ :: t1))|by left].
Qed.

(** C6: what a reconcile does to a Migration, in every environment. When [Reconcile] returns
    after reading the Migration [m]:
    - if [m] goes on, exactly one status is sent to the API server, and it is a safe successor of the one
      read: metadata and spec unchanged, no VM lost or reordered, terminal VMs untouched, and at most
      MaxInFlight VMs of the plan it read in flight (or as many as before). An error is returned exactly when
      the status was not stored; otherwise the Migration is requeued exactly when the phase stored is not
      terminal: no migration is left behind;
    - if it has no finalizer, the finalizer is added, nothing else is done and the Migration is requeued;
    - if it has ended, nothing is done; if it is being deleted, no status is sent. *)
Theorem reconcile_safe req w r e t m :
  run (Reconcile fuel cbtFuel rec req) w = Done r →
  traceOf (Reconcile fuel cbtFuel rec req) w = e :: t → migrationRead e = Some m → reconcilePost m t r.
Proof. intros Hrun Ht Hm. exact (spec_run _ _ _ _ (reconcile_ok req) Hrun e t m Ht Hm). Qed.

(** A finished Migration stays finished: once its phase is terminal (and it is not being
    deleted), a reconcile reads it and does nothing else. *)
Theorem terminal_migration_stable req w w' m :
  handle (K8s (Get KMigration req)) w = (w', Ok m) →
  deleting (Mig_Meta m) = false → ContainsFinalizer (Meta_Finalizers (Mig_Meta m)) migrationFinalizer = true →
  isTerminalMigrationPhase (Mig_Phase (Mig_Status m)) = true →
  Reconcile fuel cbtFuel rec req w = mkRes [Ev (K8s (Get KMigration req)) (Ok m)] w' (Done (Ok noRequeue)).
Proof.
  intros Hg Hd Hf Ht. unfold Reconcile, k8s, perform, bind at 1. rewrite Hg. simpl. by rewrite Hd, Hf, Ht.
Qed.

(** C40: Deleting a running Migration blocks it. Every reconcile of a Migration that is being
    deleted while its phase is Running, with the finalizer in place, reads it, asks to be
    run again in 10 seconds and does nothing else: no VM is advanced, cancelled or cleaned
    up, so nothing the operator does ever ends the Running phase or releases the object. *)
Theorem deletion_blocks_running req w w' m :
  handle (K8s (Get KMigration req)) w = (w', Ok m) →
  deleting (Mig_Meta m) = true → ContainsFinalizer (Meta_Finalizers (Mig_Meta m)) migrationFinalizer = true →
  Mig_Phase (Mig_Status m) = MigrationPhaseRunning →
  Reconcile fuel cbtFuel rec req w =
    mkRes [Ev (K8s (Get KMigration req)) (Ok m)] w' (Done (Ok (mkCtrlResult false (10 * Duration.Second)))).
Proof.
  intros Hg Hd Hf Hp. unfold Reconcile, k8s, perform, bind at 1. rewrite Hg. simpl. rewrite Hd. unfold handleDeletion.
  by rewrite Hf, bool_decide_eq_true_2.
Qed.

Lemma setMigrationFailed_abandons m msg :
  spec (setMigrationFailed rec m msg) (total (λ t _, ∃ m', statusesSent t = [m'] ∧
    Mig_Phase (Mig_Status m') = MigrationPhaseFailed ∧ Mig_VMs (Mig_Status m') = Mig_VMs (Mig_Status m) ∧
    Forall (λ ev, isNx ev = false) t ∧ gaugeDecs t = 0%nat)).
Proof. unfold setMigrationFailed, recordEvent. repeat spec_step; eexists; (split; [reflexivity|]); by repeat constructor. Qed.

(** Failing to read the plan abandons the VMs in flight. When the read of the plan fails,
    for whatever reason, a running Migration is stored as Failed with its VMs as they were,
    in flight or not: Prism is not called to clean up after them, and the gauge of active
    migrations is not decremented. *)
Theorem unresolved_plan_abandons_vms req w w1 w2 m err :
  handle (K8s (Get KMigration req)) w = (w1, Ok m) →
  deleting (Mig_Meta m) = false → ContainsFinalizer (Meta_Finalizers (Mig_Meta m)) migrationFinalizer = true →
  Mig_Phase (Mig_Status m) = MigrationPhaseRunning →
  handle (K8s (Get KPlan (mkNN (Meta_Namespace (Mig_Meta m)) (Mig_PlanRef (Mig_Spec m))))) w1 = (w2, Err err) →
  ∃ m' r t, run (Reconcile fuel cbtFuel rec req) w = Done r ∧ traceOf (Reconcile fuel cbtFuel rec req) w = t ∧
    statusesSent t = [m'] ∧ Mig_Phase (Mig_Status m') = MigrationPhaseFailed ∧
    Mig_VMs (Mig_Status m') = Mig_VMs (Mig_Status m) ∧
    Forall (λ ev, isNx ev = false) t ∧ gaugeDecs t = 0%nat.
Proof.
  intros Hg Hd Hf Hp Hplan.
  set (msg := "MigrationPlan " +s+ quoted (Mig_PlanRef (Mig_Spec m)) +s+ " not found: " +s+ errText err).
  assert (∃ e1 e2, Reconcile fuel cbtFuel rec req w = mkRes (e1 :: e2 :: r_trace (setMigrationFailed rec m msg w2))
    (r_world (setMigrationFailed rec m msg w2)) (r_out (setMigrationFailed rec m msg w2)) ∧
    statusSent e1 = None ∧ statusSent e2 = None ∧ isNx e1 = false ∧ isNx e2 = false ∧ gaugeDecs [e1; e2] = 0%nat)
    as (e1 & e2 & HR & Hs1 & Hs2 & Hn1 & Hn2 & Hg12).
  { exists (Ev (K8s (Get KMigration req)) (Ok m)),
      (Ev (K8s (Get KPlan (mkNN (Meta_Namespace (Mig_Meta m)) (Mig_PlanRef (Mig_Spec m))))) (Err err)). split; [|by repeat split].
    unfold Reconcile, k8s, perform, bind at 1. rewrite Hg. simpl. rewrite Hd, Hf, Hp. simpl. unfold bind. rewrite Hplan. reflexivity. }
  destruct (spec_returns _ _ w2 (setMigrationFailed_abandons m msg)) as (r & Hr & m' & H1 & H2 & H3 & H4 & H5).
  exists m', r. eexists. unfold run, traceOf. rewrite HR. split; [exact Hr|]. split; [reflexivity|].
  split; [unfold statusesSent; csimpl; by rewrite Hs1, Hs2|]. split; [done|]. split; [done|]. split; [by repeat constructor|].
  revert Hg12 H5. unfold gaugeDecs, calls. csimpl. rewrite !length_zero_iff_nil. simpl.
  destruct (match ev_call e1 with Obs ActiveMigrationsDec => true | _ => false end); [done|].
  by destruct (match ev_call e2 with Obs ActiveMigrationsDec => true | _ => false end).
Qed.

End Reconcile.

(** ** Concrete runs *)

Import RefMachinery.

Lemma max_in_flight_witness :
  ∃ vms' b, run (advanceVMs (E := serving) 20 5 sampleReconciler (sampleContext MigrationTypeCold) 1
      [sampleStatus VMPhasePending; sampleStatus VMPhasePending]) tt = Done (vms', b) ∧
    countActive vms' ≤ 1 ∧ b = true.
Proof.
  destruct (run (advanceVMs (E := serving) 20 5 sampleReconciler (sampleContext MigrationTypeCold) 1
    [sampleStatus VMPhasePending; sampleStatus VMPhasePending]) tt) as [[vms' b]| |] eqn:Er;
    [|vm_compute in Er; discriminate Er..].
  exists vms', b. split; [reflexivity|].
  destruct (max_in_flight (E := serving) 20 5 sampleReconciler (sampleContext MigrationTypeCold) 1
    [sampleStatus VMPhasePending; sampleStatus VMPhasePending] tt vms' b Er) as (H & _ & _).
  split; [exact H|]. vm_compute in Er. injection Er as _ <-. reflexivity.
Defined.

(** The sample Migration with the finalizer, in a given phase. *)
Definition storedMigration (p : MigrationPhase) (deletion : option Z) : Migration :=
  mkMigration (mkObjectMeta "mig" "default" "uid" 1 ∅ ∅ [migrationFinalizer] [] deletion) (mkMigrationSpec "plan" None [])
    (mkMigrationStatus p None None [sampleStatus VMPhaseImportDisks] []).

(** A cluster that holds that Migration, and its plan or not, with Prism out of reach. *)
Definition holding (m : Migration) (plan : result MigrationPlan) : Env unit :=
  RefEnv.fixed RefEnv.nxRefuse (λ k key, match k return result (obj k) with KMigration => Ok m | KPlan => plan | k => k8sServe k key end) (Ok tt).

Definition sampleKey : NamespacedName := mkNN "default" "mig".

Lemma reconcile_safe_witness :
  let E0 := holding (storedMigration MigrationPhaseRunning None) (Ok (samplePlan MigrationTypeCold)) in
  let m := Reconcile (E := E0) (AM := machinery) 20 5 sampleReconciler sampleKey in
  ongoing (AM := machinery) (storedMigration MigrationPhaseRunning None) ∧ length (statusesStored (traceOf m tt)) = 1%nat ∧
  ∃ e t, traceOf m tt = e :: t ∧ reconcilePost (AM := machinery) (storedMigration MigrationPhaseRunning None) t (Ok noRequeue).
Proof.
  intros E0 m. split; [by vm_compute|]. split; [vm_compute; reflexivity|]. destruct (traceOf m tt) as [|e t] eqn:Ht; [vm_compute in Ht; discriminate Ht|].
  exists e, t. split; [reflexivity|].
  apply (reconcile_safe (E := E0) (AM := machinery) 20 5 sampleReconciler sampleKey tt (Ok noRequeue) e t _ ltac:(vm_compute; reflexivity) Ht).
  vm_compute in Ht. injection Ht as <- _. reflexivity.
Defined.

Lemma terminal_migration_stable_witness :
  r_out (Reconcile (E := holding (storedMigration MigrationPhaseCompleted None) (Err RefEnv.notFound)) 20 5 sampleReconciler sampleKey tt) =
    Done (Ok noRequeue).
Proof.
  rewrite (terminal_migration_stable (E := holding (storedMigration MigrationPhaseCompleted None) (Err RefEnv.notFound)) 20 5
    sampleReconciler sampleKey tt tt (storedMigration MigrationPhaseCompleted None)); reflexivity.
Defined.

Lemma deletion_blocks_running_witness :
  r_out (Reconcile (E := holding (storedMigration MigrationPhaseRunning (Some 1)) (Err RefEnv.notFound)) 20 5 sampleReconciler sampleKey tt) =
    Done (Ok (mkCtrlResult false (10 * Duration.Second))).
Proof.
  rewrite (deletion_blocks_running (E := holding (storedMigration MigrationPhaseRunning (Some 1)) (Err RefEnv.notFound)) 20 5
    sampleReconciler sampleKey tt tt (storedMigration MigrationPhaseRunning (Some 1))); reflexivity.
Defined.

Lemma unresolved_plan_abandons_vms_witness :
  ∃ m' t, traceOf (Reconcile (E := holding (storedMigration MigrationPhaseRunning None) (Err RefEnv.notFound)) 20 5
      sampleReconciler sampleKey) tt = t ∧
    statusesSent t = [m'] ∧ Phase <$> Mig_VMs (Mig_Status m') = [VMPhaseImportDisks].
Proof.
  destruct (unresolved_plan_abandons_vms (AM := machinery) (E := holding (storedMigration MigrationPhaseRunning None) (Err RefEnv.notFound)) 20 5
    sampleReconciler sampleKey tt tt tt (storedMigration MigrationPhaseRunning None) RefEnv.notFound eq_refl eq_refl eq_refl eq_refl eq_refl)
    as (m' & r & t & _ & Ht & Hs & _ & Hv & _).
  exists m', t. split; [exact Ht|]. split; [exact Hs|]. rewrite Hv. reflexivity.
Defined.
