(* ===== verification/Observability.v ===== *)
(** * Metrics (internal/observability/metrics.go)

    The four Prometheus metrics of the operator and what the controllers' calls do to them. *)

From S2P Require Import Prelude GoLib NutanixTypes ApiTypes Env Disks Builder Transfer Validation Pipeline Samples Resources Migration Lifecycle Footprint Reconciler.

(** ** The metrics *)

(** [prometheus.ExponentialBuckets], which panics on bounds that do not grow *)
Definition ExponentialBuckets (start factor : Z) (count : nat) : option (list Z) :=
  if (count <? 1)%nat || (start <=? 0) || (factor <=? 1) then None
  else Some ((λ i, start * factor ^ Z.of_nat i) <$> seq 0 count).

Inductive metricKind := CounterVec | HistogramVec (buckets : list Z) | Gauge.

(** A collector: its name, its kind and its labels. *)
Record collector := mkCollector { Collector_Name : string; Collector_Kind : metricKind; Collector_Labels : list string }.

Definition MigrationsTotal : collector := mkCollector "vma_migrations_total" CounterVec ["status"].
Definition MigrationDurationSeconds : option collector :=
  buckets ← ExponentialBuckets 60 2 10; Some (mkCollector "vma_migration_duration_seconds" (HistogramVec buckets) ["vm"]).
Definition DiskTransferBytes : collector := mkCollector "vma_disk_transfer_bytes" CounterVec ["vm"].
Definition ActiveMigrations : collector := mkCollector "vma_active_migrations" Gauge [].

(** [MustRegister] panics when a name is taken. *)
Fixpoint MustRegister (registry cs : list collector) : option (list collector) :=
  match cs with
  | [] => Some registry
  | c :: cs =>
      if existsb (λ d, Collector_Name d =s Collector_Name c) registry then None
      else MustRegister (registry ++ [c]) cs
  end.

(** [init] *)
Definition register (registry : list collector) : option (list collector) :=
  duration ← MigrationDurationSeconds; MustRegister registry [MigrationsTotal; duration; DiskTransferBytes; ActiveMigrations].

(** ** Their values *)

(** A histogram: the observations up to each bound, their number and their sum in nanoseconds. *)
Record histogram := mkHistogram { Hist_Counts : list Z; Hist_Count : Z; Hist_Sum : Z }.

Record metrics := mkMetrics {
  M_MigrationsTotal : gmap string Z;
  M_Duration : gmap string histogram;
  M_DiskTransferBytes : gmap string Z;
  M_ActiveMigrations : Z
}.

Definition noMetrics : metrics := mkMetrics ∅ ∅ ∅ 0.

Definition bump (label : string) (n : Z) (m : gmap string Z) : gmap string Z := <[label := default 0 (m !! label) + n]> m.

Definition durationBuckets : list Z := default [] (ExponentialBuckets 60 2 10).

Definition Observe (nanoseconds : Z) (h : histogram) : histogram :=
  mkHistogram (zip_with (λ bound n, if nanoseconds <=? bound * Duration.Second then n + 1 else n) durationBuckets (Hist_Counts h))
    (Hist_Count h + 1) (Hist_Sum h + nanoseconds).

Definition emptyHistogram : histogram := mkHistogram (replicate (length durationBuckets) 0) 0 0.

(** What a call does to the metrics; events are not metrics. *)
Definition observe (c : obscall) (m : metrics) : metrics :=
  match c with
  | Eventf _ _ _ => m
  | MigrationsTotalInc status => mkMetrics (bump status 1 (M_MigrationsTotal m)) (M_Duration m) (M_DiskTransferBytes m) (M_ActiveMigrations m)
  | ActiveMigrationsInc => mkMetrics (M_MigrationsTotal m) (M_Duration m) (M_DiskTransferBytes m) (M_ActiveMigrations m + 1)
  | ActiveMigrationsDec => mkMetrics (M_MigrationsTotal m) (M_Duration m) (M_DiskTransferBytes m) (M_ActiveMigrations m - 1)
  | DiskTransferBytesAdd vm bytes => mkMetrics (M_MigrationsTotal m) (M_Duration m) (bump vm bytes (M_DiskTransferBytes m)) (M_ActiveMigrations m)
  | MigrationDurationObserve vm ns =>
      mkMetrics (M_MigrationsTotal m) (<[vm := Observe ns (default emptyHistogram (M_Duration m !! vm))]> (M_Duration m))
        (M_DiskTransferBytes m) (M_ActiveMigrations m)
  end.

(** The metrics after a trace. *)
Definition metricsAfter (t : trace) (m : metrics) : metrics :=
  foldl (λ m c, match c with Obs o => observe o m | _ => m end) m (calls t).

(** ** The gauge of active migrations *)

Definition gaugeOf (t : trace) : Z := M_ActiveMigrations (metricsAfter t noMetrics).

Definition gaugeStep (c : call) : Z := match c with Obs ActiveMigrationsInc => 1 | Obs ActiveMigrationsDec => -1 | _ => 0 end.

Lemma metricsAfter_gauge t m : M_ActiveMigrations (metricsAfter t m) = M_ActiveMigrations m + gaugeOf t.
Proof.
  unfold gaugeOf, metricsAfter. enough (∀ cs m, M_ActiveMigrations (foldl (λ m c, match c with Obs o => observe o m | _ => m end) m cs) =
    M_ActiveMigrations m + foldr (λ c n, gaugeStep c + n) 0 cs) as H by (rewrite !H; simpl; lia).
  induction cs as [|c cs IH]; intros m'; simpl; [lia|]. rewrite IH. destruct c as [| |[]| |]; simpl; lia.
Qed.

Lemma gaugeOf_app t t' : gaugeOf (t ++ t') = gaugeOf t + gaugeOf t'.
Proof.
  change (gaugeOf t + gaugeOf t') with (M_ActiveMigrations (metricsAfter t noMetrics) + gaugeOf t'). rewrite <- metricsAfter_gauge.
  unfold gaugeOf, metricsAfter. by rewrite calls_app, foldl_app.
Qed.

Lemma gaugeOf_still t : Forall (λ c, gaugeStep c = 0) (calls t) → gaugeOf t = 0.
Proof.
  induction t as [|e t IH]; [done|]. intros H. apply Forall_cons in H as [He H].
  rewrite (gaugeOf_app [e] t : gaugeOf (e :: t) = _), IH by done. unfold gaugeOf. destruct e as [[| |[]| |] a]; simpl in *; lia.
Qed.

(** A migration counts as active while it is Running. *)
Definition activeCount (m : Migration) : Z := if bool_decide (Mig_Phase (Mig_Status m) = MigrationPhaseRunning) then 1 else 0.

Section Gauge.
Context {W : Type} `{E : Env W} `{AM : ApiMachinery} (fuel cbtFuel : nat) (rec : MigrationReconciler).

Lemma start_gauge m plan : spec (startMigration rec m plan) (total (λ t _, gaugeOf t = 1 ∧ statusesSent t = [])).
Proof. unfold startMigration, recordEvent. by repeat spec_step. Qed.

Lemma overall_gauge m :
  spec (updateOverallStatus rec m) (total (λ t m', gaugeOf t = activeCount m' - 1 ∧ statusesSent t = [])).
Proof.
  unfold updateOverallStatus, finish, recordEvent. destruct (countPhases _ _ _ _) as [[c f] x].
  repeat spec_step; done.
Qed.

Lemma advance_gauge mctx lim vms :
  spec (advanceVMs fuel cbtFuel rec mctx lim vms) (partial (λ t _, gaugeOf t = 0 ∧ statusesSent t = [])).
Proof.
  eapply spec_partial_weaken; [apply within_partial, within_advanceVMsLoop|]. intros t [l b] H. split.
  - apply gaugeOf_still. eapply Forall_impl; [exact H|]. by intros [| |[]| |].
  - apply statuses_workload. eapply Forall_impl; [exact H|]. apply phaseCall_workload.
Qed.

Lemma running_gauge m plan mctx : isTerminalMigrationPhase (Mig_Phase (Mig_Status m)) = false →
  spec (reconcileRunning fuel cbtFuel rec m plan mctx)
    (partial (λ t _, ∃ m', statusesSent t = [m'] ∧ gaugeOf t = activeCount m' - activeCount m)).
Proof.
  intros Hp. unfold reconcileRunning.
  eapply (spec_bind_p _ _ (λ t _, gaugeOf t = 1 - activeCount m ∧ statusesSent t = [])).
  { unfold activeCount. destruct (Mig_Phase (Mig_Status m)); try discriminate Hp; simpl;
      [apply total_partial, start_gauge|apply total_partial, start_gauge|by spec_step]. }
  intros t1 m1 [G1 S1]. eapply spec_bind_p; [apply total_partial, processCancellations_exact|]. intros t2 vms [_ Hn].
  assert (gaugeOf t2 = 0 ∧ statusesSent t2 = []) as [G2 S2].
  { split; [apply gaugeOf_still|apply statuses_none]; eapply Forall_impl; [exact Hn|by intros ? ->|exact Hn|by intros ? ->]. }
  eapply spec_bind_p; [apply advance_gauge|]. intros t3 [vms' b] [G3 S3]. eapply spec_bind_p; [apply total_partial, overall_gauge|].
  intros t4 m4 [G4 S4]. repeat spec_step; exists m4; rewrite !statuses_app, S1, S2, S3, S4, !gaugeOf_app, G1, G2, G3, G4; (split; [done|]);
    unfold gaugeOf; simpl; lia.
Qed.

Lemma failed_gauge m msg :
  spec (setMigrationFailed rec m msg) (total (λ t _, gaugeOf t = 0 ∧ ∃ m', statusesSent t = [m'] ∧
    Mig_Phase (Mig_Status m') = MigrationPhaseFailed)).
Proof. unfold setMigrationFailed, recordEvent. repeat spec_step; (split; [done|]); by eexists. Qed.

(** The plan or one of its references could not be read, or the client could not be made: the calls
    [t] after the read of the Migration [m] say so. *)
Definition unresolved (m : Migration) (t : trace) : Prop :=
  (∃ e t', t = Ev (K8s (Get KPlan (mkNN (Meta_Namespace (Mig_Meta m)) (Mig_PlanRef (Mig_Spec m))))) (Err e) :: t') ∨
  (∃ plan t1 e t2, t = Ev (K8s (Get KPlan (mkNN (Meta_Namespace (Mig_Meta m)) (Mig_PlanRef (Mig_Spec m))))) (Ok plan) :: t1 ++ t2 ∧
     does (resolveMigrationContext rec m plan) t1 (Err e)).

(** What a reconcile that read [m] does to the gauge. *)
Definition gaugePost (m : Migration) (t : trace) : Prop :=
  (statusesSent t = [] ∧ gaugeOf t = 0) ∨
  ∃ m', statusesSent t = [m'] ∧
    ((unresolved m t ∧ Mig_Phase (Mig_Status m') = MigrationPhaseFailed ∧ gaugeOf t = 0) ∨
     gaugeOf t = activeCount m' - activeCount m).

Lemma resolve_gauge m plan :
  spec (resolveMigrationContext rec m plan) (total (λ t _, gaugeOf t = 0 ∧ statusesSent t = [])).
Proof. unfold resolveMigrationContext. by repeat spec_step. Qed.

Lemma gaugeOf_cons e t : gaugeOf (e :: t) = gaugeOf [e] + gaugeOf t.
Proof. exact (gaugeOf_app [e] t). Qed.

Lemma reconcile_gauge req :
  spec (Reconcile fuel cbtFuel rec req) (partial (λ t _, ∀ e t' m, t = e :: t' → migrationRead e = Some m → gaugePost m t')).
Proof.
  unfold Reconcile. spec_step. destruct a as [m|e].
  2:{ destruct (IsNotFound e); spec_step; intros ? ? ? [= <- <-]; done. }
  eapply (spec_partial_weaken _ (λ t _, gaugePost m t)).
  2:{ intros t r H e' t' m' [= <- <-] [= <-]. done. }
  destruct (deleting _). { unfold handleDeletion. repeat spec_step; by left. }
  destruct (negb _). { repeat spec_step; by left. }
  destruct (isTerminalMigrationPhase _) eqn:Hp; [spec_step; by left|].
  spec_step. destruct a as [plan|e].
  2:{ apply total_partial. eapply spec_total_weaken; [apply failed_gauge|]. intros t r (Hg & m' & Hs & Hph). right. exists m'.
      split; [exact Hs|]. left. split; [left; eauto|]. split; [done|]. by rewrite gaugeOf_cons, Hg. }
  eapply spec_bind_p; [apply spec_does, total_partial, resolve_gauge|]. intros t1 [mctx|e] [Hdo [G1 S1]].
  - eapply spec_partial_weaken; [by apply running_gauge|]. intros t r (m' & Hs & Hg). right. exists m'.
    split; [change (statusesSent (t1 ++ t) = [m']); by rewrite statuses_app, S1|]. right.
    rewrite gaugeOf_cons, gaugeOf_app, G1, Hg. unfold gaugeOf at 1. simpl. lia.
  - apply total_partial. eapply spec_total_weaken; [apply failed_gauge|]. intros t r (Hg & m' & Hs & Hph). right. exists m'.
    split; [change (statusesSent (t1 ++ t) = [m']); by rewrite statuses_app, S1|]. left. split; [right; eauto 10|]. split; [done|].
    by rewrite gaugeOf_cons, gaugeOf_app, G1, Hg.
Qed.

(** C33: how the gauge of active migrations follows the phases. A reconcile that returns after reading
    the Migration [m] moves the gauge by the difference between the phase it sends to the API server and the
    phase it read: up when the migration starts, down when it ends, and not at all when it sends no status.
    So a reconcile whose status is stored keeps the gauge in step with the stored phases. There
    are two exceptions. When the plan or its references do not resolve, the migration is sent as Failed and the
    gauge does not move: it stays one too high for ever if the migration was Running. And when
    the API server rejects the status, nothing is stored but the gauge has moved all the same. *)
Theorem gauge_moves_exactly req w r e t m :
  run (Reconcile fuel cbtFuel rec req) w = Done r →
  traceOf (Reconcile fuel cbtFuel rec req) w = e :: t → migrationRead e = Some m →
  (∀ before, M_ActiveMigrations (metricsAfter t before) = M_ActiveMigrations before + gaugeOf t) ∧
  ((statusesSent t = [] ∧ gaugeOf t = 0) ∨
   ∃ m', statusesSent t = [m'] ∧
     ((unresolved m t ∧ Mig_Phase (Mig_Status m') = MigrationPhaseFailed ∧ gaugeOf t = 0) ∨
      (statusesStored t = [m'] ∧ gaugeOf t = activeCount m' - activeCount m) ∨
      (statusesStored t = [] ∧ gaugeOf t = activeCount m' - activeCount m))).
Proof.
  intros Hrun Ht Hm. split; [intros before; apply metricsAfter_gauge|].
  destruct (spec_run _ _ _ _ (reconcile_gauge req) Hrun e t m Ht Hm) as [H|(m' & Hs & [H|H])]; [by left|right; exists m'; by auto..|].
  right. exists m'. split; [done|]. right. destruct (statusesStored t) as [|m1 l] eqn:Hst; [by right|left]. split; [|done].
  pose proof (stored_length t) as Hl. rewrite Hst, Hs in Hl. simpl in Hl. destruct l; [|simpl in Hl; lia].
  assert (m1 ∈ statusesSent t) as Hin by (apply stored_sent; rewrite Hst; left). rewrite Hs in Hin. by apply list_elem_of_singleton in Hin as ->.
Qed.

End Gauge.

Lemma gauge_moves_exactly_witness :
  let E0 := holding (storedMigration MigrationPhaseRunning None) (Ok (samplePlan MigrationTypeCold)) in
  let m := Reconcile (E := E0) (AM := RefMachinery.machinery) 20 5 sampleReconciler sampleKey in
  M_ActiveMigrations (metricsAfter (traceOf m tt) noMetrics) = -1 ∧ register [] ≠ None ∧
  ∃ e t m', traceOf m tt = e :: t ∧ statusesStored t = [m'] ∧ gaugeOf t = activeCount m' - 1.
Proof.
  intros E0 m. split; [vm_compute; reflexivity|]. split; [vm_compute; discriminate|].
  destruct (traceOf m tt) as [|e t] eqn:Ht; [vm_compute in Ht; discriminate Ht|]. exists e, t.
  assert (migrationRead e = Some (storedMigration MigrationPhaseRunning None)) as Hm by (vm_compute in Ht; injection Ht as <- _; reflexivity).
  assert (run m tt = Done (Ok noRequeue)) as Hrun by (vm_compute; reflexivity).
  assert (length (statusesStored t) = 1%nat ∧ gaugeOf t = -1) as [Hl Hg] by (vm_compute in Ht; injection Ht as _ <-; vm_compute; done).
  destruct (gauge_moves_exactly (E := E0) (AM := RefMachinery.machinery) 20 5 sampleReconciler sampleKey tt _ e t _ Hrun Ht Hm)
    as [_ [[_ Hz]|(m' & _ & [(_ & _ & Hz)|[[Hs Hd]|[Hs _]]])]]; [rewrite Hg in Hz; discriminate Hz|rewrite Hg in Hz; discriminate Hz| |rewrite Hs in Hl; discriminate Hl].
  exists m'. split; [reflexivity|]. split; [exact Hs|exact Hd].
Defined.
