(* ===== verification/WarmProperties.v ===== *)
(** * Properties of the warm phases

    When Precopy ends, what the changed-region query collects, and two behaviours of the
    delta rounds. *)

From S2P Require Import Prelude GoLib NutanixTypes ApiTypes Env Disks Builder Transfer Pipeline Hooks ColdPhases WarmPhases.
From S2P Require Import Resources Footprint Validation Samples.

Section WarmProperties.
Context {W : Type} `{E : Env W} (cbtFuel : nat) (mctx : migrationContext).

(** ** Leaving Precopy *)

(** A handler that never reports its phase as complete. *)
Definition neverDone (h : handler W) : Prop := ∀ v, spec (h v) (partial (λ _ vr, Result_Completed vr.2 = false)).

Lemma runDeltaRound_neverDone label h : neverDone h → neverDone (runDeltaRound cbtFuel mctx label h).
Proof.
  intros Hh v. unfold runDeltaRound. destruct (Warm v) as [warm|]; [|by spec_step].
  eapply (spec_bind_p _ _ (λ _ _, True)); [intros w; by destruct (r_out _)|]. intros t1 [warm1 [e|]] _; [by spec_step|].
  spec_step. destruct a as [vm|e]; [|by spec_step].
  eapply (spec_bind_p _ _ (λ _ _, True)); [intros w; by destruct (r_out _)|]. intros t2 [images [[i e]|]] _; [by spec_step|].
  unfold deltaDisk. destruct (_ <=? _); [apply Hh|]. spec_step. destruct a as [info|e]; [|by spec_step].
  destruct (index _ _) as [disk|]; [|by spec_step].
  eapply (spec_bind_p _ _ (λ _ _, True)); [intros w; by destruct (r_out _)|]. intros t3 [regions|e] _; [|by spec_step].
  destruct regions as [|reg regions].
  - destruct (_ <=? _); [apply Hh|by spec_step].
  - unfold startDeltaPod, BuildDeltaPod. repeat spec_step; done.
Qed.

Lemma finalizePrecopyRound_neverDone : neverDone (finalizePrecopyRound mctx).
Proof.
  intros v. unfold finalizePrecopyRound. destruct (Warm v) as [warm|]; [|by spec_step].
  do 2 (eapply (spec_bind_p _ _ (λ _ _, True)); [intros w; by destruct (r_out _)|]; intros ? [] _). by repeat spec_step.
Qed.

Lemma checkDeltaPod_neverDone : neverDone (checkDeltaPod mctx).
Proof. intros v. unfold checkDeltaPod, getPodPhase, deletePod, deleteConfigMap. repeat spec_step; done. Qed.

Lemma precopy_done v :
  spec (phasePrecopy cbtFuel mctx v) (partial (λ t vr, Result_Completed vr.2 = true →
    vr.1 = v ∧ ∃ cut n, Mig_Cutover (Mig_Spec (Ctx_Migration mctx)) = Some cut ∧ Ev Now n ∈ t ∧ cut < n)).
Proof.
  unfold phasePrecopy. destruct (Warm v) as [warm|]; [|by spec_step].
  assert (∀ (h : handler W) (t0 : trace), neverDone h → spec (h v) (partial (λ t vr, Result_Completed vr.2 = true →
    vr.1 = v ∧ ∃ cut n, Mig_Cutover (Mig_Spec (Ctx_Migration mctx)) = Some cut ∧ Ev Now n ∈ t0 ++ t ∧ cut < n))) as Hnever.
  { intros h t0 Hh. eapply spec_partial_weaken; [apply Hh|]. intros t vr H. by rewrite H. }
  eapply (spec_bind_p _ _ (λ t (b : bool), b = true → ∃ cut n,
    Mig_Cutover (Mig_Spec (Ctx_Migration mctx)) = Some cut ∧ Ev Now n ∈ t ∧ cut < n)).
  { unfold isCutoverTime. repeat spec_step; try done. intros Hlt. apply Z.ltb_lt in Hlt. do 2 eexists.
    split; [done|]. split; [|exact Hlt]. by left. }
  intros t cut Hcut. destruct cut.
  - destruct (Hcut eq_refl) as (c & n & H1 & H2 & H3). unfold getPodPhase.
    repeat spec_step; intros Hr; try discriminate Hr; (split; [done|]); exists c, n; (split; [done|]); (split; [set_solver|done]).
  - destruct (_ <>s _); [apply Hnever, checkDeltaPod_neverDone|]. destruct (_ <=? _); [by spec_step|].
    eapply (spec_bind_p _ _ (λ _ _, True)); [intros w; by destruct (r_out _)|]. intros t1 [] _; [by spec_step|].
    eapply spec_partial_weaken.
    { apply (Hnever _ (t ++ t1)). apply runDeltaRound_neverDone, finalizePrecopyRound_neverDone. }
    intros t2 vr H Hr. destruct (H Hr) as (Hv & c & n & H1 & H2 & H3). rewrite <- app_assoc in H2. eauto 10.
Qed.

(** A warm VM leaves Precopy only at its cutover. In every environment, when the phase
    completes, the Migration has a cutover time, the clock was read during the call and
    was past it, and the VM's status is unchanged; until then the source VM, which the next
    phase powers off, keeps running. *)
Theorem precopy_ends_at_cutover v w v' r :
  run (phasePrecopy cbtFuel mctx v) w = Done (v', r) → Result_Completed r = true →
  v' = v ∧ ∃ cut n, Mig_Cutover (Mig_Spec (Ctx_Migration mctx)) = Some cut ∧
    Ev Now n ∈ traceOf (phasePrecopy cbtFuel mctx v) w ∧ cut < n.
Proof. intros Hrun Hr. exact (spec_run _ _ _ _ (precopy_done v) Hrun Hr). Qed.

(** ** Changed regions *)

(** The pages of a changed-region query. *)
Definition pageRead (e : event) : option (list ChangedRegion) :=
  match e with Ev (Nx _ (GetChangedRegions _ _ _ _ _ _ _ _)) (Ok p) => Some (Regions_Regions p) | _ => None end.

(** Prism's paging: a continuation lies beyond the offset asked for and within the disk. *)
Definition pagesForward (size : Z) : Prop :=
  ∀ url jwt vm snap base off w w' p next,
    handle (Nx (Ctx_Client mctx) (GetChangedRegions url jwt vm snap base off size CBTBlockSize)) w = (w', Ok p) →
    Regions_NextOffset p = Some next → off < next ≤ size.

Lemma cbtLoop_pages n info v warm size off acc :
  spec (cbtLoop mctx n info v warm size off acc) (partial (λ t r,
    ∀ regions, r = Ok regions → regions = acc ++ concat (omap pageRead t))).
Proof.
  revert off acc. induction n as [|n IH]; intros off acc; cbn [cbtLoop]; [by spec_step|].
  spec_step. destruct a as [p|e]; [|by spec_step]. destruct (Regions_NextOffset p) as [next|].
  - eapply spec_partial_weaken; [apply IH|]. intros t r H regions Hr. rewrite (H regions Hr). csimpl. by rewrite <- app_assoc.
  - spec_step. intros regions [= <-]. csimpl. by rewrite app_nil_r.
Qed.

Lemma cbtLoop_terminates n info v warm size off acc w :
  pagesForward size → off ≤ size → size - off < Z.of_nat n →
  ∃ r, run (cbtLoop mctx n info v warm size off acc) w = Done r.
Proof.
  intros Hp. revert off acc w. induction n as [|n IH]; intros off acc w Hoff Hn; [lia|]. unfold run in *. cbn [cbtLoop].
  unfold bind, nx, perform.
  destruct (handle _ w) as [w' [p|e]] eqn:Hh; simpl; [|by eexists].
  destruct (Regions_NextOffset p) as [next|] eqn:Hnext; [|by eexists].
  specialize (Hp _ _ _ _ _ _ _ _ _ _ Hh Hnext). apply IH; lia.
Qed.

(** A changed-region query of a disk terminates and collects every page. With a server
    whose continuations move forward within the disk, one unit of fuel per byte of the disk
    and one more is enough for the loop to return, and the regions it returns are those of
    all the pages it was given, in order. *)
Theorem cbt_query_complete info v warm size w :
  pagesForward size → 0 ≤ size →
  ∃ r, run (cbtLoop mctx (S (Z.to_nat size)) info v warm size 0 []) w = Done r ∧
    ∀ regions, r = Ok regions →
      regions = concat (omap pageRead (traceOf (cbtLoop mctx (S (Z.to_nat size)) info v warm size 0 []) w)).
Proof.
  intros Hp Hs. destruct (cbtLoop_terminates (S (Z.to_nat size)) info v warm size 0 [] w Hp ltac:(lia) ltac:(lia)) as [r Hr].
  exists r. split; [done|]. exact (spec_run _ _ _ _ (cbtLoop_pages _ info v warm size 0 []) Hr).
Qed.

(** ** Two behaviours of the delta rounds *)

Definition noSnapshot (c : call) : bool := match c with Nx _ (CreateRecoveryPoint _ _) => false | _ => true end.

Lemma finalSync_noSnapshot v warm :
  Warm v = Some warm → DeltaSnapshotUUID warm ≠ "" → within noSnapshot (phaseFinalSync cbtFuel mctx v).
Proof.
  intros Hw Hs. unfold phaseFinalSync. rewrite Hw.
  assert (∀ us, within noSnapshot (deleteImages (Ctx_Client mctx) us)) by (intros us; induction us; simpl; within_solve).
  assert (∀ u, within noSnapshot (deleteSnapshot (Ctx_Client mctx) u)) by (intros u; unfold deleteSnapshot; within_solve).
  assert (∀ u, within noSnapshot (finalizeFinalSync mctx u)) by (intros u; unfold finalizeFinalSync; within_solve).
  assert (∀ u, within noSnapshot (checkDeltaPod mctx u)) by
    (intros u; unfold checkDeltaPod, getPodPhase, deletePod, deleteConfigMap; within_solve).
  assert (∀ name uuid cluster i ds images, within noSnapshot (exportImages mctx name uuid cluster i ds images)) by
    (intros name uuid cluster i ds; revert i; induction ds as [|d ds IH]; intros; simpl; within_solve).
  assert (∀ n info u wm size off acc, within noSnapshot (cbtLoop mctx n info u wm size off acc)) by
    (intros n; induction n as [|n IH]; intros; simpl; within_solve).
  apply String.eqb_neq in Hs. unfold runDeltaRound, deltaSnapshot, deltaDisk, startDeltaPod, BuildDeltaPod. rewrite Hw, Hs. within_solve.
Qed.

(** A round in progress at the cutover is taken for the final sync. When the cutover
    passes between two disks of a precopy round (its snapshot taken, no pod active),
    Precopy completes without touching the round; after the power-off, FinalSync finds the
    round's snapshot, takes no new one, whatever happens, and syncs the disks against it,
    so what the VM wrote between that snapshot and the power-off is not transferred. *)
Theorem final_sync_reuses_round_snapshot v warm cut w w' n :
  Warm v = Some warm → DeltaSnapshotUUID warm ≠ "" → DeltaPodName warm = "" →
  Mig_Cutover (Mig_Spec (Ctx_Migration mctx)) = Some cut → cut ≠ zeroTime → handle Now w = (w', n) → cut < n →
  run (phasePrecopy cbtFuel mctx v) w = Done (v, completed) ∧
  ∀ w2, Forall (λ c, noSnapshot c = true) (calls (traceOf (phaseFinalSync cbtFuel mctx v) w2)).
Proof.
  intros Hw Hs Hp Hc Hz Hn Hlt. split; [|by eapply within_calls, finalSync_noSnapshot].
  unfold run, phasePrecopy. rewrite Hw. unfold isCutoverTime. rewrite Hc. apply Z.eqb_neq in Hz. rewrite Hz.
  unfold bind, now, perform. rewrite Hn. simpl. apply Z.ltb_lt in Hlt. rewrite Hlt, Hp. done.
Qed.

(** A disk added during a warm migration makes the final sync panic. When the round has an
    image for each disk the VM now has, but the VM has more data disks than DataVolumes were
    created for at the start, and the added disk has changed regions, indexing the
    DataVolume names is out of range. *)
Theorem added_disk_panics v warm vm disk info p w w1 w2 w3 :
  Warm v = Some warm → DeltaPodName warm = "" → DeltaSnapshotUUID warm ≠ "" →
  DeltaDiskIndex warm = len (DataVolumeNames v) →
  handle (Nx (Ctx_Client mctx) (GetVM (ID v))) w = (w1, Ok vm) →
  length (DeltaImageUUIDs warm) = length (filterDataDisks (VM_Disks vm)) →
  filterDataDisks (VM_Disks vm) !! length (DataVolumeNames v) = Some disk →
  handle (Nx (Ctx_Client mctx) (DiscoverClusterForCBT (ID v))) w1 = (w2, Ok info) →
  handle (Nx (Ctx_Client mctx) (GetChangedRegions (CBT_PrismElementURL info) (CBT_JWTToken info) (ID v)
    (DeltaSnapshotUUID warm) (BaseSnapshotUUID warm) 0 (getDiskSize disk) CBTBlockSize)) w2 = (w3, Ok p) →
  Regions_Regions p ≠ [] → Regions_NextOffset p = None → (1 ≤ cbtFuel)%nat →
  run (phaseFinalSync cbtFuel mctx v) w = Panic.
Proof.
  intros Hw Hpod Hs Hidx Hvm Himg Hdisk Hinfo Hreg Hne Hnext Hfuel.
  unfold run, phaseFinalSync. rewrite Hw, Hpod. simpl. unfold runDeltaRound, deltaSnapshot. rewrite Hw.
  apply String.eqb_neq in Hs. rewrite Hs. unfold bind, ret, nx, perform. simpl. rewrite Hvm. simpl.
  rewrite Himg, Nat.ltb_irrefl. simpl.
  replace (setDeltaImages (DeltaImageUUIDs warm) warm) with warm by by destruct warm.
  pose proof (lookup_lt_Some _ _ _ Hdisk) as Hlt. unfold deltaDisk. rewrite Hidx.
  destruct (Z.leb_spec (len (filterDataDisks (VM_Disks vm))) (len (DataVolumeNames v))); [unfold len in *; lia|].
  unfold bind, ret, nx, perform. rewrite Hinfo. simpl.
  assert (index (filterDataDisks (VM_Disks vm)) (len (DataVolumeNames v)) = Some disk) as ->.
  { unfold index, len. destruct (Z.ltb_spec (Z.of_nat (length (DataVolumeNames v))) 0); [lia|]. by rewrite Nat2Z.id. }
  destruct cbtFuel as [|f]; [lia|]. simpl. unfold bind, nx, perform. rewrite Hreg. simpl. rewrite Hnext. simpl.
  destruct (Regions_Regions p) as [|reg regs]; [done|].
  unfold startDeltaPod. destruct (index _ _); [|done].
  assert (index (DataVolumeNames v) (len (DataVolumeNames v)) = None) as ->; [|done].
  unfold index, len. destruct (_ <? 0); [done|]. apply lookup_ge_None_2. lia.
Qed.

End WarmProperties.

(** ** Concrete runs *)

(** The sample context with the cutover one nanosecond before the clock's zero. *)
Definition cutoverContext : migrationContext :=
  mkMigrationContext sampleClient (samplePlan MigrationTypeWarm) sampleNetworkMap sampleStorageMap sampleProvider
    (mkMigration (newMeta "mig" "default" []) (mkMigrationSpec "plan" (Some (-1)) []) (Mig_Status sampleMigration))
    sampleSecret (mkManager "https://prism:9440" "admin" "secret" "" false).

(** A VM in the middle of a precopy round. *)
Definition midRound : WarmMigrationStatus := mkWarm 1 0 0 "rp-base" ["img-base"] (Some 0) "rp-pc2" ["img-pc2"] "" 0 0.
Definition midRoundStatus (dvs : list string) : VMMigrationStatus :=
  mkVMStatus "vm-uuid-002" "win" VMPhasePrecopy None None "" "rp-base" ["img-base"] "" dvs "ON" (Some midRound).

Lemma precopy_ends_at_cutover_witness :
  ∃ cut n, Mig_Cutover (Mig_Spec (Ctx_Migration cutoverContext)) = Some cut ∧
    Ev Now n ∈ traceOf (phasePrecopy (E := serving) 5 cutoverContext (midRoundStatus ["dv-0"])) tt ∧ cut < n.
Proof.
  destruct (precopy_ends_at_cutover (E := serving) 5 cutoverContext (midRoundStatus ["dv-0"]) tt (midRoundStatus ["dv-0"]) completed
    eq_refl eq_refl) as [_ H]. exact H.
Defined.

Lemma cbt_query_complete_witness :
  ∃ r, run (cbtLoop (E := serving) cutoverContext (S (Z.to_nat 65536)) (mkCBTClusterInfo "pe" "jwt") (midRoundStatus []) midRound 65536 0 []) tt
       = Done r.
Proof.
  destruct (cbt_query_complete (E := serving) cutoverContext (mkCBTClusterInfo "pe" "jwt") (midRoundStatus []) midRound 65536 tt)
    as (r & Hr & _); [|lia|exists r; exact Hr].
  intros url jwt vm snap base off w w' p next Hh Hn. injection Hh as _ <-. discriminate Hn.
Defined.

Lemma final_sync_reuses_round_snapshot_witness :
  run (phasePrecopy (E := serving) 5 cutoverContext (midRoundStatus ["dv-0"])) tt = Done (midRoundStatus ["dv-0"], completed) ∧
  Forall (λ c, noSnapshot c = true) (calls (traceOf (phaseFinalSync (E := serving) 5 cutoverContext (midRoundStatus ["dv-0"])) tt)).
Proof.
  destruct (final_sync_reuses_round_snapshot (E := serving) 5 cutoverContext (midRoundStatus ["dv-0"]) midRound (-1) tt tt 0
    eq_refl ltac:(discriminate) eq_refl eq_refl ltac:(discriminate) eq_refl ltac:(lia)) as [H1 H2].
  split; [exact H1|exact (H2 tt)].
Defined.

Lemma added_disk_panics_witness : run (phaseFinalSync (E := serving) 5 cutoverContext (midRoundStatus [])) tt = Panic.
Proof.
  apply (added_disk_panics (E := serving) 5 cutoverContext (midRoundStatus []) midRound sampleVM
    (mkDisk "disk-002" (Some (mkDiskAddress "SCSI" 0))
       (Some (mkDiskBackingInfo "vdisk-002" (Some (mkReference "sc-1" "default")) 107374182400)) 107374182400 "DISK")
    (mkCBTClusterInfo "https://pe:9440" "token") (mkChangedRegions [mkChangedRegion 0 65536] None) tt tt tt tt);
    try reflexivity; try discriminate. lia.
Defined.
