(* ===== verification/Termination.v ===== *)
(** * A reconcile ends

    The two unbounded loops of a reconcile are the phase loop of [advanceSingleVM] and the
    paging of a changed-region query. A reconcile of a cold plan always returns; one of a
    warm plan ends when Prism's paging moves forward. Both need the phase of every VM to be
    one of its plan's order, which the stored statuses keep. *)

From S2P Require Import Prelude GoLib NutanixTypes ApiTypes Env Disks Builder Transfer Pipeline Hooks ColdPhases WarmPhases.
From S2P Require Import Resources PhaseProperties Migration Lifecycle Footprint Reconciler WarmProperties Samples.

(** ** Programs that end

    [ends strict P]: the fuel suffices, a normal return satisfies [P], and a panic is
    excluded when [strict]. *)

Section Ends.
Context {W : Type} `{E : Env W} (strict : bool).

Definition ends {A} (P : trace → A → Prop) : post A := λ t o,
  match o with Done a => P t a | Panic => strict = false | OutOfFuel => False end.

Lemma ends_total {A} (m : M W A) P : spec m (total P) → spec m (ends P).
Proof. intros H w. specialize (H w). by destruct (r_out (m w)). Qed.

Lemma ends_and {A} (m : M W A) P Q : spec m (ends P) → spec m (partial Q) → spec m (ends (λ t a, P t a ∧ Q t a)).
Proof. intros HP HQ w. specialize (HP w). specialize (HQ w). by destruct (r_out (m w)). Qed.

Lemma ends_weaken {A} (m : M W A) P Q : spec m (ends P) → (∀ t a, P t a → Q t a) → spec m (ends Q).
Proof. intros HP HQ w. specialize (HP w). destruct (r_out (m w)); simpl in *; auto. Qed.

Lemma ends_ret {A} (a : A) (P : trace → A → Prop) : P [] a → spec (ret (W := W) a) (ends P).
Proof. by intros H w. Qed.

Lemma ends_bind {A B} (m : M W A) (k : A → M W B) P Q :
  spec m (ends P) → (∀ t a, P t a → spec (k a) (ends (λ t', Q (t ++ t')))) → spec (bind m k) (ends Q).
Proof.
  intros Hm Hk w. specialize (Hm w). unfold bind. destruct (r_out (m w)); simpl in *; try done.
  exact (Hk _ _ Hm (r_world (m w))).
Qed.

(** A call, with what the environment says of its answer. *)
Lemma ends_call {B} c (k : answer c → M W B) Q :
  (∀ w w' a, handle c w = (w', a) → spec (k a) (ends (λ t', Q (Ev c a :: t')))) → spec (bind (perform c) k) (ends Q).
Proof.
  intros Hk w. unfold bind, perform. destruct (handle c w) as [w' a] eqn:Hh. simpl. exact (Hk w w' a Hh w').
Qed.

End Ends.

(** Walk through a body whose loops are already known to end; [True] is the postcondition. *)
Ltac ends_step :=
  match goal with
  | H : context [spec _ (ends _ _)] |- _ => apply H
  | |- spec (bind (nx ?cl ?c) _) _ => apply (ends_call _ (Nx cl c)); intros ? ? ? ?
  | |- spec (bind (k8s ?c) _) _ => apply (ends_call _ (K8s c)); intros ? ? ? _
  | |- spec (bind now _) _ => apply (ends_call _ Now); intros ? ? ? _
  | |- spec (bind (ret _) _) _ => apply spec_bind_ret
  | |- spec (bind (bind _ _) _) _ => apply spec_bind_assoc
  | |- spec (bind (if ?b then _ else _) _) _ => destruct b
  | |- spec (bind (match ?x with _ => _ end) _) _ => destruct x
  | |- spec (bind _ _) _ => eapply (ends_bind _ _ _ (λ _ _, True)); [|intros ? ? _]
  | |- spec (ret _) _ => by apply ends_ret
  | |- spec panic _ => by intros ?
  | |- spec (if ?b then _ else _) _ => destruct b
  | |- spec (match ?x with _ => _ end) _ => destruct x eqn:?
  end.

(** ** The warm phases *)

Section WarmEnds.
Context {W : Type} `{E : Env W} (cbtFuel : nat) (mctx : migrationContext).

(** Every data disk Prism reports is smaller than the fuel. *)
Definition disksBelow : Prop :=
  ∀ id w w' vm, handle (Nx (Ctx_Client mctx) (GetVM id)) w = (w', Ok vm) →
    ∀ d, d ∈ filterDataDisks (VM_Disks vm) → 0 ≤ getDiskSize d < Z.of_nat cbtFuel.

Notation ended m := (spec m (ends false (λ _ _, True))).

Lemma ended_total {A} (m : M W A) P : spec m (total P) → ended m.
Proof. intros H. apply ends_total. by eapply spec_total_weaken. Qed.

Lemma index_elem {A} (l : list A) i x : index l i = Some x → x ∈ l.
Proof. unfold index. destruct (_ <? 0); [done|]. apply list_elem_of_lookup_2. Qed.

Lemma deltaDisk_ends label h v warm ds :
  (∀ size, pagesForward mctx size) → (∀ u, ended (h u)) → (∀ d, d ∈ ds → 0 ≤ getDiskSize d < Z.of_nat cbtFuel) →
  ended (deltaDisk cbtFuel mctx label h v warm ds).
Proof.
  intros Hp Hh Hd. unfold deltaDisk. destruct (_ <=? _); [apply Hh|]. ends_step. destruct a as [info|e]; [|by ends_step].
  destruct (index ds (DeltaDiskIndex warm)) as [disk|] eqn:Hi; [|by ends_step].
  specialize (Hd disk (index_elem _ _ _ Hi)).
  eapply (ends_bind _ _ _ (λ _ _, True)).
  { intros w2. edestruct (cbtLoop_terminates mctx cbtFuel info v warm (getDiskSize disk) 0 [] w2) as [r Hr]; [apply Hp|lia|lia|].
    unfold run in Hr. by rewrite Hr. }
  intros t r _. unfold startDeltaPod, BuildDeltaPod. repeat ends_step.
Qed.

Lemma exportImages_ends name uuid cluster i ds images : ended (exportImages mctx name uuid cluster i ds images).
Proof. revert i images. induction ds as [|d ds IH]; intros; simpl; repeat ends_step. Qed.

Lemma runDeltaRound_ends label h v :
  (∀ size, pagesForward mctx size) → disksBelow → (∀ u, ended (h u)) → ended (runDeltaRound cbtFuel mctx label h v).
Proof.
  intros Hp Hd Hh. unfold runDeltaRound. destruct (Warm v) as [warm|]; [|by ends_step].
  eapply (ends_bind _ _ _ (λ _ _, True)); [unfold deltaSnapshot; repeat ends_step|].
  intros t [warm1 [e|]] _; [by ends_step|]. ends_step. destruct a as [vm|e]; [|by ends_step].
  eapply (ends_bind _ _ _ (λ _ _, True)).
  { destruct (_ <? _)%nat; [apply exportImages_ends|by ends_step]. }
  intros t1 [images [[i e]|]] _; [by ends_step|]. apply deltaDisk_ends; [done..|]. by eapply Hd.
Qed.

Lemma checkDeltaPod_ends v : ended (checkDeltaPod mctx v).
Proof. unfold checkDeltaPod, getPodPhase, deletePod, deleteConfigMap. repeat ends_step. Qed.

Lemma deleteImages_ends us : ended (deleteImages (Ctx_Client mctx) us).
Proof. eapply ended_total, deleteImages_calls. Qed.
Lemma deleteSnapshot_ends u : ended (deleteSnapshot (Ctx_Client mctx) u).
Proof. eapply ended_total, deleteSnapshot_calls. Qed.

(** Every phase ends. *)
Lemma executePhase_ends v :
  (∀ size, pagesForward mctx size) → disksBelow → ended (executePhase cbtFuel mctx v).
Proof.
  intros Hp Hd. destruct (isColdPhase (Phase v)) eqn:Hc; [by eapply ended_total, executePhase_cold|].
  pose proof deleteImages_ends as Hi. pose proof deleteSnapshot_ends as Hs. pose proof checkDeltaPod_ends as Hk.
  assert (∀ u, ended (finalizePrecopyRound mctx u)) as H1 by (intros u; unfold finalizePrecopyRound; repeat ends_step).
  assert (∀ u, ended (finalizeFinalSync mctx u)) as H2 by (intros u; unfold finalizeFinalSync; repeat ends_step).
  unfold executePhase. destruct (Phase v); try discriminate Hc.
  - eapply ended_total, bulkCopy_once.
  - unfold phasePrecopy, isCutoverTime, getPodPhase, tooEarly. repeat first [by apply runDeltaRound_ends | ends_step].
  - unfold phaseFinalSync. repeat first [by apply runDeltaRound_ends | ends_step].
Qed.

End WarmEnds.

(** ** The reconcile *)

(** The VM's phase is one of the plan type's order, or terminal. *)
Definition inOrder (ty : MigrationType) (v : VMMigrationStatus) : Prop := Phase v ∈ orderOf ty ∨ terminalVM v = true.

Section ReconcileEnds.
Context {W : Type} `{E : Env W} `{AM : ApiMachinery} (fuel cbtFuel : nat) (rec : MigrationReconciler) (strict : bool).

Notation typeOf plan := (Plan_Type (Plan_Spec plan)).

(** What ending takes: a cold plan, or paging that moves forward over disks of bounded size. *)
Definition tame (mctx : migrationContext) : Prop :=
  if strict then typeOf (Ctx_Plan mctx) ≠ MigrationTypeWarm
  else (∀ size, pagesForward mctx size) ∧ disksBelow cbtFuel mctx.

Lemma executePhase_tame mctx v :
  tame mctx → Phase v ∈ orderOf (typeOf (Ctx_Plan mctx)) →
  spec (executePhase cbtFuel mctx v) (ends strict (λ _ vr, sameVM v vr.1)).
Proof.
  unfold tame. intros Ht Hin. destruct strict.
  - apply ends_total. eapply spec_total_weaken; [by eapply executePhase_cold, cold_order_cold|]. by intros t vr (? & _).
  - destruct Ht as [Hp Hd]. eapply ends_weaken.
    { apply ends_and; [by apply executePhase_ends|apply executePhase_ok]. }
    by intros t vr (_ & ? & _).
Qed.

Lemma advanceLoop_ends n mctx v :
  tame mctx → Phase v ∈ orderOf (typeOf (Ctx_Plan mctx)) → (remaining (Phase v) (orderOf (typeOf (Ctx_Plan mctx))) < n)%nat →
  spec (advanceLoop cbtFuel rec n mctx v) (ends strict (λ _ _, True)).
Proof.
  intros Hty. revert v. induction n as [|n IH]; intros v Hin Hn; [lia|]. cbn [advanceLoop].
  destruct (isTerminalVMPhase (Phase v)) eqn:Hp; [by ends_step|].
  eapply ends_bind; [by apply executePhase_tame|]. intros t [v1 r] (_ & _ & Hph & _). cbn [fst snd] in *.
  destruct (Result_Error r) as [e|]; [apply ends_total; eapply spec_bind; [apply failVM_ok|]; intros; by spec_step|].
  destruct (Result_Completed r); simpl; [|by ends_step].
  eapply ends_bind; [apply ends_total, enterNext_ok|]. intros t2 v2 [_ ->]. cbn [Phase setPhase]. rewrite Hph.
  destruct (next_in_order _ _ Hp Hin) as (Hn1 & Hn2 & _).
  destruct (bool_decide _); [apply ends_total; unfold recordVMDuration; by repeat spec_step|].
  apply IH; [done|]. cbn [Phase setPhase]. lia.
Qed.

Hypothesis Hfuel : (14 ≤ fuel)%nat.

Lemma advanceSingleVM_ends mctx v :
  tame mctx → Phase v ∈ orderOf (typeOf (Ctx_Plan mctx)) →
  spec (advanceSingleVM fuel cbtFuel rec mctx v) (ends strict (λ _ vb, inOrder (typeOf (Ctx_Plan mctx)) vb.1)).
Proof.
  intros Ht Hin. pose proof (remaining_bound (typeOf (Ctx_Plan mctx)) (Phase v)) as Hb. eapply ends_weaken.
  { apply ends_and; [apply advanceLoop_ends; [done..|lia]|by apply advanceLoop_life]. }
  intros t [v' b] (_ & _ & _ & _ & [Ho|Ho] & _); [by left|right]. simpl in *. unfold terminalVM. by rewrite Ho.
Qed.

Lemma advanceVMsLoop_ends mctx m a nr vms :
  tame mctx → Forall (inOrder (typeOf (Ctx_Plan mctx))) vms →
  spec (advanceVMsLoop fuel cbtFuel rec mctx m a nr vms)
    (ends strict (λ _ vb, Forall (inOrder (typeOf (Ctx_Plan mctx))) vb.1)).
Proof.
  intros Ht Hall. revert a nr. induction Hall as [|v vms Hv _ IH]; intros a nr; cbn [advanceVMsLoop]; [by apply ends_ret; constructor|].
  assert (∀ u a nr, inOrder (typeOf (Ctx_Plan mctx)) u → spec
    (let* (rest, b) := advanceVMsLoop fuel cbtFuel rec mctx m a nr vms in ret (u :: rest, b))
    (ends strict (λ _ vb, Forall (inOrder (typeOf (Ctx_Plan mctx))) vb.1))) as Hrest.
  { intros u a' nr' Hu. eapply ends_bind; [apply IH|]. intros t [rest b] Hr. apply ends_ret. by constructor. }
  destruct (isTerminalVMPhase (Phase v)) eqn:Hterm; [by apply Hrest|].
  assert (∀ u, Phase u ∈ orderOf (typeOf (Ctx_Plan mctx)) → ∀ a', spec
    (let* (v, again) := advanceSingleVM fuel cbtFuel rec mctx u in
     let* (rest, b) := advanceVMsLoop fuel cbtFuel rec mctx m a' (nr || again) vms in ret (v :: rest, b))
    (ends strict (λ _ vb, Forall (inOrder (typeOf (Ctx_Plan mctx))) vb.1))) as Hgo.
  { intros u Hu a'. eapply ends_bind; [by apply advanceSingleVM_ends|]. intros t [v' b] Hv'. by apply Hrest. }
  case_bool_decide as Hp.
  - destruct (_ <=? _); [by apply Hrest|]. ends_step. apply Hgo.
    unfold orderOf. destruct (bool_decide _); vm_compute; repeat constructor.
  - apply Hgo. destruct Hv as [Hv|Hv]; [done|]. unfold terminalVM in Hv. congruence.
Qed.

(** The statuses a trace stores keep every VM in the order. *)
Definition storedInOrder (ty : MigrationType) (t : trace) : Prop :=
  Forall (λ m, Forall (inOrder ty) (Mig_VMs (Mig_Status m))) (statusesSent t).

Lemma cancelled_inOrder ty ids vms vms' :
  Forall2 (cancelled1 ids) vms vms' → Forall (inOrder ty) vms → Forall (inOrder ty) vms'.
Proof.
  induction 1 as [|v v' l l' Hv _ IH]; [done|]. intros [Ho Hl]%Forall_cons. constructor; [|auto].
  unfold cancelled1 in Hv. destruct (_ && _); [destruct Hv as [n ->]; by right|by subst v'].
Qed.

Lemma pending_inOrder ty v : Phase v = VMPhasePending → inOrder ty v.
Proof. intros H. left. rewrite H. destruct ty; vm_compute; constructor. Qed.

Lemma reconcileRunning_ends m mctx :
  let ty := typeOf (Ctx_Plan mctx) in
  tame mctx → Forall (inOrder ty) (Mig_VMs (Mig_Status m)) →
  spec (reconcileRunning fuel cbtFuel rec m (Ctx_Plan mctx) mctx) (ends strict (λ t _, storedInOrder ty t)).
Proof.
  intros ty Ht Hm. unfold reconcileRunning.
  eapply (ends_bind _ _ _ (λ t m', statusesSent t = [] ∧ Forall (inOrder ty) (Mig_VMs (Mig_Status m')))).
  { destruct (_ || _); [|by apply ends_ret]. apply ends_total. eapply spec_total_weaken; [apply startMigration_ok|].
    intros t m' (Hs & _ & _ & new & -> & Hnew). split; [done|]. apply Forall_app. split; [done|].
    eapply Forall_impl; [exact Hnew|]. intros v. apply pending_inOrder. }
  intros t1 m1 [H1 Hm1]. eapply ends_bind; [apply ends_total, processCancellations_exact|]. intros t2 vms2 [Hc Ht2].
  apply (cancelled_inOrder ty) in Hc; [|done].
  eapply ends_bind.
  { apply ends_and; [by apply advanceVMsLoop_ends|apply advance_workload]. }
  intros t3 [vms3 b] [Hv3 Ht3]. cbn [fst snd] in *.
  eapply ends_bind; [apply ends_total, updateOverallStatus_ok|]. intros t4 m4 (_ & _ & Hv4 & _ & _ & Ht4 & _).
  assert (statusesSent t2 = [] ∧ statusesSent t3 = [] ∧ statusesSent t4 = []) as (H2 & H3 & H4).
  { split; [apply statuses_none|split; [by apply statuses_workload|apply statuses_none]].
    - eapply Forall_impl; [exact Ht2|]. by intros c ->.
    - eapply Forall_impl; [exact Ht4|]. by intros [| | | |]. }
  ends_step. destruct a as [[]|e]; apply ends_ret; unfold storedInOrder; rewrite !statuses_app, H1, H2, H3, H4;
    (constructor; [|constructor]); by rewrite Hv4.
Qed.

(** The context resolved for a plan is that plan's. *)
Lemma resolve_plan m plan :
  spec (resolveMigrationContext rec m plan)
    (total (λ t c, statusesSent t = [] ∧ ∀ mctx, c = Ok mctx → Ctx_Plan mctx = plan)).
Proof. unfold resolveMigrationContext. repeat spec_step; (split; [done|]); intros mctx Hc; by simplify_eq. Qed.

(** What the first two reads of a reconcile from the world [w] give. *)
Definition readsFit (req : NamespacedName) (w : W) (P : Migration → MigrationPlan → Prop) : Prop :=
  ∀ m plan w1 w2, handle (K8s (Get KMigration req)) w = (w1, Ok m) →
    handle (K8s (Get KPlan (mkNN (Meta_Namespace (Mig_Meta m)) (Mig_PlanRef (Mig_Spec m))))) w1 = (w2, Ok plan) → P m plan.

Lemma storedInOrder_app ty t t' : statusesSent t = [] → storedInOrder ty t' → storedInOrder ty (t ++ t').
Proof. intros H. unfold storedInOrder. by rewrite statuses_app, H. Qed.

Lemma setMigrationFailed_inOrder ty m msg :
  Forall (inOrder ty) (Mig_VMs (Mig_Status m)) →
  spec (setMigrationFailed rec m msg) (ends strict (λ t _, storedInOrder ty t)).
Proof.
  intros Hm. apply ends_total. eapply spec_total_weaken; [apply setMigrationFailed_abandons|].
  intros t _ (m' & Hs & _ & Hv & _). unfold storedInOrder. rewrite Hs. constructor; [by rewrite Hv|constructor].
Qed.

(** After the plan has been read. *)
Lemma resolved_ends m plan :
  (∀ mctx, Ctx_Plan mctx = plan → tame mctx) → Forall (inOrder (typeOf plan)) (Mig_VMs (Mig_Status m)) →
  spec (c <- resolveMigrationContext rec m plan ;;
        match c with
        | Err e => setMigrationFailed rec m ("Failed to resolve references: " +s+ errText e)
        | Ok mctx => reconcileRunning fuel cbtFuel rec m plan mctx
        end) (ends strict (λ t _, storedInOrder (typeOf plan) t)).
Proof.
  intros Ht Hm. eapply ends_bind; [apply ends_total, resolve_plan|]. intros t c [Hs Hc]. destruct c as [mctx|e].
  - specialize (Hc mctx eq_refl). subst plan. eapply ends_weaken; [by apply reconcileRunning_ends; [apply Ht|]|].
    intros t' r. by apply storedInOrder_app.
  - eapply ends_weaken; [by apply setMigrationFailed_inOrder|]. intros t' r. by apply storedInOrder_app.
Qed.

Lemma k8s_run {B} c (k : k8sanswer c → M W B) w w' a :
  handle (K8s c) w = (w', a) →
  bind (k8s c) k w = mkRes (Ev (K8s c) a :: r_trace (k a w')) (r_world (k a w')) (r_out (k a w')).
Proof. intros H. unfold bind, k8s, perform. by rewrite H. Qed.

Lemma reconcile_ends req w :
  readsFit req w (λ m plan,
    (∀ mctx, Ctx_Plan mctx = plan → tame mctx) ∧ Forall (inOrder (typeOf plan)) (Mig_VMs (Mig_Status m))) →
  ends strict (λ t _, readsFit req w (λ _ plan, storedInOrder (typeOf plan) t))
    (traceOf (Reconcile fuel cbtFuel rec req) w) (run (Reconcile fuel cbtFuel rec req) w).
Proof.
  intros Hfit. unfold traceOf, run, Reconcile. destruct (handle (K8s (Get KMigration req)) w) as [w1 a] eqn:Hm.
  erewrite (k8s_run _ _ _ _ _ Hm). cbn [r_trace r_out].
  destruct a as [m|e]; [|destruct (IsNotFound e); intros ? ? ? ? Hm'; congruence].
  assert (∀ k : M W (result ctrlResult), spec k (total (λ t _, statusesSent t = [])) →
    ends strict (λ t _, readsFit req w (λ _ plan, storedInOrder (typeOf plan) t))
      (Ev (K8s (Get KMigration req)) (Ok m) :: r_trace (k w1)) (r_out (k w1))) as Hquiet.
  { intros k Hk. specialize (Hk w1). destruct (r_out (k w1)); try done. intros ? ? ? ? _ _.
    unfold storedInOrder. change (statusesSent (?x :: ?t)) with (statusesSent ([x] ++ t)). rewrite statuses_app, Hk. constructor. }
  destruct (deleting _); [apply Hquiet; unfold handleDeletion; by repeat spec_step|].
  destruct (negb _); [apply Hquiet; by repeat spec_step|].
  destruct (isTerminalMigrationPhase _); [apply Hquiet; by repeat spec_step|].
  destruct (handle (K8s (Get KPlan (mkNN (Meta_Namespace (Mig_Meta m)) (Mig_PlanRef (Mig_Spec m))))) w1) as [w2 a] eqn:Hp.
  erewrite (k8s_run _ _ _ _ _ Hp). cbn [r_trace r_out]. destruct a as [plan|e].
  - destruct (Hfit m plan w1 w2 Hm Hp) as [Ht Ho]. pose proof (resolved_ends m plan Ht Ho w2) as H.
    destruct (r_out _); try done. intros m' plan' w1' w2' Hm' Hp'. rewrite Hm in Hm'. simplify_eq. rewrite Hp in Hp'. by simplify_eq.
  - pose proof (setMigrationFailed_ok rec m ("MigrationPlan " +s+ quoted (Mig_PlanRef (Mig_Spec m)) +s+ " not found: " +s+ errText e) w2) as H.
    destruct (r_out _); try done. intros m' plan' w1' w2' Hm' Hp'. rewrite Hm in Hm'. simplify_eq. rewrite Hp in Hp'. by simplify_eq.
Qed.

End ReconcileEnds.

(** ** Theorems *)

Section Theorems.
Context {W : Type} `{E : Env W} `{AM : ApiMachinery} (fuel cbtFuel : nat) (rec : MigrationReconciler).

(** C15: a reconcile of a cold plan returns, as long as the plan has been cold from the start. Whatever Prism
    and the API server do in between, if the plan read is cold and every VM of the Migration read is in a
    phase of the cold order or terminal, as in a Migration that has no VM statuses yet, [Reconcile] returns
    without a panic; and every status it sends has its VMs in the order again, so that the next
    reconcile returns as well. *)
Theorem cold_reconcile_returns req w :
  (14 ≤ fuel)%nat →
  readsFit req w (λ m plan, Plan_Type (Plan_Spec plan) ≠ MigrationTypeWarm ∧
    Forall (inOrder (Plan_Type (Plan_Spec plan))) (Mig_VMs (Mig_Status m))) →
  ∃ r, run (Reconcile fuel cbtFuel rec req) w = Done r ∧
    readsFit req w (λ _ plan, storedInOrder (Plan_Type (Plan_Spec plan)) (traceOf (Reconcile fuel cbtFuel rec req) w)).
Proof.
  intros Hf Hfit. pose proof (reconcile_ends fuel cbtFuel rec true Hf req w) as H.
  destruct (run _ w) as [r| |]; simpl in H; [exists r; split; [done|]; apply H|discriminate H|destruct H];
    intros m plan w1 w2 Hm Hp; destruct (Hfit m plan w1 w2 Hm Hp) as [Hty Ho]; (split; [|done]); by intros mctx ->.
Qed.

(** C16: a reconcile of a plan whose type has not changed ends. When Prism's paging of changed regions moves
    forward, the disks it reports are smaller than the fuel of a query, and every VM of the Migration
    read is in a phase of the plan's order or terminal, as in a Migration that has no VM statuses
    yet, [Reconcile] does not spin: it returns or panics (a disk added during a warm migration, say).
    The statuses it sends keep the VMs in the order. *)
Theorem reconcile_never_spins req w :
  (14 ≤ fuel)%nat → (∀ mctx size, pagesForward mctx size) → (∀ mctx, disksBelow cbtFuel mctx) →
  readsFit req w (λ m plan, Forall (inOrder (Plan_Type (Plan_Spec plan))) (Mig_VMs (Mig_Status m))) →
  run (Reconcile fuel cbtFuel rec req) w ≠ OutOfFuel ∧
  ∀ r, run (Reconcile fuel cbtFuel rec req) w = Done r →
    readsFit req w (λ _ plan, storedInOrder (Plan_Type (Plan_Spec plan)) (traceOf (Reconcile fuel cbtFuel rec req) w)).
Proof.
  intros Hf Hp Hd Hfit. pose proof (reconcile_ends fuel cbtFuel rec false Hf req w) as H.
  assert (readsFit req w (λ m plan, (∀ mctx, Ctx_Plan mctx = plan → tame cbtFuel false mctx) ∧
    Forall (inOrder (Plan_Type (Plan_Spec plan))) (Mig_VMs (Mig_Status m)))) as Hfit'.
  { intros m plan w1 w2 Hm Hpl. split; [by intros mctx _|by eapply Hfit]. }
  specialize (H Hfit'). destruct (run _ w) as [r0| |]; simpl in H; [|done..]. split; [done|]. by intros.
Qed.

End Theorems.

(** ** Concrete runs *)

Import RefMachinery.

Lemma cold_reconcile_returns_witness :
  ∃ r, run (Reconcile (E := holding (storedMigration MigrationPhaseRunning None) (Ok (samplePlan MigrationTypeCold)))
    20 5 sampleReconciler sampleKey) tt = Done r.
Proof.
  destruct (cold_reconcile_returns (E := holding (storedMigration MigrationPhaseRunning None) (Ok (samplePlan MigrationTypeCold)))
    20 5 sampleReconciler sampleKey tt) as (r & Hr & _); [lia| |exists r; exact Hr].
  intros m plan w1 w2 [= _ <-] [= _ <-]. split; [discriminate|]. constructor; [|constructor].
  left. vm_compute. repeat constructor.
Defined.

(** A VM with a disk of four bytes, and a Prism that sends its changed regions one byte at a time. *)
Definition smallVM : VM :=
  let d := mkDisk "disk-002" (Some (mkDiskAddress "SCSI" 0)) (Some (mkDiskBackingInfo "vdisk-002" (Some (mkReference "sc-1" "default")) 4)) 4 "DISK" in
  mkVM (VM_ExtID sampleVM) (VM_Name sampleVM) (VM_Description sampleVM) (VM_PowerState sampleVM) (VM_NumSockets sampleVM)
    (VM_NumCoresPerSocket sampleVM) (VM_NumThreadsPerCore sampleVM) (VM_MemorySizeBytes sampleVM) (VM_MachineType sampleVM) (VM_BootConfig sampleVM)
    [d] (VM_Nics sampleVM) (VM_Gpus sampleVM) (VM_Cluster sampleVM).

Definition pagingPrism (c : nxcall) : nxanswer c :=
  match c return nxanswer c with
  | GetVM _ => Ok smallVM
  | GetChangedRegions _ _ _ _ _ off size _ => Ok (mkChangedRegions [mkChangedRegion off 1] (if off + 1 <? size then Some (off + 1) else None))
  | c => nxServe c
  end.

(** A cluster with a warm migration before its first precopy round. *)
Definition firstRound : WarmMigrationStatus := mkWarm 0 0 0 "rp-base" ["img-base"] None "" [] "" 0 0.

Definition warmCluster : Env unit :=
  RefEnv.fixed pagingPrism (λ k key, match k return result (obj k) with
    | KMigration => Ok (mkMigration (Mig_Meta (storedMigration MigrationPhaseRunning None)) (mkMigrationSpec "plan" None [])
        (mkMigrationStatus MigrationPhaseRunning None None [setWarm (Some firstRound) (midRoundStatus ["dv-0"])] []))
    | KPlan => Ok (samplePlan MigrationTypeWarm)
    | k => k8sServe k key end) (Ok tt).

Definition isRegionsCall (c : call) : bool := match c with Nx _ (GetChangedRegions _ _ _ _ _ _ _ _) => true | _ => false end.

Lemma reconcile_never_spins_witness :
  length (List.filter isRegionsCall (calls (traceOf (Reconcile (E := warmCluster) 20 5 sampleReconciler sampleKey) tt))) = 4%nat ∧
  run (Reconcile (E := warmCluster) 20 5 sampleReconciler sampleKey) tt ≠ OutOfFuel.
Proof.
  split; [vm_compute; reflexivity|].
  apply (reconcile_never_spins (E := warmCluster) 20 5 sampleReconciler sampleKey tt); [lia| | |].
  - intros mctx size url jwt vm snap base off w w' p next [= _ <-] Hn. simpl in Hn.
    destruct (Z.ltb_spec (off + 1) size) as [Hlt|_]; [injection Hn as <-; lia|discriminate Hn].
  - intros mctx id w w' vm [= _ <-] d Hd. apply list_elem_of_In in Hd. destruct Hd as [<-|[]]. change (getDiskSize _) with 4. lia.
  - intros m plan w1 w2 [= _ <-] [= _ <-]. constructor; [|constructor]. left. vm_compute. repeat constructor.
Defined.
