(* ===== verification/PlanController.v ===== *)
(** * The plan reconciler (internal/controller/plan_controller.go)

    Validates the VMs of a MigrationPlan once per generation and stores the verdict. A status
    update leaves the object as it was sent. *)

From S2P Require Import Prelude GoLib NutanixTypes ApiTypes Env Disks Builder Transfer Validation Pipeline Migration Reconciler Samples.

Definition conditionTypeValidated : string := "Validated".

Definition setPlanStatus (p : MigrationPlan) (s : MigrationPlanStatus) : MigrationPlan :=
  mkMigrationPlan (Plan_Meta p) (Plan_Spec p) s.
Definition setPlanPhase (ph : PlanPhase) (s : MigrationPlanStatus) : MigrationPlanStatus :=
  mkMigrationPlanStatus ph (PlanStatus_VMs s) (PlanStatus_Conditions s).

(** [for _, c := range conditions]: validated for this generation already? *)
Fixpoint alreadyValidated (generation : Z) (conds : list Condition) : bool :=
  match conds with
  | [] => false
  | c :: r =>
      if (Cond_Type c =s conditionTypeValidated) && (Cond_ObservedGeneration c =? generation) then true
      else alreadyValidated generation r
  end.

Section Plan.
Context {W : Type} `{E : Env W} `{AM : ApiMachinery} `{RO : RangeOrder}.
Context (ClientFactory : ClientConfig → result NutanixClient).

Definition validatedCondition (plan : MigrationPlan) (status : ConditionStatus) (reason message : string) : Condition :=
  mkCondition conditionTypeValidated status reason message (Meta_Generation (Plan_Meta plan)).

Definition setPlanError (plan : MigrationPlan) (reason message : string) : M W (result ctrlResult) :=
  let s := Plan_Status plan in
  let s := mkMigrationPlanStatus PlanPhaseError (PlanStatus_VMs s)
    (SetStatusCondition (PlanStatus_Conditions s) (validatedCondition plan ConditionFalse reason message)) in
  r <- k8s (StatusUpdate KPlan (setPlanStatus plan s)) ;;
  match r with Err e => ret (Err e) | Ok _ => ret (Ok (mkCtrlResult false Duration.Minute)) end.

(** [for _, planVM := range plan.Spec.VMs] *)
Fixpoint validateVMs (nxClient : NutanixClient) (opts : ValidationOptions) (vms : list PlanVM)
  : M W (list VMValidationStatus * bool) :=
  match vms with
  | [] => ret ([], false)
  | p :: rest =>
      r <- nx nxClient (GetVM (PlanVM_ID p)) ;;
      match r with
      | Err e =>
          let* (statuses, _) := validateVMs nxClient opts rest in
          ret (mkVMValidationStatus (PlanVM_ID p) (PlanVM_Name p)
                 [errorConcern ("Failed to fetch VM from Nutanix: " +s+ errText e)] :: statuses, true)
      | Ok vm =>
          concerns <- Validate vm opts ;;
          let name := if PlanVM_Name p =s "" then VM_Name vm else PlanVM_Name p in
          let* (statuses, hasErrors) := validateVMs nxClient opts rest in
          ret (mkVMValidationStatus (PlanVM_ID p) name concerns :: statuses, HasErrors concerns || hasErrors)
      end
  end.

Definition planVerdict (plan : MigrationPlan) (vmStatuses : list VMValidationStatus) (hasErrors : bool) : MigrationPlan :=
  let conds := PlanStatus_Conditions (Plan_Status plan) in
  setPlanStatus plan
    (if hasErrors then
       mkMigrationPlanStatus PlanPhaseError vmStatuses
         (SetStatusCondition conds (validatedCondition plan ConditionFalse "ValidationFailed" "One or more VMs have validation errors"))
     else
       mkMigrationPlanStatus PlanPhaseReady vmStatuses
         (SetStatusCondition conds (validatedCondition plan ConditionTrue "ValidationPassed"
            ("All " +s+ itoa (len (Plan_VMs (Plan_Spec plan))) +s+ " VMs validated successfully")))).

Definition validatePlan (plan : MigrationPlan) : M W (result ctrlResult) :=
  let ns := Meta_Namespace (Plan_Meta plan) in
  let ps := Plan_Spec plan in
  r <- k8s (Get KProvider (mkNN ns (Plan_ProviderRef ps))) ;;
  match r with
  | Err e => setPlanError plan "ProviderNotFound" ("Provider " +s+ quoted (Plan_ProviderRef ps) +s+ " not found: " +s+ errText e)
  | Ok provider =>
  let secretRef := Provider_SecretRef (Provider_Spec provider) in
  r <- k8s (Get KSecret (mkNN (Meta_Namespace (Provider_Meta provider)) secretRef)) ;;
  match r with
  | Err e => setPlanError plan "SecretNotFound" ("Provider secret " +s+ quoted secretRef +s+ " not found: " +s+ errText e)
  | Ok secret =>
  let username := default "" (Secret_Data secret !! "username") in
  let password := default "" (Secret_Data secret !! "password") in
  if (username =s "") || (password =s "") then
    setPlanError plan "InvalidCredentials" "Provider secret must contain non-empty 'username' and 'password' keys"
  else
  match ClientFactory (providerConfig (Provider_URL (Provider_Spec provider)) username password
          (Provider_InsecureSkipVerify (Provider_Spec provider))) with
  | Err e => setPlanError plan "ClientError" ("Failed to create Nutanix client: " +s+ errText e)
  | Ok nxClient =>
  r <- k8s (Get KNetworkMap (mkNN ns (Plan_NetworkMapRef ps))) ;;
  match r with
  | Err e => setPlanError plan "NetworkMapNotFound" ("NetworkMap " +s+ quoted (Plan_NetworkMapRef ps) +s+ " not found: " +s+ errText e)
  | Ok networkMap =>
  r <- k8s (Get KStorageMap (mkNN ns (Plan_StorageMapRef ps))) ;;
  match r with
  | Err e => setPlanError plan "StorageMapNotFound" ("StorageMap " +s+ quoted (Plan_StorageMapRef ps) +s+ " not found: " +s+ errText e)
  | Ok storageMap =>
  let opts := mkValidationOptions (Some networkMap) (Some storageMap) ∅ (Plan_TargetNamespace ps) true in
  let* (vmStatuses, hasErrors) := validateVMs nxClient opts (Plan_VMs ps) in
  r <- k8s (StatusUpdate KPlan (planVerdict plan vmStatuses hasErrors)) ;;
  match r with Err e => ret (Err e) | Ok _ => ret (Ok noRequeue) end
  end end end end end.

Definition Reconcile (req : NamespacedName) : M W (result ctrlResult) :=
  r <- k8s (Get KPlan req) ;;
  match r with
  | Err e => if IsNotFound e then ret (Ok noRequeue) else ret (Err e)
  | Ok plan =>
      if alreadyValidated (Meta_Generation (Plan_Meta plan)) (PlanStatus_Conditions (Plan_Status plan)) then ret (Ok noRequeue)
      else
        let plan := setPlanStatus plan (setPlanPhase PlanPhaseValidating (Plan_Status plan)) in
        r <- k8s (StatusUpdate KPlan plan) ;;
        match r with
        | Err e => ret (Err e)
        | Ok _ => validatePlan plan
        end
  end.

(** ** Lemmas *)

Lemma alreadyValidated_present g conds c :
  c ∈ conds → Cond_Type c = conditionTypeValidated → Cond_ObservedGeneration c = g → alreadyValidated g conds = true.
Proof.
  intros Hin Ht Hg. induction conds as [|d conds IH]; [by apply elem_of_nil in Hin|]. simpl.
  apply elem_of_cons in Hin as [<-|Hin].
  - by rewrite Ht, Hg, String.eqb_refl, Z.eqb_refl.
  - destruct (_ && _); [done|]. by apply IH.
Qed.

(** The statuses a trace stored in the plan. *)
Definition planWritten (e : event) : option MigrationPlan :=
  match e with
  | Ev (K8s (StatusUpdate k o)) _ =>
      match k return obj k → option MigrationPlan with KPlan => Some | _ => λ _, None end o
  | _ => None
  end.
Definition plansWritten (t : trace) : list MigrationPlan := omap planWritten t.

Definition erroneous (s : VMValidationStatus) : bool := HasErrors (Validation_Concerns s).

Lemma plansWritten_app t t' : plansWritten (t ++ t') = plansWritten t ++ plansWritten t'.
Proof. apply elem_of_omap_app. Qed.

Lemma Validate_writes_nothing vm opts : spec (Validate vm opts) (total (λ t _, plansWritten t = [])).
Proof.
  assert (∀ t, Forall (λ e, isGet e = true) t → plansWritten t = []) as Hget.
  { induction 1 as [|e t He _ IH]; [done|]. destruct e as [[| [] | | |] ?]; try discriminate He. exact IH. }
  unfold Validate. destruct (VOpt_HasClient opts); [|by spec_step].
  eapply readsRule_bind; [apply checkNamespace_reads|]. intros t1 c1 _ G1 _.
  eapply (spec_bind _ _ (λ t _, Forall (λ e, isGet e = true) t)).
  { unfold checkStorageClasses. destruct (VOpt_StorageMap opts); [|spec_step; constructor].
    eapply spec_total_weaken; [apply storageClassLoop_reads|]. by intros t a (_ & ? & _). }
  intros t2 c2 G2. eapply (spec_bind _ _ (λ t _, Forall (λ e, isGet e = true) t)).
  { unfold checkMultusNADs. destruct (VOpt_NetworkMap opts); [|spec_step; constructor].
    eapply spec_total_weaken; [apply multusLoop_reads|]. by intros t a (_ & ? & _). }
  intros t3 c3 G3. eapply readsRule_bind; [apply checkCDIInstalled_reads|]. intros t4 c4 _ G4 _.
  eapply readsRule_bind; [apply checkKubeVirtInstalled_reads|]. intros t5 c5 _ G5 _.
  spec_step. rewrite app_nil_r. apply Hget. by rewrite !Forall_app.
Qed.

Lemma validateVMs_ok cl opts vms :
  spec (validateVMs cl opts vms) (total (λ t sb, plansWritten t = [] ∧ Validation_ID <$> sb.1 = PlanVM_ID <$> vms ∧
    sb.2 = existsb erroneous sb.1)).
Proof.
  induction vms as [|p vms IH]; cbn [validateVMs]; [by spec_step|]. spec_step. destruct a as [vm|e].
  - eapply spec_bind; [apply Validate_writes_nothing|]. intros t1 concerns H1.
    eapply spec_bind; [exact IH|]. intros t2 [ss b] (H2 & H3 & H4). cbn [fst snd] in *. spec_step.
    rewrite app_nil_r. split; [|split; [csimpl; by rewrite H3|by rewrite H4]].
    change (plansWritten (t1 ++ t2) = []). by rewrite plansWritten_app, H1, H2.
  - eapply spec_bind; [exact IH|]. intros t2 [ss b] (H2 & H3 & H4). cbn [fst snd] in *. spec_step. rewrite app_nil_r.
    split; [exact H2|]. split; [csimpl; by rewrite H3|done].
Qed.

(** A stored plan: unchanged but for its status, and Ready only on a clean report. *)
Definition storedPlan (plan p : MigrationPlan) : Prop :=
  Plan_Meta p = Plan_Meta plan ∧ Plan_Spec p = Plan_Spec plan ∧
  (PlanStatus_Phase (Plan_Status p) = PlanPhaseReady →
     Validation_ID <$> PlanStatus_VMs (Plan_Status p) = PlanVM_ID <$> Plan_VMs (Plan_Spec plan) ∧
     existsb erroneous (PlanStatus_VMs (Plan_Status p)) = false).

Lemma setPlanError_ok plan reason msg :
  spec (setPlanError plan reason msg) (total (λ t _, Forall (storedPlan plan) (plansWritten t))).
Proof. unfold setPlanError. repeat spec_step; unfold plansWritten; csimpl; by repeat constructor. Qed.

Lemma validatePlan_ok plan : spec (validatePlan plan) (total (λ t _, Forall (storedPlan plan) (plansWritten t))).
Proof.
  unfold validatePlan. repeat match goal with
  | |- spec (setPlanError _ _ _) _ => eapply spec_total_weaken; [apply setPlanError_ok|]; intros ? ? H; exact H
  | |- spec (bind (validateVMs _ _ _) _) _ => fail 1
  | _ => spec_step
  end.
  eapply spec_bind; [apply validateVMs_ok|]. intros t [ss b] (H1 & H2 & H3). cbn [fst snd] in *.
  assert (storedPlan plan (planVerdict plan ss b)) as Hst.
  { unfold planVerdict. destruct b; (split; [done|]); (split; [done|]); simpl; [done|]. intros _. by rewrite <- H3. }
  assert (∀ x, Forall (storedPlan plan) (plansWritten (t ++ [Ev (K8s (StatusUpdate KPlan (planVerdict plan ss b))) x]))) as Hfin.
  { intros x. rewrite plansWritten_app, H1. apply Forall_singleton, Hst. }
  repeat spec_step; exact (Hfin _).
Qed.

(** C36: a plan is declared Ready only after a clean validation of all its VMs. In every
    environment, the plan reconciler returns, and in every plan status it stores the
    metadata and spec are those it read; a status with phase Ready has one validation
    entry per VM of the plan, in order, and none of them has an error concern (a VM that
    could not be read counts as an error). *)
Theorem plan_ready_sound req w :
  ∃ r t, run (Reconcile req) w = Done r ∧ traceOf (Reconcile req) w = t ∧
    ∀ p, p ∈ plansWritten t → ∃ e plan, e ∈ t ∧ planRead e = Some plan ∧ storedPlan plan p.
Proof.
  assert (spec (Reconcile req) (total (λ t _, ∀ p, p ∈ plansWritten t → ∃ e plan, e ∈ t ∧ planRead e = Some plan ∧ storedPlan plan p))) as H.
  { unfold Reconcile. spec_step. destruct a as [plan|e]; [|repeat spec_step; set_solver].
    destruct (alreadyValidated _ _); [spec_step; set_solver|]. set (plan1 := setPlanStatus plan _).
    assert (storedPlan plan plan1) as Hst by done.
    spec_step. destruct a as [[]|e].
    - eapply spec_total_weaken; [apply validatePlan_ok|]. intros t r Hall p Hp. exists (Ev (K8s (Get KPlan req)) (Ok plan)), plan.
      split; [by left|]. split; [done|]. unfold plansWritten in Hp. csimpl in Hp. apply elem_of_cons in Hp as [->|Hp]; [done|].
      rewrite Forall_forall in Hall. exact (Hall p Hp).
    - spec_step. intros p Hp. exists (Ev (K8s (Get KPlan req)) (Ok plan)), plan.
      split; [by left|]. split; [done|]. unfold plansWritten in Hp. csimpl in Hp. by apply list_elem_of_singleton in Hp as ->. }
  destruct (spec_returns _ _ w H) as (r & Hr & Hrest). eauto.
Qed.

(** A plan error is never retried. Whatever [setPlanError] stores for an unresolved
    reference, transient or not, carries the Validated condition for the current
    generation; so although it asks for a requeue in a minute, the reconcile that then reads
    the plan back stops at once: it makes no call but the read and asks for no requeue. *)
Theorem plan_error_never_retried (L : ApiMachineryLaws) plan reason msg req w0 p w w' :
  p ∈ plansWritten (traceOf (setPlanError plan reason msg) w0) →
  handle (K8s (Get KPlan req)) w = (w', Ok p) →
  Reconcile req w = mkRes [Ev (K8s (Get KPlan req)) (Ok p)] w' (Done (Ok noRequeue)).
Proof.
  intros Hp Hg.
  assert (alreadyValidated (Meta_Generation (Plan_Meta p)) (PlanStatus_Conditions (Plan_Status p)) = true) as Hv.
  { revert Hp. unfold traceOf, setPlanError, bind, k8s, perform. destruct (handle _ w0) as [w1 [[]|e]]; simpl;
      intros Hp; apply list_elem_of_singleton in Hp as ->; simpl;
      (eapply alreadyValidated_present; [apply set_condition_present|done|done]). }
  unfold Reconcile, k8s, perform, bind at 1. rewrite Hg. simpl. by rewrite Hv.
Qed.

End Plan.

(** ** A concrete run *)

Import RefMachinery.

#[local] Instance planOrder : RangeOrder := elements.

(** What the reconciler stores when the provider is missing. *)
Definition errorPlan : MigrationPlan :=
  setPlanStatus (samplePlan MigrationTypeCold) (mkMigrationPlanStatus PlanPhaseError []
    (SetStatusCondition [] (validatedCondition (samplePlan MigrationTypeCold) ConditionFalse "ProviderNotFound" "Provider not found"))).

Lemma plan_error_never_retried_witness :
  Reconcile (E := holding sampleMigration (Ok errorPlan)) (ClientFactory sampleReconciler) (mkNN "default" "plan") tt =
    mkRes [Ev (K8s (Get KPlan (mkNN "default" "plan"))) (Ok errorPlan)] tt (Done (Ok noRequeue)).
Proof.
  apply (plan_error_never_retried (E := holding sampleMigration (Ok errorPlan)) (ClientFactory sampleReconciler) machinery_laws
    (samplePlan MigrationTypeCold) "ProviderNotFound" "Provider not found" _ tt); [|reflexivity].
  vm_compute. constructor.
Defined.
