(* ===== verification/ProviderController.v ===== *)
(** * The provider reconciler (internal/controller/provider_controller.go)

    Connects to Prism with the provider's credentials, takes the inventory, and keeps a
    provider that plans refer to from being deleted. *)

From S2P Require Import Prelude GoLib NutanixTypes ApiTypes Env Disks Builder Transfer Validation Pipeline Migration Samples.

Definition providerFinalizer : string := "vma.nutanix.io/provider-protection".
Definition conditionTypeConnected : string := "Connected".
Definition conditionTypeInventoryReady : string := "InventoryReady".

Definition setProviderStatus (p : NutanixProvider) (s : NutanixProviderStatus) : NutanixProvider :=
  mkNutanixProvider (Provider_Meta p) (Provider_Spec p) s.
Definition setProviderFinalizers (f : list string) (p : NutanixProvider) : NutanixProvider :=
  mkNutanixProvider (setFinalizers f (Provider_Meta p)) (Provider_Spec p) (Provider_Status p).
Definition setProviderPhase (ph : ProviderPhase) (s : NutanixProviderStatus) : NutanixProviderStatus :=
  mkNutanixProviderStatus ph (Provider_VMCount s) (Provider_Conditions s).

(** [for i := range plans.Items]: does a plan refer to the provider? *)
Fixpoint refersTo (name : string) (plans : list MigrationPlan) : bool :=
  match plans with
  | [] => false
  | p :: r => if Plan_ProviderRef (Plan_Spec p) =s name then true else refersTo name r
  end.

Section Provider.
Context {W : Type} `{E : Env W} `{AM : ApiMachinery}.
Context (ClientFactory : ClientConfig → result NutanixClient).

Definition isProviderInUse (p : NutanixProvider) : M W (result bool) :=
  r <- k8s (ListPlans (Meta_Namespace (Provider_Meta p))) ;;
  match r with
  | Err e => ret (Err e)
  | Ok plans => ret (Ok (refersTo (Meta_Name (Provider_Meta p)) plans))
  end.

Definition providerCondition (p : NutanixProvider) (type : string) (status : ConditionStatus) (reason message : string)
  : Condition :=
  mkCondition type status reason message (Meta_Generation (Provider_Meta p)).

Definition setErrorCondition (p : NutanixProvider) (reason message : string) : M W (result ctrlResult) :=
  let s := Provider_Status p in
  let s := mkNutanixProviderStatus ProviderPhaseError (Provider_VMCount s)
    (SetStatusCondition (Provider_Conditions s) (providerCondition p conditionTypeConnected ConditionFalse reason message)) in
  r <- k8s (StatusUpdate KProvider (setProviderStatus p s)) ;;
  match r with Err e => ret (Err e) | Ok _ => ret (Ok (mkCtrlResult false Duration.Minute)) end.

(** [for _, cluster := range clusters]: clusters without an address and failing ones are skipped. *)
Fixpoint countContainers (cl : NutanixClient) (clusters : list Cluster) (n : Z) : M W Z :=
  match clusters with
  | [] => ret n
  | c :: rest =>
      match Cluster_Network c with
      | None => countContainers cl rest n
      | Some net =>
          if Net_ExternalAddress net =s "" then countContainers cl rest n
          else
            r <- nx cl (ListStorageContainers ("https://" +s+ Net_ExternalAddress net +s+ ":9440")) ;;
            match r with
            | Err _ => countContainers cl rest n
            | Ok containers => countContainers cl rest (n + len containers)
            end
      end
  end.

(** A failed best-effort listing counts as empty. *)
Definition bestEffort {A} (r : result (list A)) : list A := match r with Ok l => l | Err _ => [] end.

Definition refreshInterval (p : NutanixProvider) : Z :=
  match Duration.ParseDuration (Provider_RefreshInterval (Provider_Spec p)) with
  | Some d => d
  | None => 5 * Duration.Minute
  end.

(** From the listed VMs on. *)
Definition inventory (p : NutanixProvider) (cl : NutanixClient) (vms : list VM) : M W (result ctrlResult) :=
  let conds := SetStatusCondition (Provider_Conditions (Provider_Status p))
    (providerCondition p conditionTypeConnected ConditionTrue "Connected" ("Connected to " +s+ Provider_URL (Provider_Spec p))) in
  subnets <- nx cl ListSubnets ;;
  clusters <- nx cl ListClusters ;;
  n <- countContainers cl (bestEffort clusters) 0 ;;
  let conds := SetStatusCondition conds
    (providerCondition p conditionTypeInventoryReady ConditionTrue "InventoryComplete"
       ("Discovered " +s+ itoa (len vms) +s+ " VMs, " +s+ itoa (len (bestEffort subnets)) +s+ " subnets, " +s+
        itoa (len (bestEffort clusters)) +s+ " clusters, " +s+ itoa n +s+ " storage containers")) in
  r <- k8s (StatusUpdate KProvider (setProviderStatus p (mkNutanixProviderStatus ProviderPhaseConnected (len vms) conds))) ;;
  match r with Err e => ret (Err e) | Ok _ => ret (Ok (mkCtrlResult false (refreshInterval p))) end.

Definition connect (p : NutanixProvider) : M W (result ctrlResult) :=
  let secretRef := Provider_SecretRef (Provider_Spec p) in
  r <- k8s (Get KSecret (mkNN (Meta_Namespace (Provider_Meta p)) secretRef)) ;;
  match r with
  | Err e => setErrorCondition p "SecretNotFound" ("Secret " +s+ quoted secretRef +s+ " not found: " +s+ errText e)
  | Ok secret =>
  let username := default "" (Secret_Data secret !! "username") in
  let password := default "" (Secret_Data secret !! "password") in
  if (username =s "") || (password =s "") then
    setErrorCondition p "InvalidCredentials" "Secret must contain non-empty 'username' and 'password' keys"
  else
  match ClientFactory (providerConfig (Provider_URL (Provider_Spec p)) username password
          (Provider_InsecureSkipVerify (Provider_Spec p))) with
  | Err e => setErrorCondition p "ClientError" ("Failed to create client: " +s+ errText e)
  | Ok cl =>
  r <- nx cl ListVMs ;;
  match r with
  | Err e => setErrorCondition p "ConnectionFailed" ("Failed to list VMs: " +s+ errText e)
  | Ok vms => inventory p cl vms
  end end end.

Definition deleteProvider (p : NutanixProvider) : M W (result ctrlResult) :=
  if ContainsFinalizer (Meta_Finalizers (Provider_Meta p)) providerFinalizer then
    r <- isProviderInUse p ;;
    match r with
    | Err e => ret (Err e)
    | Ok true => ret (Ok (mkCtrlResult false (30 * Duration.Second)))
    | Ok false =>
        r <- k8s (Update KProvider
          (setProviderFinalizers (RemoveFinalizer (Meta_Finalizers (Provider_Meta p)) providerFinalizer) p)) ;;
        match r with Err e => ret (Err e) | Ok _ => ret (Ok noRequeue) end
    end
  else ret (Ok noRequeue).

Definition Reconcile (req : NamespacedName) : M W (result ctrlResult) :=
  r <- k8s (Get KProvider req) ;;
  match r with
  | Err e => if IsNotFound e then ret (Ok noRequeue) else ret (Err e)
  | Ok p =>
      if deleting (Provider_Meta p) then deleteProvider p
      else if negb (ContainsFinalizer (Meta_Finalizers (Provider_Meta p)) providerFinalizer) then
        r <- k8s (Update KProvider
          (setProviderFinalizers (AddFinalizer (Meta_Finalizers (Provider_Meta p)) providerFinalizer) p)) ;;
        match r with Err e => ret (Err e) | Ok _ => ret (Ok (mkCtrlResult true 0)) end
      else
        let p := setProviderStatus p (setProviderPhase ProviderPhaseConnecting (Provider_Status p)) in
        r <- k8s (StatusUpdate KProvider p) ;;
        match r with
        | Err e => ret (Err e)
        | Ok _ => connect p
        end
  end.

(** ** Lemmas *)

Lemma refersTo_iff name plans :
  refersTo name plans = false ↔ Forall (λ p, Plan_ProviderRef (Plan_Spec p) ≠ name) plans.
Proof.
  induction plans as [|p plans IH]; simpl; [by split|]. rewrite Forall_cons, <- IH.
  destruct (String.eqb_spec (Plan_ProviderRef (Plan_Spec p)) name); [|tauto]. split; [done|by intros [? _]].
Qed.

(** The provider status a call stores. *)
Definition providerWritten (e : event) : option NutanixProvider :=
  match e with
  | Ev (K8s (StatusUpdate k o)) _ =>
      match k return obj k → option NutanixProvider with KProvider => Some | _ => λ _, None end o
  | _ => None
  end.
Definition providersWritten (t : trace) : list NutanixProvider := omap providerWritten t.

Definition isProviderUpdate (e : event) : bool :=
  match ev_call e with K8s (Update KProvider _) => true | _ => false end.

Definition plansListed (e : event) : option (list MigrationPlan) :=
  match e with Ev (K8s (ListPlans _)) (Ok plans) => Some plans | _ => None end.

Lemma countContainers_writes_nothing cl cs n : spec (countContainers cl cs n) (total (λ t _, providersWritten t = [])).
Proof.
  revert n. induction cs as [|c cs IH]; intros n; simpl; [by spec_step|]. repeat (spec_step; try done); apply IH.
Qed.

(** ** Properties *)

(** A provider in use is not released. When the reconcile of a provider that is being
    deleted returns, it has updated the object (to drop the finalizer) only if the API
    server listed the plans of its namespace and none of them refers to the provider; if
    one does, the object is left alone and looked at again after 30 seconds. *)
Theorem provider_in_use_protected p w :
  ∃ r t, run (deleteProvider p) w = Done r ∧ traceOf (deleteProvider p) w = t ∧
    (existsb isProviderUpdate t = true →
       ∃ e plans, e ∈ t ∧ plansListed e = Some plans ∧
         Forall (λ q, Plan_ProviderRef (Plan_Spec q) ≠ Meta_Name (Provider_Meta p)) plans) ∧
    (∀ e plans, e ∈ t → plansListed e = Some plans →
       Exists (λ q, Plan_ProviderRef (Plan_Spec q) = Meta_Name (Provider_Meta p)) plans →
       existsb isProviderUpdate t = false ∧ r = Ok (mkCtrlResult false (30 * Duration.Second))).
Proof.
  assert (spec (deleteProvider p) (total (λ t r,
    (existsb isProviderUpdate t = true →
       ∃ e plans, e ∈ t ∧ plansListed e = Some plans ∧
         Forall (λ q, Plan_ProviderRef (Plan_Spec q) ≠ Meta_Name (Provider_Meta p)) plans) ∧
    (∀ e plans, e ∈ t → plansListed e = Some plans →
       Exists (λ q, Plan_ProviderRef (Plan_Spec q) = Meta_Name (Provider_Meta p)) plans →
       existsb isProviderUpdate t = false ∧ r = Ok (mkCtrlResult false (30 * Duration.Second)))))) as H.
  { unfold deleteProvider, isProviderInUse. destruct (ContainsFinalizer _ _).
    2:{ spec_step. split; [done|]. intros e plans He. by apply elem_of_nil in He. }
    do 2 spec_step. destruct a as [plans|e].
    2:{ repeat spec_step. split; [done|]. intros e' plans He Hl. apply list_elem_of_singleton in He as ->. discriminate Hl. }
    spec_step. destruct (refersTo _ plans) eqn:Hr.
    { spec_step. split; [done|]. intros e plans' He Hl _. by apply list_elem_of_singleton in He as ->. }
    apply refersTo_iff in Hr.
    repeat spec_step; (split; [intros _; do 2 eexists; split; [by left|]; split; [reflexivity|done]|]); intros e' plans' He Hl Hex;
      apply elem_of_cons in He as [->|He]; try (injection Hl as <-; rewrite Forall_forall in Hr; rewrite Exists_exists in Hex;
        destruct Hex as (q & Hq & Heq); by specialize (Hr q Hq)); apply list_elem_of_singleton in He as ->; discriminate Hl. }
  destruct (spec_returns _ _ w H) as (r & Hr & H1 & H2). eauto 10.
Qed.

(** A stored status that says Connected is backed by the VMs listed in the trace, through a
    client for the provider's address. *)
Definition backed (t : trace) (p : NutanixProvider) : Prop :=
  Provider_Phase (Provider_Status p) = ProviderPhaseConnected →
  ∃ username password cl vms,
    ClientFactory (providerConfig (Provider_URL (Provider_Spec p)) username password (Provider_InsecureSkipVerify (Provider_Spec p))) = Ok cl ∧
    Ev (Nx cl ListVMs) (Ok vms) ∈ t ∧ Provider_VMCount (Provider_Status p) = len vms.

Lemma providersWritten_app t t' : providersWritten (t ++ t') = providersWritten t ++ providersWritten t'.
Proof. apply elem_of_omap_app. Qed.

Lemma setErrorCondition_unbacked p reason msg :
  spec (setErrorCondition p reason msg) (total (λ t _,
    Forall (λ q, Provider_Phase (Provider_Status q) = ProviderPhaseError) (providersWritten t))).
Proof. unfold setErrorCondition. repeat spec_step; by repeat constructor. Qed.

Lemma inventory_writes p cl vms :
  spec (inventory p cl vms) (total (λ t _,
    Forall (λ q, Provider_Spec q = Provider_Spec p ∧ Provider_VMCount (Provider_Status q) = len vms) (providersWritten t))).
Proof.
  unfold inventory. do 2 spec_step. eapply spec_bind; [apply countContainers_writes_nothing|]. simpl. intros t n Ht.
  set (q := setProviderStatus _ _).
  assert (∀ x, Forall (λ q, Provider_Spec q = Provider_Spec p ∧ Provider_VMCount (Provider_Status q) = len vms)
    (providersWritten (t ++ [Ev (K8s (StatusUpdate KProvider q)) x]))) as Hfin.
  { intros x. rewrite providersWritten_app, Ht. by apply Forall_singleton. }
  repeat spec_step; exact (Hfin _).
Qed.

Lemma connect_backed p : spec (connect p) (total (λ t _, Forall (backed t) (providersWritten t))).
Proof.
  assert (∀ reason msg t0, providersWritten t0 = [] → spec (setErrorCondition p reason msg)
    (total (λ t _, Forall (backed (t0 ++ t)) (providersWritten (t0 ++ t))))) as Herr.
  { intros reason msg t0 H0. eapply spec_total_weaken; [apply setErrorCondition_unbacked|]. intros t r H.
    rewrite providersWritten_app, H0. eapply Forall_impl; [exact H|]. intros q Hq Hc. by rewrite Hq in Hc. }
  unfold connect. spec_step. destruct a as [secret|e]; [|by apply (Herr _ _ [_])].
  destruct (_ || _); [by apply (Herr _ _ [_])|]. destruct (ClientFactory _) as [cl|e] eqn:Hcl; [|by apply (Herr _ _ [_])].
  spec_step. destruct a as [vms|e]; [|by apply (Herr _ _ [_; _])].
  eapply spec_total_weaken; [apply inventory_writes|]. intros t r H.
  eapply Forall_impl; [exact H|]. intros q [Hs Hq] _. do 4 eexists. rewrite Hs. split; [exact Hcl|]. split; [right; left|done].
Qed.

Lemma reconcile_backed req : spec (Reconcile req) (total (λ t _, Forall (backed t) (providersWritten t))).
Proof.
  unfold Reconcile. spec_step. destruct a as [p|e]; [|repeat spec_step; constructor].
  destruct (deleting _). { unfold deleteProvider, isProviderInUse. repeat spec_step; constructor. }
  destruct (negb _). { repeat spec_step; constructor. }
  set (q := setProviderStatus p _).
  assert (∀ t, backed t q) as Hq by (intros t Hc; discriminate Hc).
  spec_step. destruct a as [[]|e]; [|spec_step; by apply Forall_singleton].
  eapply spec_total_weaken; [apply connect_backed|]. intros t r H.
  apply (Forall_cons _ q). split; [done|]. eapply Forall_impl; [exact H|]. intros p' Hp Hc.
  destruct (Hp Hc) as (u & pw & cl & vms & Hcl & He & Hn). exists u, pw, cl, vms. split; [done|]. split; [by do 2 right|done].
Qed.

(** A provider is reported Connected only with an inventory of this reconcile. The
    reconciler always returns; a stored status whose phase is Connected follows a
    successful listing of the VMs in the same reconcile through a client for the provider's
    address, and its VM count is the number of VMs listed. *)
Theorem provider_connected_sound req w :
  ∃ r t, run (Reconcile req) w = Done r ∧ traceOf (Reconcile req) w = t ∧ Forall (backed t) (providersWritten t).
Proof.
  destruct (spec_returns _ _ w (reconcile_backed req)) as (r & Hr & Hrest). eauto.
Qed.

End Provider.
