(* ===== verification/Permissions.v ===== *)
(** * What the operator is allowed to do

    The RBAC markers of the three controllers, the ClusterRole made of them
    (config/rbac/role.yaml), and the calls the controllers make. *)

From S2P Require Import Prelude GoLib NutanixTypes ApiTypes Env Disks Builder Transfer Validation Pipeline Samples Hooks ColdPhases WarmPhases Resources.
From S2P Require Import Migration Footprint Reconciler PlanController ProviderController.

(** ** Rules *)

(** [rbacv1.PolicyRule] *)
Record PolicyRule := mkPolicyRule { Rule_APIGroups : list string; Rule_Resources : list string; Rule_Verbs : list string }.

(** One marker: a group, a resource and its verbs. *)
Definition marker (group resource : string) (verbs : list string) : PolicyRule := mkPolicyRule [group] [resource] verbs.

(** provider_controller.go *)
Definition providerMarkers : list PolicyRule :=
  [marker "vma.nutanix.io" "nutanixproviders" ["get"; "list"; "watch"; "update"; "patch"];
   marker "vma.nutanix.io" "nutanixproviders/status" ["get"; "update"; "patch"];
   marker "vma.nutanix.io" "nutanixproviders/finalizers" ["update"];
   marker "" "secrets" ["get"; "list"; "watch"]].

(** plan_controller.go *)
Definition planMarkers : list PolicyRule :=
  [marker "vma.nutanix.io" "migrationplans" ["get"; "list"; "watch"; "update"; "patch"];
   marker "vma.nutanix.io" "migrationplans/status" ["get"; "update"; "patch"];
   marker "vma.nutanix.io" "nutanixproviders" ["get"];
   marker "vma.nutanix.io" "networkmaps" ["get"; "list"; "watch"];
   marker "vma.nutanix.io" "storagemaps" ["get"; "list"; "watch"];
   marker "storage.k8s.io" "storageclasses" ["get"; "list"];
   marker "apiextensions.k8s.io" "customresourcedefinitions" ["get"];
   marker "" "namespaces" ["get"]].

(** migration_controller.go *)
Definition migrationMarkers : list PolicyRule :=
  [marker "vma.nutanix.io" "migrations" ["get"; "list"; "watch"; "update"; "patch"];
   marker "vma.nutanix.io" "migrations/status" ["get"; "update"; "patch"];
   marker "vma.nutanix.io" "migrations/finalizers" ["update"];
   marker "vma.nutanix.io" "migrationplans" ["get"];
   marker "vma.nutanix.io" "nutanixproviders" ["get"];
   marker "vma.nutanix.io" "networkmaps" ["get"; "list"; "watch"];
   marker "vma.nutanix.io" "storagemaps" ["get"; "list"; "watch"];
   marker "" "secrets" ["get"; "create"; "delete"];
   marker "" "configmaps" ["get"; "create"; "delete"];
   marker "cdi.kubevirt.io" "datavolumes" ["get"; "list"; "create"; "delete"];
   marker "kubevirt.io" "virtualmachines" ["get"; "create"; "update"];
   marker "" "pods" ["get"; "create"; "delete"];
   marker "batch" "jobs" ["get"; "create"; "delete"];
   marker "vma.nutanix.io" "hooks" ["get"; "list"; "watch"];
   marker "" "events" ["create"; "patch"]].

Definition markers : list PolicyRule := providerMarkers ++ planMarkers ++ migrationMarkers.

(** config/rbac/role.yaml *)
Definition managerRole : list PolicyRule :=
  [mkPolicyRule [""] ["configmaps"; "pods"] ["create"; "delete"; "get"];
   mkPolicyRule [""] ["events"] ["create"; "patch"];
   mkPolicyRule [""] ["namespaces"] ["get"];
   mkPolicyRule [""] ["secrets"] ["create"; "delete"; "get"; "list"; "watch"];
   mkPolicyRule ["apiextensions.k8s.io"] ["customresourcedefinitions"] ["get"];
   mkPolicyRule ["batch"] ["jobs"] ["create"; "delete"; "get"];
   mkPolicyRule ["cdi.kubevirt.io"] ["datavolumes"] ["create"; "delete"; "get"; "list"];
   mkPolicyRule ["kubevirt.io"] ["virtualmachines"] ["create"; "get"; "update"];
   mkPolicyRule ["storage.k8s.io"] ["storageclasses"] ["get"; "list"];
   mkPolicyRule ["vma.nutanix.io"] ["hooks"; "networkmaps"; "storagemaps"] ["get"; "list"; "watch"];
   mkPolicyRule ["vma.nutanix.io"] ["migrationplans"; "migrations"; "nutanixproviders"] ["get"; "list"; "patch"; "update"; "watch"];
   mkPolicyRule ["vma.nutanix.io"] ["migrationplans/status"; "migrations/status"; "nutanixproviders/status"] ["get"; "patch"; "update"];
   mkPolicyRule ["vma.nutanix.io"] ["migrations/finalizers"; "nutanixproviders/finalizers"] ["update"]].

(** A permission: a verb on a resource of a group. *)
Definition permission : Type := string * string * string.

Definition ruleAllows (p : permission) (r : PolicyRule) : bool :=
  let '(group, resource, verb) := p in
  bool_decide (group ∈ Rule_APIGroups r) && bool_decide (resource ∈ Rule_Resources r) && bool_decide (verb ∈ Rule_Verbs r).

Definition grants (rules : list PolicyRule) (p : permission) : bool := existsb (ruleAllows p) rules.

(** Every permission of a rule. *)
Definition permissionsOf (r : PolicyRule) : list permission :=
  g ← Rule_APIGroups r; res ← Rule_Resources r; v ← Rule_Verbs r; [(g, res, v)].

Lemma ruleAllows_in p r : ruleAllows p r = true ↔ p ∈ permissionsOf r.
Proof.
  destruct p as [[g res] v]. unfold ruleAllows, permissionsOf. rewrite !andb_true_iff, !bool_decide_eq_true.
  rewrite list_elem_of_bind. setoid_rewrite list_elem_of_bind. setoid_rewrite list_elem_of_bind. setoid_rewrite list_elem_of_singleton.
  naive_solver.
Qed.

Lemma grants_in rules p : grants rules p = true ↔ p ∈ rules ≫= permissionsOf.
Proof.
  unfold grants. rewrite existsb_exists, list_elem_of_bind. setoid_rewrite ruleAllows_in. setoid_rewrite list_elem_of_In. naive_solver.
Qed.

Lemma grants_mono rules rules' : rules ≫= permissionsOf ⊆ rules' ≫= permissionsOf → ∀ p, grants rules p = true → grants rules' p = true.
Proof. intros H p. rewrite !grants_in. apply H. Qed.

(** The role says what the code says: a permission is granted by config/rbac/role.yaml exactly when
    a marker of one of the three controllers asks for it. *)
Theorem role_matches_markers p : grants managerRole p = grants markers p.
Proof.
  apply eq_true_iff_eq. split; apply grants_mono; apply (bool_decide_unpack _); vm_compute; exact I.
Qed.

(** ** The permission a call needs *)

(** The REST mapping: group and resource of a kind. *)
Definition resourceOf (k : kind) : string * string :=
  match k with
  | KMigration => ("vma.nutanix.io", "migrations")
  | KPlan => ("vma.nutanix.io", "migrationplans")
  | KProvider => ("vma.nutanix.io", "nutanixproviders")
  | KNetworkMap => ("vma.nutanix.io", "networkmaps")
  | KStorageMap => ("vma.nutanix.io", "storagemaps")
  | KHook => ("vma.nutanix.io", "hooks")
  | KSecret => ("", "secrets")
  | KConfigMap => ("", "configmaps")
  | KPod => ("", "pods")
  | KJob => ("batch", "jobs")
  | KDataVolume => ("cdi.kubevirt.io", "datavolumes")
  | KVirtualMachine => ("kubevirt.io", "virtualmachines")
  | KNamespace => ("", "namespaces")
  | KStorageClass => ("storage.k8s.io", "storageclasses")
  | KNetAttachDef => ("k8s.cni.cncf.io", "network-attachment-definitions")
  | KCustomResourceDefinition => ("apiextensions.k8s.io", "customresourcedefinitions")
  end.

(** The permission of a request sent as it is. *)
Definition needs (c : k8scall) : permission :=
  match c with
  | Get k _ => (resourceOf k, "get")
  | Create k _ => (resourceOf k, "create")
  | Update k _ => (resourceOf k, "update")
  | StatusUpdate k _ => ((resourceOf k).1, (resourceOf k).2 +s+ "/status", "update")
  | Delete k _ => (resourceOf k, "delete")
  | ListPlans _ => (resourceOf KPlan, "list")
  end.

(** ** What the manager's client sends

    The controllers call the manager's client (cmd/main.go), which has the default cache: it serves
    the reads of typed objects from an informer of the kind, which lists and watches the kind at the
    API server. The two kinds that validation reads as unstructured objects are read directly, and
    every write is sent as it is. *)

Definition typedKind (k : kind) : bool := match k with KNetAttachDef | KCustomResourceDefinition => false | _ => true end.

Definition informer (k : kind) : list permission := [(resourceOf k, "list"); (resourceOf k, "watch")].

(** The permissions a call of the client takes. *)
Definition requires (c : k8scall) : list permission :=
  match c with
  | Get k _ => if typedKind k then informer k else [needs c]
  | ListPlans _ => informer KPlan
  | Create _ _ | Update _ _ | StatusUpdate _ _ | Delete _ _ => [needs c]
  end.

Definition allowed (c : call) : bool :=
  match c with K8s q => forallb (grants managerRole) (requires q) | _ => true end.

Definition readsOneOf (ks : list kind) (c : call) : bool :=
  match c with K8s (Get k _) => bool_decide (k ∈ ks) | _ => false end.

(** The kinds the role does not let the controllers read through the client: those the migration
    controller reads without an informer's verbs, and those validation reads. *)
Definition unreadByMigration : list kind := [KConfigMap; KPod; KJob; KDataVolume; KVirtualMachine].
Definition unreadByPlan : list kind := [KNamespace; KStorageClass; KNetAttachDef].

(** ** The calls of the controllers *)

Section Controllers.
Context {W : Type} `{E : Env W} `{AM : ApiMachinery} `{RO : RangeOrder}.

(** A call that is allowed, or reads one of the kinds. *)
Definition expected (ks : list kind) (c : call) : bool := allowed c || readsOneOf ks c.

Lemma expected_or ks c : expected ks c = true → allowed c = true ∨ readsOneOf ks c = true.
Proof. unfold expected. apply orb_true_iff. Qed.

Lemma phaseCall_expected c : phaseCall c = true → expected unreadByMigration c = true.
Proof. destruct c as [|[[]|[]|[]| |[]|]| | |]; try done; intros _; vm_compute; reflexivity. Qed.

Notation within := (within (expected unreadByPlan)).

Lemma within_storageClassLoop cs : within (storageClassLoop cs).
Proof. induction cs; simpl; within_solve. Qed.
Lemma within_multusLoop checked nics nm ns : within (multusLoop checked nics nm ns).
Proof. revert checked. induction nics as [|n nics IH]; intros checked; simpl; within_solve. Qed.

Lemma within_Validate vm opts : within (Validate vm opts).
Proof.
  unfold Validate, checkNamespace, checkStorageClasses, checkMultusNADs, checkCDIInstalled, checkKubeVirtInstalled.
  pose proof within_storageClassLoop as H1. pose proof within_multusLoop as H2. within_solve.
Qed.

Lemma within_plan factory req : within (PlanController.Reconcile factory req).
Proof.
  assert (∀ cl opts vms, within (validateVMs cl opts vms)) as Hv.
  { intros cl opts vms. induction vms as [|v vms IH]; simpl; pose proof within_Validate as H; within_solve. }
  unfold PlanController.Reconcile, validatePlan, setPlanError. within_solve.
Qed.

Lemma within_provider factory req : Footprint.within allowed (ProviderController.Reconcile factory req).
Proof.
  assert (∀ cl cs n, Footprint.within allowed (countContainers cl cs n)) as Hc by (intros cl cs; induction cs as [|x cs IH]; intros n; simpl; within_solve).
  unfold ProviderController.Reconcile, deleteProvider, isProviderInUse, connect, ProviderController.inventory, setErrorCondition. within_solve.
Qed.

Lemma within_migration fuel cbtFuel rec req : Footprint.within (expected unreadByMigration) (Migration.Reconcile fuel cbtFuel rec req).
Proof.
  assert (∀ mctx m vms, Footprint.within (expected unreadByMigration) (advanceVMs fuel cbtFuel rec mctx m vms)) as Ha.
  { intros mctx m vms. eapply within_mono; [exact phaseCall_expected|]. apply within_advanceVMsLoop. }
  assert (∀ s vms, Footprint.within (expected unreadByMigration) (cancelLoop s vms)) as Hc by (intros s vms; induction vms as [|v vms IH]; simpl; within_solve).
  unfold Migration.Reconcile, handleDeletion, setMigrationFailed, resolveMigrationContext, reconcileRunning, startMigration, processCancellations,
    updateOverallStatus, finish, recordEvent. within_solve.
Qed.

(** ** A network that is not covered *)

(** An API server that refuses the reads the role does not grant. *)
Definition enforcesRole : Prop :=
  ∀ k key w, grants managerRole (needs (Get k key)) = false → ∃ e, (handle (K8s (Get k key)) w).2 = Err e.

(** A network interface that goes to a Multus network. *)
Definition multusKey (nm : NetworkMap) (targetNS : string) (nic : NIC) : option string :=
  match findNetworkDestination (NIC_NetworkRef nic) (Some nm) with
  | Some dest =>
      match NetworkDest_Type dest with
      | NetworkDestinationMultus =>
          Some ((if NetworkDest_Namespace dest =s "" then targetNS else NetworkDest_Namespace dest) +s+ "/" +s+ NetworkDest_Name dest)
      | NetworkDestinationPod => None
      end
  | None => None
  end.

Lemma spec_refused {B} k key (f : result (obj k) → M W B) (Q : trace → B → Prop) : enforcesRole → grants managerRole (needs (Get k key)) = false →
  (∀ e, spec (f (Err e)) (total (λ t, Q (Ev (K8s (Get k key)) (Err e) :: t)))) → spec (bind (k8s (Get k key)) f) (total Q).
Proof.
  intros He Hg Hf w. unfold bind, k8s, perform. destruct (He k key w Hg) as [e Hr]. destruct (handle _ w) as [w' a]. simpl in Hr. subst a.
  exact (Hf e w').
Qed.

Lemma multusLoop_refused nm ns : enforcesRole → ∀ nics checked,
  spec (multusLoop checked nics nm ns) (total (λ _ cs, (∃ nic key, nic ∈ nics ∧ multusKey nm ns nic = Some key ∧ key ∉ checked) → HasErrors cs = true)).
Proof.
  intros He. induction nics as [|n nics IH]; intros checked; cbn [multusLoop].
  { apply spec_ret. intros (nic & key & Hn & _). by apply elem_of_nil in Hn. }
  assert (∀ nic, nic ∈ n :: nics → nic = n ∨ nic ∈ nics) as Hcons by set_solver.
  destruct (findNetworkDestination _ _) as [dest|] eqn:Hd.
  2:{ eapply spec_total_weaken; [apply IH|]. intros t cs H (nic & key & [->|Hn]%Hcons & Hk & Hc); [unfold multusKey in Hk; by rewrite Hd in Hk|eauto 10]. }
  destruct (NetworkDest_Type dest) eqn:Ht.
  { eapply spec_total_weaken; [apply IH|]. intros t cs H (nic & key & [->|Hn]%Hcons & Hk & Hc); [unfold multusKey in Hk; by rewrite Hd, Ht in Hk|eauto 10]. }
  case_bool_decide as Hin.
  { eapply spec_total_weaken; [apply IH|]. intros t cs H (nic & key & [->|Hn]%Hcons & Hk & Hc); [|eauto 10].
    unfold multusKey in Hk. rewrite Hd, Ht in Hk. injection Hk as <-. done. }
  apply spec_refused; [done|by vm_compute|]. intros e. eapply spec_bind; [apply IH|]. intros t cs _. apply spec_ret. done.
Qed.

Lemma spec_drop {A B} (m : M W A) (k : A → M W B) (Q : B → Prop) :
  spec m (total (λ _ _, True)) → (∀ a, spec (k a) (total (λ _, Q))) → spec (bind m k) (total (λ _, Q)).
Proof. intros Hm Hk. eapply spec_bind; [exact Hm|]. intros t a _. apply Hk. Qed.

Lemma validate_refused vm opts nm nic key : enforcesRole → VOpt_HasClient opts = true → VOpt_NetworkMap opts = Some nm →
  nic ∈ VM_Nics vm → multusKey nm (VOpt_TargetNamespace opts) nic = Some key →
  spec (Validate vm opts) (total (λ _ cs, HasErrors cs = true)).
Proof.
  intros He Hc Hn Hin Hk. unfold Validate. rewrite Hc, Hn. unfold checkMultusNADs.
  assert (∀ Q (m : M W (list Concern)), readsRule Q m → spec m (total (λ _ _, True))) as Hr by (intros Q m H; by eapply spec_total_weaken).
  apply spec_drop; [eapply Hr, checkNamespace_reads|]. intros c1.
  apply spec_drop; [unfold checkStorageClasses; destruct (VOpt_StorageMap opts); [eapply Hr, storageClassLoop_reads|by apply spec_ret]|]. intros c2.
  eapply spec_bind; [by apply multusLoop_refused|]. intros t3 c3 H3.
  apply spec_drop; [eapply Hr, checkCDIInstalled_reads|]. intros c4. apply spec_drop; [eapply Hr, checkKubeVirtInstalled_reads|]. intros c5.
  apply spec_ret. rewrite !HasErrors_app, H3; [by rewrite !orb_true_r|]. exists nic, key. set_solver.
Qed.

End Controllers.

(** C18: what the operator may do. Whatever the environment answers, config/rbac/role.yaml allows
    every call of the three reconcilers as the manager's cached client sends it, except reads: a
    reconcile of a provider makes allowed calls only; in one of a Migration every other call reads a
    ConfigMap, Pod, Job, DataVolume or VirtualMachine; in one of a plan every other call reads a
    Namespace, a StorageClass or a network attachment definition. These exceptions are real: the role
    does not allow a read of any of the eight kinds (no watch for the typed ones, nothing at all for
    the last), and it allows every read of the other kinds. *)
Theorem operator_within_role {W} `{E : Env W} `{AM : ApiMachinery} `{RO : RangeOrder} fuel cbtFuel rec factory req w :
  Forall (λ c, allowed c = true) (calls (traceOf (ProviderController.Reconcile factory req) w)) ∧
  Forall (λ c, allowed c = true ∨ readsOneOf unreadByMigration c = true) (calls (traceOf (Migration.Reconcile fuel cbtFuel rec req) w)) ∧
  Forall (λ c, allowed c = true ∨ readsOneOf unreadByPlan c = true) (calls (traceOf (PlanController.Reconcile factory req) w)) ∧
  ∀ k key, allowed (K8s (Get k key)) = false ↔ k ∈ unreadByMigration ++ unreadByPlan.
Proof.
  split; [exact (within_calls _ _ (within_provider factory req) w)|].
  split; [eapply Forall_impl; [exact (within_calls _ _ (within_migration fuel cbtFuel rec req) w)|apply expected_or]|].
  split; [eapply Forall_impl; [exact (within_calls _ _ (within_plan factory req) w)|apply expected_or]|].
  intros k key. rewrite <- (bool_decide_eq_true (k ∈ _)). destruct k; vm_compute; split; done.
Qed.

(** C32: a consequence: with an API server that enforces the role, validation reports an error for every
    VM that has a network interface mapped to a Multus network, whether the network attachment
    definition exists or not; such a VM cannot be migrated. *)
Theorem multus_never_validates {W} `{E : Env W} `{RO : RangeOrder} vm opts nm nic key w :
  enforcesRole → VOpt_HasClient opts = true → VOpt_NetworkMap opts = Some nm →
  nic ∈ VM_Nics vm → multusKey nm (VOpt_TargetNamespace opts) nic = Some key →
  ∃ cs, run (Validate vm opts) w = Done cs ∧ HasErrors cs = true.
Proof.
  intros He Hc Hn Hin Hk. destruct (spec_returns _ _ w (validate_refused vm opts nm nic key He Hc Hn Hin Hk)) as (cs & Hr & H). eauto.
Qed.

(** A cluster that has everything and enforces the role. *)
Module RefRole.

Definition forbidden : error := mkError ClassOther "forbidden".

Definition read (k : kind) (key : NamespacedName) : result (obj k) :=
  if grants managerRole (needs (Get k key)) then k8sServe k key else Err forbidden.

#[export] Instance cluster : Env unit := RefEnv.fixed nxServe read (Ok tt).
#[export] Instance order : RangeOrder := elements.

Lemma cluster_enforces : enforcesRole.
Proof. intros k key w Hg. exists forbidden. unfold handle, cluster, RefEnv.fixed, RefEnv.answers, read. by rewrite Hg. Qed.

End RefRole.

Lemma multus_never_validates_witness :
  ∃ cs, run (Validate (E := RefRole.cluster) (RO := RefRole.order) sampleVM sampleOptions) tt = Done cs ∧ HasErrors cs = true.
Proof.
  apply (multus_never_validates (E := RefRole.cluster) (RO := RefRole.order) sampleVM sampleOptions sampleNetworkMap
    (mkNIC "nic-002" (Some (mkReference "subnet-1" "vm-network")) "NORMAL_NIC" "50:6b:8d:aa:bb:02" []) "ns/br0" tt);
    [exact RefRole.cluster_enforces|reflexivity|reflexivity|left|vm_compute; reflexivity].
Defined.
