(* ===== verification/Composition.v ===== *)
(** * The controllers over the HTTP client

    [overHttp] is the environment of the controllers in which every call of [NutanixClient] is
    served by the methods of [httpClient] (ClientOps.v), over an environment that answers at the
    level of HTTP. What holds of a controller in every environment holds in this one, and what
    holds of the client's answers holds of what the controller reads. *)

From S2P Require Import Prelude GoLib NutanixTypes ApiTypes HttpTypes JsonText Codec NutanixCodec Env Client ClientOps ClientProperties ClientTheorems.
From S2P Require Import Disks Builder Transfer Validation Pipeline WarmPhases Migration Samples ProviderController.

Section Compose.
Context {W : Type} `{E : Env W} `{P : Platform} (fuel : nat).

(** The factory the operator installs: [nutanix.NewClient]. *)
Definition clientFactory (config : ClientConfig) : result NutanixClient :=
  match NewClient config with Ok _ => Ok (mkNutanixClient config) | Err e => Err e end.

(** One method call on the client, which keeps its tokens. *)
Definition serve (c : httpClient) (toks : tokens) (q : nxcall) : M W (tokens * nxanswer q) :=
  match q with
  | Env.ListVMs => r <- ClientOps.ListVMs fuel c ;; ret (toks, r)
  | Env.GetVM uuid => r <- ClientOps.GetVM c uuid ;; ret (toks, r)
  | Env.PowerOffVM uuid => r <- ClientOps.PowerOffVM fuel c uuid ;; ret (toks, r)
  | Env.PowerOnVM uuid => r <- ClientOps.PowerOnVM fuel c uuid ;; ret (toks, r)
  | Env.GetVMPowerState uuid => r <- ClientOps.GetVMPowerState c uuid ;; ret (toks, r)
  | Env.CreateRecoveryPoint vm name => r <- ClientOps.CreateRecoveryPoint fuel c vm name ;; ret (toks, r)
  | Env.GetRecoveryPoint uuid => r <- ClientOps.GetRecoveryPoint c uuid ;; ret (toks, r)
  | Env.DeleteRecoveryPoint uuid => r <- ClientOps.DeleteRecoveryPoint fuel c uuid ;; ret (toks, r)
  | Env.CreateImageFromDisk name disk cluster => r <- ClientOps.CreateImageFromDisk fuel c name disk cluster ;; ret (toks, r)
  | Env.GetImage uuid => r <- ClientOps.GetImage c uuid ;; ret (toks, r)
  | Env.DownloadImage uuid => r <- ClientOps.DownloadImage c uuid ;; ret (toks, r)
  | Env.DeleteImage uuid => r <- ClientOps.DeleteImage fuel c uuid ;; ret (toks, r)
  | Env.CloneVMFromRecoveryPoint rp name => r <- ClientOps.CloneVMFromRecoveryPoint fuel c rp name ;; ret (toks, r)
  | Env.DeleteVM uuid => r <- ClientOps.DeleteVM fuel c uuid ;; ret (toks, r)
  | Env.DiscoverClusterForCBT vm => ClientOps.DiscoverClusterForCBT c toks vm
  | Env.GetChangedRegions pe jwt vm snap base offset length blockSize =>
      ClientOps.GetChangedRegions c toks pe jwt vm snap base offset length blockSize
  | Env.ListSubnets => r <- ClientOps.ListSubnets fuel c ;; ret (toks, r)
  | Env.ListStorageContainers pe => r <- ClientOps.ListStorageContainers c pe ;; ret (toks, r)
  | Env.ListClusters => r <- ClientOps.ListClusters fuel c ;; ret (toks, r)
  end.

Definition refuse (e : error) (q : nxcall) : nxanswer q :=
  match q with
  | Env.ListVMs | Env.GetVM _ | Env.PowerOffVM _ | Env.PowerOnVM _ | Env.GetVMPowerState _ | Env.CreateRecoveryPoint _ _
  | Env.DeleteRecoveryPoint _ | Env.CreateImageFromDisk _ _ _ | Env.DeleteImage _ | Env.DiscoverClusterForCBT _
  | Env.GetRecoveryPoint _ | Env.GetImage _ | Env.DownloadImage _ | Env.CloneVMFromRecoveryPoint _ _ | Env.DeleteVM _
  | Env.GetChangedRegions _ _ _ _ _ _ _ _ | Env.ListSubnets | Env.ListStorageContainers _ | Env.ListClusters => Err e
  end.

(** The world below, the tokens of the client, and whether a method call was lost: it panicked
    or did not return, and the process above it with it. *)
Record connected := mkConnected { Below : W; Tokens : tokens; Lost : bool }.

Definition overHttp : Env connected := λ call w,
  match call return connected * answer call with
  | Nx cl q =>
      match NewClient (Client_Config cl) with
      | Err e => (mkConnected (Below w) (Tokens w) true, refuse e q)
      | Ok c =>
          let r := serve c (Tokens w) q (Below w) in
          match r_out r with
          | Done (toks, a) => (mkConnected (r_world r) toks (Lost w), a)
          | _ => (mkConnected (r_world r) (Tokens w) true, refuse (newErr "lost") q)
          end
      end
  | call => let '(b, a) := handle call (Below w) in (mkConnected b (Tokens w) (Lost w), a)
  end.

(** What a listing answers is what the client returned. *)
Lemma listed_by_client cl vms :
  @genuine connected overHttp (Ev (Nx cl Env.ListVMs) (Ok vms)) →
  ∃ c w, NewClient (Client_Config cl) = Ok c ∧ run (ClientOps.ListVMs fuel c) w = Done (Ok vms).
Proof.
  intros [w Hw]. simpl in Hw. unfold handle, overHttp in Hw. destruct (NewClient (Client_Config cl)) as [c|e]; [|done].
  exists c, (Below w). split; [done|]. unfold serve, bind in Hw. unfold run.
  destruct (r_out (ClientOps.ListVMs fuel c (Below w))) as [r| |]; simpl in Hw; congruence.
Qed.

End Compose.

(** ** Traces of the environment *)

Section Genuine.
Context {W : Type} `{E : Env W}.

Definition genuineRun {A} (m : M W A) : Prop := spec m (λ t _, Forall genuine t).

Lemma genuine_ret {A} (a : A) : genuineRun (ret a).
Proof. intros w. constructor. Qed.

Lemma genuine_perform c : genuineRun (perform c).
Proof. intros w. unfold perform. destruct (handle c w) as [w' a] eqn:H. constructor; [|constructor]. exists w. simpl. by rewrite H. Qed.

Lemma genuine_bind {A B} (m : M W A) (k : A → M W B) : genuineRun m → (∀ a, genuineRun (k a)) → genuineRun (bind m k).
Proof.
  intros Hm Hk w. specialize (Hm w). unfold bind. destruct (r_out (m w)) as [a| |]; [|done|done].
  simpl. apply Forall_app. split; [done|]. apply Hk.
Qed.

Lemma genuine_event {A} (m : M W A) w e : genuineRun m → e ∈ traceOf m w → genuine e.
Proof. intros Hm He. specialize (Hm w). rewrite Forall_forall in Hm. by apply Hm. Qed.

End Genuine.

#[local] Ltac genuine_step :=
  match goal with
  | |- genuineRun (bind (k8s ?c) _) => apply (genuine_bind _ _ (genuine_perform (K8s c))); intros ?
  | |- genuineRun (bind (nx ?cl ?c) _) => apply (genuine_bind _ _ (genuine_perform (Nx cl c))); intros ?
  | |- genuineRun (bind (bind _ _) _) => apply genuine_bind; [|intros ?]
  | |- genuineRun (ret _) => apply genuine_ret
  | |- genuineRun (match ?x with _ => _ end) => destruct x
  | |- genuineRun (if ?b then _ else _) => destruct b
  end.

Section Provider.
Context {W : Type} `{E : Env W} `{AM : ApiMachinery} (factory : ClientConfig → result NutanixClient).

Lemma countContainers_genuine cl cs : ∀ n, genuineRun (countContainers cl cs n).
Proof. induction cs as [|c cs IH]; intros n; simpl; repeat genuine_step; apply IH. Qed.

Lemma setErrorCondition_genuine p reason msg : genuineRun (setErrorCondition p reason msg).
Proof. unfold setErrorCondition. repeat genuine_step. Qed.

Lemma provider_genuine req : genuineRun (ProviderController.Reconcile factory req).
Proof.
  unfold ProviderController.Reconcile, deleteProvider, isProviderInUse, connect, inventory.
  repeat first [apply setErrorCondition_genuine | apply genuine_bind; [apply countContainers_genuine|intros ?] | genuine_step].
Qed.

End Provider.

(** C22: End to end: when Prism at an address has some VMs and honours paging, a provider at that
    address that is stored as Connected has exactly their number as its VM count, whatever else
    Prism and the API server answer, retries, refusals and lost calls included. *)
Theorem provider_counts_what_prism_has {W} `{E : Env W} `{P : Platform} `{AM : ApiMachinery} fuel url (vms : list VM) req w p :
  Forall okVM vms → len vms < 2 ^ 63 - 500 → (length vms < 500 * fuel)%nat →
  (∀ config c, Config_Host config = url → NewClient config = Ok c → servesPages c vmBasePath 500 encVM vms) →
  p ∈ providersWritten (@traceOf connected _ (@ProviderController.Reconcile connected (overHttp fuel) AM clientFactory req) w) →
  Provider_URL (Provider_Spec p) = url → Provider_Phase (Provider_Status p) = ProviderPhaseConnected →
  Provider_VMCount (Provider_Status p) = len vms.
Proof.
  intros Hok Hlen Hf Hserves Hp Hurl Hphase.
  destruct (spec_returns _ _ w (@reconcile_backed connected (overHttp fuel) AM clientFactory req)) as (r & _ & Hb).
  rewrite Forall_forall in Hb. destruct (Hb p Hp Hphase) as (u & pw & cl & l & Hcl & He & ->).
  apply (genuine_event _ _ _ (provider_genuine _ _)), listed_by_client in He as (c & b & Hc & Hrun).
  unfold clientFactory in Hcl. destruct (NewClient _) as [c'|] eqn:Hnew in Hcl; [|done]. injection Hcl as <-. simpl in Hc.
  pose proof (provider_client_sound _ _ _ _ _ Hc) as Hm.
  pose proof (ListVMs_lists c vms fuel Hm Hok Hlen Hf (Hserves (providerConfig _ u pw _) c Hurl Hc) b) as Hlist.
  unfold run in Hrun. rewrite Hrun in Hlist. simpl in Hlist. by rewrite Hlist.
Qed.

(** A cluster with one provider, whose Prism has three VMs. *)
Module RefCluster.

Definition provider : NutanixProvider :=
  mkNutanixProvider (setFinalizers [providerFinalizer] (newMeta "prov" "default" []))
    (mkNutanixProviderSpec "https://prism:9440/" "creds" "" false) (mkNutanixProviderStatus ProviderPhaseConnected 0 []).

Definition read (k : kind) (key : NamespacedName) : result (obj k) :=
  match k return result (obj k) with
  | KProvider => Ok provider
  | KSecret => Ok sampleSecret
  | _ => Err RefEnv.notFound
  end.

Definition cluster : Env unit := λ call w,
  match call return unit * answer call with
  | K8s q => (w, RefEnv.answers RefEnv.nxRefuse read (Ok tt) (K8s q))
  | call => RefPrism.server RefClient.client vmBasePath 500 encVM RefClient.vms call w
  end.

Lemma cluster_serves config c : Config_Host config = "https://prism:9440/" → NewClient (P := RefClient.platform) config = Ok c →
  @servesPages unit cluster VM c vmBasePath 500 encVM RefClient.vms.
Proof.
  intros Hh Hc. assert (HC_host c = "https://prism:9440") as Hhost.
  { unfold NewClient in Hc. rewrite Hh in Hc. repeat case_match; simplify_eq; reflexivity. }
  intros k resp Hk (req & rep & Hmet & Hurl & Hauth & [w Hg] & Hres & Hsuc).
  apply (RefPrism.server_serves RefClient.client vmBasePath 500 encVM RefClient.vms k resp Hk).
  exists (mkRequest (Req_Method req) (pageURL RefClient.client vmBasePath k) (BasicAuth "admin" "secret") "" None None), rep.
  split; [done|]. split; [done|]. split; [done|]. split; [|done]. exists w. simpl in *. rewrite Hg. unfold handle, cluster, RefPrism.server. simpl.
  rewrite Hurl. unfold pageURL. by rewrite Hhost.
Qed.

End RefCluster.

Lemma provider_counts_what_prism_has_witness :
  ∃ p, p ∈ providersWritten (@traceOf connected _ (@ProviderController.Reconcile connected
      (@overHttp unit RefCluster.cluster RefClient.platform 1) RefMachinery.machinery (@clientFactory RefClient.platform) (mkNN "default" "prov"))
      (mkConnected tt ∅ false)) ∧
    Provider_Phase (Provider_Status p) = ProviderPhaseConnected ∧ Provider_VMCount (Provider_Status p) = 3.
Proof.
  eexists. split; [vm_compute; right; left|]. split; [reflexivity|].
  refine (@provider_counts_what_prism_has unit RefCluster.cluster RefClient.platform RefMachinery.machinery 1 "https://prism:9440/" RefClient.vms
    (mkNN "default" "prov") (mkConnected tt ∅ false) _ RefClient.vms_ok _ _ RefCluster.cluster_serves _ _ _);
    [vm_compute; reflexivity|simpl; lia|vm_compute; right; left|reflexivity|reflexivity].
Defined.

(** ** A long changed-region query *)

Module SlowPrism.

(** Prism Central hands out tokens that name the time they were made. Prism Element takes a token
    for 15 minutes and serves four pages of one region each; a page takes some minutes. The world
    is the time and the number of pages served. *)
Definition world : Type := Z * Z.

Definition page (n : Z) : ChangedRegions :=
  mkChangedRegions [mkChangedRegion n 1] (if n <? 3 then Some (n + 1) else None).

Definition serveRequest (minutes : Z) (w : world) (req : Request) : world * Reply :=
  let '(t, n) := w in
  match Req_Auth req with
  | BasicAuth _ _ => (w, RefClient.status 200 (RefClient.body (encData encCBTClusterInfo (mkCBTClusterInfo "https://pe" (itoa t)))) req)
  | Cookie _ token =>
      if (default 0 (atoi token) + 15 * Duration.Minute) <? t then (w, RefClient.status 401 "token expired" req)
      else ((t + minutes * Duration.Minute, n + 1), RefClient.status 200 (RefClient.body (encData encChangedRegions (page n))) req)
  end.

Definition prism (minutes : Z) : Env world := λ c w,
  match c return world * answer c with
  | Http (Do _ req) => serveRequest minutes w req
  | Now => (w, w.1)
  | c => (w, RefPrism.serverAnswer "" (λ _, "") c)
  end.

(** The controller's query of one disk: discovery, then page after page. *)
Definition query (minutes : Z) : M (@connected world) (result (list ChangedRegion)) :=
  let E := @overHttp world (prism minutes) RefClient.platform 1 in
  r <- @nx _ E sampleClient (Env.DiscoverClusterForCBT "vm-uuid-002") ;;
  match r with
  | Err e => ret (Err e)
  | Ok info =>
      @cbtLoop _ E (sampleContext MigrationTypeWarm) 5 info (sampleStatus VMPhasePrecopy)
        (mkWarm 0 0 0 "base" [] None "delta" [] "" 0 0) 4 0 []
  end.

Definition start : @connected world := mkConnected (0, 0) ∅ false.

End SlowPrism.

(** What the loss of a refreshed token costs: the controller's query of a disk, through the
    HTTP client, returns all four pages when a page takes 1 minute; when it takes 7, the third page
    refreshes the token, and the fourth finds the cache fresh, sends the first token again, by then
    21 minutes old, and the query fails. *)
Theorem slow_query_fails :
  run (SlowPrism.query 1) SlowPrism.start =
    Done (Ok [mkChangedRegion 0 1; mkChangedRegion 1 1; mkChangedRegion 2 1; mkChangedRegion 3 1]) ∧
  run (SlowPrism.query 7) SlowPrism.start =
    Done (Err (NutanixAPIError 401 "token expired"
      "https://pe/api/storage/v4.0/config/changed-regions?vmExtId=vm-uuid-002&snapshotExtId=delta&baseSnapshotExtId=base&offset=3&length=4&blockSize=65536")).
Proof. vm_compute. repeat split. Qed.
