(* ===== verification/Operator.v ===== *)
(** * The operator's entry point (cmd/main.go and the Setup functions of the controllers)

    The flags, the options of the servers and of the manager they lead to, and the start of the
    three controllers, step by step. controller-runtime's manager is a parameter: what it answers
    to each step. *)

From S2P Require Import Prelude GoLib NutanixTypes ApiTypes HttpTypes JsonText Codec NutanixCodec Env Client ClientOps Pipeline Migration.
From S2P Require Import PlanController ProviderController Composition.

(** ** Flags *)

Record Flags := mkFlags {
  Flag_MetricsAddr : string;
  Flag_ProbeAddr : string;
  Flag_LeaderElect : bool;
  Flag_MetricsSecure : bool;
  Flag_WebhookCertPath : string;
  Flag_WebhookCertName : string;
  Flag_WebhookCertKey : string;
  Flag_MetricsCertPath : string;
  Flag_MetricsCertName : string;
  Flag_MetricsCertKey : string;
  Flag_EnableHTTP2 : bool
}.

Definition defaultFlags : Flags := mkFlags "0" ":8081" false true "" "tls.crt" "tls.key" "" "tls.crt" "tls.key" false.

(** ** Options *)

(** Of a [tls.Config], the application protocols; a nil slice leaves them to net/http, which then offers HTTP/2. *)
Record TLSConfig := mkTLSConfig { TLS_NextProtos : list string }.

Definition disableHTTP2 (c : TLSConfig) : TLSConfig := mkTLSConfig ["http/1.1"].

Definition tlsOpts (f : Flags) : list (TLSConfig → TLSConfig) := if Flag_EnableHTTP2 f then [] else [disableHTTP2].

(** [webhook.Options]; empty texts are the zero values *)
Record WebhookOptions := mkWebhookOptions {
  Webhook_TLSOpts : list (TLSConfig → TLSConfig); Webhook_CertDir : string; Webhook_CertName : string; Webhook_KeyName : string }.

Definition webhookServerOptions (f : Flags) : WebhookOptions :=
  if Flag_WebhookCertPath f =s "" then mkWebhookOptions (tlsOpts f) "" "" ""
  else mkWebhookOptions (tlsOpts f) (Flag_WebhookCertPath f) (Flag_WebhookCertName f) (Flag_WebhookCertKey f).

(** [metricsserver.Options]; the filter is [filters.WithAuthenticationAndAuthorization] *)
Record MetricsOptions := mkMetricsOptions {
  MetricsOpt_BindAddress : string;
  MetricsOpt_SecureServing : bool;
  MetricsOpt_TLSOpts : list (TLSConfig → TLSConfig);
  MetricsOpt_AuthFilter : bool;
  MetricsOpt_CertDir : string;
  MetricsOpt_CertName : string;
  MetricsOpt_KeyName : string
}.

Definition metricsServerOptions (f : Flags) : MetricsOptions :=
  let '(dir, name, key) :=
    if Flag_MetricsCertPath f =s "" then ("", "", "") else (Flag_MetricsCertPath f, Flag_MetricsCertName f, Flag_MetricsCertKey f) in
  mkMetricsOptions (Flag_MetricsAddr f) (Flag_MetricsSecure f) (tlsOpts f) (Flag_MetricsSecure f) dir name key.

(** The packages whose types [init] adds to the scheme *)
Definition schemes : list string :=
  ["k8s.io/client-go/kubernetes/scheme"; "github.com/nctiggy/nutanix-vma/api/v1alpha1"; "kubevirt.io/api/core/v1";
   "kubevirt.io/containerized-data-importer-api/pkg/apis/core/v1beta1"].

(** [ctrl.Options] *)
Record ManagerOptions := mkManagerOptions {
  Mgr_Scheme : list string;
  Mgr_Metrics : MetricsOptions;
  Mgr_Webhook : WebhookOptions;
  Mgr_HealthProbeBindAddress : string;
  Mgr_LeaderElection : bool;
  Mgr_LeaderElectionID : string
}.

Definition managerOptions (f : Flags) : ManagerOptions :=
  mkManagerOptions schemes (metricsServerOptions f) (webhookServerOptions f) (Flag_ProbeAddr f) (Flag_LeaderElect f) "07985020.nutanix.io".

(** ** Controllers *)

(** What the builder of controller-runtime is given: the kind whose objects are reconciled and the name. *)
Record controllerSpec := mkControllerSpec { Ctl_For : kind; Ctl_Name : string }.

Definition SetupProviderController : controllerSpec := mkControllerSpec KProvider "provider".
Definition SetupPlanController : controllerSpec := mkControllerSpec KPlan "plan".
Definition SetupMigrationController : controllerSpec := mkControllerSpec KMigration "migration".

(** The migration controller has the real client factory and an event recorder. *)
Definition migrationReconciler `{P : Platform} : MigrationReconciler := mkMigrationReconciler clientFactory true.

(** The reconciler a request of a controller goes to. *)
Definition reconcileOf {W} `{E : Env W} `{P : Platform} `{AM : ApiMachinery} `{RO : Validation.RangeOrder} (fuel cbtFuel : nat)
  (c : controllerSpec) (req : NamespacedName) : option (M W (result ctrlResult)) :=
  match Ctl_For c with
  | KProvider => Some (ProviderController.Reconcile clientFactory req)
  | KPlan => Some (PlanController.Reconcile clientFactory req)
  | KMigration => Some (Migration.Reconcile fuel cbtFuel migrationReconciler req)
  | _ => None
  end.

(** ** main *)

Inductive step :=
| GetConfig
| NewManager (opts : ManagerOptions)
| SetupController (c : controllerSpec)
| AddHealthzCheck (name : string)
| AddReadyzCheck (name : string)
| Start.

(** The steps of [main], in order. *)
Definition steps (f : Flags) : list step :=
  [GetConfig; NewManager (managerOptions f); SetupController SetupProviderController; SetupController SetupPlanController;
   SetupController SetupMigrationController; AddHealthzCheck "healthz"; AddReadyzCheck "readyz"; Start].

(** Take the steps one after the other, [attempt] giving the error of each: what was done, and the exit code. *)
Fixpoint take_steps (attempt : step → option error) (todo : list step) : list step * Z :=
  match todo with
  | [] => ([], 0)
  | s :: todo =>
      match attempt s with
      | Some _ => ([s], 1)
      | None => let '(done, code) := take_steps attempt todo in (s :: done, code)
      end
  end.

Definition main (f : Flags) (attempt : step → option error) : list step * Z := take_steps attempt (steps f).

(** ** Properties *)

Lemma take_steps_exact attempt todo :
  ∃ done code, take_steps attempt todo = (done, code) ∧ done `prefix_of` todo ∧
    (code = 0 ∧ done = todo ∧ Forall (λ s, attempt s = None) todo ∨
     code = 1 ∧ ∃ ok s, done = ok ++ [s] ∧ Forall (λ s, attempt s = None) ok ∧ attempt s ≠ None).
Proof.
  induction todo as [|s todo (done & code & Ht & Hp & Hc)]; simpl.
  { exists [], 0. split; [done|]. split; [apply prefix_nil|]. by left. }
  destruct (attempt s) as [e|] eqn:Hs.
  - exists [s], 1. split; [done|]. split; [by apply prefix_cons, prefix_nil|]. right. split; [done|]. exists [], s. rewrite Hs. auto.
  - rewrite Ht. exists (s :: done), code. split; [done|]. split; [by apply prefix_cons|]. destruct Hc as [(-> & -> & H)|(-> & ok & x & -> & H & Hx)].
    + left. auto.
    + right. split; [done|]. exists (s :: ok), x. auto.
Qed.

(** The manager is started last. *)
Lemma started_all f done : done `prefix_of` steps f → Start ∈ done → done = steps f.
Proof.
  intros [rest Hp] Hst. assert (done = take (length done) (steps f)) as Hd by (by rewrite Hp, take_app_length).
  rewrite Hd in Hst |- *. clear Hp Hd. generalize dependent (length done). intros n Hst.
  destruct (Nat.le_gt_cases 8 n) as [Hn|Hn]; [by apply take_ge|]. exfalso.
  do 8 (destruct n as [|n]; [simpl in Hst; set_solver|]). lia.
Qed.

(** The protocols a server offers, from what it would offer by itself. *)
Definition protocols (opts : list (TLSConfig → TLSConfig)) (c : TLSConfig) : list string := TLS_NextProtos (foldl (λ c f, f c) c opts).

(** The operator starts completely or not at all. [main] takes its steps in order and stops with
    exit code 1 at the first that fails; the manager is started only after the three controllers, one
    for each of the kinds Provider, Plan and Migration, and both health checks are in place. By
    default neither server offers HTTP/2, and metrics are served over HTTPS with authentication;
    metrics without authentication are served only when --metrics-secure=false turned HTTPS off too. *)
Theorem operator_starts_complete f attempt :
  (∃ done code, main f attempt = (done, code) ∧ done `prefix_of` steps f ∧ (code = 0 ↔ Forall (λ s, attempt s = None) (steps f)) ∧
     (Start ∈ done → ∀ k, k ∈ [KProvider; KPlan; KMigration] →
        ∃ c, Ctl_For c = k ∧ SetupController c ∈ done ∧ attempt (SetupController c) = None)) ∧
  (Flag_EnableHTTP2 f = false → ∀ c, protocols (MetricsOpt_TLSOpts (metricsServerOptions f)) c = ["http/1.1"] ∧
     protocols (Webhook_TLSOpts (webhookServerOptions f)) c = ["http/1.1"]) ∧
  MetricsOpt_AuthFilter (metricsServerOptions f) = MetricsOpt_SecureServing (metricsServerOptions f).
Proof.
  split; [|split].
  - unfold main. destruct (take_steps_exact attempt (steps f)) as (done & code & Ht & Hp & Hc). exists done, code. do 2 (split; [done|]). split.
    + destruct Hc as [(-> & -> & H)|(-> & ok & s & -> & H & Hs)]; [done|]. split; [done|]. intros Hall. exfalso. apply Hs.
      destruct Hp as [rest Hp]. rewrite Forall_forall in Hall. apply Hall. rewrite Hp. set_solver.
    + intros Hst k Hk. pose proof (started_all f done Hp Hst) as ->.
      assert (∀ c, SetupController c ∈ steps f → attempt (SetupController c) = None) as Hok.
      { intros c Hin. destruct Hc as [(_ & _ & H)|(_ & ok & s & Hd & H & Hs)]; rewrite Forall_forall in H; [by apply H|].
        assert (s = Start ∧ ok = take 7 (steps f)) as [-> ->].
        { apply (f_equal (λ l, (last l, take 7 l))) in Hd as Hl. rewrite last_snoc in Hl. apply (f_equal length) in Hd. rewrite length_app in Hd.
          simpl in Hl, Hd. rewrite take_app_le, take_ge in Hl by lia. by injection Hl as <- <-. }
        rewrite Hd in Hin. apply H. set_solver. }
      unfold steps in *. repeat (apply elem_of_cons in Hk as [->|Hk]); [exists SetupProviderController|exists SetupPlanController|
        exists SetupMigrationController|by apply elem_of_nil in Hk]; (split; [done|]); (split; [set_solver|]); apply Hok; set_solver.
  - intros Hh c. unfold metricsServerOptions, webhookServerOptions, tlsOpts. rewrite Hh. by repeat case_match; simplify_eq/=.
  - unfold metricsServerOptions. by repeat case_match; simplify_eq/=.
Qed.
