(* ===== verification/MockComposition.v ===== *)
(** * The operator, its HTTP client and the mock Prism server together

    An inventory says what Prism promises to the operator: [promised] gives, for each method of
    [NutanixClient], the new inventory and the answer. The methods of the HTTP client over the
    mock server keep that promise, through JSON, paging, tasks and polling, and so a migration
    that ran over HTTP leaves nothing behind on the server. *)

From S2P Require Import Prelude GoLib NutanixTypes ApiTypes HttpTypes HttpServer JsonText Codec NutanixCodec Env Client ClientOps.
From S2P Require Import ClientProperties ClientTheorems MockServer MockClient Disks Builder Transfer Validation Pipeline Samples WarmPhases.
From S2P Require Import Resources Migration Lifecycle Footprint ProviderController Composition.

(** ** What Prism promises *)

(** A call whose texts go into a URL or a body as they are. *)
Definition plainCall (base : string) (q : nxcall) : Prop :=
  match q with
  | Env.GetVM uuid | Env.PowerOffVM uuid | Env.PowerOnVM uuid | Env.GetVMPowerState uuid | Env.DeleteVM uuid
  | Env.GetRecoveryPoint uuid | Env.DeleteRecoveryPoint uuid | Env.GetImage uuid | Env.DownloadImage uuid | Env.DeleteImage uuid => plainID uuid
  | Env.CloneVMFromRecoveryPoint rp name => plainID rp ∧ okString name
  | Env.CreateRecoveryPoint vm name => okString vm ∧ okString name
  | Env.CreateImageFromDisk name disk cluster => okString name ∧ okString disk ∧ okString cluster
  | Env.DiscoverClusterForCBT vm => okString vm
  | Env.GetChangedRegions pe _ vm snap baseSnap offset length blockSize =>
      TrimRight pe "/" = base ∧ okString vm ∧ plainQuery vm snap baseSnap offset length blockSize
  | Env.ListStorageContainers pe => TrimRight pe "/" = base
  | Env.ListVMs | Env.ListSubnets | Env.ListClusters => True
  end.

#[global] Instance plainCall_dec base q : Decision (plainCall base q).
Proof. unfold plainCall, plainQuery, okString. destruct q; apply _. Defined.

(** The VM, in another power state. *)
Definition setPower (uuid state : string) (i : Inventory) : Inventory * (result unit → Prop) :=
  match vmWith uuid (Inv_VMs i) with
  | None => (i, meets None)
  | Some _ => (setInvVMs (changeVM uuid (Mock.setPowerState state) (Inv_VMs i)) i, meets (Some tt))
  end.

Definition addVM (vm : VM) (i : Inventory) : Inventory :=
  setInvImages (Inv_Images i) (int64 (Inv_Made i + 1)) (setInvVMs (Inv_VMs i ++ [vm]) i).

(** What the answer of a call also depends on: whether the writer of a download takes the data, and
    whether the client has a token of the VM that is too old. *)
Record around := mkAround { Writer : string → option error; Stale : string → bool }.

Definition promised (base : string) (ar : around) (q : nxcall) (i : Inventory) : Inventory * (nxanswer q → Prop) :=
  match q with
  | Env.ListVMs => (i, meets (Some (Inv_VMs i)))
  | Env.GetVM uuid => (i, meets (vmWith uuid (Inv_VMs i)))
  | Env.PowerOffVM uuid => setPower uuid "OFF" i
  | Env.PowerOnVM uuid => setPower uuid "ON" i
  | Env.GetVMPowerState uuid => (i, meets (VM_PowerState <$> vmWith uuid (Inv_VMs i)))
  | Env.CreateRecoveryPoint vm name =>
      let id := pointID (Inv_Made i) in
      (setInvPoints (<[id := mkRecoveryPoint id name "COMPLETE" vm "" "APPLICATION_CONSISTENT"]> (Inv_RecoveryPoints i))
        (int64 (Inv_Made i + 1)) i, meets (Some id))
  | Env.GetRecoveryPoint uuid => (i, meets (Inv_RecoveryPoints i !! uuid))
  | Env.DeleteRecoveryPoint uuid =>
      match Inv_RecoveryPoints i !! uuid with
      | None => (i, meets None)
      | Some _ => (setInvPoints (delete uuid (Inv_RecoveryPoints i)) (Inv_Made i) i, meets (Some tt))
      end
  | Env.CreateImageFromDisk name _ _ =>
      let id := imageID (Inv_Made i) in
      (setInvImages (<[id := mkImage id name "DISK_IMAGE" 4096 ""]> (Inv_Images i)) (int64 (Inv_Made i + 1)) i, meets (Some id))
  | Env.GetImage uuid => (i, meets (Inv_Images i !! uuid))
  | Env.DownloadImage uuid =>
      (i, meets (img ← Inv_Images i !! uuid; match Writer ar (imageBytes img) with Some _ => None | None => Some tt end))
  | Env.DeleteImage uuid =>
      match Inv_Images i !! uuid with
      | None => (i, meets None)
      | Some _ => (setInvImages (delete uuid (Inv_Images i)) (Inv_Made i) i, meets (Some tt))
      end
  | Env.CloneVMFromRecoveryPoint rp name =>
      let id := cloneID (Inv_Made i) in
      match Inv_RecoveryPoints i !! rp with
      | None => (i, meets None)
      | Some _ => (addVM (cloneOf id name) i, meets (Some id))
      end
  | Env.DeleteVM uuid =>
      match vmWith uuid (Inv_VMs i) with
      | None => (i, meets None)
      | Some _ => (setInvVMs (removeVM uuid (Inv_VMs i)) i, meets (Some tt))
      end
  | Env.DiscoverClusterForCBT _ => (i, meets (Some (mkCBTClusterInfo base (Inv_Token i))))
  | Env.GetChangedRegions _ jwt vm _ _ offset _ _ =>
      (i, meets (if Stale ar vm || (cookieValue jwt =s Inv_Token i) then Some (regionsPage (Inv_Regions i) offset) else None))
  | Env.ListSubnets => (i, meets (Some (Inv_Subnets i)))
  | Env.ListStorageContainers _ => (i, meets (Some (Inv_Containers i)))
  | Env.ListClusters => (i, meets (Some (Inv_Clusters i)))
  end.

(** The listings end within the fuel. *)
Definition listable (fuel : nat) (i : Inventory) : Prop :=
  (length (Inv_VMs i) < 500 * fuel)%nat ∧ (length (Inv_Subnets i) < 500 * fuel)%nat ∧ (length (Inv_Clusters i) < 500 * fuel)%nat.

(** The invariant of the inventory. *)
Definition sound (fuel : nat) (i : Inventory) : Prop := okInventory i ∧ listable fuel i.

(** The one method that makes a listing longer, and the room it needs. *)
Definition grows (q : nxcall) : bool := match q with Env.CloneVMFromRecoveryPoint _ _ => true | _ => false end.
Definition roomFor (fuel : nat) (q : nxcall) (i : Inventory) : Prop :=
  grows q = true → (S (length (Inv_VMs i)) < 500 * fuel)%nat ∧ len (Inv_VMs i) + 1 < 2 ^ 62.

Lemma changeVM_length id f vms : length (changeVM id f vms) = length vms.
Proof. induction vms as [|vm vms IH]; [done|]. simpl. destruct (_ =s id); [done|]. simpl. by rewrite IH. Qed.

Lemma changeVM_ok id state vms : okString state → Forall okVM vms → Forall okVM (changeVM id (Mock.setPowerState state) vms).
Proof.
  intros Hs. induction 1 as [|vm vms Hvm Hvms IH]; [done|]. simpl. destruct (_ =s id); constructor; try done.
  unfold okVM in *. simpl. tauto.
Qed.

Lemma removeVM_length id vms : (length (removeVM id vms) ≤ length vms)%nat.
Proof. induction vms as [|vm vms IH]; [done|]. simpl. destruct (_ =s id); simpl; lia. Qed.

Lemma removeVM_ok id vms : Forall okVM vms → Forall okVM (removeVM id vms).
Proof. induction 1 as [|vm vms Hvm Hvms IH]; [done|]. simpl. destruct (_ =s id); [done|by constructor]. Qed.

Lemma cloneOf_ok id name : okString id → okString name → okVM (cloneOf id name).
Proof. intros Hi Hn. unfold cloneOf, okVM. simpl. destruct (name =s ""); repeat split; try done; constructor. Qed.

Lemma setPower_sound fuel uuid state i : okString state → sound fuel i → sound fuel (setPower uuid state i).1.
Proof.
  intros Hs [Hok Hl]. unfold setPower. destruct (vmWith _ _); [|done]. split; [|by unfold listable; simpl; rewrite changeVM_length].
  destruct Hok. split; simpl; try done; [by apply changeVM_ok|]. unfold len in *. by rewrite changeVM_length.
Qed.

Lemma imageID_ok n : okString (imageID n).
Proof. apply plainID_okString, imageID_plain. Qed.
Lemma pointID_ok n : okString (pointID n).
Proof. apply plainID_okString, pointID_plain. Qed.

(** Every operation keeps the inventory sound. *)
Lemma promised_sound fuel base ar q i : plainCall base q → roomFor fuel q i → sound fuel i → sound fuel (promised base ar q i).1.
Proof.
  intros Hq Hroom [Hok Hl]. destruct q; simpl in Hq |- *; try by split.
  1,2: by apply setPower_sound.
  - split; [|done]. destruct Hok. split; simpl; try done. apply map_Forall_insert_2; [|done].
    destruct Hq. repeat split; simpl; try done. apply pointID_ok.
  - destruct (_ !! _); [|done]. split; [|done]. destruct Hok. split; simpl; try done. by apply map_Forall_delete.
  - split; [|done]. destruct Hok. split; simpl; try done. apply map_Forall_insert_2; [|done].
    destruct Hq as (Hn & _). repeat split; simpl; try done. apply imageID_ok.
  - destruct (_ !! _); [|done]. split; [|done]. destruct Hok. split; simpl; try done. by apply map_Forall_delete.
  - destruct (_ !! _); [|done]. destruct (Hroom eq_refl) as [Hr1 Hr2], Hq as [_ Hn]. split.
    + destruct Hok. split; simpl; try done; [|unfold len in *; rewrite length_app; simpl; split; [lia|tauto]].
      apply Forall_app. split; [done|]. constructor; [|done]. apply cloneOf_ok; [apply plainID_okString, cloneID_plain|done].
    + unfold listable in *. simpl. rewrite length_app. simpl. split; [lia|tauto].
  - destruct (vmWith _ _); [|done]. pose proof (removeVM_length uuid (Inv_VMs i)). split.
    + destruct Hok. split; simpl; try done; [by apply removeVM_ok|]. unfold len in *. split; [lia|tauto].
    + unfold listable in *. simpl. split; [lia|tauto].
Qed.

Section Refinement.
Context {K : Type} (E0 : Env K) `{P : Platform} (base : string) (c : httpClient) (fuel : nat).
Context (Hhost : HC_host c = base) (Hm : soundRetries c) (Hbase : TrimRight base "/" = base ∧ okString base ∧ base ≠ "").
Context (Hfuel : (2 ≤ fuel)%nat).

#[local] Instance mock : Env (Mock.world K) := Mock.server base E0.

(** The writer and the client's tokens. *)
Definition aroundOf (toks : tokens) (w : Mock.world K) : around :=
  mkAround (λ data, (E0 (Http (WriteOut data)) (Mock.W_Rest w)).2) (refreshes toks (Mock.W_Clock w)).

(** Time goes on; of the rest of the world only the writer of a download is touched. *)
Definition keptBy (q : nxcall) (w w' : Mock.world K) : Prop :=
  Mock.W_Rest w' = match q with
    | Env.DownloadImage uuid => (written E0 (Mock.St_Images (Mock.W_Store w) !! uuid) (Mock.W_Rest w)).1
    | _ => Mock.W_Rest w
    end ∧ Mock.W_Clock w ≤ Mock.W_Clock w'.

(** The method [q], run over the mock, keeps its promise. *)
Definition keepsPromise (q : nxcall) (toks : tokens) (w : Mock.world K) : Prop :=
  let promise := promised base (aroundOf toks w) q (inventoryOf (Mock.W_Store w)) in
  ∃ w' toks' a, yields (serve fuel c toks q) w w' (toks', a) ∧ inventoryOf (Mock.W_Store w') = promise.1 ∧ promise.2 a ∧ keptBy q w w'.

Lemma kept_refl (w : Mock.world K) : Mock.W_Rest w = Mock.W_Rest w ∧ Mock.W_Clock w ≤ Mock.W_Clock w.
Proof. split; [done|lia]. Qed.

(** A method that leaves the tokens alone. *)
Lemma yields_with_tokens {A} (m : M (Mock.world K) A) (toks : tokens) w w' a : yields m w w' a → yields (r <- m ;; ret (toks, r)) w w' (toks, a).
Proof. intros Hy. eapply yields_bind; [exact Hy|apply yields_ret]. Qed.

#[local] Ltac keeps :=
  match goal with
  | Hy : yields ?m ?w ?w' ?a |- keepsPromise _ ?toks ?w =>
      exists w', toks, a; split; [exact (yields_with_tokens _ toks _ _ _ Hy)|]
  end.

Lemma keeps_promise q toks w : sound fuel (inventoryOf (Mock.W_Store w)) → plainCall base q → keepsPromise q toks w.
Proof using Hhost Hm Hbase Hfuel.
  intros [Hok (Hvms & Hsubnets & Hclusters)] Hq. destruct q; simpl in Hq.
  - pose proof (list_vms E0 base c Hhost Hm fuel w Hok Hvms) as Hy. keeps. (split; [done|split; [done|apply kept_refl]]).
  - destruct (get_vm E0 base c Hhost Hm uuid w Hq Hok) as (a & Hy & Ha). keeps. (split; [done|split; [done|apply kept_refl]]).
  - destruct (power_off E0 base c Hhost Hm fuel uuid w Hfuel Hq) as (w' & a & Hy & [He Hk] & Ha). keeps.
    unfold promised, setPower, powered in *. change (Inv_VMs (inventoryOf (Mock.W_Store w))) with (Mock.St_VMs (Mock.W_Store w)).
    by destruct (vmWith _ _).
  - destruct (power_on E0 base c Hhost Hm fuel uuid w Hfuel Hq) as (w' & a & Hy & [He Hk] & Ha). keeps.
    unfold promised, setPower, powered in *. change (Inv_VMs (inventoryOf (Mock.W_Store w))) with (Mock.St_VMs (Mock.W_Store w)).
    by destruct (vmWith _ _).
  - destruct (power_state E0 base c Hhost Hm uuid w Hq Hok) as (a & Hy & Ha). keeps. (split; [done|split; [done|apply kept_refl]]).
  - destruct Hq. destruct (create_point E0 base c Hhost Hm fuel vmUUID name w) as (w' & a & Hy & [He Hk] & Ha); [done..|]. keeps. done.
  - destruct (get_point E0 base c Hhost Hm uuid w Hq Hok) as (a & Hy & Ha). keeps. (split; [done|split; [done|apply kept_refl]]).
  - destruct (delete_point E0 base c Hhost Hm fuel uuid w Hfuel Hq) as (w' & a & Hy & [He Hk] & Ha). keeps.
    unfold promised, withoutPoint in *. change (Inv_RecoveryPoints (inventoryOf (Mock.W_Store w))) with (Mock.St_RecoveryPoints (Mock.W_Store w)).
    by destruct (_ !! _).
  - destruct Hq as (Hn & Hd & Hc). destruct (create_image E0 base c Hhost Hm fuel name diskUUID clusterRef w) as (w' & a & Hy & [He Hk] & Ha); [done..|].
    keeps. done.
  - destruct (get_image E0 base c Hhost Hm uuid w Hq Hok) as (a & Hy & Ha). keeps. (split; [done|split; [done|apply kept_refl]]).
  - pose proof (download E0 base c Hhost Hm uuid w Hq) as Hd. unfold keepsPromise, keptBy, aroundOf. cbn [promised Writer fst snd].
    change (Inv_Images (inventoryOf (Mock.W_Store w))) with (Mock.St_Images (Mock.W_Store w)). unfold written in *.
    destruct (_ !! uuid) as [img|]; [destruct (E0 _ _) as [k err] eqn:He|]; destruct Hd as (a & Hy & Ha);
      eexists _, toks, a; (split; [exact (yields_with_tokens _ toks _ _ _ Hy)|]); (split; [done|]); (split; [|simpl; split; [done|lia]]); simpl.
    + rewrite He. simpl. destruct a as [[]|], err; done.
    + by destruct a.
  - destruct (delete_image E0 base c Hhost Hm fuel uuid w Hfuel Hq) as (w' & a & Hy & [He Hk] & Ha). keeps.
    unfold promised, withoutImage in *. change (Inv_Images (inventoryOf (Mock.W_Store w))) with (Mock.St_Images (Mock.W_Store w)).
    by destruct (_ !! _).
  - destruct Hq as [Hrp Hn]. destruct (clone_vm E0 base c Hhost Hm fuel recoveryPointUUID vmName w Hfuel Hrp Hn) as (w' & a & Hy & [He Hk] & Ha). keeps.
    unfold promised, cloned in *. change (Inv_RecoveryPoints (inventoryOf (Mock.W_Store w))) with (Mock.St_RecoveryPoints (Mock.W_Store w)).
    by destruct (_ !! _).
  - destruct (delete_vm E0 base c Hhost Hm fuel uuid w Hfuel Hq) as (w' & a & Hy & [He Hk] & Ha). keeps.
    unfold promised, withoutVM in *. change (Inv_VMs (inventoryOf (Mock.W_Store w))) with (Mock.St_VMs (Mock.W_Store w)).
    by destruct (vmWith _ _).
  - eexists w, _, _. split; [by apply discover|]. (split; [done|split; [done|apply kept_refl]]).
  - destruct Hq as (Hpe & Hvm & Hpl).
    destruct (get_regions E0 base c Hhost Hm Hbase w Hok vmUUID snapshotUUID baseSnapshotUUID offset length blockSize Hpl toks peURL jwtToken Hpe Hvm)
      as (toks' & a & Hy & Ha). eexists w, toks', a. split; [exact Hy|]. split; [done|]. split; [done|apply kept_refl].
  - pose proof (list_subnets E0 base c Hhost Hm fuel w Hok Hsubnets) as Hy. keeps. (split; [done|split; [done|apply kept_refl]]).
  - pose proof (list_containers E0 base c Hm peURL w Hq Hok) as Hy. keeps. (split; [done|split; [done|apply kept_refl]]).
  - pose proof (list_clusters E0 base c Hhost Hm fuel w Hok Hclusters) as Hy. keeps. (split; [done|split; [done|apply kept_refl]]).
Qed.

End Refinement.

(** ** The operator over the mock *)

(** The client is one of the server at [base]. *)
Definition reaches `{Platform} (base : string) (cl : NutanixClient) : Prop :=
  ∃ c, NewClient (Client_Config cl) = Ok c ∧ HC_host c = base ∧ soundRetries c.

(** An address a server can have: a text without a slash at its end. *)
Definition servable (base : string) : Prop := TrimRight base "/" = base ∧ okString base ∧ base ≠ "".

Section Operator.
Context {K : Type} (E0 : Env K) `{P : Platform} (base : string) (fuel : nat).
Context (Hbase : servable base) (Hfuel : (2 ≤ fuel)%nat).

Definition system : Type := @connected (Mock.world K).
Definition overMock : Env system := @overHttp (Mock.world K) (Mock.server base E0) P fuel.
Definition stock (w : system) : Inventory := inventoryOf (Mock.W_Store (Below w)).

#[local] Existing Instance overMock.

(** What a method call does to the whole system, and what it answers. *)
Definition keepsOver (cl : NutanixClient) (q : nxcall) (w : system) : Prop :=
  let '(w', a) := handle (Nx cl q) w in
  let promise := promised base (aroundOf E0 (Tokens w) (Below w)) q (stock w) in
  stock w' = promise.1 ∧ promise.2 a ∧ (roomFor fuel q (stock w) → sound fuel (stock w')) ∧
  Lost w' = Lost w ∧ keptBy E0 q (Below w) (Below w').

Lemma call_refines cl q w : reaches base cl → sound fuel (stock w) → plainCall base q → keepsOver cl q w.
Proof using Hbase Hfuel.
  intros (c & Hnew & Hhost & Hm) Hok Hq.
  destruct (keeps_promise E0 base c fuel Hhost Hm Hbase Hfuel q (Tokens w) (Below w) Hok Hq) as (w' & toks' & a & [tr Hy] & Hi & Ha & Hk).
  unfold keepsOver, handle, overMock, overHttp. rewrite Hnew. change (@serve _ (Mock.server base E0) P) with (@serve _ (mock E0 base) P).
  rewrite Hy. cbn. unfold stock in *. cbn. rewrite Hi. split; [done|]. split; [done|]. split; [intros; by apply promised_sound|]. by split.
Qed.

(** ** Traces and what is left on the server *)

(** The server has the image or recovery point. *)
Definition present (i : Inventory) (x : resource) : Prop :=
  match x with
  | Resources.Image u => is_Some (Inv_Images i !! u)
  | Snapshot u => is_Some (Inv_RecoveryPoints i !! u)
  end.

(** A call of the operator that the system serves: to this server, with texts that need no escapes.
    The operator clones no VMs. *)
Definition operatorCall (q : call) : Prop :=
  match q with
  | Nx cl q => reaches base cl ∧ plainCall base q ∧ grows q = false
  | Http _ => False
  | K8s _ | Obs _ | Now => True
  end.

(** What a call leaves: what was there and not deleted, and what it created. *)
Definition leaves (i : Inventory) (t : trace) (i' : Inventory) : Prop :=
  ∀ x, present i' x → (present i x ∧ x ∉ deleted t) ∨ x ∈ outstanding t.

Lemma leaves_nil i : leaves i [] i.
Proof. intros x Hx. left. split; [done|]. apply not_elem_of_nil. Qed.

Lemma leaves_app i t i' t' i'' : leaves i t i' → leaves i' t' i'' → leaves i (t ++ t') i''.
Proof.
  intros H1 H2 x Hx. rewrite outstanding_app, deleted_app, elem_of_app. destruct (H2 x Hx) as [[Hp Hd]|Ho]; [|tauto].
  destruct (H1 x Hp); tauto.
Qed.

Lemma leaves_event i e i' : (∀ x, present i' x → (present i x ∧ x ∉ deletedBy e) ∨ x ∈ createdBy e) → leaves i [e] i'.
Proof.
  intros H x Hx. unfold deleted. simpl. rewrite app_nil_r. destruct (H x Hx) as [?|Hc]; [by left|right].
  unfold outstanding. rewrite app_nil_r. apply list_elem_of_filter. split; [apply not_elem_of_nil|done].
Qed.

Lemma present_setPower uuid state i x : present (setPower uuid state i).1 x ↔ present i x.
Proof. unfold setPower. destruct (vmWith _ _); by destruct x. Qed.

(** One call that was answered as promised. *)
Lemma promised_leaves ar cl q i a : (promised base ar q i).2 a → leaves i [Ev (Nx cl q) a] (promised base ar q i).1.
Proof.
  intros Ha. apply leaves_event. intros x Hx. destruct q; simpl in Hx, Ha |- *; try (left; split; [done|apply not_elem_of_nil]).
  1,2: left; split; [by eapply present_setPower|apply not_elem_of_nil].
  - subst a. destruct x as [u|u]; [left; split; [done|apply not_elem_of_nil]|]. simpl in Hx. apply lookup_insert_is_Some in Hx as [<-|[_ Hx]].
    + right. simpl. unfold snapshotRes. destruct (String.eqb_spec (pointID (Inv_Made i)) "") as [E|_]; [|set_solver].
      by destruct (pointID_plain (Inv_Made i)).
    + left. split; [done|apply not_elem_of_nil].
  - left. destruct (Inv_RecoveryPoints i !! uuid) eqn:Hl; simpl in Hx.
    + destruct x as [u|u]; simpl in *; [split; [done|set_solver]|]. apply lookup_delete_is_Some in Hx as [Hne Hx]. split; [done|set_solver].
    + split; [done|]. destruct x as [u|u]; simpl in *; [set_solver|]. intros [= ->]%list_elem_of_singleton. rewrite Hl in Hx. by destruct Hx.
  - subst a. destruct x as [u|u]; [|left; split; [done|apply not_elem_of_nil]]. simpl in Hx. apply lookup_insert_is_Some in Hx as [<-|[_ Hx]].
    + right. set_solver.
    + left. split; [done|apply not_elem_of_nil].
  - left. destruct (Inv_Images i !! uuid) eqn:Hl; simpl in Hx.
    + destruct x as [u|u]; simpl in *; [|split; [done|set_solver]]. apply lookup_delete_is_Some in Hx as [Hne Hx]. split; [done|set_solver].
    + split; [done|]. destruct x as [u|u]; simpl in *; [|set_solver]. intros [= ->]%list_elem_of_singleton. rewrite Hl in Hx. by destruct Hx.
  - left. split; [by destruct (_ !! _), x|apply not_elem_of_nil].
  - left. split; [by destruct (vmWith _ _), x|apply not_elem_of_nil].
Qed.

(** The system keeps its invariant and leaves what it says, call by call. *)
Lemma step_leaves e w w' : operatorCall (ev_call e) → sound fuel (stock w) → handle (ev_call e) w = (w', ev_answer e) →
  sound fuel (stock w') ∧ leaves (stock w) [e] (stock w').
Proof using Hbase Hfuel.
  destruct e as [q a]. cbn [ev_call ev_answer]. intros Hq Hok Hh.
  assert (∀ q, (∀ cl n, q ≠ Nx cl n) → (∀ h, q ≠ Http h) → ∀ w1 a1, handle q w = (w1, a1) → stock w1 = stock w) as Hother.
  { intros [cl n|k|o| |h] Hn Hh' w1 a1 Hc; [by destruct (Hn cl n)|..|by destruct (Hh' h)]; revert Hc;
      unfold handle, overMock, overHttp, Mock.server, Mock.delegate, handle;
      try (match goal with |- context [E0 ?c ?k] => destruct (E0 c k) end); intros [= <- _]; done. }
  destruct q as [cl n|k|o| |h]; [|..|done].
  - destruct Hq as (Hr & Hp & Hg). pose proof (call_refines cl n w Hr Hok Hp) as Hk. unfold keepsOver in Hk. rewrite Hh in Hk.
    destruct Hk as (Hw & Ha & Hs & _). split; [apply Hs; intros Hg'; congruence|]. rewrite Hw. by apply promised_leaves.
  - rewrite (Hother (K8s k)) with (w1 := w') (a1 := a); [|done..]. split; [done|]. apply leaves_event. intros x Hx. left. split; [done|apply not_elem_of_nil].
  - rewrite (Hother (Obs o)) with (w1 := w') (a1 := a); [|done..]. split; [done|]. apply leaves_event. intros x Hx. left. split; [done|apply not_elem_of_nil].
  - rewrite (Hother Now) with (w1 := w') (a1 := a); [|done..]. split; [done|]. apply leaves_event. intros x Hx. left. split; [done|apply not_elem_of_nil].
Qed.

Lemma trace_leaves t : ∀ w w', Forall (λ e, operatorCall (ev_call e)) t → sound fuel (stock w) → follows w t w' →
  sound fuel (stock w') ∧ leaves (stock w) t (stock w').
Proof using Hbase Hfuel.
  induction t as [|e t IH]; intros w w' Ht Hok Hf; simpl in Hf; [subst w'; split; [done|apply leaves_nil]|].
  apply Forall_cons in Ht as [He Ht]. destruct Hf as (w1 & Hh & Hf). destruct (step_leaves e w w1 He Hok Hh) as [Hok1 Hl1].
  destruct (IH w1 w' Ht Hok1 Hf) as [Hok' Hl']. split; [done|]. by apply (leaves_app _ [e] (stock w1) t).
Qed.

(** ** A migration from end to end

    The life of a VM's migration, reconcile after reconcile, each starting in the world the one
    before left, with other actors in between, the migrations of other VMs among them: they may
    change the server in any way that keeps it sound, [made] being what they add. *)

Definition others (made : list resource) (w w' : system) : Prop :=
  sound fuel (stock w') ∧ ∀ x, present (stock w') x → present (stock w) x ∨ x ∈ made.

(** Other clients of the server, whose calls it serves. *)
Lemma call_others e w w' : operatorCall (ev_call e) → sound fuel (stock w) → handle (ev_call e) w = (w', ev_answer e) → others (outstanding [e]) w w'.
Proof using Hbase Hfuel.
  intros Hq Hok Hh. destruct (step_leaves e w w' Hq Hok Hh) as [Hs Hl]. split; [done|]. intros x Hx. destruct (Hl x Hx) as [[? _]|?]; auto.
Qed.

Section Life.
Context (steps cbtFuel : nat) (rec : MigrationReconciler) (t : MigrationType) (w0 : system).

Inductive lives : reconciles → list resource → VMMigrationStatus → system → Prop :=
| lives_new p : lives [] [] (newVMStatus p) w0
| lives_start R m v w ts : lives R m v w → Phase v = VMPhasePending → lives R m (setPhase VMPhasePreHook (setStarted ts v)) w
| lives_advance R m v mctx w v' b : lives R m v w → Plan_Type (Plan_Spec (Ctx_Plan mctx)) = t →
    run (advanceSingleVM steps cbtFuel rec mctx v) w = Done (v', b) →
    lives (R ++ [(true, traceOf (advanceSingleVM steps cbtFuel rec mctx v) w)]) m v' (r_world (advanceSingleVM steps cbtFuel rec mctx v w))
| lives_unstored R m v mctx w v' b : lives R m v w → Plan_Type (Plan_Spec (Ctx_Plan mctx)) = t →
    run (advanceSingleVM steps cbtFuel rec mctx v) w = Done (v', b) →
    lives (R ++ [(false, traceOf (advanceSingleVM steps cbtFuel rec mctx v) w)]) m v (r_world (advanceSingleVM steps cbtFuel rec mctx v w))
| lives_cancel R m v w ts : lives R m v w → isTerminalVMPhase (Phase v) = false →
    lives R m (setCompleted ts (setPhase VMPhaseCancelled v)) w
| lives_others R m made v w w' : lives R m v w → others made w w' → lives R (m ++ made) v w'.

Lemma lives_history R m v w : lives R m v w → history steps cbtFuel rec t R v.
Proof.
  induction 1; [apply history_new|by apply history_start|by eapply history_advance|by eapply history_unstored|by apply history_cancel|done].
Qed.

(** One more reconcile, stored or not. *)
Lemma advance_leaves R b mctx v w (m : list resource) : sound fuel (stock w) →
  (∀ x, present (stock w) x → present (stock w0) x ∨ x ∈ m ∨ x ∈ outstanding (whole R)) →
  let r := advanceSingleVM steps cbtFuel rec mctx v w in
  Forall (λ e, operatorCall (ev_call e)) (r_trace r) →
  sound fuel (stock (r_world r)) ∧
  ∀ x, present (stock (r_world r)) x → present (stock w0) x ∨ x ∈ m ∨ x ∈ outstanding (whole (R ++ [(b, r_trace r)])).
Proof using Hbase Hfuel.
  intros Hs Hl r HT. destruct (trace_leaves _ w _ HT Hs (within_follows _ _ (within_advanceLoop cbtFuel rec steps mctx v) w)) as [Hs' Hl'].
  split; [done|]. intros x Hx. unfold whole. rewrite fmap_app, concat_app. simpl. rewrite app_nil_r, outstanding_app.
  destruct (Hl' x Hx) as [[Hp Hd]|Ho]; [|by auto]. destruct (Hl x Hp) as [?|[?|?]]; unfold whole in *; auto.
Qed.

Lemma lives_leaves R m v w : sound fuel (stock w0) → lives R m v w → Forall (λ e, operatorCall (ev_call e)) (whole R) →
  sound fuel (stock w) ∧ ∀ x, present (stock w) x → present (stock w0) x ∨ x ∈ m ∨ x ∈ outstanding (whole R).
Proof using Hbase Hfuel.
  intros Hok. induction 1 as [p|R m v w ts _ IH Hp|R m v mctx w v' b _ IH Hplan Hrun|R m v mctx w v' b _ IH Hplan Hrun|R m v w ts _ IH Hp
    |R m made v w w' _ IH [Hs Ho]]; intros HT; auto.
  1,2: unfold whole in HT; rewrite fmap_app, concat_app in HT; simpl in HT; rewrite app_nil_r in HT;
    apply Forall_app in HT as [HT HT']; destruct (IH HT) as [Hs Hl]; by apply advance_leaves.
  destruct (IH HT) as [_ Hl]. split; [done|]. intros x Hx. rewrite elem_of_app. destruct (Ho x Hx) as [Hp|?]; [|by auto].
  destruct (Hl x Hp) as [?|[?|?]]; auto.
Qed.

End Life.

(** ** The query of a disk's changed regions *)

Section Query.
Context (mctx : migrationContext) (v : VMMigrationStatus) (warm : WarmMigrationStatus) (size : Z).
Context (Hreach : reaches base (Ctx_Client mctx)).
Context (Hvm : okString (ID v)) (Hplain : plainQuery (ID v) (DeltaSnapshotUUID warm) (BaseSnapshotUUID warm) 0 size CBTBlockSize).

(** The query of [deltaDisk]: discovery, then page after page. *)
Definition diskRegions (cbtFuel : nat) : M system (result (list ChangedRegion)) :=
  r <- nx (Ctx_Client mctx) (Env.DiscoverClusterForCBT (ID v)) ;;
  match r with
  | Err e => ret (Err e)
  | Ok info => cbtLoop mctx cbtFuel info v warm size 0 []
  end.

(** A call that only reads, with one answer. *)
Lemma call_reads q w (r : nxanswer q) : plainCall base q → sound fuel (stock w) → (∀ ar, (promised base ar q (stock w)).1 = stock w) →
  (∀ ar a, (promised base ar q (stock w)).2 a → a = r) → ∃ w', yields (nx (Ctx_Client mctx) q) w w' r ∧ stock w' = stock w.
Proof using Hbase Hfuel Hreach.
  intros Hq Hok Hi Hr. pose proof (call_refines (Ctx_Client mctx) q w Hreach Hok Hq) as Hk. unfold keepsOver in Hk.
  destruct (handle _ w) as [w' a] eqn:Hh. destruct Hk as (Hs & Ha & _). exists w'. rewrite <- (Hr _ a Ha). split; [|by rewrite Hs, Hi].
  by apply (yields_call (Nx _ _)).
Qed.

Lemma loop_regions n : ∀ off w, sound fuel (stock w) → (off ≤ length (Inv_Regions (stock w)))%nat →
  (length (Inv_Regions (stock w)) ≤ off + 3 * n)%nat → (0 < n)%nat →
  ∃ w', yields (cbtLoop mctx n (mkCBTClusterInfo base (Inv_Token (stock w))) v warm size (Z.of_nat off) (take off (Inv_Regions (stock w)))) w w'
    (Ok (Inv_Regions (stock w))) ∧ stock w' = stock w.
Proof using Hbase Hfuel Hreach Hvm Hplain.
  induction n as [|n IH]; intros off w Hok Hoff Hlen Hpos; [lia|]. destruct (ok_sizes _ (proj1 Hok)) as (_ & _ & _ & _ & Hl).
  destruct Hplain as (Hv & Hs & Hb & _ & Hsize & Hblock).
  edestruct (call_reads (Env.GetChangedRegions base (Inv_Token (stock w)) (ID v) (DeltaSnapshotUUID warm) (BaseSnapshotUUID warm) (Z.of_nat off) size
    CBTBlockSize) w (Ok (regionsPage (Inv_Regions (stock w)) (Z.of_nat off)))) as (w1 & Hy & Hs1); [|done|done| |].
  { split; [apply Hbase|]. split; [done|]. unfold len in Hl. repeat split; try done; lia. }
  { intros ar a. cbn [promised snd]. destruct (ok_token _ (proj1 Hok)) as (_ & _ & Hval%cookieValue_id). by rewrite Hval, String.eqb_refl, orb_true_r. }
  cbn [cbtLoop CBT_PrismElementURL CBT_JWTToken]. unfold regionsPage in Hy. rewrite Nat2Z.id in Hy.
  destruct (Z.ltb_spec (Z.of_nat off + 3) (len (Inv_Regions (stock w)))) as [Hlt|Hge]; unfold len in *.
  - destruct (IH (off + 3)%nat w1) as (w' & Hy' & Hs'); [by rewrite Hs1|rewrite Hs1; lia..|lia|]. rewrite Hs1 in Hy', Hs'.
    exists w'. split; [|done]. eapply yields_bind; [exact Hy|]. cbn [Regions_Regions Regions_NextOffset]. rewrite take_take_drop.
    by replace (Z.of_nat off + 3) with (Z.of_nat (off + 3)) by lia.
  - exists w1. split; [|done]. eapply yields_bind; [exact Hy|]. cbn [Regions_Regions Regions_NextOffset].
    rewrite take_take_drop, take_ge by lia. apply yields_ret.
Qed.

Lemma disk_regions cbtFuel w : sound fuel (stock w) → (length (Inv_Regions (stock w)) ≤ 3 * cbtFuel)%nat → (0 < cbtFuel)%nat →
  ∃ w', yields (diskRegions cbtFuel) w w' (Ok (Inv_Regions (stock w))) ∧ stock w' = stock w.
Proof using Hbase Hfuel Hreach Hvm Hplain.
  intros Hok Hlen Hpos.
  edestruct (call_reads (Env.DiscoverClusterForCBT (ID v)) w (Ok (mkCBTClusterInfo base (Inv_Token (stock w))))) as (w1 & Hy & Hs1); try done.
  destruct (loop_regions cbtFuel 0 w1) as (w' & Hy' & Hs'); [by rewrite Hs1|lia|by rewrite Hs1|done|]. rewrite Hs1 in Hy', Hs'.
  exists w'. split; [|done]. eapply yields_bind; [exact Hy|]. exact Hy'.
Qed.

End Query.

End Operator.

(** ** Theorems *)

#[local] Ltac typed := repeat constructor; try done; unfold in_int64; simpl; lia.

(** The fixtures, with any changed regions. *)
Definition fixtures (regions : list ChangedRegion) : Mock.Store :=
  Mock.NewServer [Mock.WithFixtures; Mock.WithCBTConfig (Mock.mkCBTConfig regions "mock-jwt-token-for-cbt")].

Lemma fixtures_with regions : Forall okChangedRegion regions → len regions < 2 ^ 62 → sound 2 (inventoryOf (fixtures regions)).
Proof.
  intros Hr Hl. split; [|simpl; unfold listable; simpl; lia]. split; cbn [inventoryOf Inv_VMs Inv_Subnets Inv_Containers Inv_Clusters Inv_Images
    Inv_RecoveryPoints Inv_Regions Inv_Token]; [typed|typed|typed|typed|apply map_Forall_empty|apply map_Forall_empty|done|split; [|split]; done|].
  do 4 (split; [unfold len; simpl; lia|]). done.
Qed.

Lemma fixtures_sound : sound 2 (inventoryOf Mock.mainStore).
Proof. apply (fixtures_with (Mock.CBTC_ChangedRegions Mock.DefaultCBTConfig)); [typed|unfold len; simpl; lia]. Qed.

(** C3: refinement: the HTTP client over the mock Prism server implements the inventory. For every
    one of the nineteen methods of [NutanixClient], from any sound state of the server and any tokens,
    the call returns; the inventory it leaves and the answer are the promised ones: all entities of a
    listing, the identifier of what was made, an error exactly when the entity is missing, when the
    writer of a download fails, or when a query of changed regions carries another token than the
    server's and the client has no outdated token of that VM, which it would replace. The server is
    sound again (for a clone, if there is room for one more VM in a listing), no call is lost, time
    does not run back, and of the rest of the world only the writer of a download is touched. JSON,
    paging, routing, tasks and polling are all in between. *)
Theorem client_refines_inventory {K} (E0 : Env K) `{P : Platform} base fuel cl q (w : @system K) :
  servable base → (2 ≤ fuel)%nat → reaches base cl → plainCall base q → sound fuel (stock w) →
  let '(w', a) := overMock E0 base fuel (Nx cl q) w in
  let promise := promised base (aroundOf E0 (Tokens w) (Below w)) q (stock w) in
  stock w' = promise.1 ∧ promise.2 a ∧ (roomFor fuel q (stock w) → sound fuel (stock w')) ∧
  Lost w' = Lost w ∧ keptBy E0 q (Below w) (Below w').
Proof. intros Hb Hf Hr Hq Hs. exact (call_refines E0 base fuel Hb Hf cl q w Hr Hs Hq). Qed.

(** C7: a migration leaves nothing on the server. When a VM's migration, cold or warm, of a plan whose
    type stays the same, ran over HTTP against the mock, over any number of reconciles, with other actors
    in between who may make and delete whatever they like, and the VM ends as Completed or Failed, then
    every image and recovery point the server has was there before the migration began, was made by
    others, or was made by a reconcile whose status could not be stored. *)
Theorem migration_leaves_nothing {K} (E0 : Env K) `{P : Platform} base fuel steps cbtFuel rec t (w0 w : @system K) R made v :
  servable base → (2 ≤ fuel)%nat → sound fuel (stock w0) → lives E0 base fuel steps cbtFuel rec t w0 R made v w →
  Forall (λ e, operatorCall base (ev_call e)) (whole R) → Phase v = VMPhaseCompleted ∨ Phase v = VMPhaseFailed →
  ∀ x, present (stock w) x → present (stock w0) x ∨ x ∈ made ∨ x ∈ created (unstored R).
Proof.
  intros Hb Hf Hs Hl HT Hp x Hx. destruct (lives_leaves E0 base fuel Hb Hf steps cbtFuel rec t w0 R made v w Hs Hl HT) as [_ Hleft].
  destruct (Hleft x Hx) as [?|[?|Ho]]; [by auto..|]. right. right. exact (outstanding_unstored _ _ _ _ _ _ x (lives_history _ _ _ _ _ _ _ _ _ _ _ _ Hl) Hp Ho).
Qed.

(** C17: the changed regions of a disk arrive whole. The operator's query of a disk, discovery and
    page after page through the HTTP client, returns exactly the regions the server has, in order,
    with one unit of fuel per page of three, and leaves the server as it was. *)
Theorem disk_regions_arrive {K} (E0 : Env K) `{P : Platform} base fuel mctx v warm size cbtFuel (w : @system K) :
  servable base → (2 ≤ fuel)%nat → reaches base (Ctx_Client mctx) → okString (ID v) →
  plainQuery (ID v) (DeltaSnapshotUUID warm) (BaseSnapshotUUID warm) 0 size CBTBlockSize →
  sound fuel (stock w) → (length (Inv_Regions (stock w)) ≤ 3 * cbtFuel)%nat → (0 < cbtFuel)%nat →
  run (diskRegions E0 base fuel mctx v warm size cbtFuel) w = Done (Ok (Inv_Regions (stock w))) ∧
  stock (r_world (diskRegions E0 base fuel mctx v warm size cbtFuel w)) = stock w.
Proof.
  intros Hb Hf Hr Hv Hq Hs Hl Hpos. destruct (disk_regions E0 base fuel Hb Hf mctx v warm size Hr Hv Hq cbtFuel w Hs Hl Hpos) as (w' & [tr Hy] & Hw).
  unfold run. by rewrite Hy.
Qed.

(** ** Concrete runs: the mock with its fixtures, and a cluster where every request succeeds *)

Module MockRun.

Definition base : string := "https://prism:9440".
Definition start : @system unit := mkConnected (Mock.mkWorld Mock.mainStore 0 tt) ∅ false.
#[export] Instance platform : Platform := RefClient.platform.
#[export] Instance env : Env (@system unit) := overMock serving base 2.

(** A whole cold migration of the Windows VM of the fixtures, in one advance. *)
Definition migration : M (@system unit) (VMMigrationStatus * bool) :=
  advanceSingleVM 20 5 sampleReconciler (sampleContext MigrationTypeCold) (sampleStatus VMPhasePreHook).

(** The server after a recovery point was made. *)
Definition makePoint : call := Nx sampleClient (Env.CreateRecoveryPoint "vm-uuid-002" "first").
Definition withPoint : @system unit := (env makePoint start).1.

(** Another operator makes an image; the first reconcile of the migration is not stored, the second is. *)
Definition other : call := Nx sampleClient (Env.CreateImageFromDisk "theirs" "disk-9" "cluster-1").
Definition afterOther : @system unit := (env other start).1.
Definition afterUnstored : @system unit := r_world (migration afterOther).
Definition bothReconciles : reconciles := [(false, traceOf migration afterOther); (true, traceOf migration afterUnstored)].

Lemma base_servable : servable base.
Proof. split; [reflexivity|]. split; [reflexivity|discriminate]. Qed.

Lemma sample_reaches : reaches base sampleClient.
Proof. eexists. split; [reflexivity|]. split; [reflexivity|]. unfold soundRetries. simpl. lia. Qed.

(** [operatorCall], evaluated. *)
Definition served (q : call) : bool :=
  match q with
  | Nx cl q =>
      match NewClient (Client_Config cl) with
      | Ok c => (HC_host c =s base) && (0 <=? HC_maxRetries c) && (HC_maxRetries c <? 2 ^ 63 - 1) && bool_decide (plainCall base q) && negb (grows q)
      | Err _ => false
      end
  | Http _ => false
  | K8s _ | Obs _ | Now => true
  end.

Lemma served_sound t : forallb (λ e, served (ev_call e)) t = true → Forall (λ e, operatorCall base (ev_call e)) t.
Proof.
  rewrite forallb_forall, Forall_forall. intros H e He%list_elem_of_In%H. destruct (ev_call e) as [cl q| | | |h]; try done. simpl in *.
  destruct (NewClient _) as [c|] eqn:Hc; [|done]. apply andb_true_iff in He as [He Hg%negb_true_iff]. apply andb_true_iff in He as [He Hq]. apply andb_true_iff in He as [He H2].
  apply andb_true_iff in He as [H0 H1]. apply String.eqb_eq in H0. apply Z.leb_le in H1. apply Z.ltb_lt in H2. apply bool_decide_eq_true in Hq.
  split; [|done]. by exists c.
Qed.

End MockRun.

Lemma withPoint_sound : sound 2 (stock MockRun.withPoint).
Proof.
  apply (step_leaves (P := MockRun.platform) serving MockRun.base 2 MockRun.base_servable ltac:(lia) (Ev MockRun.makePoint (Ok "rp-00000001")) MockRun.start);
    [|exact fixtures_sound|vm_compute; reflexivity].
  split; [exact MockRun.sample_reaches|by repeat split].
Qed.

Lemma client_refines_inventory_witness :
  (MockRun.env (Nx sampleClient (Env.CloneVMFromRecoveryPoint "rp-00000001" "")) MockRun.withPoint).2 = Ok "clone-00000002" ∧
  let q := Env.CloneVMFromRecoveryPoint "rp-00000001" "" in
  let '(w', a) := overMock (P := MockRun.platform) serving MockRun.base 2 (Nx sampleClient q) MockRun.withPoint in
  let promise := promised MockRun.base (aroundOf serving (Tokens MockRun.withPoint) (Below MockRun.withPoint)) q (stock MockRun.withPoint) in
  stock w' = promise.1 ∧ promise.2 a ∧ (roomFor 2 q (stock MockRun.withPoint) → sound 2 (stock w')) ∧
  Lost w' = Lost MockRun.withPoint ∧ keptBy serving q (Below MockRun.withPoint) (Below w').
Proof.
  split; [vm_compute; reflexivity|].
  apply (client_refines_inventory (P := MockRun.platform) serving MockRun.base 2 sampleClient _ MockRun.withPoint MockRun.base_servable);
    [lia|exact MockRun.sample_reaches|split; [split; [discriminate|reflexivity]|reflexivity]|exact withPoint_sound].
Defined.

Lemma migration_leaves_nothing_witness :
  created (whole MockRun.bothReconciles) =
    [Snapshot "rp-00000002"; Resources.Image "img-00000003"; Snapshot "rp-00000004"; Resources.Image "img-00000005"] ∧
  ∀ x, present (stock (r_world (MockRun.migration MockRun.afterUnstored))) x →
    present (stock MockRun.start) x ∨ x ∈ [Resources.Image "img-00000001"] ∨ x ∈ created (unstored MockRun.bothReconciles).
Proof.
  split; [vm_compute; reflexivity|].
  destruct (run MockRun.migration MockRun.afterOther) as [[v1 b1]| |] eqn:E1; [|vm_compute in E1; discriminate E1..].
  destruct (run MockRun.migration MockRun.afterUnstored) as [[v b]| |] eqn:Er; [|vm_compute in Er; discriminate Er..].
  assert (Phase v = VMPhaseCompleted) as Hp by (vm_compute in Er; injection Er as <- _; reflexivity).
  apply (migration_leaves_nothing (P := MockRun.platform) serving MockRun.base 2 20 5 sampleReconciler MigrationTypeCold MockRun.start _
    MockRun.bothReconciles _ v MockRun.base_servable);
    [lia|exact fixtures_sound| |apply MockRun.served_sound; vm_compute; reflexivity|by left].
  refine (lives_advance (P := MockRun.platform) serving MockRun.base 2 20 5 sampleReconciler MigrationTypeCold MockRun.start
    [(false, traceOf MockRun.migration MockRun.afterOther)] _ (sampleStatus VMPhasePreHook)
    (sampleContext MigrationTypeCold) MockRun.afterUnstored v b _ eq_refl Er).
  refine (lives_unstored (P := MockRun.platform) serving MockRun.base 2 20 5 sampleReconciler MigrationTypeCold MockRun.start [] _ (sampleStatus VMPhasePreHook)
    (sampleContext MigrationTypeCold) MockRun.afterOther v1 b1 _ eq_refl E1).
  refine (lives_others (P := MockRun.platform) serving MockRun.base 2 20 5 sampleReconciler MigrationTypeCold MockRun.start [] [] [Resources.Image "img-00000001"]
    (sampleStatus VMPhasePreHook) MockRun.start _ _ _).
  - exact (lives_start (P := MockRun.platform) serving MockRun.base 2 20 5 sampleReconciler MigrationTypeCold MockRun.start [] []
      (newVMStatus (mkPlanVM "vm-uuid-002" "win" [])) MockRun.start None (lives_new (P := MockRun.platform) serving MockRun.base 2 20 5 sampleReconciler
        MigrationTypeCold MockRun.start _) eq_refl).
  - apply (call_others (P := MockRun.platform) serving MockRun.base 2 MockRun.base_servable ltac:(lia) (Ev MockRun.other (Ok "img-00000001")));
      [|exact fixtures_sound|vm_compute; reflexivity].
    split; [exact MockRun.sample_reaches|]. by repeat split.
Defined.

Definition roundInProgress : WarmMigrationStatus := mkWarm 0 0 0 "rp-00000001" [] None "rp-00000003" [] "" 0 0.

(** Four regions, that is, two pages. *)
Definition fourRegions : list ChangedRegion :=
  [mkChangedRegion 0 65536; mkChangedRegion 1048576 131072; mkChangedRegion 4194304 65536; mkChangedRegion 8388608 65536].
Definition paging : @system unit := mkConnected (Mock.mkWorld (fixtures fourRegions) 0 tt) ∅ false.

Lemma disk_regions_arrive_witness :
  run (diskRegions (P := MockRun.platform) serving MockRun.base 2 (sampleContext MigrationTypeWarm) (sampleStatus VMPhasePrecopy) roundInProgress
    107374182400 2) paging = Done (Ok fourRegions).
Proof.
  refine (proj1 (disk_regions_arrive (P := MockRun.platform) serving MockRun.base 2 (sampleContext MigrationTypeWarm) (sampleStatus VMPhasePrecopy) roundInProgress
    107374182400 2 paging MockRun.base_servable _ MockRun.sample_reaches _ _ (fixtures_with fourRegions _ _) _ _));
    [lia|reflexivity| |typed|unfold len; simpl; lia|simpl; lia|lia].
  unfold plainQuery. repeat split; try reflexivity; unfold CBTBlockSize; lia.
Defined.
