(* ===== verification/Plugin.v ===== *)
(** * The kubectl plugin (cmd/kubectl-vma/main.go)

    The commands inventory, plan, migrate, status and cancel. A command is a program over the
    same environment as the controllers and the HTTP client; it returns what it printed and its
    error. The local time zone, in seconds east of UTC at a time, is a parameter. *)

From S2P Require Import Prelude GoLib NutanixTypes ApiTypes HttpTypes JsonText Codec NutanixCodec Tabwriter Env.
From S2P Require Import Client ClientOps ClientProperties ClientTheorems Disks.

(** ** Texts *)

Definition planPhaseText (p : PlanPhase) : string :=
  match p with
  | PlanPhaseNone => "" | PlanPhasePending => "Pending" | PlanPhaseValidating => "Validating"
  | PlanPhaseReady => "Ready" | PlanPhaseError => "Error"
  end.
Definition migrationPhaseText (p : MigrationPhase) : string :=
  match p with
  | MigrationPhaseNone => "" | MigrationPhasePending => "Pending" | MigrationPhaseRunning => "Running"
  | MigrationPhaseCompleted => "Completed" | MigrationPhaseFailed => "Failed" | MigrationPhaseCancelled => "Cancelled"
  end.
Definition concernCategoryText (c : ConcernCategory) : string :=
  match c with ConcernCategoryError => "Error" | ConcernCategoryWarning => "Warning" | ConcernCategoryInfo => "Info" end.

(** [strings.EqualFold] with an ASCII text. *)
Definition EqualFold (s t : string) : bool := bool_decide (foldName (chars s) = foldName (chars t)).

Definition endl : string := text [Tab.newline].

(** The lines of a table: cells with tabs between them. *)
Definition cells (r : list string) : Tab.line := chars <$> r.
Definition rows (l : list (list string)) : string := text (concat (Tab.rowText <$> (cells <$> l))).

(** ** inventory *)

Fixpoint countDataDisks (disks : list Disk) : Z :=
  match disks with
  | [] => 0
  | d :: r => (if negb (EqualFold (Disk_DeviceType d) "CDROM") then 1 else 0) + countDataDisks r
  end.

Definition vmRow (vm : VM) : list string :=
  let cpus := int64 (VM_NumSockets vm * VM_NumCoresPerSocket vm) in
  let memMiB := Z.quot (VM_MemorySizeBytes vm) (1024 * 1024) in
  [VM_ExtID vm; VM_Name vm; itoa cpus; itoa memMiB; itoa (countDataDisks (VM_Disks vm)); VM_PowerState vm].

Definition inventoryHeader : list string := ["UUID"; "NAME"; "CPU"; "MEMORY (MiB)"; "DISKS"; "POWER STATE"].

Definition printVMInventory (vms : list VM) : string := Tab.format (rows (inventoryHeader :: (vmRow <$> vms))).

(** ** plan *)

Definition formatConcerns (concerns : list Concern) : string :=
  match concerns with
  | [] => "None"
  | _ => Join ((λ c, "[" +s+ concernCategoryText (Concern_Category c) +s+ "] " +s+ Concern_Message c) <$> concerns) "; "
  end.

Definition orDash (s : string) : string := if s =s "" then "-" else s.

Definition planRow (vm : VMValidationStatus) : list string :=
  [Validation_ID vm; orDash (Validation_Name vm); formatConcerns (Validation_Concerns vm)].

Definition printPlanStatus (plan : MigrationPlan) : string :=
  "Plan:       " +s+ Meta_Name (Plan_Meta plan) +s+ endl +s+
  "Namespace:  " +s+ Meta_Namespace (Plan_Meta plan) +s+ endl +s+
  "Type:       " +s+ migrationTypeText (Plan_Type (Plan_Spec plan)) +s+ endl +s+
  "Phase:      " +s+ planPhaseText (PlanStatus_Phase (Plan_Status plan)) +s+ endl +s+
  "Provider:   " +s+ Plan_ProviderRef (Plan_Spec plan) +s+ endl +s+
  "Target NS:  " +s+ Plan_TargetNamespace (Plan_Spec plan) +s+ endl +s+
  "VMs:        " +s+ itoa (len (Plan_VMs (Plan_Spec plan))) +s+ endl +s+
  endl +s+
  match PlanStatus_VMs (Plan_Status plan) with
  | [] => ""
  | vms => Tab.format (rows (["VM UUID"; "NAME"; "CONCERNS"] :: (planRow <$> vms)))
  end.

(** ** cancel: the list after adding the requested VMs *)

(** [for _, id := range vmIDs], with the map of those already there. *)
Fixpoint addCancels (existing : gset string) (vmIDs : list string) : list string :=
  match vmIDs with
  | [] => []
  | id :: r => if bool_decide (id ∈ existing) then addCancels existing r else id :: addCancels ({[id]} ∪ existing) r
  end.

Definition setCancel (l : list string) (m : Migration) : Migration :=
  mkMigration (Mig_Meta m) (mkMigrationSpec (Mig_PlanRef (Mig_Spec m)) (Mig_Cutover (Mig_Spec m)) l) (Mig_Status m).

(** The migration that the migrate command creates. *)
Definition newMigration (name namespace planName : string) : Migration :=
  mkMigration (newMeta name namespace []) (mkMigrationSpec planName None [])
    (mkMigrationStatus MigrationPhaseNone None None [] []).

Section Commands.
Context {W : Type} `{E : Env W} `{P : Platform} (zone : Z → Z).

Definition formatTime (t : Z) : string := Rfc3339.Format (zone t) t.

(** ** status *)

Definition statusRow (vm : VMMigrationStatus) : list string :=
  [ID vm; orDash (Name vm); phaseText (Phase vm);
   match Started vm with Some t => formatTime t | None => "-" end;
   match Completed vm with Some t => formatTime t | None => "-" end;
   orDash (Error vm)].

Definition printMigrationStatus (m : Migration) : string :=
  "Migration:  " +s+ Meta_Name (Mig_Meta m) +s+ endl +s+
  "Namespace:  " +s+ Meta_Namespace (Mig_Meta m) +s+ endl +s+
  "Plan:       " +s+ Mig_PlanRef (Mig_Spec m) +s+ endl +s+
  "Phase:      " +s+ migrationPhaseText (Mig_Phase (Mig_Status m)) +s+ endl +s+
  match Mig_Started (Mig_Status m) with Some t => "Started:    " +s+ formatTime t +s+ endl | None => "" end +s+
  match Mig_Completed (Mig_Status m) with Some t => "Completed:  " +s+ formatTime t +s+ endl | None => "" end +s+
  endl +s+
  match Mig_VMs (Mig_Status m) with
  | [] => ""
  | vms => Tab.format (rows (["VM UUID"; "NAME"; "PHASE"; "STARTED"; "COMPLETED"; "ERROR"] :: (statusRow <$> vms)))
  end.

(** ** The commands *)

(** What was printed, and the error. *)
Definition cmd := M W (string * result unit).

Definition failWith (e : error) : cmd := ret ("", Err e).

Definition runInventory (fuel : nat) (namespace providerName : string) : cmd :=
  r <- k8s (Get KProvider (mkNN namespace providerName)) ;;
  match r with
  | Err e => failWith (wrapErr ("getting provider " +s+ quoted providerName) e)
  | Ok provider =>
  let secretRef := Provider_SecretRef (Provider_Spec provider) in
  r <- k8s (Get KSecret (mkNN namespace secretRef)) ;;
  match r with
  | Err e => failWith (wrapErr ("getting secret " +s+ quoted secretRef) e)
  | Ok secret =>
  match NewClient (providerConfig (Provider_URL (Provider_Spec provider)) (default "" (Secret_Data secret !! "username"))
          (default "" (Secret_Data secret !! "password")) (Provider_InsecureSkipVerify (Provider_Spec provider))) with
  | Err e => failWith (wrapErr "creating Nutanix client" e)
  | Ok nxClient =>
  r <- ClientOps.ListVMs fuel nxClient ;;
  match r with
  | Err e => failWith (wrapErr "listing VMs" e)
  | Ok vms => ret (printVMInventory vms, Ok tt)
  end end end end.

Definition runPlan (namespace planName : string) : cmd :=
  r <- k8s (Get KPlan (mkNN namespace planName)) ;;
  match r with
  | Err e => failWith (wrapErr ("getting plan " +s+ quoted planName) e)
  | Ok plan => ret (printPlanStatus plan, Ok tt)
  end.

Definition runMigrate (namespace planName : string) : cmd :=
  r <- k8s (Get KPlan (mkNN namespace planName)) ;;
  match r with
  | Err e => failWith (wrapErr ("getting plan " +s+ quoted planName) e)
  | Ok plan =>
      if negb (bool_decide (PlanStatus_Phase (Plan_Status plan) = PlanPhaseReady)) then
        failWith (newErr ("plan " +s+ quoted planName +s+ " is not Ready (current phase: " +s+
          planPhaseText (PlanStatus_Phase (Plan_Status plan)) +s+ ")"))
      else
        t <- now ;;
        let migrationName := planName +s+ "-" +s+ itoa (t / Duration.Second) in
        r <- k8s (Create KMigration (newMigration migrationName namespace planName)) ;;
        match r with
        | Err e => failWith (wrapErr "creating migration" e)
        | Ok _ => ret ("Migration " +s+ quoted migrationName +s+ " created from plan " +s+ quoted planName +s+ endl, Ok tt)
        end
  end.

Definition runStatus (namespace migrationName : string) : cmd :=
  r <- k8s (Get KMigration (mkNN namespace migrationName)) ;;
  match r with
  | Err e => failWith (wrapErr ("getting migration " +s+ quoted migrationName) e)
  | Ok m => ret (printMigrationStatus m, Ok tt)
  end.

Definition runCancel (namespace migrationName : string) (vmIDs : list string) : cmd :=
  r <- k8s (Get KMigration (mkNN namespace migrationName)) ;;
  match r with
  | Err e => failWith (wrapErr ("getting migration " +s+ quoted migrationName) e)
  | Ok m =>
      let cancel := Mig_Cancel (Mig_Spec m) in
      let added := addCancels (list_to_set cancel) vmIDs in
      match added with
      | [] => ret ("All specified VMs are already in the cancel list" +s+ endl, Ok tt)
      | _ =>
          r <- k8s (Update KMigration (setCancel (cancel ++ added) m)) ;;
          match r with
          | Err e => failWith (wrapErr "updating migration" e)
          | Ok _ =>
              ret ("Cancellation requested for " +s+ itoa (len added) +s+ " VM(s) in migration " +s+ quoted migrationName +s+ endl, Ok tt)
          end
      end
  end.

(** ** The command line

    cobra takes the arguments apart, checks their number and calls [RunE]; the errors of the
    Kubernetes client libraries are parameters. *)

Inductive clientStep := LoadConfig | AddToScheme | NewKubeClient | NewClientset.

Definition buildClients (attempt : clientStep → option error) : result unit :=
  match attempt LoadConfig with
  | Some e => Err (wrapErr "loading kubeconfig" e)
  | None =>
  match attempt AddToScheme with
  | Some e => Err (wrapErr "adding VMA scheme" e)
  | None =>
  match attempt NewKubeClient with
  | Some e => Err (wrapErr "creating client" e)
  | None =>
  match attempt NewClientset with
  | Some e => Err (wrapErr "creating clientset" e)
  | None => Ok tt
  end end end end.

(** [cobra.ExactArgs] and [cobra.MinimumNArgs] *)
Inductive PositionalArgs := ExactArgs (n : nat) | MinimumNArgs (n : nat).

Definition accepts (rule : PositionalArgs) (args : list string) : bool :=
  match rule with ExactArgs n => (length args =? n)%nat | MinimumNArgs n => (n <=? length args)%nat end.

(** A command with what it does in a namespace with its arguments. *)
Record Command := mkCommand { Cmd_Use : string; Cmd_Args : PositionalArgs; Cmd_RunE : string → list string → cmd }.

(** The beginning of every [RunE]: the clients, then the first argument. *)
Definition withClients (attempt : clientStep → option error) (run : string → list string → cmd) (args : list string) : cmd :=
  match buildClients attempt with
  | Err e => failWith e
  | Ok _ => match args with arg :: rest => run arg rest | [] => panic end
  end.

Definition newInventoryCmd (fuel : nat) (attempt : clientStep → option error) : Command :=
  mkCommand "inventory <provider-name>" (ExactArgs 1) (λ ns, withClients attempt (λ arg _, runInventory fuel ns arg)).
Definition newPlanCmd (attempt : clientStep → option error) : Command :=
  mkCommand "plan <plan-name>" (ExactArgs 1) (λ ns, withClients attempt (λ arg _, runPlan ns arg)).
Definition newMigrateCmd (attempt : clientStep → option error) : Command :=
  mkCommand "migrate <plan-name>" (ExactArgs 1) (λ ns, withClients attempt (λ arg _, runMigrate ns arg)).
Definition newStatusCmd (attempt : clientStep → option error) : Command :=
  mkCommand "status <migration-name>" (ExactArgs 1) (λ ns, withClients attempt (λ arg _, runStatus ns arg)).
Definition newCancelCmd (attempt : clientStep → option error) : Command :=
  mkCommand "cancel <migration-name> <vm-uuid> [<vm-uuid>...]" (MinimumNArgs 2) (λ ns, withClients attempt (λ arg rest, runCancel ns arg rest)).

(** The commands of the root, and the default of its namespace flag. *)
Definition newRootCmd (fuel : nat) (attempt : clientStep → option error) : list Command :=
  [newInventoryCmd fuel attempt; newPlanCmd attempt; newMigrateCmd attempt; newStatusCmd attempt; newCancelCmd attempt].
Definition defaultNamespace : string := "default".

(** Arguments that cobra lets through never make a command index past their end, and a cancel names at least one VM. *)
Lemma accepted_arguments fuel attempt c args : c ∈ newRootCmd fuel attempt → accepts (Cmd_Args c) args = true →
  ∃ arg rest, args = arg :: rest ∧ (Cmd_Use c = Cmd_Use (newCancelCmd attempt) → rest ≠ []).
Proof.
  intros Hc Ha. unfold newRootCmd in Hc. rewrite !elem_of_cons, elem_of_nil in Hc.
  destruct args as [|arg rest]; [destruct_or! Hc; by subst|]. exists arg, rest. split; [done|].
  destruct_or! Hc; subst; try done. intros _ ->. done.
Qed.

End Commands.

(** ** Lemmas *)

Lemma addCancels_spec ids : ∀ existing,
  addCancels existing ids `sublist_of` ids ∧ NoDup (addCancels existing ids) ∧
  ∀ id, id ∈ addCancels existing ids ↔ id ∈ ids ∧ id ∉ existing.
Proof.
  induction ids as [|x ids IH]; intros existing; simpl.
  { split; [constructor|]. split; [constructor|]. set_solver. }
  case_bool_decide as Hx.
  - destruct (IH existing) as (Hs & Hn & He). split; [by constructor|]. split; [done|]. intros id. rewrite He. set_solver.
  - destruct (IH ({[x]} ∪ existing)) as (Hs & Hn & He). split; [by constructor|]. split.
    + constructor; [|done]. rewrite He. set_solver.
    + intros id. rewrite elem_of_cons, He. destruct (decide (id = x)); set_solver.
Qed.

(** The byte starts none of the runes that fold or capitalise to an ASCII letter. *)
Definition plain (c : ascii) : bool :=
  negb (Ascii.eqb c "196") && negb (Ascii.eqb c "197") && negb (Ascii.eqb c "226").

Lemma fold_plain c l : plain c = true → foldName (c :: l) = upper_byte c :: foldName l.
Proof.
  unfold plain. intros H. breflect. repeat match goal with E : Ascii.eqb c _ = false |- _ => apply Ascii.eqb_neq in E end.
  destruct c as [[] [] [] [] [] [] [] []]; done.
Qed.

Lemma upper_plain c l : plain c = true → toUpperL (c :: l) = upper_byte c :: toUpperL l.
Proof.
  unfold plain. intros H. breflect. repeat match goal with E : Ascii.eqb c _ = false |- _ => apply Ascii.eqb_neq in E end.
  destruct c as [[] [] [] [] [] [] [] []]; done.
Qed.

(** Is the letter one of those that only ASCII letters fold and capitalise to? *)
Definition ordinary (c : ascii) : bool :=
  (code c <? 128) && negb (Ascii.eqb c "S") && negb (Ascii.eqb c "K") && negb (Ascii.eqb c "I").

Lemma fold_special c l t r : plain c = false → ordinary t = true → foldName (c :: l) ≠ t :: r ∧ toUpperL (c :: l) ≠ t :: r.
Proof.
  intros Hc Ht. assert (c = "196"%char ∨ c = "197"%char ∨ c = "226"%char) as Hc'.
  { unfold plain in Hc. destruct (Ascii.eqb_spec c "196"), (Ascii.eqb_spec c "197"), (Ascii.eqb_spec c "226"); auto; done. }
  assert (∀ x k, ordinary x = false → x :: k ≠ t :: r) as Hne by (intros x k Hx [= -> ->]; congruence).
  destruct Hc' as [->|[->| ->]]; split; simpl; repeat case_match; apply Hne; done.
Qed.

(** Comparing without regard to case and comparing in capitals agree on such texts. *)
Lemma fold_upper t : forallb ordinary t = true → ∀ l, foldName l = t ↔ toUpperL l = t.
Proof.
  induction t as [|c t IH]; intros Ht l.
  - destruct l as [|x l]; [done|]. split; intros H; exfalso; revert H; simpl; repeat case_match; done.
  - simpl in Ht. apply andb_true_iff in Ht as [Hc Ht]. destruct l as [|x l]; [done|].
    destruct (plain x) eqn:Hx; [|destruct (fold_special x l c t Hx Hc); tauto].
    rewrite fold_plain, upper_plain by done. split; intros [= -> Hl]; f_equal; by apply IH.
Qed.

Lemma EqualFold_isCDROM d : EqualFold (Disk_DeviceType d) "CDROM" = isCDROM d.
Proof.
  unfold EqualFold, isCDROM. change (foldName (chars "CDROM")) with (chars "CDROM").
  pose proof (fold_upper (chars "CDROM") ltac:(vm_compute; reflexivity) (chars (Disk_DeviceType d))) as H.
  case_bool_decide as Hf; symmetry.
  - apply String.eqb_eq. unfold ToUpper. apply H in Hf. by rewrite Hf.
  - apply String.eqb_neq. unfold ToUpper. intros Hu. apply Hf, H. by rewrite <- (chars_text (toUpperL _)), Hu.
Qed.

(** The plugin counts the disks that a migration would copy. *)
Lemma countDataDisks_data disks : countDataDisks disks = len (filterDataDisks disks).
Proof.
  induction disks as [|d disks IH]; [done|]. simpl. rewrite EqualFold_isCDROM, IH. unfold len. destruct (isCDROM d); simpl; lia.
Qed.

(** The text of a field is one cell. *)
Definition oneCell (s : string) : bool := Tab.clean (chars s).

Lemma clean_digits l : Forall (λ c, is_digit c = true) l → Tab.clean l = true.
Proof.
  induction 1 as [|c l Hc _ IH]; [done|]. simpl. rewrite IH, andb_true_r. unfold Tab.special.
  destruct c as [[] [] [] [] [] [] [] []]; try done; discriminate Hc.
Qed.

Lemma itoa_oneCell z : oneCell (itoa z) = true.
Proof.
  unfold oneCell, itoa. destruct z as [|p|p]; [done| |]; simpl; apply clean_digits, uint_digits.
Qed.

Definition vmCells (vm : VM) : bool := oneCell (VM_ExtID vm) && oneCell (VM_Name vm) && oneCell (VM_PowerState vm).

Lemma vmRow_cells vm : vmCells vm = true →
  length (cells (vmRow vm)) = 6%nat ∧ Forall (λ c, Tab.clean c = true) (cells (vmRow vm)).
Proof.
  unfold vmCells. intros H. breflect. split; [done|]. unfold vmRow, cells. csimpl. repeat constructor; try done; apply itoa_oneCell.
Qed.

Lemma inventory_table vms : Forall (λ v, vmCells v = true) vms →
  printVMInventory vms = text (Tab.table (cells <$> (inventoryHeader :: (vmRow <$> vms)))).
Proof.
  intros H. unfold printVMInventory, rows. apply (Tab.format_table 5). rewrite Forall_fmap. constructor.
  - split; [done|]. by repeat constructor.
  - rewrite Forall_fmap. eapply Forall_impl; [exact H|]. intros v Hv. by apply vmRow_cells.
Qed.

(** ** Properties *)

Section PluginTheorems.
Context {W : Type} `{E : Env W} `{P : Platform}.

(** C29: The cancel command reads the migration and writes it back at most once. The cancel list it
    writes keeps every entry and adds, once each and in the order given, exactly the requested VMs
    that were not there; the rest of the migration is as it was read. When all were there, or the
    migration could not be read, nothing is written; an error of the API server is reported. *)
Theorem cancel_command_exact namespace name vmIDs :
  spec (runCancel namespace name vmIDs) (total (λ t x,
    let get a := Ev (K8s (Get KMigration (mkNN namespace name))) a in
    (∃ e, t = [get (Err e)] ∧ x = ("", Err (wrapErr ("getting migration " +s+ quoted name) e))) ∨
    (∃ m, t = [get (Ok m)] ∧ (∀ id, id ∈ vmIDs → id ∈ Mig_Cancel (Mig_Spec m)) ∧ x.2 = Ok tt) ∨
    (∃ m added a, t = [get (Ok m); Ev (K8s (Update KMigration (setCancel (Mig_Cancel (Mig_Spec m) ++ added) m))) a] ∧
       added ≠ [] ∧ NoDup added ∧ added `sublist_of` vmIDs ∧
       (∀ id, id ∈ added ↔ id ∈ vmIDs ∧ id ∉ Mig_Cancel (Mig_Spec m)) ∧ is_ok x.2 = is_ok a))).
Proof.
  unfold runCancel. spec_step. destruct a as [m|e].
  2:{ apply spec_ret. left. eauto. }
  destruct (addCancels_spec vmIDs (list_to_set (Mig_Cancel (Mig_Spec m)))) as (Hs & Hn & He).
  destruct (addCancels _ vmIDs) as [|id0 added] eqn:Ea.
  - apply spec_ret. right. left. exists m. split; [done|]. split; [|done]. intros id Hid.
    destruct (decide (id ∈ Mig_Cancel (Mig_Spec m))) as [|Hc]; [done|]. exfalso. apply (not_elem_of_nil id), He.
    split; [done|]. by rewrite elem_of_list_to_set.
  - assert (∀ id, id ∈ id0 :: added ↔ id ∈ vmIDs ∧ id ∉ Mig_Cancel (Mig_Spec m)) as He'
      by (intros id; by rewrite He, elem_of_list_to_set).
    spec_step. destruct a as [[]|e]; apply spec_ret; right; right; do 3 eexists; (split; [reflexivity|done]).
Qed.

(** The migrate command creates a migration only for a plan it has just read as Ready: one
    object, named after the plan and the time in seconds, that refers to the plan and asks for
    no cancellation; nothing else is written, and without the object an error is reported. *)
Theorem migrate_command_exact namespace planName :
  spec (runMigrate namespace planName) (total (λ t x,
    (∃ a, t = [Ev (K8s (Get KPlan (mkNN namespace planName))) a] ∧ is_ok x.2 = false ∧
       ∀ plan, a = Ok plan → PlanStatus_Phase (Plan_Status plan) ≠ PlanPhaseReady) ∨
    (∃ plan now m a, t = [Ev (K8s (Get KPlan (mkNN namespace planName))) (Ok plan); Ev Now now; Ev (K8s (Create KMigration m)) a] ∧
       PlanStatus_Phase (Plan_Status plan) = PlanPhaseReady ∧
       Meta_Name (Mig_Meta m) = planName +s+ "-" +s+ itoa (now / Duration.Second) ∧ Meta_Namespace (Mig_Meta m) = namespace ∧
       Mig_Spec m = mkMigrationSpec planName None [] ∧ Mig_VMs (Mig_Status m) = [] ∧ is_ok x.2 = is_ok a))).
Proof.
  unfold runMigrate. spec_step. destruct a as [plan|e].
  2:{ apply spec_ret. left. by exists (Err e). }
  case_bool_decide as Hp; cbn [negb].
  - spec_step. spec_step. rename a into now. destruct a0 as [[]|e]; apply spec_ret; right; do 4 eexists; (split; [reflexivity|done]).
  - apply spec_ret. left. exists (Ok plan). split; [done|]. split; [done|]. by intros plan' [= <-].
Qed.

(** A row of the inventory, with the disks a migration would copy. *)
Definition referenceRow (vm : VM) : list string :=
  [VM_ExtID vm; VM_Name vm; itoa (int64 (VM_NumSockets vm * VM_NumCoresPerSocket vm)); itoa (Z.quot (VM_MemorySizeBytes vm) 1048576);
   itoa (len (filterDataDisks (VM_Disks vm))); VM_PowerState vm].

(** Something went wrong: a read of the cluster or a request to Prism failed, or the client could
    not be made. *)
Definition failedRead (e : event) : bool :=
  match ev_call e as c return answer c → bool with
  | K8s q => match q return k8sanswer q → bool with Get _ _ => λ r, negb (is_ok r) | _ => λ _, false end
  | _ => λ _, false
  end (ev_answer e).
Definition wentWrong (t : trace) : Prop :=
  existsb failedRead t = true ∨ (∃ config e, NewClient config = Err e) ∨ faulty t = true.


End PluginTheorems.

(** A cluster and its Prism: every host serves the same VMs. *)
Module RefInventory.

(** The number after the last equals sign. *)
Definition lastNumber (url : string) : option Z :=
  atoi (text (rev (Tab.takeWhile (λ c, negb (Ascii.eqb c "=")) (rev (chars url))))).

Definition httpAnswer (vms : list VM) (h : httpcall) : httpanswer h :=
  match h with
  | NewRequest _ _ | WaitTimer _ | WriteOut _ => None
  | Do _ req => match lastNumber (Req_URL req) with
                | Some k => RefPrism.reply (text (print (encList encVM (pageOf 500 vms k 0))))
                | None => mkReply 0 (Err (newErr "no such page"))
                end
  | Sleep _ => tt
  end.

Definition provider : NutanixProvider :=
  mkNutanixProvider (newMeta "prov" "default" []) (mkNutanixProviderSpec "https://prism:9440" "creds" "" false)
    (mkNutanixProviderStatus ProviderPhaseConnected 0 []).

Definition read (k : kind) (key : NamespacedName) : result (obj k) :=
  match k return result (obj k) with
  | KProvider => Ok provider
  | KSecret => Ok (mkSecret (newMeta "creds" "default" []) (<["username" := "admin"]> {["password" := "secret"]}))
  | _ => Err RefEnv.notFound
  end.

Definition env (vms : list VM) : Env unit := λ call w,
  match call return unit * answer call with
  | Http h => (w, httpAnswer vms h)
  | call => (w, RefEnv.answers RefEnv.nxRefuse read (Ok tt) call)
  end.

Lemma lastNumber_page c path k : 0 ≤ k → lastNumber (pageURL c path k) = Some k.
Proof.
  intros Hk. unfold lastNumber. rewrite RefPrism.pageURL_prefix.
  assert (∃ front, chars (HC_host c +s+ path +s+ "?$top=" +s+ itoa pageSize +s+ "&$skip=") = front ++ ["="%char]) as [front Hf].
  { exists (chars (HC_host c +s+ path +s+ "?$top=" +s+ itoa pageSize +s+ "&$skip")). rewrite !chars_app, <- !app_assoc. done. }
  rewrite chars_app, Hf, !rev_app_distr. cbn [rev app]. rewrite (Tab.takeWhile_all _ (rev (chars (itoa k)))) by first [done|
    apply Forall_rev; eapply Forall_impl; [by apply itoa_digits|]; intros x Hx; destruct x as [[] [] [] [] [] [] [] []]; try done; discriminate Hx].
  by rewrite rev_involutive, text_chars, atoi_itoa.
Qed.

Lemma env_serves vms c : @servesPages unit (env vms) VM c vmBasePath 500 encVM vms.
Proof.
  intros k resp Hk (req & rep & _ & Hurl & _ & [w Hg] & Hres & _). simpl in Hg.
  rewrite Hurl, lastNumber_page in Hg by done. rewrite Hg in Hres. injection Hres as <-. simpl. split; [done|]. by exists 0.
Qed.

End RefInventory.

